(** * Delhi Metro ticket booking: journey lifecycle and fare settlement

    A shallow embedding of the gate-facing part of the system:
    - the schema of [database/init/01_schema.sql] (tables as lists of rows,
      CHECK / FOREIGN KEY / PRIMARY KEY constraints as checks run by every
      INSERT and UPDATE),
    - the PL/pgSQL functions and triggers of [database/init/02_indexes.sql]
      ([get_current_fare], [process_card_recharge], [update_card_last_used],
      [mark_ticket_used], [complete_journey_fare], [recharge_smart_card],
      [start_journey], [complete_journey]),
    - the Express handlers [journeyEntry] and [journeyExit] of
      [backend/src/controllers/journey.controller.js] and [rechargeCard] of
      the card controller, with the [errorHandler] middleware,
    - the booking of a ticket: the trigger [validate_booking_fare], the
      function [create_ticket_booking] and the handler [bookTicket],
    - the handlers [getFare] of the station controller and [registerCard]
      and [getBalance] of the card controller,
    - requests in flight together: the statements of two handlers in any
      order, and for a card exit the statements of [complete_journey] and of
      its trigger as well, under READ COMMITTED with row locks,
    - the values of a request as they are sent: an id as a number or a
      string of digits, the amount of a recharge as a decimal numeral,
    - the constraints of the schema as invariants, and the accounts of the
      cards: what every sequence of requests keeps.

    Conventions.
    - DECIMAL(10,2) amounts are integers counting hundredths of a rupee, so
      10.00 is [1000] and 10000.00 is [1000000].
    - TIMESTAMP values are integers: microseconds, counted from 2000-01-01
      as PostgreSQL stores them (the session's time zone is taken to be
      UTC); DATE values are days.
    - A JavaScript number the handlers compute with is a binary64 number
      ([SpecFloat]); one they only pass on from a DECIMAL(10,2) column is
      kept in hundredths.
    - A nullable column is an [option]; [None] is SQL NULL.
    - A statement that raises leaves the database as it was (PostgreSQL
      aborts the statement's transaction): a function of the model returns
      either an error or its result with the new database.
    - The audit triggers ([log_insert], [log_update], [log_delete]) only
      append to the [Logs] table, which nothing modelled here reads; the
      table is left out. *)

From Stdlib Require Import ZArith List Bool Ascii String DecimalString Lia.
From Stdlib Require SpecFloat.
Import ListNotations.
Local Open Scope string_scope.
Local Open Scope list_scope.
Local Open Scope Z_scope.

Set Implicit Arguments.

(* ================================================================== *)
(** * Schema ([01_schema.sql]) *)
(* ================================================================== *)

(** [CREATE TYPE journey_type AS ENUM ('Ticket', 'Card')] *)
Inductive journey_type := JT_Ticket | JT_Card.

(** [CREATE TYPE journey_status AS ENUM ('Active', 'Completed', 'Cancelled')] *)
Inductive journey_status := Active | Completed | Cancelled.

(** [CREATE TYPE transaction_type AS ENUM ('Booking', 'Recharge')] *)
Inductive transaction_type := TT_Booking | TT_Recharge.

(** [CREATE TYPE payment_status AS ENUM ('Success', 'Failed', 'Pending')] *)
Inductive payment_status := Success | Failed | Pending.

Definition journey_type_eqb (a b : journey_type) : bool :=
  match a, b with
  | JT_Ticket, JT_Ticket | JT_Card, JT_Card => true
  | _, _ => false
  end.

Definition journey_status_eqb (a b : journey_status) : bool :=
  match a, b with
  | Active, Active | Completed, Completed | Cancelled, Cancelled => true
  | _, _ => false
  end.

(** Table [SmartCard]. *)
Record SmartCard := {
  c_CardID : Z;
  c_UserID : option Z;
  c_Balance : Z;
  c_IsActive : bool;
  c_LastUsedAt : option Z
}.

(** Table [Station]. *)
Record Station := {
  s_StationID : Z;
  s_StationName : string;
  s_IsOperational : bool
}.

(** Table [Transaction]. *)
Record Transaction := {
  x_TransactionID : Z;
  x_UserID : Z;
  x_Amount : Z;
  x_TransactionType : transaction_type
}.

(** Table [Booking]. *)
Record Booking := {
  b_BookingID : Z;
  b_TransactionID : Z;
  b_SourceStationID : Z;
  b_DestinationStationID : Z;
  b_TotalFare : Z
}.

(** Table [Recharge]. *)
Record Recharge := {
  r_RechargeID : Z;
  r_TransactionID : Z;
  r_CardID : Z
}.

(** Table [Payment]. *)
Record Payment := {
  p_PaymentID : Z;
  p_TransactionID : Z;
  p_PaymentMethod : string;
  p_Status : payment_status
}.

(** Table [Ticket]. *)
Record Ticket := {
  t_TicketID : Z;
  t_BookingID : Z;
  t_ValidFrom : Z;
  t_ValidUntil : Z;
  t_IsUsed : bool;
  t_UsedAt : option Z
}.

(** Table [Journey]. *)
Record Journey := {
  j_JourneyID : Z;
  j_JourneyType : journey_type;
  j_TicketID : option Z;
  j_CardID : option Z;
  j_EntryStationID : Z;
  j_EntryTime : Z;
  j_ExitStationID : option Z;
  j_ExitTime : option Z;
  j_FareDeducted : option Z;
  j_Status : journey_status
}.

(** Table [Fare].  [EffectiveFrom] has a default and no NOT NULL. *)
Record Fare := {
  f_FareID : Z;
  f_SourceStationID : Z;
  f_DestinationStationID : Z;
  f_FareAmount : Z;
  f_EffectiveFrom : option Z;
  f_EffectiveUntil : option Z
}.

(** The database: one list of rows per table; of ["User"] only the keys. *)
Record Database := {
  db_User : list Z;
  db_SmartCard : list SmartCard;
  db_Station : list Station;
  db_Transaction : list Transaction;
  db_Booking : list Booking;
  db_Recharge : list Recharge;
  db_Payment : list Payment;
  db_Ticket : list Ticket;
  db_Journey : list Journey;
  db_Fare : list Fare
}.

(** What one call reads from outside the tables: the clock of the Node
    process ([new Date()]), the clock of the database session, and the values
    the SERIAL sequences hand out for the rows the call inserts. *)
Record Env := {
  js_now : Z;
  CURRENT_TIMESTAMP : Z;
  CURRENT_DATE : Z;
  nextval_journey : Z;
  nextval_transaction : Z;
  nextval_recharge : Z;
  nextval_payment : Z;
  nextval_card : Z
}.

(** [INTERVAL '1 second'] in clock ticks (microseconds). *)
Definition one_second : Z := 1000000.

(* ================================================================== *)
(** * Errors of a statement *)
(* ================================================================== *)

(** What a statement can raise.  [raise_exception] carries the format string
    of the [RAISE EXCEPTION] it comes from (its arguments are not kept);
    [datetime_field_overflow] is SQLSTATE 22008, 'timestamp out of range',
    and [numeric_value_out_of_range] is SQLSTATE 22003, 'numeric field
    overflow'; the others carry the name of the violated constraint. *)
Inductive pg_error :=
| raise_exception (format : string)
| check_violation (constraint : string)
| foreign_key_violation (constraint : string)
| unique_violation (constraint : string)
| not_null_violation (column : string)
| datetime_field_overflow
| numeric_value_out_of_range.

Definition pg (A : Type) : Type := (pg_error + A)%type.

Definition pg_bind {A B} (c : pg A) (k : A -> pg B) : pg B :=
  match c with
  | inl e => inl e
  | inr a => k a
  end.

Notation "x <- c ;; k" := (pg_bind c (fun x => k))
  (at level 61, c at next level, right associativity).

Definition ok {A} (a : A) : pg A := inr a.
Definition throw {A} (e : pg_error) : pg A := inl e.

(** A constraint: raise [e] unless [b]. *)
Definition require (b : bool) (e : pg_error) : pg unit :=
  if b then ok tt else throw e.

(* ================================================================== *)
(** * [get_current_fare] *)
(* ================================================================== *)

(** The WHERE clause of [get_current_fare]; a comparison with NULL is not
    true, so a row whose [EffectiveFrom] is NULL is never selected. *)
Definition fare_where (today src dst : Z) (f : Fare) : bool :=
  (f_SourceStationID f =? src)
  && (f_DestinationStationID f =? dst)
  && match f_EffectiveFrom f with
     | Some d => d <=? today
     | None => false
     end
  && match f_EffectiveUntil f with
     | None => true
     | Some u => u >? today
     end.

(** Key of [ORDER BY EffectiveFrom DESC]: NULL sorts first in descending
    order. *)
Definition date_ltb (a b : option Z) : bool :=
  match a, b with
  | Some _, None => true
  | Some x, Some y => x <? y
  | None, _ => false
  end.

(** [ORDER BY EffectiveFrom DESC LIMIT 1]: a row with the greatest key; among
    equal keys the one met first. *)
Fixpoint order_by_EffectiveFrom_desc_limit_1 (rows : list Fare) : option Fare :=
  match rows with
  | [] => None
  | f :: rest =>
      match order_by_EffectiveFrom_desc_limit_1 rest with
      | Some g =>
          if date_ltb (f_EffectiveFrom f) (f_EffectiveFrom g)
          then Some g else Some f
      | None => Some f
      end
  end.

(** [get_current_fare(p_source_station_id, p_destination_station_id)]:
    [RETURN COALESCE(v_fare, 0.00)]. *)
Definition get_current_fare (db : Database) (today src dst : Z) : Z :=
  match order_by_EffectiveFrom_desc_limit_1
          (filter (fare_where today src dst) (db_Fare db)) with
  | Some f => f_FareAmount f
  | None => 0
  end.

(* ================================================================== *)
(** * Writing to the tables *)
(* ================================================================== *)

Definition with_SmartCard (db : Database) (rows : list SmartCard) : Database :=
  {| db_User := db_User db; db_SmartCard := rows; db_Station := db_Station db;
     db_Transaction := db_Transaction db; db_Booking := db_Booking db;
     db_Recharge := db_Recharge db; db_Payment := db_Payment db;
     db_Ticket := db_Ticket db; db_Journey := db_Journey db;
     db_Fare := db_Fare db |}.

Definition with_Transaction (db : Database) (rows : list Transaction) : Database :=
  {| db_User := db_User db; db_SmartCard := db_SmartCard db;
     db_Station := db_Station db;
     db_Transaction := rows; db_Booking := db_Booking db;
     db_Recharge := db_Recharge db; db_Payment := db_Payment db;
     db_Ticket := db_Ticket db; db_Journey := db_Journey db;
     db_Fare := db_Fare db |}.

Definition with_Recharge (db : Database) (rows : list Recharge) : Database :=
  {| db_User := db_User db; db_SmartCard := db_SmartCard db;
     db_Station := db_Station db;
     db_Transaction := db_Transaction db; db_Booking := db_Booking db;
     db_Recharge := rows; db_Payment := db_Payment db;
     db_Ticket := db_Ticket db; db_Journey := db_Journey db;
     db_Fare := db_Fare db |}.

Definition with_Payment (db : Database) (rows : list Payment) : Database :=
  {| db_User := db_User db; db_SmartCard := db_SmartCard db;
     db_Station := db_Station db;
     db_Transaction := db_Transaction db; db_Booking := db_Booking db;
     db_Recharge := db_Recharge db; db_Payment := rows;
     db_Ticket := db_Ticket db; db_Journey := db_Journey db;
     db_Fare := db_Fare db |}.

Definition with_Ticket (db : Database) (rows : list Ticket) : Database :=
  {| db_User := db_User db; db_SmartCard := db_SmartCard db;
     db_Station := db_Station db;
     db_Transaction := db_Transaction db; db_Booking := db_Booking db;
     db_Recharge := db_Recharge db; db_Payment := db_Payment db;
     db_Ticket := rows; db_Journey := db_Journey db;
     db_Fare := db_Fare db |}.

Definition with_Journey (db : Database) (rows : list Journey) : Database :=
  {| db_User := db_User db; db_SmartCard := db_SmartCard db;
     db_Station := db_Station db;
     db_Transaction := db_Transaction db; db_Booking := db_Booking db;
     db_Recharge := db_Recharge db; db_Payment := db_Payment db;
     db_Ticket := db_Ticket db; db_Journey := rows;
     db_Fare := db_Fare db |}.

(** [x = y] on a nullable column: not true when the column is NULL. *)
Definition is_id (col : option Z) (v : Z) : bool :=
  match col with
  | Some x => x =? v
  | None => false
  end.

Definition is_some {A} (o : option A) : bool :=
  match o with Some _ => true | None => false end.

(** ** SmartCard *)

(** [chk_smartcard_balance_nonnegative], [chk_smartcard_balance_limit]. *)
Definition SmartCard_check (c : SmartCard) : pg unit :=
  _ <- require (c_Balance c >=? 0)
         (check_violation "chk_smartcard_balance_nonnegative") ;;
  require (c_Balance c <=? 1000000)
    (check_violation "chk_smartcard_balance_limit").

(** [UPDATE SmartCard SET ... WHERE ...]: every row the WHERE clause selects
    is replaced, and the new row must pass the CHECK constraints. *)
Fixpoint update_SmartCard (cond : SmartCard -> bool)
    (set : SmartCard -> SmartCard) (rows : list SmartCard)
  : pg (list SmartCard) :=
  match rows with
  | [] => ok []
  | c :: rest =>
      c' <- (if cond c
             then _ <- SmartCard_check (set c) ;; ok (set c)
             else ok c) ;;
      rest' <- update_SmartCard cond set rest ;;
      ok (c' :: rest')
  end.

Definition set_Balance (f : Z -> Z) (c : SmartCard) : SmartCard :=
  {| c_CardID := c_CardID c; c_UserID := c_UserID c;
     c_Balance := f (c_Balance c); c_IsActive := c_IsActive c;
     c_LastUsedAt := c_LastUsedAt c |}.

Definition set_LastUsedAt (t : Z) (c : SmartCard) : SmartCard :=
  {| c_CardID := c_CardID c; c_UserID := c_UserID c;
     c_Balance := c_Balance c; c_IsActive := c_IsActive c;
     c_LastUsedAt := Some t |}.

(** [SELECT Balance INTO v FROM SmartCard WHERE CardID = id]. *)
Definition select_Balance (db : Database) (id : Z) : option Z :=
  option_map c_Balance
    (find (fun c => c_CardID c =? id) (db_SmartCard db)).

(** ** Ticket *)

(** [chk_ticket_validity_period]. *)
Definition Ticket_check (t : Ticket) : pg unit :=
  require (t_ValidUntil t >? t_ValidFrom t)
    (check_violation "chk_ticket_validity_period").

Fixpoint update_Ticket (cond : Ticket -> bool) (set : Ticket -> Ticket)
    (rows : list Ticket) : pg (list Ticket) :=
  match rows with
  | [] => ok []
  | t :: rest =>
      t' <- (if cond t
             then _ <- Ticket_check (set t) ;; ok (set t)
             else ok t) ;;
      rest' <- update_Ticket cond set rest ;;
      ok (t' :: rest')
  end.

Definition set_used (at_ : Z) (t : Ticket) : Ticket :=
  {| t_TicketID := t_TicketID t; t_BookingID := t_BookingID t;
     t_ValidFrom := t_ValidFrom t; t_ValidUntil := t_ValidUntil t;
     t_IsUsed := true; t_UsedAt := Some at_ |}.

(** ** Journey *)

(** [chk_journey_payment_method], [chk_journey_time_sequence],
    [chk_journey_fare_positive]. *)
Definition Journey_check (j : Journey) : pg unit :=
  _ <- require
         (match j_JourneyType j with
          | JT_Ticket => is_some (j_TicketID j) && negb (is_some (j_CardID j))
          | JT_Card => is_some (j_CardID j) && negb (is_some (j_TicketID j))
          end)
         (check_violation "chk_journey_payment_method") ;;
  _ <- require
         (match j_ExitTime j with
          | None => true
          | Some t => t >? j_EntryTime j
          end)
         (check_violation "chk_journey_time_sequence") ;;
  require
    (match j_FareDeducted j with
     | None => true
     | Some a => a >? 0
     end)
    (check_violation "chk_journey_fare_positive").

(** The FOREIGN KEY constraints of [Journey]; a NULL reference is not
    checked. *)
Definition Journey_foreign_keys (db : Database) (j : Journey) : pg unit :=
  _ <- require
         (match j_TicketID j with
          | None => true
          | Some t => existsb (fun r => t_TicketID r =? t) (db_Ticket db)
          end)
         (foreign_key_violation "fk_journey_ticket") ;;
  _ <- require
         (match j_CardID j with
          | None => true
          | Some c => existsb (fun r => c_CardID r =? c) (db_SmartCard db)
          end)
         (foreign_key_violation "fk_journey_card") ;;
  _ <- require
         (existsb (fun s => s_StationID s =? j_EntryStationID j)
            (db_Station db))
         (foreign_key_violation "fk_journey_entry") ;;
  require
    (match j_ExitStationID j with
     | None => true
     | Some x => existsb (fun s => s_StationID s =? x) (db_Station db)
     end)
    (foreign_key_violation "fk_journey_exit").

(* ================================================================== *)
(** * Triggers ([02_indexes.sql]) *)
(* ================================================================== *)

(** [update_card_last_used], AFTER INSERT ON Journey. *)
Definition update_card_last_used (env : Env) (db : Database) (NEW : Journey)
  : pg Database :=
  match j_CardID NEW with
  | Some card =>
      rows <- update_SmartCard (fun c => c_CardID c =? card)
                (set_LastUsedAt (CURRENT_TIMESTAMP env)) (db_SmartCard db) ;;
      ok (with_SmartCard db rows)
  | None => ok db
  end.

(** [mark_ticket_used], AFTER INSERT ON Journey. *)
Definition mark_ticket_used (db : Database) (NEW : Journey) : pg Database :=
  match j_TicketID NEW with
  | Some ticket =>
      rows <- update_Ticket
                (fun t => (t_TicketID t =? ticket) && negb (t_IsUsed t))
                (set_used (j_EntryTime NEW)) (db_Ticket db) ;;
      ok (with_Ticket db rows)
  | None => ok db
  end.

Definition set_FareDeducted (a : Z) (j : Journey) : Journey :=
  {| j_JourneyID := j_JourneyID j; j_JourneyType := j_JourneyType j;
     j_TicketID := j_TicketID j; j_CardID := j_CardID j;
     j_EntryStationID := j_EntryStationID j; j_EntryTime := j_EntryTime j;
     j_ExitStationID := j_ExitStationID j; j_ExitTime := j_ExitTime j;
     j_FareDeducted := Some a; j_Status := j_Status j |}.

Definition Insufficient_balance_on_card : string :=
  "Insufficient balance on card %. Required: %, Available: %".

(** [complete_journey_fare], BEFORE UPDATE ON Journey: returns the row to
    store and the database after the trigger's own UPDATE of [SmartCard]. *)
Definition complete_journey_fare (env : Env) (db : Database)
    (OLD NEW : Journey) : pg (Journey * Database) :=
  match j_ExitStationID NEW, j_CardID NEW with
  | Some exit_station, Some card =>
      if journey_status_eqb (j_Status NEW) Completed
         && negb (journey_status_eqb (j_Status OLD) Completed)
      then
        let v_fare :=
          get_current_fare db (CURRENT_DATE env)
            (j_EntryStationID NEW) exit_station in
        if v_fare >? 0 then
          match select_Balance db card with
          | Some v_current_balance =>
              if v_current_balance >=? v_fare then
                rows <- update_SmartCard (fun c => c_CardID c =? card)
                          (set_Balance (fun b => b - v_fare))
                          (db_SmartCard db) ;;
                ok (set_FareDeducted v_fare NEW, with_SmartCard db rows)
              else throw (raise_exception Insufficient_balance_on_card)
          | None =>
              (* [NULL >= v_fare] is not true: the ELSE branch *)
              throw (raise_exception Insufficient_balance_on_card)
          end
        else ok (NEW, db)
      else ok (NEW, db)
  | _, _ => ok (NEW, db)
  end.

(** [process_card_recharge], AFTER INSERT ON Recharge.  [Balance + NULL] is
    NULL, which the NOT NULL column refuses. *)
Definition process_card_recharge (env : Env) (db : Database) (NEW : Recharge)
  : pg Database :=
  match option_map x_Amount
          (find (fun x => x_TransactionID x =? r_TransactionID NEW)
             (db_Transaction db)) with
  | Some v_recharge_amount =>
      rows <- update_SmartCard (fun c => c_CardID c =? r_CardID NEW)
                (fun c => set_LastUsedAt (CURRENT_TIMESTAMP env)
                            (set_Balance (fun b => b + v_recharge_amount) c))
                (db_SmartCard db) ;;
      ok (with_SmartCard db rows)
  | None =>
      if existsb (fun c => c_CardID c =? r_CardID NEW) (db_SmartCard db)
      then throw (not_null_violation "balance")
      else ok db
  end.

(* ================================================================== *)
(** * INSERT and UPDATE on [Journey] *)
(* ================================================================== *)

(** [INSERT INTO Journey]: CHECK constraints, primary key, foreign keys, then
    the AFTER INSERT triggers in the order of their names
    ([trg_journey_mark_ticket_used], [trg_journey_update_card_usage]). *)
Definition insert_Journey (env : Env) (db : Database) (NEW : Journey)
  : pg Database :=
  _ <- Journey_check NEW ;;
  _ <- require
         (negb (existsb (fun j => j_JourneyID j =? j_JourneyID NEW)
                  (db_Journey db)))
         (unique_violation "journey_pkey") ;;
  _ <- Journey_foreign_keys db NEW ;;
  db1 <- mark_ticket_used (with_Journey db (db_Journey db ++ [NEW])) NEW ;;
  update_card_last_used env db1 NEW.

Definition set_exit (station time : Z) (j : Journey) : Journey :=
  {| j_JourneyID := j_JourneyID j; j_JourneyType := j_JourneyType j;
     j_TicketID := j_TicketID j; j_CardID := j_CardID j;
     j_EntryStationID := j_EntryStationID j; j_EntryTime := j_EntryTime j;
     j_ExitStationID := Some station; j_ExitTime := Some time;
     j_FareDeducted := j_FareDeducted j; j_Status := Completed |}.

(** The UPDATE of [complete_journey], row by row:
    [UPDATE Journey SET ExitStationID = .., ExitTime = .., Status = 'Completed'
     WHERE JourneyID = id RETURNING FareDeducted].
    For each selected row the BEFORE UPDATE trigger runs first, then the
    constraints on the row it returns.  The result is the new rows, the
    database as the triggers left it, and the RETURNING values. *)
Fixpoint update_Journey_exit (env : Env) (db : Database) (id station : Z)
    (rows : list Journey) : pg (list Journey * Database * list (option Z)) :=
  match rows with
  | [] => ok ([], db, [])
  | OLD :: rest =>
      if j_JourneyID OLD =? id then
        r <- complete_journey_fare env db OLD
               (set_exit station (CURRENT_TIMESTAMP env + one_second) OLD) ;;
        let '(NEW, db1) := r in
        _ <- Journey_check NEW ;;
        _ <- Journey_foreign_keys db1 NEW ;;
        r' <- update_Journey_exit env db1 id station rest ;;
        let '(rest', db2, returning) := r' in
        ok (NEW :: rest', db2, j_FareDeducted NEW :: returning)
      else
        r' <- update_Journey_exit env db id station rest ;;
        let '(rest', db2, returning) := r' in
        ok (OLD :: rest', db2, returning)
  end.

(* ================================================================== *)
(** * Stored functions ([02_indexes.sql]) *)
(* ================================================================== *)

(** [start_journey(p_journey_type, p_entry_station_id, p_ticket_id,
    p_card_id)]: the id of the new journey and the new database. *)
Definition start_journey (env : Env) (db : Database)
    (p_journey_type : journey_type) (p_entry_station_id : Z)
    (p_ticket_id p_card_id : option Z) : pg (Z * Database) :=
  _ <- match p_journey_type with
       | JT_Ticket =>
           match p_ticket_id with
           | None =>
               throw (raise_exception
                        "Ticket ID required for ticket-based journey")
           | Some ticket =>
               (* SELECT CASE .. END INTO v_ticket_valid: NULL when no row
                  is found, and [IF NOT NULL] does not raise *)
               let v_ticket_valid :=
                 option_map
                   (fun t => negb (t_IsUsed t)
                             && (t_ValidFrom t <=? CURRENT_TIMESTAMP env)
                             && (t_ValidUntil t >=? CURRENT_TIMESTAMP env))
                   (find (fun t => t_TicketID t =? ticket) (db_Ticket db)) in
               match v_ticket_valid with
               | Some false =>
                   throw (raise_exception
                            "Ticket % is invalid or already used")
               | _ => ok tt
               end
           end
       | JT_Card =>
           match p_card_id with
           | None =>
               throw (raise_exception
                        "Card ID required for card-based journey")
           | Some card =>
               let v_card_balance :=
                 option_map c_Balance
                   (find (fun c => (c_CardID c =? card) && c_IsActive c)
                      (db_SmartCard db)) in
               match v_card_balance with
               | None =>
                   throw (raise_exception "Card % not found or inactive")
               | Some balance =>
                   if balance <? 1000
                   then throw (raise_exception
                                 "Insufficient balance on card %. Balance: %")
                   else ok tt
               end
           end
       end ;;
  let v_journey_id := nextval_journey env in
  db' <- insert_Journey env db
           {| j_JourneyID := v_journey_id;
              j_JourneyType := p_journey_type;
              j_TicketID := p_ticket_id;
              j_CardID := p_card_id;
              j_EntryStationID := p_entry_station_id;
              j_EntryTime := CURRENT_TIMESTAMP env;
              j_ExitStationID := None;
              j_ExitTime := None;
              j_FareDeducted := None;
              j_Status := Active |} ;;
  ok (v_journey_id, db').

(** The row [complete_journey] returns: [(journey_id, fare_deducted,
    status)]; the status is always ['Completed']. *)
Record complete_journey_row := {
  journey_id : Z;
  fare_deducted : option Z
}.

(** [complete_journey(p_journey_id, p_exit_station_id)]. *)
Definition complete_journey (env : Env) (db : Database)
    (p_journey_id p_exit_station_id : Z)
  : pg (complete_journey_row * Database) :=
  match find (fun j => j_JourneyID j =? p_journey_id) (db_Journey db) with
  | None => throw (raise_exception "Journey % not found")
  | Some v_journey =>
      if negb (journey_status_eqb (j_Status v_journey) Active)
      then throw (raise_exception "Journey % is not active (status: %)")
      else
        r <- update_Journey_exit env db p_journey_id p_exit_station_id
               (db_Journey db) ;;
        let '(rows, db1, returning) := r in
        let v_fare := match returning with
                      | v :: _ => v
                      | [] => None
                      end in
        ok ({| journey_id := p_journey_id; fare_deducted := v_fare |},
            with_Journey db1 rows)
  end.

(** [INSERT INTO Transaction]: [chk_transaction_amount_positive], primary
    key, [fk_transaction_user]. *)
Definition insert_Transaction (db : Database) (NEW : Transaction)
  : pg Database :=
  _ <- require (x_Amount NEW >? 0)
         (check_violation "chk_transaction_amount_positive") ;;
  _ <- require
         (negb (existsb (fun x => x_TransactionID x =? x_TransactionID NEW)
                  (db_Transaction db)))
         (unique_violation "transaction_pkey") ;;
  _ <- require (existsb (Z.eqb (x_UserID NEW)) (db_User db))
         (foreign_key_violation "fk_transaction_user") ;;
  ok (with_Transaction db (db_Transaction db ++ [NEW])).

(** [INSERT INTO Recharge]: primary key, UNIQUE (TransactionID), foreign
    keys, then the AFTER INSERT trigger [trg_recharge_update_balance]. *)
Definition insert_Recharge (env : Env) (db : Database) (NEW : Recharge)
  : pg Database :=
  _ <- require
         (negb (existsb (fun r => r_RechargeID r =? r_RechargeID NEW)
                  (db_Recharge db)))
         (unique_violation "recharge_pkey") ;;
  _ <- require
         (negb (existsb (fun r => r_TransactionID r =? r_TransactionID NEW)
                  (db_Recharge db)))
         (unique_violation "recharge_transactionid_key") ;;
  _ <- require
         (existsb (fun x => x_TransactionID x =? r_TransactionID NEW)
            (db_Transaction db))
         (foreign_key_violation "fk_recharge_transaction") ;;
  _ <- require
         (existsb (fun c => c_CardID c =? r_CardID NEW) (db_SmartCard db))
         (foreign_key_violation "fk_recharge_card") ;;
  process_card_recharge env
    (with_Recharge db (db_Recharge db ++ [NEW])) NEW.

(** [INSERT INTO Payment]: primary key, UNIQUE (TransactionID),
    [fk_payment_transaction]. *)
Definition insert_Payment (db : Database) (NEW : Payment) : pg Database :=
  _ <- require
         (negb (existsb (fun p => p_PaymentID p =? p_PaymentID NEW)
                  (db_Payment db)))
         (unique_violation "payment_pkey") ;;
  _ <- require
         (negb (existsb (fun p => p_TransactionID p =? p_TransactionID NEW)
                  (db_Payment db)))
         (unique_violation "payment_transactionid_key") ;;
  _ <- require
         (existsb (fun x => x_TransactionID x =? p_TransactionID NEW)
            (db_Transaction db))
         (foreign_key_violation "fk_payment_transaction") ;;
  ok (with_Payment db (db_Payment db ++ [NEW])).

(** The row [recharge_smart_card] returns; the status is always
    ['Success']. *)
Record recharge_row := {
  transaction_id : Z;
  recharge_id : Z;
  new_balance : option Z
}.

(** [recharge_smart_card(p_user_id, p_card_id, p_amount, p_payment_method)]. *)
Definition recharge_smart_card (env : Env) (db : Database)
    (p_user_id p_card_id p_amount : Z) (p_payment_method : string)
  : pg (recharge_row * Database) :=
  if p_amount <=? 0
  then throw (raise_exception "Recharge amount must be positive")
  else if negb (existsb
                  (fun c => (c_CardID c =? p_card_id)
                            && match c_UserID c with
                               | Some u => u =? p_user_id
                               | None => true
                               end)
                  (db_SmartCard db))
  then throw (raise_exception "Card % not found or does not belong to user %")
  else
    let v_transaction_id := nextval_transaction env in
    db1 <- insert_Transaction db
             {| x_TransactionID := v_transaction_id;
                x_UserID := p_user_id;
                x_Amount := p_amount;
                x_TransactionType := TT_Recharge |} ;;
    let v_recharge_id := nextval_recharge env in
    db2 <- insert_Recharge env db1
             {| r_RechargeID := v_recharge_id;
                r_TransactionID := v_transaction_id;
                r_CardID := p_card_id |} ;;
    db3 <- insert_Payment db2
             {| p_PaymentID := nextval_payment env;
                p_TransactionID := v_transaction_id;
                p_PaymentMethod := p_payment_method;
                p_Status := Success |} ;;
    ok ({| transaction_id := v_transaction_id;
           recharge_id := v_recharge_id;
           new_balance := select_Balance db3 p_card_id |}, db3).

(* ================================================================== *)
(** * The Express handlers *)
(* ================================================================== *)

(** A JavaScript number: a binary64 floating-point number. *)
Definition binary64 : Type := SpecFloat.spec_float.

Definition binary64_of_Z (n : Z) : binary64 :=
  SpecFloat.binary_normalize 53 1024 n 0 false.

(** [parseFloat] of the text of a DECIMAL(10,2) value, given in hundredths:
    the binary64 number nearest to it, which is the quotient of the two
    integers in binary64. *)
Definition parseFloat (hundredths : Z) : binary64 :=
  SpecFloat.SFdiv 53 1024 (binary64_of_Z hundredths) (binary64_of_Z 100).

(** [x - y] on JavaScript numbers. *)
Definition js_minus (x y : binary64) : binary64 := SpecFloat.SFsub 53 1024 x y.

(** The payload of a successful gate response, as far as it depends on the
    database.  [fareCharged] and [previousBalance] are [parseFloat] of a
    DECIMAL(10,2) value and are kept in hundredths; [newBalance] is the
    number the handler computes.  [fareCharged] and [newBalance] are [None]
    where the handler computes NaN ([parseFloat(null)]). *)
Record ResponseData := {
  journeyId : Z;
  fareCharged : option Z;
  previousBalance : option Z;
  newBalance : option binary64;
  warning : bool
}.

(** [ResponseHandler.success(res, statusCode, message, data)],
    [ResponseHandler.error(res, statusCode, message)] and
    [ResponseHandler.validationError(res, errors)]. *)
Inductive Response :=
| success (statusCode : Z) (message : string) (data : ResponseData)
| error (statusCode : Z) (message : string)
| validationError (field message : string).

Definition pg_message (e : pg_error) : string :=
  match e with
  | raise_exception format => format
  | check_violation c => c
  | foreign_key_violation c => c
  | unique_violation c => c
  | not_null_violation c => c
  | datetime_field_overflow => "timestamp out of range"
  | numeric_value_out_of_range => "numeric field overflow"
  end.

(** [errorHandler] ([middleware/errorHandler.js]) on an error of the
    database driver: SQLSTATE 23505, 23503 and 23502 have their own answer,
    the others (P0001 of RAISE EXCEPTION, 23514 of a CHECK, 22008, 22003)
    fall through to status 500 with the error's message. *)
Definition errorHandler (err : pg_error) : Response :=
  match err with
  | unique_violation _ => error 409 "Resource already exists"
  | foreign_key_violation _ => error 400 "Invalid reference"
  | not_null_violation _ => error 400 "Required field missing"
  | _ => error 500 (pg_message err)
  end.

(** A [TypeError] thrown by [rows[0].x] on an empty result reaches
    [errorHandler] through [asyncHandler]: no [code], no [statusCode]. *)
Definition TypeError : Response :=
  error 500 "Cannot read properties of undefined".

(** [FROM ticket t JOIN booking b ON t.bookingid = b.bookingid
     WHERE t.ticketid = $1] *)
Definition select_ticket_booking (db : Database) (ticket : Z)
  : list (Ticket * Booking) :=
  flat_map
    (fun t =>
       if t_TicketID t =? ticket
       then map (pair t)
              (filter (fun b => b_BookingID b =? t_BookingID t)
                 (db_Booking db))
       else [])
    (db_Ticket db).

(** [SELECT journeyid FROM journey WHERE ticketid = $1 AND status = 'Active'] *)
Definition select_active_ticket_journey (db : Database) (ticket : Z)
  : list Journey :=
  filter (fun j => is_id (j_TicketID j) ticket
                   && journey_status_eqb (j_Status j) Active)
    (db_Journey db).

(** [SELECT journeyid, .. FROM journey WHERE cardid = $1 AND status = 'Active'] *)
Definition select_active_card_journey (db : Database) (card : Z)
  : list Journey :=
  filter (fun j => is_id (j_CardID j) card
                   && journey_status_eqb (j_Status j) Active)
    (db_Journey db).

(** [FROM journey j JOIN ticket t ON j.ticketid = t.ticketid
     JOIN booking b ON t.bookingid = b.bookingid
     WHERE j.ticketid = $1 AND j.status = 'Active'] *)
Definition select_active_ticket_journey_booking (db : Database) (ticket : Z)
  : list (Journey * Booking) :=
  flat_map
    (fun j =>
       flat_map
         (fun t =>
            if is_id (j_TicketID j) (t_TicketID t)
            then map (pair j)
                   (filter (fun b => b_BookingID b =? t_BookingID t)
                      (db_Booking db))
            else [])
         (db_Ticket db))
    (select_active_ticket_journey db ticket).

Definition entry_data (id : Z) (balance : option Z) : ResponseData :=
  {| journeyId := id; fareCharged := None; previousBalance := balance;
     newBalance := None; warning := false |}.

(** [journeyEntry], POST /api/journey/entry, after [validators.journeyEntry],
    for a [mediaId] and a [stationId] sent as JSON numbers ([journeyEntry_sent]
    below takes them as any request may send them).  The events sent to
    [systemEvents] are not modelled. *)
Definition journeyEntry (env : Env) (db : Database)
    (mediaType : string) (mediaId stationId : Z) : Response * Database :=
  match find (fun s => s_StationID s =? stationId) (db_Station db) with
  | None => (error 404 "Station not found", db)
  | Some station =>
      if negb (s_IsOperational station)
      then (error 400 "Station is not operational", db)
      else if String.eqb mediaType "Ticket" then
        match select_ticket_booking db mediaId with
        | [] => (error 404 "Ticket not found", db)
        | (ticket, booking) :: _ =>
            if t_IsUsed ticket
            then (error 400 "Ticket has already been used", db)
            else if (js_now env <? t_ValidFrom ticket)
                    || (js_now env >? t_ValidUntil ticket)
            then (error 400 "Ticket is not valid at this time", db)
            else if negb (b_SourceStationID booking =? stationId)
            then (error 400
                    "Entry station does not match ticket source station", db)
            else
              match select_active_ticket_journey db mediaId with
              | _ :: _ =>
                  (error 400
                     "An active journey already exists for this ticket", db)
              | [] =>
                  match start_journey env db JT_Ticket stationId
                          (Some mediaId) None with
                  | inl err => (errorHandler err, db)
                  | inr (id, db') =>
                      (success 200 "Entry permitted - Journey started"
                         (entry_data id None), db')
                  end
              end
        end
      else if String.eqb mediaType "Card" then
        match find (fun c => c_CardID c =? mediaId) (db_SmartCard db) with
        | None => (error 404 "Card not found", db)
        | Some card =>
            if negb (c_IsActive card)
            then (error 400 "Card is not active", db)
            else if c_Balance card <? 1000
            then (error 400
                    "Insufficient balance. Current balance: ₹${card.balance}. Minimum required: ₹10",
                  db)
            else
              match select_active_card_journey db mediaId with
              | _ :: _ =>
                  (error 400
                     "An active journey already exists for this card", db)
              | [] =>
                  match start_journey env db JT_Card stationId
                          None (Some mediaId) with
                  | inl err => (errorHandler err, db)
                  | inr (id, db') =>
                      (success 200 "Entry permitted - Journey started"
                         (entry_data id (Some (c_Balance card))), db')
                  end
              end
        end
      else (error 400 "Invalid media type", db)
  end.

Definition Insufficient_fare : string :=
  "Insufficient fare. Paid: ₹${paidFare}, Required: ₹${actualFare}. Please pay penalty at counter.".

Definition Insufficient_balance : string :=
  "Insufficient balance. Current: ₹${currentBalance}, Required: ₹${fare}. Please recharge at counter.".

(** [journeyExit], POST /api/journey/exit, after [validators.journeyExit], for
    a [mediaId] and a [stationId] sent as JSON numbers ([journeyExit_sent]
    below takes them as any request may send them).  [newBalance] is the
    difference of the two numbers [parseFloat] gave. *)
Definition journeyExit (env : Env) (db : Database)
    (mediaType : string) (mediaId stationId : Z) : Response * Database :=
  match find (fun s => s_StationID s =? stationId) (db_Station db) with
  | None => (error 404 "Station not found", db)
  | Some station =>
      if negb (s_IsOperational station)
      then (error 400 "Station is not operational", db)
      else if String.eqb mediaType "Ticket" then
        match select_active_ticket_journey_booking db mediaId with
        | [] => (error 404 "No active journey found for this media", db)
        | (journey, booking) :: _ =>
            let paidFare := b_TotalFare booking in
            let actualFare :=
              get_current_fare db (CURRENT_DATE env)
                (j_EntryStationID journey) stationId in
            if actualFare >? paidFare
            then (error 400 Insufficient_fare, db)
            else
              let expectedExitStationId := b_DestinationStationID booking in
              match
                (if negb (stationId =? expectedExitStationId)
                 then option_map (fun _ => true)
                        (find (fun s => s_StationID s =? expectedExitStationId)
                           (db_Station db))
                 else Some false)
              with
              | None => (TypeError, db)
              | Some w =>
                  match complete_journey env db (j_JourneyID journey)
                          stationId with
                  | inl err => (errorHandler err, db)
                  | inr (_, db') =>
                      (success 200 "Exit permitted - Journey completed"
                         {| journeyId := j_JourneyID journey;
                            fareCharged := Some paidFare;
                            previousBalance := None;
                            newBalance := None;
                            warning := w |}, db')
                  end
              end
        end
      else if String.eqb mediaType "Card" then
        match select_active_card_journey db mediaId with
        | [] => (error 404 "No active journey found for this media", db)
        | journey :: _ =>
            match select_Balance db mediaId with
            | None => (TypeError, db)
            | Some currentBalance =>
                let fare :=
                  get_current_fare db (CURRENT_DATE env)
                    (j_EntryStationID journey) stationId in
                if currentBalance <? fare
                then (error 400 Insufficient_balance, db)
                else
                  match complete_journey env db (j_JourneyID journey)
                          stationId with
                  | inl err => (errorHandler err, db)
                  | inr (row, db') =>
                      let fareDeducted := fare_deducted row in
                      (success 200 "Exit permitted - Journey completed"
                         {| journeyId := j_JourneyID journey;
                            fareCharged := fareDeducted;
                            previousBalance := Some currentBalance;
                            newBalance :=
                              option_map
                                (fun d => js_minus (parseFloat currentBalance)
                                            (parseFloat d))
                                fareDeducted;
                            warning := false |}, db')
                  end
            end
        end
      else (error 400 "Invalid media type", db)
  end.

(** The payment methods [validators] accepts (the enum [payment_method]). *)
Definition payment_methods : list string :=
  ["UPI"; "Credit Card"; "Debit Card"; "Net Banking"; "Wallet"].

(** [validators.rechargeCard]: [isFloat({ min: 10, max: 10000 })] on the
    amount, [isIn] on the payment method. *)
Definition validators_rechargeCard (amount : Z) (paymentMethod : string)
  : option Response :=
  if negb ((1000 <=? amount) && (amount <=? 1000000))
  then Some (validationError "amount" "Amount must be between ₹10 and ₹10,000")
  else if negb (existsb (String.eqb paymentMethod) payment_methods)
  then Some (validationError "paymentMethod" "Invalid payment method")
  else None.

Definition no_data : ResponseData :=
  {| journeyId := 0; fareCharged := None; previousBalance := None;
     newBalance := None; warning := false |}.

(** [rechargeCard], POST /api/cards/recharge, behind [authenticate] (which
    supplies [userId]) and [validators.rechargeCard], for an amount sent with
    two decimals at most, given in hundredths ([rechargeCard_sent] below
    takes the amount as any request may send it). *)
Definition rechargeCard (env : Env) (db : Database)
    (userId amount : Z) (paymentMethod : string) : Response * Database :=
  match validators_rechargeCard amount paymentMethod with
  | Some r => (r, db)
  | None =>
      match find (fun c => is_id (c_UserID c) userId && c_IsActive c)
              (db_SmartCard db) with
      | None => (error 404 "No active smart card found for this user", db)
      | Some card =>
          match recharge_smart_card env db userId (c_CardID card) amount
                  paymentMethod with
          | inl err => (errorHandler err, db)
          | inr (recharge, db') =>
              (success 200 "Card recharged successfully"
                 {| journeyId := 0; fareCharged := None;
                    previousBalance := Some (c_Balance card);
                    newBalance := option_map parseFloat (new_balance recharge);
                    warning := false |}, db')
          end
      end
  end.

(** [INSERT INTO smartcard (userid, balance, isactive)]: CHECK constraints,
    primary key, [fk_smartcard_user]. *)
Definition insert_SmartCard (db : Database) (NEW : SmartCard) : pg Database :=
  _ <- SmartCard_check NEW ;;
  _ <- require
         (negb (existsb (fun c => c_CardID c =? c_CardID NEW)
                  (db_SmartCard db)))
         (unique_violation "smartcard_pkey") ;;
  _ <- require
         (match c_UserID NEW with
          | Some u => existsb (Z.eqb u) (db_User db)
          | None => true
          end)
         (foreign_key_violation "fk_smartcard_user") ;;
  ok (with_SmartCard db (db_SmartCard db ++ [NEW])).

(** [registerCard], POST /api/cards/register: three INSERT statements, each
    its own transaction; the card starts with balance 0.00. *)
Definition registerCard (env : Env) (db : Database)
    (userId : Z) (paymentMethod : string) : Response * Database :=
  if negb (existsb (String.eqb paymentMethod) payment_methods)
  then (validationError "paymentMethod" "Invalid payment method", db)
  else
    match find (fun c => is_id (c_UserID c) userId && c_IsActive c)
            (db_SmartCard db) with
    | Some _ => (error 400 "You already have an active smart card", db)
    | None =>
        let registrationFee := 5000 in
        match insert_Transaction db
                {| x_TransactionID := nextval_transaction env;
                   x_UserID := userId;
                   x_Amount := registrationFee;
                   x_TransactionType := TT_Recharge |} with
        | inl err => (errorHandler err, db)
        | inr db1 =>
            match insert_Payment db1
                    {| p_PaymentID := nextval_payment env;
                       p_TransactionID := nextval_transaction env;
                       p_PaymentMethod := paymentMethod;
                       p_Status := Success |} with
            | inl err => (errorHandler err, db1)
            | inr db2 =>
                match insert_SmartCard db2
                        {| c_CardID := nextval_card env;
                           c_UserID := Some userId;
                           c_Balance := 0;
                           c_IsActive := true;
                           c_LastUsedAt := None |} with
                | inl err => (errorHandler err, db2)
                | inr db3 =>
                    (success 201 "Smart card registered successfully"
                       no_data, db3)
                end
            end
        end
    end.

(* ================================================================== *)
(** * The routes and the operations of the system *)
(* ================================================================== *)

(** [validators.journeyEntry] and [validators.journeyExit]. *)
Definition validators_journey (mediaType : string) (mediaId stationId : Z)
  : option Response :=
  if negb (existsb (String.eqb mediaType) ["Ticket"; "Card"])
  then Some (validationError "mediaType"
               "mediaType must be either Ticket or Card")
  else if negb (1 <=? mediaId)
  then Some (validationError "mediaId" "mediaId must be a positive integer")
  else if negb (1 <=? stationId)
  then Some (validationError "stationId"
               "stationId must be a positive integer")
  else None.

(** The requests of [journey.routes.js] and [card.routes.js] that write. *)
Inductive request :=
| POST_journey_entry (mediaType : string) (mediaId stationId : Z)
| POST_journey_exit (mediaType : string) (mediaId stationId : Z)
| POST_cards_recharge (userId amount : Z) (paymentMethod : string)
| POST_cards_register (userId : Z) (paymentMethod : string).

Definition handle (env : Env) (db : Database) (r : request)
  : Response * Database :=
  match r with
  | POST_journey_entry mediaType mediaId stationId =>
      match validators_journey mediaType mediaId stationId with
      | Some e => (e, db)
      | None => journeyEntry env db mediaType mediaId stationId
      end
  | POST_journey_exit mediaType mediaId stationId =>
      match validators_journey mediaType mediaId stationId with
      | Some e => (e, db)
      | None => journeyExit env db mediaType mediaId stationId
      end
  | POST_cards_recharge userId amount paymentMethod =>
      rechargeCard env db userId amount paymentMethod
  | POST_cards_register userId paymentMethod =>
      registerCard env db userId paymentMethod
  end.

(** The stored functions called directly, as one statement each. *)
Inductive statement :=
| SELECT_start_journey (p_journey_type : journey_type)
    (p_entry_station_id : Z) (p_ticket_id p_card_id : option Z)
| SELECT_complete_journey (p_journey_id p_exit_station_id : Z)
| SELECT_recharge_smart_card (p_user_id p_card_id p_amount : Z)
    (p_payment_method : string).

(** A statement that raises leaves the database as it was. *)
Definition execute (env : Env) (db : Database) (s : statement) : Database :=
  match s with
  | SELECT_start_journey ty station ticket card =>
      match start_journey env db ty station ticket card with
      | inr (_, db') => db'
      | inl _ => db
      end
  | SELECT_complete_journey id station =>
      match complete_journey env db id station with
      | inr (_, db') => db'
      | inl _ => db
      end
  | SELECT_recharge_smart_card user card amount method =>
      match recharge_smart_card env db user card amount method with
      | inr (_, db') => db'
      | inl _ => db
      end
  end.

Inductive operation :=
| Request (r : request)
| Statement (s : statement).

Definition step (env : Env) (db : Database) (op : operation) : Database :=
  match op with
  | Request r => snd (handle env db r)
  | Statement s => execute env db s
  end.

(** Operations one after the other, each with its own environment. *)
Fixpoint run (db : Database) (ops : list (Env * operation)) : Database :=
  match ops with
  | [] => db
  | (env, op) :: rest => run (step env db op) rest
  end.

(** Gate calls one after the other. *)
Fixpoint serve (db : Database) (calls : list (Env * request)) : Database :=
  match calls with
  | [] => db
  | (env, r) :: rest => serve (snd (handle env db r)) rest
  end.

Definition is_success (r : Response) : bool :=
  match r with
  | success _ _ _ => true
  | _ => false
  end.

(* ================================================================== *)
(** * Invariants and the words of the specification *)
(* ================================================================== *)

(** The two CHECK constraints of [SmartCard] as a proposition. *)
Definition in_range (c : SmartCard) : Prop := 0 <= c_Balance c <= 1000000.

Definition balances_in_range (db : Database) : Prop :=
  Forall in_range (db_SmartCard db).

(** At most one journey row with status Active for every ticket and for
    every card. *)
Definition one_active_per_media (db : Database) : Prop :=
  (forall ticket, (List.length (select_active_ticket_journey db ticket) <= 1)%nat)
  /\ (forall card, (List.length (select_active_card_journey db card) <= 1)%nat).

(** PRIMARY KEY of [Journey], [SmartCard] and [Ticket]. *)
Definition journey_pkey (db : Database) : Prop :=
  NoDup (map j_JourneyID (db_Journey db)).

Definition smartcard_pkey (db : Database) : Prop :=
  NoDup (map c_CardID (db_SmartCard db)).

Definition ticket_pkey (db : Database) : Prop :=
  NoDup (map t_TicketID (db_Ticket db)).

(** [uq_fare_route]: UNIQUE (SourceStationID, DestinationStationID,
    EffectiveFrom); NULL dates do not collide. *)
Definition uq_fare_route (db : Database) : Prop :=
  forall f g d,
    In f (db_Fare db) -> In g (db_Fare db) ->
    f_SourceStationID f = f_SourceStationID g ->
    f_DestinationStationID f = f_DestinationStationID g ->
    f_EffectiveFrom f = Some d -> f_EffectiveFrom g = Some d ->
    f = g.

(** A fare row is effective for a pair on a day: it is a row of the pair, its
    [EffectiveFrom] is that day or earlier, and its [EffectiveUntil] is
    absent or later than that day. *)
Definition effective (today src dst : Z) (f : Fare) (from : Z) : Prop :=
  f_SourceStationID f = src
  /\ f_DestinationStationID f = dst
  /\ f_EffectiveFrom f = Some from /\ from <= today
  /\ (f_EffectiveUntil f = None
      \/ exists u, f_EffectiveUntil f = Some u /\ today < u).

(** [SELECT IsUsed FROM Ticket WHERE TicketID = id]. *)
Definition select_IsUsed (db : Database) (id : Z) : option bool :=
  option_map t_IsUsed (find (fun t => t_TicketID t =? id) (db_Ticket db)).

(** [SELECT * FROM Journey WHERE JourneyID = id]. *)
Definition select_Journey (db : Database) (id : Z) : option Journey :=
  find (fun j => j_JourneyID j =? id) (db_Journey db).

(** ** What one statement may do to a row *)

(** A card row after a statement: same key, owner and activity flag, and
    within the balance limits if it was. *)
Definition card_kept (c c' : SmartCard) : Prop :=
  c_CardID c' = c_CardID c
  /\ c_UserID c' = c_UserID c
  /\ c_IsActive c' = c_IsActive c
  /\ (in_range c -> in_range c').

(** A ticket row after a statement: the same row, or the row marked used
    when it was not. *)
Definition ticket_kept (t t' : Ticket) : Prop :=
  t' = t \/ (t_IsUsed t = false /\ exists time, t' = set_used time t).

(** A journey row after the UPDATE of [complete_journey] on [id]: untouched
    when it has another key, else the row with its exit, with or without the
    fare the trigger wrote. *)
Definition journey_exited (id station time : Z) (j j' : Journey) : Prop :=
  if j_JourneyID j =? id
  then j' = set_exit station time j
       \/ exists fare, j' = set_FareDeducted fare (set_exit station time j)
  else j' = j.

(** The tables no modelled statement writes. *)
Definition same_directory (db db' : Database) : Prop :=
  db_User db' = db_User db
  /\ db_Station db' = db_Station db
  /\ db_Booking db' = db_Booking db
  /\ db_Fare db' = db_Fare db.

(** The tables only a recharge or a registration writes. *)
Definition same_payments (db db' : Database) : Prop :=
  db_Transaction db' = db_Transaction db
  /\ db_Recharge db' = db_Recharge db
  /\ db_Payment db' = db_Payment db.

(** The row [mark_ticket_used] leaves for a ticket row. *)
Definition marked (ticket time : Z) (t : Ticket) : Ticket :=
  if (t_TicketID t =? ticket) && negb (t_IsUsed t)
  then set_used time t else t.

(** The row [update_card_last_used] leaves for a card row. *)
Definition touched (card time : Z) (c : SmartCard) : SmartCard :=
  if c_CardID c =? card then set_LastUsedAt time c else c.

(** The row the UPDATE of [complete_journey_fare] leaves for a card row. *)
Definition debited (card fare : Z) (c : SmartCard) : SmartCard :=
  if c_CardID c =? card then set_Balance (fun b => b - fare) c else c.

(** The row [start_journey] inserts. *)
Definition new_journey (env : Env) (p_journey_type : journey_type)
    (p_entry_station_id : Z) (p_ticket_id p_card_id : option Z) : Journey :=
  {| j_JourneyID := nextval_journey env;
     j_JourneyType := p_journey_type;
     j_TicketID := p_ticket_id;
     j_CardID := p_card_id;
     j_EntryStationID := p_entry_station_id;
     j_EntryTime := CURRENT_TIMESTAMP env;
     j_ExitStationID := None;
     j_ExitTime := None;
     j_FareDeducted := None;
     j_Status := Active |}.

(** [ExitTime] as [complete_journey] sets it. *)
Definition exit_time (env : Env) : Z := CURRENT_TIMESTAMP env + one_second.

(** The row the UPDATE of [process_card_recharge] leaves for a card row. *)
Definition credited (card amount time : Z) (c : SmartCard) : SmartCard :=
  if c_CardID c =? card
  then set_LastUsedAt time (set_Balance (fun b => b + amount) c) else c.

(** What a request that gets past its checks asks of the database; every
    other request leaves the database as it was. *)
Inductive writes (env : Env) (db : Database) : request -> Database -> Prop :=
| writes_ticket_entry ticket station id db' :
    select_active_ticket_journey db ticket = [] ->
    start_journey env db JT_Ticket station (Some ticket) None
    = inr (id, db') ->
    writes env db (POST_journey_entry "Ticket" ticket station) db'
| writes_card_entry card station id db' :
    select_active_card_journey db card = [] ->
    start_journey env db JT_Card station None (Some card) = inr (id, db') ->
    writes env db (POST_journey_entry "Card" card station) db'
| writes_ticket_exit ticket station journey booking rest row db' :
    select_active_ticket_journey_booking db ticket
    = (journey, booking) :: rest ->
    complete_journey env db (j_JourneyID journey) station = inr (row, db') ->
    writes env db (POST_journey_exit "Ticket" ticket station) db'
| writes_card_exit card station journey rest row db' :
    select_active_card_journey db card = journey :: rest ->
    complete_journey env db (j_JourneyID journey) station = inr (row, db') ->
    writes env db (POST_journey_exit "Card" card station) db'
| writes_recharge userId card amount paymentMethod row db' :
    recharge_smart_card env db userId card amount paymentMethod
    = inr (row, db') ->
    writes env db (POST_cards_recharge userId amount paymentMethod) db'
| writes_register_transaction userId paymentMethod x db' :
    insert_Transaction db x = inr db' ->
    writes env db (POST_cards_register userId paymentMethod) db'
| writes_register_payment userId paymentMethod x p db1 db' :
    insert_Transaction db x = inr db1 ->
    insert_Payment db1 p = inr db' ->
    writes env db (POST_cards_register userId paymentMethod) db'
| writes_register_card userId paymentMethod x p db1 db2 db' :
    insert_Transaction db x = inr db1 ->
    insert_Payment db1 p = inr db2 ->
    insert_SmartCard db2
      {| c_CardID := nextval_card env; c_UserID := Some userId;
         c_Balance := 0; c_IsActive := true; c_LastUsedAt := None |}
    = inr db' ->
    writes env db (POST_cards_register userId paymentMethod) db'.

(** Whether [IsUsed] of a ticket goes from false to true in one operation,
    and how often it does along a sequence of operations. *)
Definition flipped (ticket : Z) (db db' : Database) : bool :=
  match select_IsUsed db ticket, select_IsUsed db' ticket with
  | Some false, Some true => true
  | _, _ => false
  end.

Fixpoint flips (ticket : Z) (db : Database) (ops : list (Env * operation))
  : nat :=
  match ops with
  | [] => 0%nat
  | (env, op) :: rest =>
      ((if flipped ticket db (step env db op) then 1 else 0)
       + flips ticket (step env db op) rest)%nat
  end.

(** An operation that asks to start a journey with a ticket. *)
Definition starts_with_ticket (op : operation) (ticket station : Z) : Prop :=
  op = Request (POST_journey_entry "Ticket" ticket station)
  \/ op = Statement
            (SELECT_start_journey JT_Ticket station (Some ticket) None).

(** ** Claims of the specification the code does not meet, as stated *)

(** "For every Completed card-journey, fareDeducted == currentFare(entry,
    exit) evaluated at completion time, and the card's balance decreased by
    exactly that amount", for one call of [complete_journey]. *)
Definition fare_deducted_is_current_fare (env : Env) (db : Database)
    (id station : Z) : Prop :=
  forall row db' j card balance,
    complete_journey env db id station = inr (row, db') ->
    select_Journey db' id = Some j ->
    j_Status j = Completed ->
    j_CardID j = Some card ->
    select_Balance db card = Some balance ->
    j_FareDeducted j
    = Some (get_current_fare db (CURRENT_DATE env) (j_EntryStationID j)
              station)
    /\ select_Balance db' card
       = Some (balance
               - get_current_fare db (CURRENT_DATE env) (j_EntryStationID j)
                   station).

(** "Callers must treat zero as a failure condition, not a free ride", for
    one card exit at the gate: when no fare is defined for the route of the
    card's Active journey, the exit is not admitted. *)
Definition zero_fare_exit_is_refused (env : Env) (db : Database)
    (card station : Z) : Prop :=
  forall journey rest,
    select_active_card_journey db card = journey :: rest ->
    get_current_fare db (CURRENT_DATE env) (j_EntryStationID journey) station
    = 0 ->
    is_success (fst (journeyExit env db "Card" card station)) = false.

(** ** A small network, for running the model *)

Module Sample.

Definition env : Env :=
  {| js_now := 100; CURRENT_TIMESTAMP := 100; CURRENT_DATE := 10;
     nextval_journey := 1; nextval_transaction := 1;
     nextval_recharge := 1; nextval_payment := 1; nextval_card := 10 |}.

Definition later : Env :=
  {| js_now := 200; CURRENT_TIMESTAMP := 200; CURRENT_DATE := 10;
     nextval_journey := 2; nextval_transaction := 2;
     nextval_recharge := 2; nextval_payment := 2; nextval_card := 11 |}.

(** Three operational stations; a fare of 30.00 from station 1 to station
    2 since day 0, which replaced a fare of 20.00 that ended on day 0; no
    fare from station 1 to station 3.  Card 1 holds 50.00, card 2 holds
    15.00, card 3 holds 9990.00.  Ticket 1 is booked from station 1 to
    station 2 and valid from 0 to 1000. *)
Definition db : Database :=
  {| db_User := [1; 2];
     db_SmartCard :=
       [ {| c_CardID := 1; c_UserID := Some 1; c_Balance := 5000;
            c_IsActive := true; c_LastUsedAt := None |};
         {| c_CardID := 2; c_UserID := None; c_Balance := 1500;
            c_IsActive := true; c_LastUsedAt := None |};
         {| c_CardID := 3; c_UserID := Some 2; c_Balance := 999000;
            c_IsActive := true; c_LastUsedAt := None |} ];
     db_Station :=
       [ {| s_StationID := 1; s_StationName := "Rajiv Chowk";
            s_IsOperational := true |};
         {| s_StationID := 2; s_StationName := "Kashmere Gate";
            s_IsOperational := true |};
         {| s_StationID := 3; s_StationName := "Central Secretariat";
            s_IsOperational := true |} ];
     db_Transaction :=
       [ {| x_TransactionID := 0; x_UserID := 1; x_Amount := 3000;
            x_TransactionType := TT_Booking |} ];
     db_Booking :=
       [ {| b_BookingID := 1; b_TransactionID := 0;
            b_SourceStationID := 1; b_DestinationStationID := 2;
            b_TotalFare := 3000 |} ];
     db_Recharge := [];
     db_Payment := [];
     db_Ticket :=
       [ {| t_TicketID := 1; t_BookingID := 1; t_ValidFrom := 0;
            t_ValidUntil := 1000; t_IsUsed := false; t_UsedAt := None |} ];
     db_Journey := [];
     db_Fare :=
       [ {| f_FareID := 1; f_SourceStationID := 1;
            f_DestinationStationID := 2; f_FareAmount := 2000;
            f_EffectiveFrom := Some (-100); f_EffectiveUntil := Some 0 |};
         {| f_FareID := 2; f_SourceStationID := 1;
            f_DestinationStationID := 2; f_FareAmount := 3000;
            f_EffectiveFrom := Some 0; f_EffectiveUntil := None |} ] |}.

(** Card 1 has entered at station 1. *)
Definition card_1_inside : Database :=
  snd (journeyEntry env db "Card" 1 1).

(** Card 2 has entered at station 1. *)
Definition card_2_inside : Database :=
  snd (journeyEntry env db "Card" 2 1).

(** Ticket 1 has entered at station 1. *)
Definition ticket_1_inside : Database :=
  snd (journeyEntry env db "Ticket" 1 1).

End Sample.

(* ================================================================== *)
(** * Requests in flight *)
(* ================================================================== *)

(** A handler is an [async] function: it runs up to its next [await query],
    the statement runs in the database, and the handler goes on with the
    rows.  [Await q]: the statement the handler waits for, with the code
    that follows it up to the next [await]; run in an environment on a
    database, it gives what is left of the handler and the database after
    the statement.  Each statement is a transaction of its own (the handlers
    use [query], never a client with BEGIN); here a statement runs as a
    whole before the next one starts: the schedules of [interleave] are
    those in which no two statements overlap. *)
#[warnings="-register-all"]
Inductive handler :=
| Done (r : Response)
| Await (q : Env -> Database -> handler * Database).

(** The handler run alone, every statement in the same environment. *)
Fixpoint alone (env : Env) (db : Database) (h : handler)
  : Response * Database :=
  match h with
  | Done r => (r, db)
  | Await q => let (h', db') := q env db in alone env db' h'
  end.

(** [journeyEntry], a ticket: the three statements after the station. *)
Definition entry_ticket_start (mediaId stationId : Z) : handler :=
  Await (fun env db =>
    match start_journey env db JT_Ticket stationId (Some mediaId) None with
    | inl err => (Done (errorHandler err), db)
    | inr (id, db') =>
        (Done (success 200 "Entry permitted - Journey started"
                 (entry_data id None)), db')
    end).

Definition entry_ticket_active (mediaId stationId : Z) : handler :=
  Await (fun env db =>
    match select_active_ticket_journey db mediaId with
    | _ :: _ =>
        (Done (error 400 "An active journey already exists for this ticket"),
         db)
    | [] => (entry_ticket_start mediaId stationId, db)
    end).

Definition entry_ticket (mediaId stationId : Z) : handler :=
  Await (fun env db =>
    match select_ticket_booking db mediaId with
    | [] => (Done (error 404 "Ticket not found"), db)
    | (ticket, booking) :: _ =>
        if t_IsUsed ticket
        then (Done (error 400 "Ticket has already been used"), db)
        else if (js_now env <? t_ValidFrom ticket)
                || (js_now env >? t_ValidUntil ticket)
        then (Done (error 400 "Ticket is not valid at this time"), db)
        else if negb (b_SourceStationID booking =? stationId)
        then (Done (error 400
                      "Entry station does not match ticket source station"),
              db)
        else (entry_ticket_active mediaId stationId, db)
    end).

(** [journeyEntry], a card: the three statements after the station. *)
Definition entry_card_start (mediaId stationId balance : Z) : handler :=
  Await (fun env db =>
    match start_journey env db JT_Card stationId None (Some mediaId) with
    | inl err => (Done (errorHandler err), db)
    | inr (id, db') =>
        (Done (success 200 "Entry permitted - Journey started"
                 (entry_data id (Some balance))), db')
    end).

Definition entry_card_active (mediaId stationId balance : Z) : handler :=
  Await (fun env db =>
    match select_active_card_journey db mediaId with
    | _ :: _ =>
        (Done (error 400 "An active journey already exists for this card"),
         db)
    | [] => (entry_card_start mediaId stationId balance, db)
    end).

Definition entry_card (mediaId stationId : Z) : handler :=
  Await (fun env db =>
    match find (fun c => c_CardID c =? mediaId) (db_SmartCard db) with
    | None => (Done (error 404 "Card not found"), db)
    | Some card =>
        if negb (c_IsActive card)
        then (Done (error 400 "Card is not active"), db)
        else if c_Balance card <? 1000
        then (Done (error 400
                      "Insufficient balance. Current balance: ₹${card.balance}. Minimum required: ₹10"),
              db)
        else (entry_card_active mediaId stationId (c_Balance card), db)
    end).

(** [journeyEntry] statement by statement. *)
Definition journeyEntry_handler (mediaType : string) (mediaId stationId : Z)
  : handler :=
  Await (fun env db =>
    match find (fun s => s_StationID s =? stationId) (db_Station db) with
    | None => (Done (error 404 "Station not found"), db)
    | Some station =>
        if negb (s_IsOperational station)
        then (Done (error 400 "Station is not operational"), db)
        else if String.eqb mediaType "Ticket"
        then (entry_ticket mediaId stationId, db)
        else if String.eqb mediaType "Card"
        then (entry_card mediaId stationId, db)
        else (Done (error 400 "Invalid media type"), db)
    end).

(** Two requests in flight.  A schedule says, statement by statement, which
    of the two handlers goes on ([true]: the first) and in which
    environment; a handler that is done does nothing. *)
Fixpoint interleave (schedule : list (bool * Env)) (db : Database)
    (h1 h2 : handler) : handler * handler * Database :=
  match schedule with
  | [] => (h1, h2, db)
  | (true, env) :: rest =>
      match h1 with
      | Done _ => interleave rest db h1 h2
      | Await q => let (h1', db') := q env db in interleave rest db' h1' h2
      end
  | (false, env) :: rest =>
      match h2 with
      | Done _ => interleave rest db h1 h2
      | Await q => let (h2', db') := q env db in interleave rest db' h1 h2'
      end
  end.

(** An Active journey has no fare yet (as [start_journey] inserts it). *)
Definition active_unpaid (db : Database) : Prop :=
  forall j, In j (db_Journey db) -> j_Status j = Active ->
            j_FareDeducted j = None.

(** The journey a handler read some statements ago: its key is still in the
    table, on a row of the same card. *)
Definition holds (db : Database) (card : Z) (j : Journey) : Prop :=
  exists row,
    select_Journey db (j_JourneyID j) = Some row /\ j_CardID row = Some card.

(** "Two simultaneous start calls for the same card never both create an
    Active journey", for two entry requests on one card whose statements
    interleave. *)
Definition starts_exclude_each_other (db : Database)
    (card station1 station2 : Z) : Prop :=
  forall schedule r1 r2 db',
    interleave schedule db
      (journeyEntry_handler "Card" card station1)
      (journeyEntry_handler "Card" card station2)
    = (Done r1, Done r2, db') ->
    is_success r1 = true -> is_success r2 = true -> False.

(** The schedule of the race: each request runs its three reading statements,
    then each calls [start_journey]. *)
Definition race : list (bool * Env) :=
  [ (true, Sample.env); (true, Sample.env); (true, Sample.env);
    (false, Sample.later); (false, Sample.later); (false, Sample.later);
    (true, Sample.env); (false, Sample.later) ].

(** The sample network after two entry requests for card 1 have raced. *)
Definition raced : Database :=
  snd (interleave race Sample.db
         (journeyEntry_handler "Card" 1 1)
         (journeyEntry_handler "Card" 1 1)).

(** ** Card exits in flight *)

(** One statement of a card exit does more than read.
    [SELECT * FROM complete_journey(..)] runs the statements of the function
    and of the trigger [complete_journey_fare] one by one, in a transaction
    of its own under READ COMMITTED, and the statements of another request
    can run between any two of them:
    - a statement reads the rows as they are committed when it starts;
    - an UPDATE locks the row it changes until the call ends; while another
      call holds the row it waits, and then it works on the row as that call
      committed it (this row is the OLD of the trigger);
    - what the call writes reaches the tables when it returns, and a call
      that raises writes nothing;
    - [CURRENT_TIMESTAMP] and [CURRENT_DATE] are those of the start of the
      call.
    [completing]: where a call of [complete_journey] is, with the clock of
    its start, the row of [Journey] it has locked, and the row of
    [SmartCard] it has locked, as it will write it. *)
Inductive completing :=
| select_journey
| update_journey (started : Env)
| trigger_fare (started : Env) (OLD : Journey) (card : Z)
| trigger_balance (started : Env) (OLD : Journey) (card v_fare : Z)
| trigger_debit (started : Env) (OLD : Journey) (card v_fare : Z)
| store_journey (started : Env) (OLD NEW : Journey) (debit : option SmartCard)
| returned (result : pg complete_journey_row).

(** The rows that calls in flight have locked, by their keys. *)
Record locks := {
  on_Journey : option Z;
  on_SmartCard : option Z
}.

Definition locks_of (c : completing) : locks :=
  match c with
  | trigger_fare _ OLD _ | trigger_balance _ OLD _ _
  | trigger_debit _ OLD _ _ | store_journey _ OLD _ None =>
      {| on_Journey := Some (j_JourneyID OLD); on_SmartCard := None |}
  | store_journey _ OLD _ (Some row) =>
      {| on_Journey := Some (j_JourneyID OLD);
         on_SmartCard := Some (c_CardID row) |}
  | _ => {| on_Journey := None; on_SmartCard := None |}
  end.

(** The tables when a call returns: the rows it has locked are replaced by
    the rows it wrote. *)
Definition commit (db : Database) (p_journey_id : Z) (NEW : Journey)
    (debit : option SmartCard) : Database :=
  with_Journey
    match debit with
    | Some row =>
        with_SmartCard db
          (map (fun c => if c_CardID c =? c_CardID row then row else c)
             (db_SmartCard db))
    | None => db
    end
    (map (fun j => if j_JourneyID j =? p_journey_id then NEW else j)
       (db_Journey db)).

(** One statement of [complete_journey(p_journey_id, p_exit_station_id)] or
    of its trigger; [held]: the rows the other calls have locked.  A
    statement that has to wait leaves everything as it is. *)
Definition complete_journey_step (env : Env) (held : locks) (db : Database)
    (p_journey_id p_exit_station_id : Z) (c : completing)
  : completing * Database :=
  match c with
  | select_journey =>
      (* SELECT * INTO v_journey FROM Journey WHERE JourneyID = p_journey_id *)
      match select_Journey db p_journey_id with
      | None => (returned (throw (raise_exception "Journey % not found")), db)
      | Some v_journey =>
          if negb (journey_status_eqb (j_Status v_journey) Active)
          then (returned
                  (throw (raise_exception
                            "Journey % is not active (status: %)")), db)
          else (update_journey env, db)
      end
  | update_journey started =>
      (* UPDATE Journey SET .. WHERE JourneyID = p_journey_id: the row is
         locked and the BEFORE UPDATE trigger starts *)
      if is_id (on_Journey held) p_journey_id then (c, db)
      else
        match select_Journey db p_journey_id with
        | None =>
            (returned (ok {| journey_id := p_journey_id;
                             fare_deducted := None |}), db)
        | Some OLD =>
            let NEW := set_exit p_exit_station_id (exit_time started) OLD in
            match j_ExitStationID NEW, j_CardID NEW with
            | Some _, Some card =>
                if journey_status_eqb (j_Status NEW) Completed
                   && negb (journey_status_eqb (j_Status OLD) Completed)
                then (trigger_fare started OLD card, db)
                else (store_journey started OLD NEW None, db)
            | _, _ => (store_journey started OLD NEW None, db)
            end
        end
  | trigger_fare started OLD card =>
      (* v_fare := get_current_fare(NEW.EntryStationID, NEW.ExitStationID) *)
      let v_fare :=
        get_current_fare db (CURRENT_DATE started) (j_EntryStationID OLD)
          p_exit_station_id in
      if v_fare >? 0
      then (trigger_balance started OLD card v_fare, db)
      else (store_journey started OLD
              (set_exit p_exit_station_id (exit_time started) OLD) None, db)
  | trigger_balance started OLD card v_fare =>
      (* SELECT Balance INTO v_current_balance FROM SmartCard
         WHERE CardID = NEW.CardID *)
      match select_Balance db card with
      | Some v_current_balance =>
          if v_current_balance >=? v_fare
          then (trigger_debit started OLD card v_fare, db)
          else (returned
                  (throw (raise_exception Insufficient_balance_on_card)), db)
      | None =>
          (returned (throw (raise_exception Insufficient_balance_on_card)),
           db)
      end
  | trigger_debit started OLD card v_fare =>
      (* UPDATE SmartCard SET Balance = Balance - v_fare
         WHERE CardID = NEW.CardID; NEW.FareDeducted := v_fare *)
      if is_id (on_SmartCard held) card then (c, db)
      else
        let NEW :=
          set_FareDeducted v_fare
            (set_exit p_exit_station_id (exit_time started) OLD) in
        match find (fun r => c_CardID r =? card) (db_SmartCard db) with
        | None => (store_journey started OLD NEW None, db)
        | Some row =>
            let row' := set_Balance (fun b => b - v_fare) row in
            match SmartCard_check row' with
            | inl e => (returned (throw e), db)
            | inr _ => (store_journey started OLD NEW (Some row'), db)
            end
        end
  | store_journey started OLD NEW debit =>
      (* the constraints on the row the trigger returned; RETURNING
         FareDeducted INTO v_fare; RETURN QUERY; COMMIT *)
      match (_ <- Journey_check NEW ;; Journey_foreign_keys db NEW) with
      | inl e => (returned (throw e), db)
      | inr _ =>
          (returned (ok {| journey_id := p_journey_id;
                           fare_deducted := j_FareDeducted NEW |}),
           commit db p_journey_id NEW debit)
      end
  | returned _ => (c, db)
  end.

(** Two calls of [complete_journey] in flight.  A schedule says, statement by
    statement, which of the two goes on ([true]: the first) and what the
    clock shows. *)
Fixpoint complete_journeys_in_flight (schedule : list (bool * Env))
    (db : Database) (id1 station1 id2 station2 : Z) (c1 c2 : completing)
  : completing * completing * Database :=
  match schedule with
  | [] => (c1, c2, db)
  | (true, env) :: rest =>
      let (c1', db') :=
        complete_journey_step env (locks_of c2) db id1 station1 c1 in
      complete_journeys_in_flight rest db' id1 station1 id2 station2 c1' c2
  | (false, env) :: rest =>
      let (c2', db') :=
        complete_journey_step env (locks_of c1) db id2 station2 c2 in
      complete_journeys_in_flight rest db' id1 station1 id2 station2 c1 c2'
  end.

(** [journeyExit] for a card, statement by statement: where the request is,
    with the rows it has read. *)
Inductive card_exit :=
| exit_station
| exit_journey
| exit_balance (journey : Journey)
| exit_fare (journey : Journey) (currentBalance : Z)
| exit_complete (journey : Journey) (currentBalance : Z) (call : completing)
| exit_done (r : Response).

Definition locks_of_exit (s : card_exit) : locks :=
  match s with
  | exit_complete _ _ call => locks_of call
  | _ => {| on_Journey := None; on_SmartCard := None |}
  end.

(** What [journeyExit] answers for a card once [complete_journey] is back. *)
Definition card_exit_response (journey : Journey) (currentBalance : Z)
    (result : pg complete_journey_row) : Response :=
  match result with
  | inl err => errorHandler err
  | inr row =>
      let fareDeducted := fare_deducted row in
      success 200 "Exit permitted - Journey completed"
        {| journeyId := j_JourneyID journey;
           fareCharged := fareDeducted;
           previousBalance := Some currentBalance;
           newBalance :=
             option_map
               (fun d => js_minus (parseFloat currentBalance) (parseFloat d))
               fareDeducted;
           warning := false |}
  end.

(** One statement of [journeyExit] for a card, or of the call of
    [complete_journey] it waits for. *)
Definition card_exit_step (env : Env) (held : locks) (db : Database)
    (mediaId stationId : Z) (s : card_exit) : card_exit * Database :=
  match s with
  | exit_station =>
      match find (fun s => s_StationID s =? stationId) (db_Station db) with
      | None => (exit_done (error 404 "Station not found"), db)
      | Some station =>
          if negb (s_IsOperational station)
          then (exit_done (error 400 "Station is not operational"), db)
          else (exit_journey, db)
      end
  | exit_journey =>
      match select_active_card_journey db mediaId with
      | [] =>
          (exit_done (error 404 "No active journey found for this media"), db)
      | journey :: _ => (exit_balance journey, db)
      end
  | exit_balance journey =>
      match select_Balance db mediaId with
      | None => (exit_done TypeError, db)
      | Some currentBalance => (exit_fare journey currentBalance, db)
      end
  | exit_fare journey currentBalance =>
      let fare :=
        get_current_fare db (CURRENT_DATE env)
          (j_EntryStationID journey) stationId in
      if currentBalance <? fare
      then (exit_done (error 400 Insufficient_balance), db)
      else (exit_complete journey currentBalance select_journey, db)
  | exit_complete journey currentBalance call =>
      match complete_journey_step env held db (j_JourneyID journey)
              stationId call with
      | (returned result, db') =>
          (exit_done (card_exit_response journey currentBalance result), db')
      | (call', db') => (exit_complete journey currentBalance call', db')
      end
  | exit_done _ => (s, db)
  end.

(** Two card exits in flight. *)
Fixpoint card_exits_in_flight (schedule : list (bool * Env)) (db : Database)
    (mediaId1 stationId1 mediaId2 stationId2 : Z) (s1 s2 : card_exit)
  : card_exit * card_exit * Database :=
  match schedule with
  | [] => (s1, s2, db)
  | (true, env) :: rest =>
      let (s1', db') :=
        card_exit_step env (locks_of_exit s2) db mediaId1 stationId1 s1 in
      card_exits_in_flight rest db' mediaId1 stationId1 mediaId2 stationId2
        s1' s2
  | (false, env) :: rest =>
      let (s2', db') :=
        card_exit_step env (locks_of_exit s1) db mediaId2 stationId2 s2 in
      card_exits_in_flight rest db' mediaId1 stationId1 mediaId2 stationId2
        s1 s2'
  end.

(** A card exit with no other request in flight. *)
Fixpoint card_exit_alone (statements : nat) (env : Env) (db : Database)
    (mediaId stationId : Z) (s : card_exit) : card_exit * Database :=
  match statements with
  | O => (s, db)
  | S n =>
      let (s', db') :=
        card_exit_step env {| on_Journey := None; on_SmartCard := None |} db
          mediaId stationId s in
      card_exit_alone n env db' mediaId stationId s'
  end.

(** The journey a card exit has read is on record for the card, and no
    statement has done more to it than complete it. *)
Definition tracks (db : Database) (card : Z) (j : Journey) : Prop :=
  exists row,
    select_Journey db (j_JourneyID j) = Some row
    /\ j_CardID row = Some card
    /\ (j_Status row = Active \/ j_Status row = Completed).

(** Two exits of card 1 at station 2 after the race, both on the card's
    first Active journey: each runs its four reading statements and the
    SELECT of [complete_journey]; the first call goes through while the
    UPDATE of the second waits for the row; then the second goes on. *)
Definition overlap : list (bool * Env) :=
  [ (true, Sample.later); (true, Sample.later); (true, Sample.later);
    (true, Sample.later); (true, Sample.later);
    (false, Sample.later); (false, Sample.later); (false, Sample.later);
    (false, Sample.later); (false, Sample.later);
    (true, Sample.later); (false, Sample.later);
    (true, Sample.later); (true, Sample.later); (true, Sample.later);
    (true, Sample.later);
    (false, Sample.later); (false, Sample.later) ].

(** Two calls of [complete_journey] on the two Active journeys of card 1:
    both get past the balance check of the trigger before either
    subtracts. *)
Definition both_checked : list (bool * Env) :=
  [ (true, Sample.later); (true, Sample.later); (true, Sample.later);
    (true, Sample.later);
    (false, Sample.later); (false, Sample.later); (false, Sample.later);
    (false, Sample.later) ].

(** Then the first subtracts and returns while the UPDATE of the second
    waits for the card; then the second goes on. *)
Definition then_debited : list (bool * Env) :=
  [ (true, Sample.later); (false, Sample.later); (true, Sample.later);
    (false, Sample.later) ].

(* ================================================================== *)
(** * Booking a ticket *)
(* ================================================================== *)

(** The record [Ticket] leaves out the column [QRCodeData], which only the
    INSERT of [create_ticket_booking] and its UNIQUE constraint look at.  A
    [Store] is the database with the values of that column, one for each row
    of [Ticket]. *)
Record Store := {
  tables :> Database;
  Ticket_QRCodeData : list string
}.

(** What [create_ticket_booking] reads besides the session's clocks and
    sequences: the sequences of [Booking] and [Ticket], and the text of
    [EXTRACT(EPOCH FROM CURRENT_TIMESTAMP)]. *)
Record BookingEnv := {
  session :> Env;
  nextval_booking : Z;
  nextval_ticket : Z;
  epoch : string
}.

(** [INTERVAL '1 hour'] in clock ticks. *)
Definition one_hour : Z := 3600 * one_second.

(** The timestamps PostgreSQL accepts: from 4714-11-24 BC up to, and not
    including, 294277-01-01. *)
Definition MIN_TIMESTAMP : Z := -211813488000000000.
Definition END_TIMESTAMP : Z := 9223371331200000000.

(** [t + (hours || ' hours')::INTERVAL]: 'timestamp out of range' when the
    sum is no timestamp. *)
Definition plus_hours (t hours : Z) : pg Z :=
  let sum := t + hours * one_hour in
  if (MIN_TIMESTAMP <=? sum) && (sum <? END_TIMESTAMP)
  then ok sum
  else throw datetime_field_overflow.

(** The values of the type INTEGER. *)
Definition INTEGER (n : Z) : Prop := -2147483648 <= n <= 2147483647.

Definition with_Booking (db : Database) (rows : list Booking) : Database :=
  {| db_User := db_User db; db_SmartCard := db_SmartCard db;
     db_Station := db_Station db;
     db_Transaction := db_Transaction db; db_Booking := rows;
     db_Recharge := db_Recharge db; db_Payment := db_Payment db;
     db_Ticket := db_Ticket db; db_Journey := db_Journey db;
     db_Fare := db_Fare db |}.

Definition Booking_fare_does_not_match : string :=
  "Booking fare (%) does not match expected fare (%) for route".

(** [validate_booking_fare], BEFORE INSERT OR UPDATE ON Booking; 0.01 is one
    hundredth of a rupee. *)
Definition validate_booking_fare (env : Env) (db : Database) (NEW : Booking)
  : pg Booking :=
  let v_expected_fare :=
    get_current_fare db (CURRENT_DATE env)
      (b_SourceStationID NEW) (b_DestinationStationID NEW) in
  if (v_expected_fare >? 0)
     && (Z.abs (b_TotalFare NEW - v_expected_fare) >? 1)
  then throw (raise_exception Booking_fare_does_not_match)
  else ok NEW.

(** [chk_booking_different_stations], [chk_booking_fare_positive]. *)
Definition Booking_check (b : Booking) : pg unit :=
  _ <- require (negb (b_SourceStationID b =? b_DestinationStationID b))
         (check_violation "chk_booking_different_stations") ;;
  require (b_TotalFare b >? 0)
    (check_violation "chk_booking_fare_positive").

(** [INSERT INTO Booking]: the BEFORE INSERT trigger
    [trg_booking_validate_fare], the CHECK constraints, primary key,
    UNIQUE (TransactionID), foreign keys. *)
Definition insert_Booking (env : Env) (db : Database) (NEW : Booking)
  : pg Database :=
  NEW <- validate_booking_fare env db NEW ;;
  _ <- Booking_check NEW ;;
  _ <- require
         (negb (existsb (fun b => b_BookingID b =? b_BookingID NEW)
                  (db_Booking db)))
         (unique_violation "booking_pkey") ;;
  _ <- require
         (negb (existsb (fun b => b_TransactionID b =? b_TransactionID NEW)
                  (db_Booking db)))
         (unique_violation "booking_transactionid_key") ;;
  _ <- require
         (existsb (fun x => x_TransactionID x =? b_TransactionID NEW)
            (db_Transaction db))
         (foreign_key_violation "fk_booking_transaction") ;;
  _ <- require
         (existsb (fun s => s_StationID s =? b_SourceStationID NEW)
            (db_Station db))
         (foreign_key_violation "fk_booking_source") ;;
  _ <- require
         (existsb (fun s => s_StationID s =? b_DestinationStationID NEW)
            (db_Station db))
         (foreign_key_violation "fk_booking_destination") ;;
  ok (with_Booking db (db_Booking db ++ [NEW])).

(** [INSERT INTO Ticket (BookingID, QRCodeData, ValidFrom, ValidUntil)]:
    [chk_ticket_validity_period], primary key, UNIQUE (BookingID),
    UNIQUE (QRCodeData), [fk_ticket_booking]. *)
Definition insert_Ticket (st : Store) (NEW : Ticket) (QRCodeData : string)
  : pg Store :=
  _ <- Ticket_check NEW ;;
  _ <- require
         (negb (existsb (fun t => t_TicketID t =? t_TicketID NEW)
                  (db_Ticket st)))
         (unique_violation "ticket_pkey") ;;
  _ <- require
         (negb (existsb (fun t => t_BookingID t =? t_BookingID NEW)
                  (db_Ticket st)))
         (unique_violation "ticket_bookingid_key") ;;
  _ <- require
         (negb (existsb (String.eqb QRCodeData) (Ticket_QRCodeData st)))
         (unique_violation "ticket_qrcodedata_key") ;;
  _ <- require
         (existsb (fun b => b_BookingID b =? t_BookingID NEW) (db_Booking st))
         (foreign_key_violation "fk_ticket_booking") ;;
  ok {| tables := with_Ticket st (db_Ticket st ++ [NEW]);
        Ticket_QRCodeData := Ticket_QRCodeData st ++ [QRCodeData] |}.

(** The row [create_ticket_booking] returns. *)
Record booking_row := {
  booking_id : Z;
  booking_transaction_id : Z;
  ticket_id : Z;
  qr_code : string;
  total_fare : Z;
  valid_from : Z;
  valid_until : Z
}.

(** An INTEGER as text. *)
Definition integer_text (n : Z) : string := NilZero.string_of_int (Z.to_int n).

Definition No_fare_found : string :=
  "No fare found for route from station % to station %".

(** [create_ticket_booking(p_user_id, p_source_station_id,
    p_destination_station_id, p_payment_method, p_validity_hours)].  The
    parameter [p_payment_method] is of the enum type [payment_method]: a
    text that is not one of its values does not reach the function (the
    cast of the caller raises). *)
Definition create_ticket_booking (env : BookingEnv) (st : Store)
    (p_user_id p_source_station_id p_destination_station_id : Z)
    (p_payment_method : string) (p_validity_hours : Z)
  : pg (booking_row * Store) :=
  let v_fare :=
    get_current_fare st (CURRENT_DATE env)
      p_source_station_id p_destination_station_id in
  if v_fare <=? 0
  then throw (raise_exception No_fare_found)
  else
    let v_transaction_id := nextval_transaction env in
    db1 <- insert_Transaction st
             {| x_TransactionID := v_transaction_id;
                x_UserID := p_user_id;
                x_Amount := v_fare;
                x_TransactionType := TT_Booking |} ;;
    let v_booking_id := nextval_booking env in
    db2 <- insert_Booking env db1
             {| b_BookingID := v_booking_id;
                b_TransactionID := v_transaction_id;
                b_SourceStationID := p_source_station_id;
                b_DestinationStationID := p_destination_station_id;
                b_TotalFare := v_fare |} ;;
    db3 <- insert_Payment db2
             {| p_PaymentID := nextval_payment env;
                p_TransactionID := v_transaction_id;
                p_PaymentMethod := p_payment_method;
                p_Status := Success |} ;;
    let v_qr_code :=
      ("QR-" ++ integer_text v_booking_id ++ "-" ++ epoch env)%string in
    let v_valid_from := CURRENT_TIMESTAMP env in
    v_valid_until <- plus_hours (CURRENT_TIMESTAMP env) p_validity_hours ;;
    let v_ticket_id := nextval_ticket env in
    st4 <- insert_Ticket
             {| tables := db3; Ticket_QRCodeData := Ticket_QRCodeData st |}
             {| t_TicketID := v_ticket_id;
                t_BookingID := v_booking_id;
                t_ValidFrom := v_valid_from;
                t_ValidUntil := v_valid_until;
                t_IsUsed := false;
                t_UsedAt := None |}
             v_qr_code ;;
    ok ({| booking_id := v_booking_id;
           booking_transaction_id := v_transaction_id;
           ticket_id := v_ticket_id;
           qr_code := v_qr_code;
           total_fare := v_fare;
           valid_from := v_valid_from;
           valid_until := v_valid_until |}, st4).

(* ================================================================== *)
(** * The handlers of tickets, fares and balances *)
(* ================================================================== *)

(** A response whose payload is not a [ResponseData]:
    [ResponseHandler.success] with data of its own, or one of the responses
    above. *)
Inductive Reply (A : Type) :=
| success_with (statusCode : Z) (message : string) (data : A)
| other (r : Response).

Arguments other {A} r.

(** A station in a payload: [{ id, name }] (the model keeps no station
    code). *)
Record StationData := {
  sd_id : Z;
  sd_name : string
}.

Definition station_data (s : Station) : StationData :=
  {| sd_id := s_StationID s; sd_name := s_StationName s |}.

(** The payload of [bookTicket]. *)
Record TicketData := {
  td_ticketId : Z;
  td_bookingId : Z;
  td_transactionId : Z;
  td_qrCodeData : string;
  td_from : StationData;
  td_to : StationData;
  td_fare : Z;
  td_validFrom : Z;
  td_validUntil : Z
}.

(** [validators.getFares] on the station ids, which [getFare] reads with
    [parseInt]. *)
Definition validators_stations (fromStationId toStationId : Z)
  : option Response :=
  if negb (1 <=? fromStationId)
  then Some (validationError "fromStationId"
               "fromStationId must be a positive integer")
  else if negb (1 <=? toStationId)
  then Some (validationError "toStationId"
               "toStationId must be a positive integer")
  else None.

(** A station id in the JSON body of a request, as it was sent: a number,
    or a string. *)
Inductive sent :=
| Number (n : Z)
| Text (s : string).

Definition digit (c : ascii) : option Z :=
  let n := Z.of_N (N_of_ascii c) in
  if (48 <=? n) && (n <=? 57) then Some (n - 48) else None.

Fixpoint digits (s : string) (value : Z) : option Z :=
  match s with
  | EmptyString => Some value
  | String c rest =>
      match digit c with
      | Some d => digits rest (10 * value + d)
      | None => None
      end
  end.

Definition unsigned (s : string) : option Z :=
  match s with
  | EmptyString => None
  | _ => digits s 0
  end.

(** The integer a text stands for, when it is a sign or none and one digit
    or more ([/^[-+]?[0-9]+$/], the pattern of [isInt]); PostgreSQL reads
    such a text as the same integer. *)
Definition integer_of_text (s : string) : option Z :=
  match s with
  | String "+"%char rest => unsigned rest
  | String "-"%char rest => option_map Z.opp (unsigned rest)
  | _ => unsigned s
  end.

(** [isInt({ min: 1 })]: the validator reads the value as text, so a number
    and the string of its digits pass alike. *)
Definition isInt_min_1 (v : sent) : bool :=
  match v with
  | Number n => 1 <=? n
  | Text s =>
      match integer_of_text s with
      | Some n => 1 <=? n
      | None => false
      end
  end.

(** The INTEGER the database reads from a parameter that passed [isInt]. *)
Definition integer_of (v : sent) : Z :=
  match v with
  | Number n => n
  | Text s =>
      match integer_of_text s with
      | Some n => n
      | None => 0
      end
  end.

(** [a === b]: a number and a string are never equal. *)
Definition strictly_equal (a b : sent) : bool :=
  match a, b with
  | Number x, Number y => x =? y
  | Text s, Text t => String.eqb s t
  | _, _ => false
  end.

(** [validators.bookTicket]. *)
Definition validators_bookTicket (fromStationId toStationId : sent)
    (paymentMethod : string) : option Response :=
  if negb (isInt_min_1 fromStationId)
  then Some (validationError "fromStationId"
               "fromStationId must be a positive integer")
  else if negb (isInt_min_1 toStationId)
  then Some (validationError "toStationId"
               "toStationId must be a positive integer")
  else if negb (existsb (String.eqb paymentMethod) payment_methods)
  then Some (validationError "paymentMethod" "Invalid payment method")
  else None.

(** [bookTicket], POST /api/tickets/book, behind [authenticate] (which
    supplies [userId]) and [validators.bookTicket], with the station ids as
    they were sent.  The ticket is valid for 24 hours.  The stations are
    read after the booking is committed, and the rows are looked for with
    [===]: a row's [stationid] is a number, so a station id sent as a string
    finds none, and [fromStation.stationname] throws. *)
Definition bookTicket (env : BookingEnv) (st : Store) (userId : Z)
    (fromStationId toStationId : sent) (paymentMethod : string)
  : Reply TicketData * Store :=
  match validators_bookTicket fromStationId toStationId paymentMethod with
  | Some r => (other r, st)
  | None =>
      if strictly_equal fromStationId toStationId
      then (other (error 400
                     "Source and destination stations must be different"), st)
      else
        match create_ticket_booking env st userId (integer_of fromStationId)
                (integer_of toStationId) paymentMethod 24 with
        | inl err => (other (errorHandler err), st)
        | inr (booking, st') =>
            let stationsResult :=
              filter (fun s => (s_StationID s =? integer_of fromStationId)
                               || (s_StationID s =? integer_of toStationId))
                (db_Station st') in
            match find (fun s => strictly_equal (Number (s_StationID s))
                                   fromStationId) stationsResult,
                  find (fun s => strictly_equal (Number (s_StationID s))
                                   toStationId) stationsResult with
            | Some fromStation, Some toStation =>
                (success_with 201 "Ticket booked successfully"
                   {| td_ticketId := ticket_id booking;
                      td_bookingId := booking_id booking;
                      td_transactionId := booking_transaction_id booking;
                      td_qrCodeData := qr_code booking;
                      td_from := station_data fromStation;
                      td_to := station_data toStation;
                      td_fare := total_fare booking;
                      td_validFrom := valid_from booking;
                      td_validUntil := valid_until booking |}, st')
            | _, _ => (other TypeError, st')
            end
        end
  end.

(** The payload of [getFare]. *)
Record FareData := {
  fd_from : StationData;
  fd_to : StationData;
  fd_fare : Z
}.

(** [getFare], GET /api/stations/fares, behind [validators.getFares]. *)
Definition getFare (env : Env) (db : Database)
    (fromStationId toStationId : Z) : Reply FareData :=
  match validators_stations fromStationId toStationId with
  | Some r => other r
  | None =>
      if fromStationId =? toStationId
      then other (error 400
                    "Source and destination stations must be different")
      else
        let stationsResult :=
          filter (fun s => ((s_StationID s =? fromStationId)
                            || (s_StationID s =? toStationId))
                           && s_IsOperational s)
            (db_Station db) in
        if negb (Nat.eqb (List.length stationsResult) 2)
        then other (error 404
                      "One or both stations not found or not operational")
        else
          let fare :=
            get_current_fare db (CURRENT_DATE env)
              fromStationId toStationId in
          if fare <=? 0
          then other (error 404 "Fare not found for this route")
          else
            match find (fun s => s_StationID s =? fromStationId)
                    stationsResult,
                  find (fun s => s_StationID s =? toStationId)
                    stationsResult with
            | Some fromStation, Some toStation =>
                success_with 200 "Fare retrieved successfully"
                  {| fd_from := station_data fromStation;
                     fd_to := station_data toStation;
                     fd_fare := fare |}
            | _, _ => other TypeError
            end
  end.

(** The payload of [getBalance]. *)
Record BalanceData := {
  bd_cardId : Z;
  bd_balance : Z;
  bd_isActive : bool;
  bd_lastUsedAt : option Z
}.

(** [getBalance], GET /api/cards/balance, behind [authenticate]. *)
Definition getBalance (db : Database) (userId : Z) : Reply BalanceData :=
  match find (fun c => is_id (c_UserID c) userId && c_IsActive c)
          (db_SmartCard db) with
  | None => other (error 404 "No active smart card found for this user")
  | Some card =>
      success_with 200 "Card balance retrieved successfully"
        {| bd_cardId := c_CardID card;
           bd_balance := c_Balance card;
           bd_isActive := c_IsActive card;
           bd_lastUsedAt := c_LastUsedAt card |}
  end.

(* ================================================================== *)
(** * The gates and the recharge, with the values as they are sent *)
(* ================================================================== *)

(** [validators.journeyEntry] and [validators.journeyExit] test [mediaId] and
    [stationId] with [isInt({ min: 1 })] and do not convert them: a number
    and a string of digits both reach the handler.  As a parameter of a
    query either is read as the integer it spells; the handlers compare
    [stationId] with a column of a row, which is a number, by [!==]. *)
Definition validators_journey_sent (mediaType : string)
    (mediaId stationId : sent) : option Response :=
  if negb (existsb (String.eqb mediaType) ["Ticket"; "Card"])
  then Some (validationError "mediaType"
               "mediaType must be either Ticket or Card")
  else if negb (isInt_min_1 mediaId)
  then Some (validationError "mediaId" "mediaId must be a positive integer")
  else if negb (isInt_min_1 stationId)
  then Some (validationError "stationId"
               "stationId must be a positive integer")
  else None.

(** [journeyEntry], with [mediaId] and [stationId] as [req.body] holds
    them. *)
Definition journeyEntry_sent (env : Env) (db : Database)
    (mediaType : string) (mediaId stationId : sent) : Response * Database :=
  match find (fun s => s_StationID s =? integer_of stationId)
          (db_Station db) with
  | None => (error 404 "Station not found", db)
  | Some station =>
      if negb (s_IsOperational station)
      then (error 400 "Station is not operational", db)
      else if String.eqb mediaType "Ticket" then
        match select_ticket_booking db (integer_of mediaId) with
        | [] => (error 404 "Ticket not found", db)
        | (ticket, booking) :: _ =>
            if t_IsUsed ticket
            then (error 400 "Ticket has already been used", db)
            else if (js_now env <? t_ValidFrom ticket)
                    || (js_now env >? t_ValidUntil ticket)
            then (error 400 "Ticket is not valid at this time", db)
            else if negb (strictly_equal
                            (Number (b_SourceStationID booking)) stationId)
            then (error 400
                    "Entry station does not match ticket source station", db)
            else
              match select_active_ticket_journey db (integer_of mediaId) with
              | _ :: _ =>
                  (error 400
                     "An active journey already exists for this ticket", db)
              | [] =>
                  match start_journey env db JT_Ticket (integer_of stationId)
                          (Some (integer_of mediaId)) None with
                  | inl err => (errorHandler err, db)
                  | inr (id, db') =>
                      (success 200 "Entry permitted - Journey started"
                         (entry_data id None), db')
                  end
              end
        end
      else if String.eqb mediaType "Card" then
        match find (fun c => c_CardID c =? integer_of mediaId)
                (db_SmartCard db) with
        | None => (error 404 "Card not found", db)
        | Some card =>
            if negb (c_IsActive card)
            then (error 400 "Card is not active", db)
            else if c_Balance card <? 1000
            then (error 400
                    "Insufficient balance. Current balance: ₹${card.balance}. Minimum required: ₹10",
                  db)
            else
              match select_active_card_journey db (integer_of mediaId) with
              | _ :: _ =>
                  (error 400
                     "An active journey already exists for this card", db)
              | [] =>
                  match start_journey env db JT_Card (integer_of stationId)
                          None (Some (integer_of mediaId)) with
                  | inl err => (errorHandler err, db)
                  | inr (id, db') =>
                      (success 200 "Entry permitted - Journey started"
                         (entry_data id (Some (c_Balance card))), db')
                  end
              end
        end
      else (error 400 "Invalid media type", db)
  end.

(** [journeyExit], with [mediaId] and [stationId] as [req.body] holds
    them. *)
Definition journeyExit_sent (env : Env) (db : Database)
    (mediaType : string) (mediaId stationId : sent) : Response * Database :=
  match find (fun s => s_StationID s =? integer_of stationId)
          (db_Station db) with
  | None => (error 404 "Station not found", db)
  | Some station =>
      if negb (s_IsOperational station)
      then (error 400 "Station is not operational", db)
      else if String.eqb mediaType "Ticket" then
        match select_active_ticket_journey_booking db (integer_of mediaId) with
        | [] => (error 404 "No active journey found for this media", db)
        | (journey, booking) :: _ =>
            let paidFare := b_TotalFare booking in
            let actualFare :=
              get_current_fare db (CURRENT_DATE env)
                (j_EntryStationID journey) (integer_of stationId) in
            if actualFare >? paidFare
            then (error 400 Insufficient_fare, db)
            else
              let expectedExitStationId := b_DestinationStationID booking in
              match
                (if negb (strictly_equal stationId
                            (Number expectedExitStationId))
                 then option_map (fun _ => true)
                        (find (fun s => s_StationID s =? expectedExitStationId)
                           (db_Station db))
                 else Some false)
              with
              | None => (TypeError, db)
              | Some w =>
                  match complete_journey env db (j_JourneyID journey)
                          (integer_of stationId) with
                  | inl err => (errorHandler err, db)
                  | inr (_, db') =>
                      (success 200 "Exit permitted - Journey completed"
                         {| journeyId := j_JourneyID journey;
                            fareCharged := Some paidFare;
                            previousBalance := None;
                            newBalance := None;
                            warning := w |}, db')
                  end
              end
        end
      else if String.eqb mediaType "Card" then
        match select_active_card_journey db (integer_of mediaId) with
        | [] => (error 404 "No active journey found for this media", db)
        | journey :: _ =>
            match select_Balance db (integer_of mediaId) with
            | None => (TypeError, db)
            | Some currentBalance =>
                let fare :=
                  get_current_fare db (CURRENT_DATE env)
                    (j_EntryStationID journey) (integer_of stationId) in
                if currentBalance <? fare
                then (error 400 Insufficient_balance, db)
                else
                  match complete_journey env db (j_JourneyID journey)
                          (integer_of stationId) with
                  | inl err => (errorHandler err, db)
                  | inr (row, db') =>
                      let fareDeducted := fare_deducted row in
                      (success 200 "Exit permitted - Journey completed"
                         {| journeyId := j_JourneyID journey;
                            fareCharged := fareDeducted;
                            previousBalance := Some currentBalance;
                            newBalance :=
                              option_map
                                (fun d => js_minus (parseFloat currentBalance)
                                            (parseFloat d))
                                fareDeducted;
                            warning := false |}, db')
                  end
            end
        end
      else (error 400 "Invalid media type", db)
  end.









(* ================================================================== *)
(** * Constraints and accounts *)
(* ================================================================== *)

(** [chk_fare_different_stations] on every row of [Fare]. *)
Definition chk_fare_different_stations (db : Database) : Prop :=
  Forall (fun f => f_SourceStationID f <> f_DestinationStationID f)
    (db_Fare db).

(** PRIMARY KEY of [Station]. *)
Definition station_pkey (db : Database) : Prop :=
  NoDup (map s_StationID (db_Station db)).

(** [fk_journey_ticket] on every row of [Journey]. *)
Definition fk_journey_ticket (db : Database) : Prop :=
  forall j t,
    In j (db_Journey db) -> j_TicketID j = Some t ->
    existsb (fun r => t_TicketID r =? t) (db_Ticket db) = true.

(** [fk_recharge_transaction] on every row of [Recharge]. *)
Definition fk_recharge_transaction (db : Database) : Prop :=
  forall r,
    In r (db_Recharge db) ->
    existsb (fun x => x_TransactionID x =? r_TransactionID r)
      (db_Transaction db) = true.

(** [SELECT cardid, .. FROM smartcard WHERE userid = $1 AND isactive = true] *)
Definition select_active_cards (db : Database) (userId : Z)
  : list SmartCard :=
  filter (fun c => is_id (c_UserID c) userId && c_IsActive c)
    (db_SmartCard db).

(** At most one active card for every user. *)
Definition one_active_card_per_user (db : Database) : Prop :=
  forall userId, (List.length (select_active_cards db userId) <= 1)%nat.

(** The rows [create_ticket_booking] inserts. *)
Definition booked_Transaction (env : BookingEnv) (p_user_id v_fare : Z)
  : Transaction :=
  {| x_TransactionID := nextval_transaction env;
     x_UserID := p_user_id;
     x_Amount := v_fare;
     x_TransactionType := TT_Booking |}.

Definition booked_Booking (env : BookingEnv)
    (p_source_station_id p_destination_station_id v_fare : Z) : Booking :=
  {| b_BookingID := nextval_booking env;
     b_TransactionID := nextval_transaction env;
     b_SourceStationID := p_source_station_id;
     b_DestinationStationID := p_destination_station_id;
     b_TotalFare := v_fare |}.

Definition booked_Payment (env : BookingEnv) (p_payment_method : string)
  : Payment :=
  {| p_PaymentID := nextval_payment env;
     p_TransactionID := nextval_transaction env;
     p_PaymentMethod := p_payment_method;
     p_Status := Success |}.

Definition booked_Ticket (env : BookingEnv) (p_validity_hours : Z) : Ticket :=
  {| t_TicketID := nextval_ticket env;
     t_BookingID := nextval_booking env;
     t_ValidFrom := CURRENT_TIMESTAMP env;
     t_ValidUntil := CURRENT_TIMESTAMP env + p_validity_hours * one_hour;
     t_IsUsed := false;
     t_UsedAt := None |}.

(** The sum of a column. *)
Definition SUM (amounts : list Z) : Z := fold_right Z.add 0 amounts.

(** What a row of [Recharge] has put on a card: the amounts of the
    transactions it joins, if it is a recharge of that card. *)
Definition amount_recharged (db : Database) (card : Z) (r : Recharge)
  : list Z :=
  if r_CardID r =? card
  then map x_Amount
         (filter (fun x => x_TransactionID x =? r_TransactionID r)
            (db_Transaction db))
  else [].

(** [SELECT SUM(t.Amount) FROM Recharge r JOIN Transaction t
     ON r.TransactionID = t.TransactionID WHERE r.CardID = card]: what the
    recharges on record have put on a card. *)
Definition recharged (db : Database) (card : Z) : Z :=
  SUM (flat_map (amount_recharged db card) (db_Recharge db)).

(** What a row of [Journey] has taken from a card; NULL adds nothing. *)
Definition fare_taken (card : Z) (j : Journey) : list Z :=
  if is_id (j_CardID j) card
  then match j_FareDeducted j with
       | Some a => [a]
       | None => []
       end
  else [].

(** [SELECT SUM(FareDeducted) FROM Journey WHERE CardID = card]: what the
    journeys on record have taken from a card. *)
Definition deducted (db : Database) (card : Z) : Z :=
  SUM (flat_map (fare_taken card) (db_Journey db)).

(** [fk_recharge_card] on every row of [Recharge], [fk_journey_card] on
    every row of [Journey]. *)
Definition fk_recharge_card (db : Database) : Prop :=
  forall r,
    In r (db_Recharge db) ->
    existsb (fun c => c_CardID c =? r_CardID r) (db_SmartCard db) = true.

Definition fk_journey_card (db : Database) : Prop :=
  forall j c,
    In j (db_Journey db) -> j_CardID j = Some c ->
    existsb (fun r => c_CardID r =? c) (db_SmartCard db) = true.

(** The constraints the accounts of the cards rest on. *)
Record consistent (db : Database) : Prop := {
  consistent_journey_pkey : journey_pkey db;
  consistent_active_unpaid : active_unpaid db;
  consistent_recharge_transaction : fk_recharge_transaction db;
  consistent_recharge_card : fk_recharge_card db;
  consistent_journey_card : fk_journey_card db
}.

(** The accounts are in order: every card holds what it opened with, plus
    the recharges on record, minus the fares on record; a card not issued
    yet opens with nothing. *)
Definition accounts (opening : Z -> Z) (db : Database) : Prop :=
  (forall c,
      In c (db_SmartCard db) ->
      c_Balance c
      = opening (c_CardID c) + recharged db (c_CardID c)
        - deducted db (c_CardID c))
  /\ (forall card,
         existsb (fun c => c_CardID c =? card) (db_SmartCard db) = false ->
         opening card = 0).

(** A booking is complete: its transaction is on record for the fare of the
    booking, and so are a payment that went through and a ticket. *)
Definition booking_complete (db : Database) (b : Booking) : Prop :=
  (exists x,
      In x (db_Transaction db)
      /\ x_TransactionID x = b_TransactionID b
      /\ x_Amount x = b_TotalFare b
      /\ x_TransactionType x = TT_Booking)
  /\ (exists p,
         In p (db_Payment db)
         /\ p_TransactionID p = b_TransactionID b
         /\ p_Status p = Success)
  /\ (exists t, In t (db_Ticket db) /\ t_BookingID t = b_BookingID b).

Definition bookings_complete (db : Database) : Prop :=
  Forall (booking_complete db) (db_Booking db).

(** ** What card exits in flight rely on *)

(** What a call of [complete_journey] that has not returned, on journey
    [id] of [card], relies on: the row it has locked is still the row of the table, it was
    Active when the trigger went for the fare, and the row of the card it
    has locked is still the row it subtracted the fare from. *)
Definition call_knows (db : Database) (card id station : Z) (c : completing)
  : Prop :=
  match c with
  | select_journey | update_journey _ => True
  | returned _ => False
  | trigger_fare _ OLD cd | trigger_balance _ OLD cd _
  | trigger_debit _ OLD cd _ =>
      select_Journey db id = Some OLD /\ j_Status OLD = Active /\ cd = card
  | store_journey started OLD NEW None =>
      select_Journey db id = Some OLD
      /\ NEW = set_exit station (exit_time started) OLD
  | store_journey started OLD NEW (Some row) =>
      select_Journey db id = Some OLD
      /\ j_Status OLD = Active
      /\ exists old fare,
           find (fun r => c_CardID r =? card) (db_SmartCard db) = Some old
           /\ row = set_Balance (fun b => b - fare) old
           /\ 0 <= c_Balance row
           /\ NEW = set_FareDeducted fare
                      (set_exit station (exit_time started) OLD)
  end.

(** What a card exit in flight relies on, and what its answer says once it
    is done: the journey it names is on record for the card as Completed,
    with the fare the answer shows. *)
Definition exit_knows (db : Database) (card station : Z) (s : card_exit)
  : Prop :=
  match s with
  | exit_station | exit_journey => True
  | exit_balance j | exit_fare j _ => tracks db card j
  | exit_complete j _ call =>
      tracks db card j /\ call_knows db card (j_JourneyID j) station call
  | exit_done r =>
      forall code msg d,
        r = success code msg d ->
        exists row,
          select_Journey db (journeyId d) = Some row
          /\ j_CardID row = Some card
          /\ j_Status row = Completed
          /\ j_FareDeducted row = fareCharged d
  end.

(** No row is locked twice. *)
Definition apart (l1 l2 : locks) : Prop :=
  (forall id, on_Journey l1 = Some id -> on_Journey l2 = Some id -> False)
  /\ (forall c, on_SmartCard l1 = Some c -> on_SmartCard l2 = Some c -> False).

(** The account of a card: what it holds and what its journeys on record
    have taken add up to [total]; it holds nothing less than nothing. *)
Definition accounted (db : Database) (card total : Z) : Prop :=
  journey_pkey db
  /\ active_unpaid db
  /\ exists balance,
       select_Balance db card = Some balance
       /\ 0 <= balance
       /\ balance + deducted db card = total.

(** The row the call stores: the old row with its exit, and with the fare
    when the trigger took one. *)
Definition stores (station time : Z) (OLD NEW : Journey) : Prop :=
  NEW = set_exit station time OLD
  \/ exists fare,
       j_Status OLD = Active
       /\ NEW = set_FareDeducted fare (set_exit station time OLD).

(** A statement locks no row that another call holds. *)
Definition grows (held before after : locks) : Prop :=
  (forall id, on_Journey after = Some id ->
              on_Journey before = Some id \/ on_Journey held <> Some id)
  /\ (forall c, on_SmartCard after = Some c ->
                on_SmartCard before = Some c \/ on_SmartCard held <> Some c).

(* ================================================================== *)
(** * Everything that writes *)
(* ================================================================== *)

(** The operations above, and the booking of a ticket through its route or
    through the stored function. *)
Inductive action :=
| Operation (op : operation)
| POST_tickets_book (userId : Z) (fromStationId toStationId : sent)
    (paymentMethod : string)
| SELECT_create_ticket_booking
    (p_user_id p_source_station_id p_destination_station_id : Z)
    (p_payment_method : string) (p_validity_hours : Z).

Definition perform (env : BookingEnv) (st : Store) (a : action) : Store :=
  match a with
  | Operation op =>
      {| tables := step env st op;
         Ticket_QRCodeData := Ticket_QRCodeData st |}
  | POST_tickets_book userId fromStationId toStationId paymentMethod =>
      snd (bookTicket env st userId fromStationId toStationId paymentMethod)
  | SELECT_create_ticket_booking user src dst method hours =>
      (* a text that is no payment_method fails the statement *)
      if negb (existsb (String.eqb method) payment_methods) then st
      else
        match create_ticket_booking env st user src dst method hours with
        | inr (_, st') => st'
        | inl _ => st
        end
  end.

(** Actions one after the other, each with its own environment. *)
Fixpoint history (st : Store) (actions : list (BookingEnv * action))
  : Store :=
  match actions with
  | [] => st
  | (env, a) :: rest => history (perform env st a) rest
  end.

(** ** The ticket desk of the small network *)

Module Desk.

(** The sample network with a third user who has no card, the payment of
    its booking and the QR code of its ticket. *)
Definition store : Store :=
  {| tables :=
       {| db_User := [1; 2; 3];
          db_SmartCard := db_SmartCard Sample.db;
          db_Station := db_Station Sample.db;
          db_Transaction := db_Transaction Sample.db;
          db_Booking := db_Booking Sample.db;
          db_Recharge := [];
          db_Payment :=
            [ {| p_PaymentID := 0; p_TransactionID := 0;
                 p_PaymentMethod := "UPI"; p_Status := Success |} ];
          db_Ticket := db_Ticket Sample.db;
          db_Journey := [];
          db_Fare := db_Fare Sample.db |};
     Ticket_QRCodeData := ["QR-1-946684800.000000"] |}.

Definition env : BookingEnv :=
  {| session := Sample.env;
     nextval_booking := 2;
     nextval_ticket := 2;
     epoch := "946684800.000100" |}.

Definition later : BookingEnv :=
  {| session := Sample.later;
     nextval_booking := 3;
     nextval_ticket := 3;
     epoch := "946684800.000200" |}.

Definition evening : BookingEnv :=
  {| session :=
       {| js_now := 300; CURRENT_TIMESTAMP := 300; CURRENT_DATE := 10;
          nextval_journey := 3; nextval_transaction := 3;
          nextval_recharge := 3; nextval_payment := 3; nextval_card := 11 |};
     nextval_booking := 4;
     nextval_ticket := 4;
     epoch := "946684800.000300" |}.

(** User 1 books from station 1 to station 2 for 24 hours: the row the
    function returns and the store it leaves. *)
Definition row : booking_row :=
  {| booking_id := 2;
     booking_transaction_id := 1;
     ticket_id := 2;
     qr_code := "QR-2-946684800.000100";
     total_fare := 3000;
     valid_from := 100;
     valid_until := 100 + 24 * one_hour |}.

Definition booked : Store :=
  {| tables :=
       with_Ticket
         (with_Payment
            (with_Booking
               (with_Transaction store
                  (db_Transaction store ++ [booked_Transaction env 1 3000]))
               (db_Booking store ++ [booked_Booking env 1 2 3000]))
            (db_Payment store ++ [booked_Payment env "UPI"]))
         (db_Ticket store ++ [booked_Ticket env 24]);
     Ticket_QRCodeData :=
       Ticket_QRCodeData store ++ ["QR-2-946684800.000100"] |}.

(** The opening balances of the three cards. *)
Definition opening (card : Z) : Z :=
  if card =? 1 then 5000
  else if card =? 2 then 1500
  else if card =? 3 then 999000
  else 0.

(** A recharge of card 1, a journey with it from station 1 to station 2,
    a booking by user 2, and the registration of a card by user 3. *)
Definition day : list (BookingEnv * action) :=
  [ (env, Operation (Request (POST_cards_recharge 1 2000 "UPI")));
    (later, Operation (Request (POST_journey_entry "Card" 1 1)));
    (later, Operation (Request (POST_journey_exit "Card" 1 2)));
    (later, POST_tickets_book 2 (Number 1) (Number 2) "Wallet");
    (evening, Operation (Request (POST_cards_register 3 "UPI"))) ].

End Desk.

(* ================================================================== *)
(** * Properties *)
(* ================================================================== *)

(** ** Inversion of the statements' plumbing *)

Lemma pg_bind_inr A B (c : pg A) (k : A -> pg B) (b : B) :
  pg_bind c k = inr b -> exists a, c = inr a /\ k a = inr b.
Proof.
  destruct c as [e | a]; simpl; intros H.
  - discriminate.
  - exists a. split; [reflexivity | exact H].
Qed.

Lemma require_inr (b : bool) (e : pg_error) (u : unit) :
  require b e = inr u -> b = true.
Proof. destruct b; simpl; [reflexivity | discriminate]. Qed.

(** Splits a successful sequence of statements into its steps. *)
Ltac pg_steps H :=
  repeat match type of H with
         | pg_bind _ _ = inr _ =>
             let a := fresh "a" in
             let Ha := fresh "Hstep" in
             apply pg_bind_inr in H; destruct H as (a & Ha & H)
         | ok _ = inr _ => unfold ok in H
         end.

(** One step of a successful sequence, with names for its result. *)
Tactic Notation "pg_step" hyp(H) "as" simple_intropattern(x) ident(Hx) :=
  apply pg_bind_inr in H; destruct H as (x & Hx & H).

(** ** [get_current_fare] *)

Section Fares.

Variables today src dst : Z.

Lemma fare_where_effective (f : Fare) :
  fare_where today src dst f = true <->
  exists from, effective today src dst f from.
Proof.
  unfold fare_where, effective. split.
  - intros H.
    apply andb_prop in H. destruct H as [H Hu].
    apply andb_prop in H. destruct H as [H Hf].
    apply andb_prop in H. destruct H as [Hs Hd].
    apply Z.eqb_eq in Hs. apply Z.eqb_eq in Hd.
    destruct (f_EffectiveFrom f) as [d |]; [| discriminate].
    apply Z.leb_le in Hf.
    exists d. repeat split; trivial.
    destruct (f_EffectiveUntil f) as [u |]; [right | left; reflexivity].
    exists u. split; [reflexivity |].
    apply Z.gtb_lt in Hu. exact Hu.
  - intros (from & Hs & Hd & Hf & Hle & Hu).
    rewrite Hs, Hd, Hf, !Z.eqb_refl. simpl.
    apply Z.leb_le in Hle. rewrite Hle. simpl.
    destruct Hu as [-> | (u & -> & Hlt)]; [reflexivity |].
    apply Z.gtb_lt. exact Hlt.
Qed.

(** The row [ORDER BY .. DESC LIMIT 1] returns is one of the rows, and no
    row has a later key. *)
Lemma order_by_limit_1_max (rows : list Fare) :
  match order_by_EffectiveFrom_desc_limit_1 rows with
  | None => rows = []
  | Some m =>
      In m rows
      /\ forall f, In f rows ->
                   date_ltb (f_EffectiveFrom m) (f_EffectiveFrom f) = false
  end.
Proof.
  induction rows as [| f rest IH]; simpl; [reflexivity |].
  destruct (order_by_EffectiveFrom_desc_limit_1 rest) as [g |].
  - destruct IH as [Hin Hmax].
    destruct (date_ltb (f_EffectiveFrom f) (f_EffectiveFrom g)) eqn:Hlt.
    + split; [right; exact Hin |].
      intros x [<- | Hx]; [| apply Hmax; exact Hx].
      destruct (f_EffectiveFrom f) as [a |], (f_EffectiveFrom g) as [b |];
        simpl in *; try discriminate; try reflexivity.
      apply Z.ltb_lt in Hlt. apply Z.ltb_ge. lia.
    + split; [left; reflexivity |].
      intros x [<- | Hx].
      * destruct (f_EffectiveFrom f) as [a |]; simpl; [| reflexivity].
        apply Z.ltb_irrefl.
      * specialize (Hmax x Hx).
        destruct (f_EffectiveFrom f) as [a |],
                 (f_EffectiveFrom g) as [b |],
                 (f_EffectiveFrom x) as [c |];
          simpl in *; try discriminate; try reflexivity.
        apply Z.ltb_ge in Hlt, Hmax. apply Z.ltb_ge. lia.
  - subst rest. split; [left; reflexivity |].
    intros x [<- | []].
    destruct (f_EffectiveFrom f) as [a |]; simpl; [| reflexivity].
    apply Z.ltb_irrefl.
Qed.

End Fares.

(** C5.  For every ordered pair of stations and every day on which it is
    evaluated, [get_current_fare] returns the [FareAmount] of the effective
    fare row with the most recent [EffectiveFrom] (effective: [EffectiveFrom]
    not after the day, [EffectiveUntil] NULL or after the day), which the
    constraint [uq_fare_route] makes unique; and it returns zero when no row
    is effective. *)
Theorem get_current_fare_most_recent_effective :
  forall (db : Database) (today src dst : Z),
    uq_fare_route db ->
    (forall r from,
        In r (db_Fare db) ->
        effective today src dst r from ->
        (forall r' from',
            In r' (db_Fare db) -> effective today src dst r' from' ->
            from' <= from) ->
        get_current_fare db today src dst = f_FareAmount r)
    /\ ((forall r from, In r (db_Fare db) -> ~ effective today src dst r from) ->
        get_current_fare db today src dst = 0).
Proof.
  intros db today src dst Huq. unfold get_current_fare.
  pose proof (order_by_limit_1_max
                (filter (fare_where today src dst) (db_Fare db))) as Hmax.
  split.
  - intros r from Hin Heff Hlast.
    assert (Hr : In r (filter (fare_where today src dst) (db_Fare db))).
    { apply filter_In. split; [exact Hin |].
      apply fare_where_effective. exists from. exact Heff. }
    destruct (order_by_EffectiveFrom_desc_limit_1
                (filter (fare_where today src dst) (db_Fare db))) as [m |].
    + destruct Hmax as [Hm Hge].
      apply filter_In in Hm. destruct Hm as [Hm Hw].
      apply fare_where_effective in Hw. destruct Hw as (fm & Hem).
      specialize (Hge r Hr). specialize (Hlast m fm Hm Hem).
      destruct Heff as (Hs & Hd & Hf & _), Hem as (Hs' & Hd' & Hf' & _).
      rewrite Hf, Hf' in Hge. simpl in Hge. apply Z.ltb_ge in Hge.
      assert (fm = from) by lia. subst fm.
      f_equal. apply (Huq m r from); congruence.
    + rewrite Hmax in Hr. destruct Hr.
  - intros Hnone.
    destruct (order_by_EffectiveFrom_desc_limit_1
                (filter (fare_where today src dst) (db_Fare db))) as [m |];
      [| reflexivity].
    destruct Hmax as [Hm _].
    apply filter_In in Hm. destruct Hm as [Hm Hw].
    apply fare_where_effective in Hw. destruct Hw as (fm & Hem).
    destruct (Hnone m fm Hm Hem).
Qed.

(** ** Rows under UPDATE *)

Lemma SmartCard_check_in_range (c : SmartCard) (u : unit) :
  SmartCard_check c = inr u <-> in_range c.
Proof.
  unfold SmartCard_check, in_range, require, pg_bind, ok, throw.
  destruct (c_Balance c >=? 0) eqn:H0;
    destruct (c_Balance c <=? 1000000) eqn:H1; destruct u;
    rewrite ?Z.geb_leb in H0;
    try apply Z.leb_le in H0; try apply Z.leb_le in H1;
    try apply Z.leb_gt in H0; try apply Z.leb_gt in H1;
    split; intros H; try discriminate; try reflexivity; try lia.
Qed.

Lemma update_SmartCard_map cond set rows rows' :
  update_SmartCard cond set rows = inr rows' ->
  rows' = map (fun c => if cond c then set c else c) rows
  /\ Forall (fun c => cond c = true -> in_range (set c)) rows.
Proof.
  revert rows'. induction rows as [| c rest IH]; simpl; intros rows' H.
  - inversion H. split; [reflexivity | constructor].
  - pg_steps H. inversion H; subst rows'. clear H.
    destruct (IH _ Hstep0) as [-> Hall].
    destruct (cond c) eqn:Hc.
    + pg_steps Hstep. inversion Hstep; subst a.
      match goal with
      | H : SmartCard_check _ = inr _ |- _ =>
          apply SmartCard_check_in_range in H;
          split; [reflexivity |]; constructor; [intros _; exact H | exact Hall]
      end.
    + unfold ok in Hstep. injection Hstep as <-.
      split; [reflexivity |]. constructor; [congruence | exact Hall].
Qed.

Lemma card_kept_refl : forall rows, Forall2 card_kept rows rows.
Proof.
  induction rows; constructor; [| assumption].
  unfold card_kept. split; [| split; [| split]]; auto.
Qed.

Lemma card_kept_trans : forall a b c,
  Forall2 card_kept a b -> Forall2 card_kept b c -> Forall2 card_kept a c.
Proof.
  intros a b c Hab. revert c.
  induction Hab as [| x y xs ys Hxy _ IH]; intros c Hbc; inversion Hbc; subst.
  - constructor.
  - constructor; [| apply IH; assumption].
    unfold card_kept in *.
    destruct Hxy as (? & ? & ? & ?).
    match goal with H : _ /\ _ /\ _ /\ _ |- _ => destruct H as (? & ? & ? & ?) end.
    split; [| split; [| split]]; try congruence; auto.
Qed.

Lemma card_kept_in_range rows rows' :
  Forall2 card_kept rows rows' -> Forall in_range rows -> Forall in_range rows'.
Proof.
  induction 1 as [| x y xs ys Hxy _ IH]; intros Hr; [constructor |].
  inversion Hr; subst. constructor; [| apply IH; assumption].
  destruct Hxy as (_ & _ & _ & H). apply H. assumption.
Qed.

Lemma update_Ticket_map cond set rows rows' :
  update_Ticket cond set rows = inr rows' ->
  rows' = map (fun t => if cond t then set t else t) rows.
Proof.
  revert rows'. induction rows as [| t rest IH]; simpl; intros rows' H.
  - inversion H. reflexivity.
  - pg_steps H. inversion H; subst rows'. clear H.
    rewrite (IH _ Hstep0).
    destruct (cond t).
    + pg_steps Hstep. inversion Hstep. reflexivity.
    + inversion Hstep. reflexivity.
Qed.

(** ** The effect of the triggers *)

Lemma mark_ticket_used_inr db NEW db' :
  mark_ticket_used db NEW = inr db' ->
  db' = with_Ticket db
          (match j_TicketID NEW with
           | Some ticket => map (marked ticket (j_EntryTime NEW)) (db_Ticket db)
           | None => db_Ticket db
           end).
Proof.
  unfold mark_ticket_used. destruct (j_TicketID NEW) as [ticket |]; intros H.
  - pg_steps H. apply update_Ticket_map in Hstep. subst a.
    injection H as <-. reflexivity.
  - injection H as <-. destruct db; reflexivity.
Qed.

Lemma update_card_last_used_inr env db NEW db' :
  update_card_last_used env db NEW = inr db' ->
  db' = with_SmartCard db
          (match j_CardID NEW with
           | Some card =>
               map (touched card (CURRENT_TIMESTAMP env)) (db_SmartCard db)
           | None => db_SmartCard db
           end).
Proof.
  unfold update_card_last_used. destruct (j_CardID NEW) as [card |]; intros H.
  - pg_steps H. apply update_SmartCard_map in Hstep. destruct Hstep as [-> _].
    injection H as <-. reflexivity.
  - injection H as <-. destruct db; reflexivity.
Qed.

Lemma touched_kept card time rows :
  Forall2 card_kept rows (map (touched card time) rows).
Proof.
  induction rows as [| c rest IH]; simpl; constructor; [| exact IH].
  unfold touched, card_kept. destruct (c_CardID c =? card); simpl;
    split; [| split; [| split] | | split; [| split]]; auto.
Qed.

Lemma touched_fields card time c :
  c_CardID (touched card time c) = c_CardID c
  /\ c_Balance (touched card time c) = c_Balance c
  /\ c_IsActive (touched card time c) = c_IsActive c.
Proof. unfold touched. destruct (c_CardID c =? card); repeat split. Qed.

(** [INSERT INTO Journey] that succeeds: the new row is appended, its ticket
    is marked used, its card gets a new [LastUsedAt]. *)
Lemma insert_Journey_inr env db NEW db' :
  insert_Journey env db NEW = inr db' ->
  db' = with_SmartCard
          (with_Ticket (with_Journey db (db_Journey db ++ [NEW]))
             (match j_TicketID NEW with
              | Some ticket =>
                  map (marked ticket (j_EntryTime NEW)) (db_Ticket db)
              | None => db_Ticket db
              end))
          (match j_CardID NEW with
           | Some card =>
               map (touched card (CURRENT_TIMESTAMP env)) (db_SmartCard db)
           | None => db_SmartCard db
           end)
  /\ Journey_check NEW = inr tt
  /\ existsb (fun j => j_JourneyID j =? j_JourneyID NEW) (db_Journey db) = false.
Proof.
  unfold insert_Journey. intros H. pg_steps H.
  apply mark_ticket_used_inr in Hstep2. subst a2.
  apply update_card_last_used_inr in H. subst db'.
  apply require_inr in Hstep0. apply negb_true_iff in Hstep0.
  destruct a. split; [reflexivity | split; assumption].
Qed.

Lemma with_SmartCard_same db : with_SmartCard db (db_SmartCard db) = db.
Proof. destruct db; reflexivity. Qed.

Lemma debited_kept card fare rows :
  Forall (fun c => (c_CardID c =? card) = true ->
                   in_range (set_Balance (fun b => b - fare) c)) rows ->
  Forall2 card_kept rows (map (debited card fare) rows).
Proof.
  induction 1 as [| c rest Hc _ IH]; simpl; constructor; [| exact IH].
  unfold debited, card_kept. destruct (c_CardID c =? card); simpl;
    split; [| split; [| split] | | split; [| split]]; auto.
Qed.

(** The BEFORE UPDATE trigger, when it does not raise: the row is stored as
    given or with a fare, and only balances have changed, within limits. *)
Lemma complete_journey_fare_inr env db OLD NEW NEW' db' :
  complete_journey_fare env db OLD NEW = inr (NEW', db') ->
  (NEW' = NEW \/ exists fare, NEW' = set_FareDeducted fare NEW)
  /\ exists cards, db' = with_SmartCard db cards
                   /\ Forall2 card_kept (db_SmartCard db) cards.
Proof.
  unfold complete_journey_fare. intros H.
  assert (Hsame : (NEW, db) = (NEW', db') ->
                  (NEW' = NEW \/ exists fare, NEW' = set_FareDeducted fare NEW)
                  /\ exists cards, db' = with_SmartCard db cards
                         /\ Forall2 card_kept (db_SmartCard db) cards).
  { intros E. injection E as <- <-. split; [left; reflexivity |].
    exists (db_SmartCard db). split.
    - symmetry. apply with_SmartCard_same.
    - apply card_kept_refl. }
  destruct (j_ExitStationID NEW) as [exit_station |];
    [| apply Hsame; unfold ok in H; congruence].
  destruct (j_CardID NEW) as [card |]; [| apply Hsame; unfold ok in H; congruence].
  destruct (journey_status_eqb (j_Status NEW) Completed
            && negb (journey_status_eqb (j_Status OLD) Completed));
    [| apply Hsame; unfold ok in H; congruence].
  destruct (get_current_fare db (CURRENT_DATE env) (j_EntryStationID NEW)
              exit_station >? 0); [| apply Hsame; unfold ok in H; congruence].
  destruct (select_Balance db card) as [bal |]; [| discriminate].
  destruct (bal >=? _); [| discriminate].
  pg_steps H. injection H as <- <-.
  split; [right; eexists; reflexivity |].
  apply update_SmartCard_map in Hstep. destruct Hstep as [-> Hall].
  eexists. split; [reflexivity |].
  apply debited_kept. exact Hall.
Qed.

(** ** The UPDATE of [complete_journey] *)

Lemma update_Journey_exit_inr env id station rows :
  forall db rows' db' returning,
    update_Journey_exit env db id station rows = inr (rows', db', returning) ->
    Forall2 (journey_exited id station (exit_time env)) rows rows'
    /\ exists cards, db' = with_SmartCard db cards
                     /\ Forall2 card_kept (db_SmartCard db) cards.
Proof.
  induction rows as [| OLD rest IH]; simpl; intros db rows' db' returning H.
  - injection H as <- <- <-. split; [constructor |].
    exists (db_SmartCard db). split.
    + symmetry. apply with_SmartCard_same.
    + apply card_kept_refl.
  - destruct (j_JourneyID OLD =? id) eqn:Hid.
    + pg_step H as [NEW db1] Htrigger.
      pg_step H as [] Hcheck. pg_step H as [] Hkeys.
      pg_step H as [[rest' db2] ret] Hupdate.
      injection H as <- <- <-.
      apply complete_journey_fare_inr in Htrigger.
      destruct Htrigger as (Hnew & cards1 & -> & Hk1).
      apply IH in Hupdate. destruct Hupdate as (Hrest & cards2 & -> & Hk2).
      split.
      * constructor; [| exact Hrest].
        unfold journey_exited. rewrite Hid. exact Hnew.
      * exists cards2. split; [reflexivity |].
        eapply card_kept_trans; [exact Hk1 | exact Hk2].
    + pg_step H as [[rest' db2] ret] Hupdate.
      injection H as <- <- <-.
      apply IH in Hupdate. destruct Hupdate as (Hrest & cards2 & -> & Hk2).
      split.
      * constructor; [| exact Hrest].
        unfold journey_exited. rewrite Hid. reflexivity.
      * exists cards2. split; [reflexivity | exact Hk2].
Qed.

(** [complete_journey] that succeeds: the journey it was given was Active,
    the rows with its key are exited, balances stay within limits, and no
    other table is written. *)
Lemma complete_journey_inr env db id station row db' :
  complete_journey env db id station = inr (row, db') ->
  (exists v, select_Journey db id = Some v /\ j_Status v = Active)
  /\ Forall2 (journey_exited id station (exit_time env))
       (db_Journey db) (db_Journey db')
  /\ Forall2 card_kept (db_SmartCard db) (db_SmartCard db')
  /\ db_Ticket db' = db_Ticket db
  /\ same_directory db db'
  /\ same_payments db db'.
Proof.
  unfold complete_journey, select_Journey. intros H.
  destruct (find (fun j => j_JourneyID j =? id) (db_Journey db)) as [v |];
    [| discriminate].
  destruct (journey_status_eqb (j_Status v) Active) eqn:Hactive;
    [| discriminate].
  simpl in H. pg_step H as [[rows db1] returning] Hupdate.
  injection H as <- <-.
  apply update_Journey_exit_inr in Hupdate.
  destruct Hupdate as (Hrows & cards & -> & Hk).
  split; [| repeat split; simpl; assumption].
  exists v. split; [reflexivity |].
  destruct (j_Status v); [reflexivity | discriminate | discriminate].
Qed.

(** ** The effect of the stored functions *)

Lemma start_journey_inr env db ty station ticket card id db' :
  start_journey env db ty station ticket card = inr (id, db') ->
  id = nextval_journey env
  /\ insert_Journey env db (new_journey env ty station ticket card) = inr db'.
Proof.
  unfold start_journey. intros H.
  pg_step H as [] Hvalid. pg_step H as db1 Hinsert.
  injection H as <- <-. split; [reflexivity | exact Hinsert].
Qed.

(** [start_journey] refuses a ticket whose row says it is used. *)
Lemma start_journey_used_ticket env db station ticket card r :
  find (fun t => t_TicketID t =? ticket) (db_Ticket db) = Some r ->
  t_IsUsed r = true ->
  start_journey env db JT_Ticket station (Some ticket) card
  = inl (raise_exception "Ticket % is invalid or already used").
Proof.
  intros Hfind Hused. unfold start_journey. rewrite Hfind. simpl.
  rewrite Hused. reflexivity.
Qed.

Lemma find_app_new A (p : A -> bool) (rows : list A) (x : A) :
  existsb p rows = false -> p x = true -> find p (rows ++ [x]) = Some x.
Proof.
  induction rows as [| y rest IH]; simpl; intros Hnone Hx.
  - rewrite Hx. reflexivity.
  - apply orb_false_iff in Hnone. destruct Hnone as [Hy Hrest].
    rewrite Hy. apply IH; assumption.
Qed.

Lemma insert_Transaction_inr db x db' :
  insert_Transaction db x = inr db' ->
  db' = with_Transaction db (db_Transaction db ++ [x])
  /\ existsb (fun y => x_TransactionID y =? x_TransactionID x)
       (db_Transaction db) = false.
Proof.
  unfold insert_Transaction. intros H.
  pg_step H as [] Hamount. pg_step H as [] Hkey. pg_step H as [] Huser.
  injection H as <-. split; [reflexivity |].
  apply require_inr in Hkey. apply negb_true_iff in Hkey. exact Hkey.
Qed.

Lemma insert_Payment_inr db p db' :
  insert_Payment db p = inr db' ->
  db' = with_Payment db (db_Payment db ++ [p]).
Proof.
  unfold insert_Payment. intros H.
  pg_step H as [] Hkey. pg_step H as [] Hunique. pg_step H as [] Hfk.
  injection H as <-. reflexivity.
Qed.

Lemma insert_SmartCard_inr db c db' :
  insert_SmartCard db c = inr db' ->
  db' = with_SmartCard db (db_SmartCard db ++ [c])
  /\ in_range c
  /\ existsb (fun r => c_CardID r =? c_CardID c) (db_SmartCard db) = false.
Proof.
  unfold insert_SmartCard. intros H.
  pg_step H as [] Hcheck. pg_step H as [] Hkey. pg_step H as [] Hfk.
  injection H as <-. split; [reflexivity |].
  apply SmartCard_check_in_range in Hcheck.
  apply require_inr in Hkey. apply negb_true_iff in Hkey.
  split; assumption.
Qed.

(** [recharge_smart_card] that succeeds: one row more in [Transaction],
    [Recharge] and [Payment], and the amount added to the rows of the card,
    which stay within the balance limits. *)
Lemma recharge_smart_card_inr env db user card amount method row db' :
  recharge_smart_card env db user card amount method = inr (row, db') ->
  db_SmartCard db'
  = map (credited card amount (CURRENT_TIMESTAMP env)) (db_SmartCard db)
  /\ Forall (fun c => (c_CardID c =? card) = true ->
                      in_range (set_Balance (fun b => b + amount) c))
       (db_SmartCard db)
  /\ 0 < amount
  /\ db_Journey db' = db_Journey db
  /\ db_Ticket db' = db_Ticket db
  /\ same_directory db db'.
Proof.
  unfold recharge_smart_card. intros H.
  destruct (amount <=? 0) eqn:Hpos; [discriminate |].
  apply Z.leb_gt in Hpos.
  destruct (negb _); [discriminate |].
  pg_step H as db1 Htransaction. pg_step H as db2 Hrecharge.
  pg_step H as db3 Hpayment. injection H as <- <-.
  apply insert_Transaction_inr in Htransaction.
  destruct Htransaction as [-> Hfresh].
  apply insert_Payment_inr in Hpayment. subst db3.
  unfold insert_Recharge in Hrecharge.
  pg_step Hrecharge as [] Hkey. pg_step Hrecharge as [] Hunique.
  pg_step Hrecharge as [] Hfk. pg_step Hrecharge as [] Hfk'.
  unfold process_card_recharge in Hrecharge. simpl in Hrecharge.
  rewrite find_app_new in Hrecharge;
    [| exact Hfresh | simpl; apply Z.eqb_refl].
  simpl in Hrecharge. pg_step Hrecharge as rows Hupdate.
  injection Hrecharge as <-.
  apply update_SmartCard_map in Hupdate. destruct Hupdate as [-> Hall].
  simpl. repeat split; try assumption.
Qed.

(** ** What a request does to the database *)

(** Case analysis on the outermost test of a handler's run. *)
Ltac break_run H :=
  match type of H with
  | (match ?x with _ => _ end) = _ => destruct x eqn:?
  | (if ?x then _ else _) = _ => destruct x eqn:?
  | (let '(_, _) := ?x in _) = _ => destruct x eqn:?
  end.

Ltac unchanged H := injection H as <- <-; left; reflexivity.

Lemma errorHandler_not_success err : is_success (errorHandler err) = false.
Proof. destruct err; reflexivity. Qed.

(** Turns the tests [mediaType === '..'] that succeeded into equations. *)
Ltac media_type :=
  repeat match goal with
         | H : String.eqb _ _ = true |- _ => apply String.eqb_eq in H; subst
         end.

Lemma journeyEntry_writes env db mediaType mediaId stationId resp db' :
  journeyEntry env db mediaType mediaId stationId = (resp, db') ->
  (db' = db /\ is_success resp = false)
  \/ (writes env db (POST_journey_entry mediaType mediaId stationId) db'
      /\ is_success resp = true).
Proof.
  unfold journeyEntry. intros H.
  repeat (break_run H;
          try (injection H as <- <-; left; split; reflexivity));
    injection H as <- <-; media_type.
  - left. split; [reflexivity | apply errorHandler_not_success].
  - right. split; [| reflexivity].
    eapply writes_ticket_entry; eassumption.
  - left. split; [reflexivity | apply errorHandler_not_success].
  - right. split; [| reflexivity].
    eapply writes_card_entry; eassumption.
Qed.

Lemma journeyExit_writes env db mediaType mediaId stationId resp db' :
  journeyExit env db mediaType mediaId stationId = (resp, db') ->
  (db' = db /\ is_success resp = false)
  \/ (writes env db (POST_journey_exit mediaType mediaId stationId) db'
      /\ is_success resp = true).
Proof.
  unfold journeyExit. intros H.
  repeat (break_run H;
          try (injection H as <- <-; left; split; reflexivity));
    injection H as <- <-; media_type.
  - left. split; [reflexivity | apply errorHandler_not_success].
  - right. split; [| reflexivity].
    eapply writes_ticket_exit; eassumption.
  - left. split; [reflexivity | apply errorHandler_not_success].
  - right. split; [| reflexivity].
    eapply writes_card_exit; eassumption.
Qed.

Lemma validators_rechargeCard_refuses amount paymentMethod r :
  validators_rechargeCard amount paymentMethod = Some r ->
  is_success r = false.
Proof.
  unfold validators_rechargeCard. intros H.
  repeat (break_run H; try (injection H as <-; reflexivity)).
  discriminate.
Qed.

Lemma rechargeCard_writes env db userId amount paymentMethod resp db' :
  rechargeCard env db userId amount paymentMethod = (resp, db') ->
  (db' = db /\ is_success resp = false)
  \/ (writes env db (POST_cards_recharge userId amount paymentMethod) db'
      /\ is_success resp = true).
Proof.
  unfold rechargeCard. intros H.
  destruct (validators_rechargeCard amount paymentMethod) as [r |] eqn:Hv.
  - injection H as <- <-. left. split; [reflexivity |].
    eapply validators_rechargeCard_refuses; eassumption.
  - repeat (break_run H;
            try (injection H as <- <-; left; split; reflexivity));
      injection H as <- <-.
    + left. split; [reflexivity | apply errorHandler_not_success].
    + right. split; [| reflexivity].
      eapply writes_recharge; eassumption.
Qed.

Lemma registerCard_writes env db userId paymentMethod resp db' :
  registerCard env db userId paymentMethod = (resp, db') ->
  db' = db
  \/ writes env db (POST_cards_register userId paymentMethod) db'.
Proof.
  unfold registerCard. intros H.
  repeat (break_run H; try (injection H as <- <-; left; reflexivity));
    injection H as <- <-; right.
  - eapply writes_register_transaction; eassumption.
  - eapply writes_register_payment; eassumption.
  - eapply writes_register_card; eassumption.
Qed.

(** Every request leaves the database as it was or writes as [writes] says. *)
Lemma handle_writes env db r resp db' :
  handle env db r = (resp, db') -> db' = db \/ writes env db r db'.
Proof.
  destruct r as [mt m st | mt m st | u a pm | u pm]; simpl; intros H.
  - destruct (validators_journey mt m st);
      [injection H as <- <-; left; reflexivity |].
    apply journeyEntry_writes in H. destruct H as [[-> _] | [H _]]; auto.
  - destruct (validators_journey mt m st);
      [injection H as <- <-; left; reflexivity |].
    apply journeyExit_writes in H. destruct H as [[-> _] | [H _]]; auto.
  - apply rechargeCard_writes in H. destruct H as [[-> _] | [H _]]; auto.
  - apply registerCard_writes in H. exact H.
Qed.

(** ** Balances stay within the limits *)

Lemma credited_kept card amount time rows :
  Forall (fun c => (c_CardID c =? card) = true ->
                   in_range (set_Balance (fun b => b + amount) c)) rows ->
  Forall2 card_kept rows (map (credited card amount time) rows).
Proof.
  induction 1 as [| c rest Hc _ IH]; simpl; constructor; [| exact IH].
  unfold credited, card_kept. destruct (c_CardID c =? card); simpl;
    split; [| split; [| split] | | split; [| split]]; auto.
Qed.

Lemma start_journey_cards env db ty station ticket card id db' :
  start_journey env db ty station ticket card = inr (id, db') ->
  Forall2 card_kept (db_SmartCard db) (db_SmartCard db').
Proof.
  intros H. apply start_journey_inr in H. destruct H as [_ H].
  apply insert_Journey_inr in H. destruct H as (-> & _ & _). simpl.
  destruct card as [c |]; [apply touched_kept | apply card_kept_refl].
Qed.

Lemma recharge_smart_card_cards env db user card amount method row db' :
  recharge_smart_card env db user card amount method = inr (row, db') ->
  Forall2 card_kept (db_SmartCard db) (db_SmartCard db').
Proof.
  intros H. apply recharge_smart_card_inr in H.
  destruct H as (-> & Hall & _). apply credited_kept. exact Hall.
Qed.

Lemma writes_in_range env db r db' :
  writes env db r db' -> balances_in_range db -> balances_in_range db'.
Proof.
  unfold balances_in_range.
  intros W Hdb. destruct W;
    repeat match goal with
           | H : start_journey _ _ _ _ _ _ = inr _ |- _ =>
               apply start_journey_cards in H
           | H : complete_journey _ _ _ _ = inr _ |- _ =>
               apply complete_journey_inr in H;
               destruct H as (_ & _ & H & _)
           | H : recharge_smart_card _ _ _ _ _ _ = inr _ |- _ =>
               apply recharge_smart_card_cards in H
           | H : insert_Transaction _ _ = inr _ |- _ =>
               apply insert_Transaction_inr in H; destruct H as [-> _]
           | H : insert_Payment _ _ = inr _ |- _ =>
               apply insert_Payment_inr in H; subst
           | H : insert_SmartCard _ _ = inr _ |- _ =>
               apply insert_SmartCard_inr in H; destruct H as (-> & ? & _)
           end;
    simpl;
    try (eapply card_kept_in_range; eassumption);
    try assumption.
  apply Forall_app. split; [assumption |]. constructor; [assumption | constructor].
Qed.

Lemma handle_in_range env db r :
  balances_in_range db -> balances_in_range (snd (handle env db r)).
Proof.
  intros Hdb. destruct (handle env db r) as [resp db'] eqn:H. simpl.
  apply handle_writes in H. destruct H as [-> | W]; [exact Hdb |].
  eapply writes_in_range; eassumption.
Qed.

Lemma execute_in_range env db s :
  balances_in_range db -> balances_in_range (execute env db s).
Proof.
  unfold balances_in_range. intros Hdb.
  destruct s as [ty st t c | id st | u c a m]; simpl.
  - destruct (start_journey env db ty st t c) as [e | [id db']] eqn:H;
      [exact Hdb |].
    apply start_journey_cards in H. eapply card_kept_in_range; eassumption.
  - destruct (complete_journey env db id st) as [e | [row db']] eqn:H;
      [exact Hdb |].
    apply complete_journey_inr in H. destruct H as (_ & _ & H & _).
    eapply card_kept_in_range; eassumption.
  - destruct (recharge_smart_card env db u c a m) as [e | [row db']] eqn:H;
      [exact Hdb |].
    apply recharge_smart_card_cards in H.
    eapply card_kept_in_range; eassumption.
Qed.

Lemma run_in_range ops :
  forall db, balances_in_range db -> balances_in_range (run db ops).
Proof.
  induction ops as [| [env op] rest IH]; simpl; intros db Hdb; [exact Hdb |].
  apply IH. destruct op as [r | s]; simpl.
  - apply handle_in_range. exact Hdb.
  - apply execute_in_range. exact Hdb.
Qed.

(** A credit that would take a row of the card above the limit raises. *)
Lemma recharge_smart_card_over_limit env db user card amount method c :
  In c (db_SmartCard db) -> c_CardID c = card ->
  1000000 < c_Balance c + amount ->
  exists e, recharge_smart_card env db user card amount method = inl e.
Proof.
  intros Hin Hid Hover.
  destruct (recharge_smart_card env db user card amount method)
    as [e | [row db']] eqn:H; [exists e; reflexivity |].
  apply recharge_smart_card_inr in H. destruct H as (_ & Hall & _).
  rewrite Forall_forall in Hall. specialize (Hall c Hin).
  rewrite Hid, Z.eqb_refl in Hall. specialize (Hall eq_refl).
  unfold in_range in Hall. simpl in Hall. lia.
Qed.

(** C6.  From a database whose balances lie in [0, 10000] rupees, every
    sequence of operations (gate calls, recharges, registrations, the stored
    functions called directly) leads to a database whose balances lie in
    [0, 10000]; and there a credit whose result would exceed 10000 fails,
    as a statement and as a request, and leaves the database, so the balance,
    as it was. *)
Theorem balance_in_range_and_credit_over_limit_fails :
  forall (db : Database) (ops : list (Env * operation)),
    balances_in_range db ->
    balances_in_range (run db ops)
    /\ (forall env user card amount method c,
           In c (db_SmartCard (run db ops)) -> c_CardID c = card ->
           1000000 < c_Balance c + amount ->
           (exists e,
               recharge_smart_card env (run db ops) user card amount method
               = inl e)
           /\ execute env (run db ops)
                (SELECT_recharge_smart_card user card amount method)
              = run db ops)
    /\ (forall env userId amount method c,
           find (fun c => is_id (c_UserID c) userId && c_IsActive c)
             (db_SmartCard (run db ops)) = Some c ->
           1000000 < c_Balance c + amount ->
           exists resp,
             rechargeCard env (run db ops) userId amount method
             = (resp, run db ops)
             /\ is_success resp = false).
Proof.
  intros db ops Hdb. split; [apply run_in_range; exact Hdb |].
  generalize (run db ops). clear db ops Hdb. intros db. split.
  - intros env user card amount method c Hin Hid Hover.
    destruct (@recharge_smart_card_over_limit env db user card amount method
                c Hin Hid Hover) as [e He].
    split; [exists e; exact He |].
    simpl. rewrite He. reflexivity.
  - intros env userId amount method c Hfind Hover.
    unfold rechargeCard.
    destruct (validators_rechargeCard amount method) as [r |] eqn:Hv.
    + exists r. split; [reflexivity |].
      eapply validators_rechargeCard_refuses. exact Hv.
    + rewrite Hfind.
      destruct (@recharge_smart_card_over_limit env db userId (c_CardID c)
                  amount method c) as [e He];
        [eapply find_some; exact Hfind | reflexivity | exact Hover |].
      rewrite He. exists (errorHandler e).
      split; [reflexivity | apply errorHandler_not_success].
Qed.

(** ** At most one Active journey for a ticket or a card *)

Lemma filter_length_le A (R : A -> A -> Prop) (p : A -> bool) l l' :
  Forall2 R l l' ->
  (forall x y, R x y -> p y = true -> p x = true) ->
  (List.length (filter p l') <= List.length (filter p l))%nat.
Proof.
  intros H HR. induction H as [| x y xs ys Hxy _ IH]; simpl; [lia |].
  destruct (p y) eqn:Hy.
  - rewrite (HR x y Hxy Hy). simpl. lia.
  - destruct (p x); simpl; lia.
Qed.

(** A row exited by [complete_journey] keeps its key and its media, and is
    not Active unless it is the row it was. *)
Lemma journey_exited_fields id station time j j' :
  journey_exited id station time j j' ->
  j_JourneyID j' = j_JourneyID j
  /\ j_TicketID j' = j_TicketID j
  /\ j_CardID j' = j_CardID j
  /\ ((j_JourneyID j =? id) = true -> j_Status j' = Completed)
  /\ ((j_JourneyID j =? id) = false -> j' = j).
Proof.
  unfold journey_exited. destruct (j_JourneyID j =? id).
  - intros [-> | [fare ->]]; simpl; repeat split; auto; discriminate.
  - intros ->. repeat split; auto; discriminate.
Qed.

Lemma journey_exited_active id station time j j' (p : Journey -> bool) :
  journey_exited id station time j j' ->
  p j' && journey_status_eqb (j_Status j') Active = true ->
  j' = j.
Proof.
  intros H Hp. apply journey_exited_fields in H.
  destruct H as (_ & _ & _ & Hdone & Hsame).
  destruct (j_JourneyID j =? id); [| apply Hsame; reflexivity].
  rewrite (Hdone eq_refl) in Hp. rewrite andb_false_r in Hp. discriminate.
Qed.

Lemma start_journey_journeys env db ty station ticket card id db' :
  start_journey env db ty station ticket card = inr (id, db') ->
  db_Journey db' = db_Journey db ++ [new_journey env ty station ticket card].
Proof.
  intros H. apply start_journey_inr in H. destruct H as [_ H].
  apply insert_Journey_inr in H. destruct H as (-> & _ & _). reflexivity.
Qed.

Lemma complete_journey_one_active env db id station row db' :
  complete_journey env db id station = inr (row, db') ->
  one_active_per_media db -> one_active_per_media db'.
Proof.
  intros H [Ht Hc]. apply complete_journey_inr in H.
  destruct H as (_ & Hrows & _).
  unfold one_active_per_media, select_active_ticket_journey,
    select_active_card_journey.
  split.
  - intros ticket. etransitivity; [| apply (Ht ticket)].
    eapply filter_length_le; [exact Hrows |].
    intros x y Hxy Hy.
    rewrite <- (@journey_exited_active _ _ _ x y
                  (fun j => is_id (j_TicketID j) ticket) Hxy Hy).
    exact Hy.
  - intros card. etransitivity; [| apply (Hc card)].
    eapply filter_length_le; [exact Hrows |].
    intros x y Hxy Hy.
    rewrite <- (@journey_exited_active _ _ _ x y
                  (fun j => is_id (j_CardID j) card) Hxy Hy).
    exact Hy.
Qed.

Lemma writes_one_active env db r db' :
  writes env db r db' -> one_active_per_media db -> one_active_per_media db'.
Proof.
  intros W Hdb.
  destruct W as [ticket station id db' Hnone Hstart
                | card station id db' Hnone Hstart
                | ticket station journey booking rest row db' _ Hdone
                | card station journey rest row db' _ Hdone
                | userId card amount method row db' Hcredit
                | userId method x db' Hx
                | userId method x p db1 db' Hx Hp
                | userId method x p db1 db2 db' Hx Hp Hc].
  - destruct Hdb as [Ht Hc]. apply start_journey_journeys in Hstart.
    unfold one_active_per_media, select_active_ticket_journey,
      select_active_card_journey in *.
    rewrite Hstart. split.
    + intros t. rewrite filter_app, length_app. simpl.
      destruct (ticket =? t) eqn:E; simpl.
      * apply Z.eqb_eq in E. subst t. rewrite Hnone. simpl. lia.
      * specialize (Ht t). lia.
    + intros c. rewrite filter_app, length_app. simpl.
      specialize (Hc c). lia.
  - destruct Hdb as [Ht Hc]. apply start_journey_journeys in Hstart.
    unfold one_active_per_media, select_active_ticket_journey,
      select_active_card_journey in *.
    rewrite Hstart. split.
    + intros t. rewrite filter_app, length_app. simpl.
      specialize (Ht t). lia.
    + intros c. rewrite filter_app, length_app. simpl.
      destruct (card =? c) eqn:E; simpl.
      * apply Z.eqb_eq in E. subst c. rewrite Hnone. simpl. lia.
      * specialize (Hc c). lia.
  - eapply complete_journey_one_active; eassumption.
  - eapply complete_journey_one_active; eassumption.
  - apply recharge_smart_card_inr in Hcredit.
    destruct Hcredit as (_ & _ & _ & Hj & _).
    unfold one_active_per_media, select_active_ticket_journey,
      select_active_card_journey in *.
    rewrite Hj. exact Hdb.
  - apply insert_Transaction_inr in Hx. destruct Hx as [-> _]. exact Hdb.
  - apply insert_Transaction_inr in Hx. destruct Hx as [-> _].
    apply insert_Payment_inr in Hp. subst db'. exact Hdb.
  - apply insert_Transaction_inr in Hx. destruct Hx as [-> _].
    apply insert_Payment_inr in Hp. subst db2.
    apply insert_SmartCard_inr in Hc. destruct Hc as (-> & _). exact Hdb.
Qed.

(** C2.  For every ticket and every card, after any sequence of requests
    (entries, exits, recharges, registrations) served one after the other
    from a database with at most one Active journey per media, at most one
    journey row with status Active exists for that media. *)
Theorem one_active_journey_per_media :
  forall (calls : list (Env * request)) (db : Database),
    one_active_per_media db ->
    one_active_per_media (serve db calls).
Proof.
  induction calls as [| [env r] rest IH]; simpl; intros db Hdb; [exact Hdb |].
  apply IH. destruct (handle env db r) as [resp db'] eqn:H. simpl.
  apply handle_writes in H. destruct H as [-> | W]; [exact Hdb |].
  eapply writes_one_active; eassumption.
Qed.

(** ** [IsUsed] *)

Lemma marked_fields ticket time t :
  t_TicketID (marked ticket time t) = t_TicketID t
  /\ t_IsUsed (marked ticket time t)
     = if t_TicketID t =? ticket then true else t_IsUsed t.
Proof.
  unfold marked. destruct (t_TicketID t =? ticket); simpl.
  - destruct (t_IsUsed t) eqn:U; simpl; split; auto.
  - split; reflexivity.
Qed.

Lemma select_IsUsed_marked db rows ticket time id :
  rows = map (marked ticket time) (db_Ticket db) ->
  select_IsUsed (with_Ticket db rows) id
  = if id =? ticket
    then option_map (fun _ => true) (select_IsUsed db id)
    else select_IsUsed db id.
Proof.
  intros ->. unfold select_IsUsed. simpl.
  induction (db_Ticket db) as [| t rest IH]; simpl.
  - destruct (id =? ticket); reflexivity.
  - destruct (marked_fields ticket time t) as [-> Hused].
    destruct (t_TicketID t =? id) eqn:E; simpl; [| exact IH].
    rewrite Hused. apply Z.eqb_eq in E. rewrite E.
    destruct (id =? ticket); reflexivity.
Qed.

Lemma existsb_find A (p : A -> bool) (l : list A) :
  existsb p l = true -> exists x, find p l = Some x.
Proof.
  induction l as [| y rest IH]; simpl; [discriminate |].
  destruct (p y); [intros _; exists y; reflexivity | exact IH].
Qed.

(** A journey starts only with a ticket whose row says it is not used. *)
Lemma start_journey_ticket_unused env db ty station ticket card id db' :
  start_journey env db ty station (Some ticket) card = inr (id, db') ->
  ty = JT_Ticket /\ card = None /\ select_IsUsed db ticket = Some false.
Proof.
  intros H. pose proof H as Hinsert.
  apply start_journey_inr in Hinsert. destruct Hinsert as [_ Hinsert].
  unfold insert_Journey in Hinsert.
  pg_step Hinsert as [] Hcheck. pg_step Hinsert as [] Hkey.
  pg_step Hinsert as [] Hfk. clear Hinsert Hkey.
  unfold Journey_check in Hcheck. pg_step Hcheck as [] Hmethod.
  apply require_inr in Hmethod. simpl in Hmethod.
  destruct ty; [| rewrite andb_false_r in Hmethod; discriminate].
  split; [reflexivity |].
  split; [destruct card; [discriminate | reflexivity] |].
  unfold Journey_foreign_keys in Hfk. pg_step Hfk as [] Hticket.
  apply require_inr in Hticket. simpl in Hticket.
  apply existsb_find in Hticket. destruct Hticket as [r Hr].
  unfold start_journey in H. rewrite Hr in H. simpl in H.
  unfold select_IsUsed. rewrite Hr. simpl.
  destruct (t_IsUsed r); [discriminate | reflexivity].
Qed.

(** What [start_journey] does to the ticket table. *)
Lemma start_journey_tickets env db ty station ticket card id db' :
  start_journey env db ty station ticket card = inr (id, db') ->
  forall x,
    select_IsUsed db' x
    = match ticket with
      | Some t => if x =? t then Some true else select_IsUsed db x
      | None => select_IsUsed db x
      end.
Proof.
  intros H x. pose proof H as Hinsert.
  apply start_journey_inr in Hinsert. destruct Hinsert as [_ Hinsert].
  apply insert_Journey_inr in Hinsert. destruct Hinsert as (-> & _ & _).
  destruct ticket as [t |]; simpl.
  - apply start_journey_ticket_unused in H. destruct H as (_ & _ & Hunused).
    change (select_IsUsed
              (with_Ticket db (map (marked t (CURRENT_TIMESTAMP env))
                                 (db_Ticket db))) x
            = if x =? t then Some true else select_IsUsed db x).
    rewrite (@select_IsUsed_marked db _ t (CURRENT_TIMESTAMP env) x eq_refl).
    destruct (x =? t) eqn:E; [| reflexivity].
    apply Z.eqb_eq in E. subst x. rewrite Hunused. reflexivity.
  - reflexivity.
Qed.

Lemma select_IsUsed_same db db' x :
  db_Ticket db' = db_Ticket db -> select_IsUsed db' x = select_IsUsed db x.
Proof. unfold select_IsUsed. intros ->. reflexivity. Qed.

(** What a successful [start_journey] with ticket [x] means for [x]. *)
Lemma start_journey_flips env db ty station x card id db' :
  start_journey env db ty station (Some x) card = inr (id, db') ->
  ty = JT_Ticket /\ card = None
  /\ select_IsUsed db x = Some false
  /\ select_IsUsed db' x = Some true
  /\ db_Journey db'
     = db_Journey db ++ [new_journey env JT_Ticket station (Some x) None].
Proof.
  intros H.
  destruct (start_journey_ticket_unused _ _ _ _ _ _ H) as (-> & -> & Hunused).
  repeat split; try assumption.
  - rewrite (start_journey_tickets _ _ _ _ _ _ H x), Z.eqb_refl. reflexivity.
  - apply start_journey_journeys in H. exact H.
Qed.

(** One operation leaves [IsUsed] of a ticket as it was, unless it is a
    successful start with that ticket, which takes it from false to true. *)
Lemma step_IsUsed env db op x :
  select_IsUsed (step env db op) x = select_IsUsed db x
  \/ exists station,
       starts_with_ticket op x station
       /\ select_IsUsed db x = Some false
       /\ select_IsUsed (step env db op) x = Some true
       /\ db_Journey (step env db op)
          = db_Journey db ++ [new_journey env JT_Ticket station (Some x) None].
Proof.
  destruct op as [r | s]; simpl.
  - destruct (handle env db r) as [resp db'] eqn:H. simpl.
    apply handle_writes in H. destruct H as [-> | W]; [left; reflexivity |].
    destruct W as [ticket station id db' Hnone Hstart
                  | card station id db' Hnone Hstart
                  | ticket station journey booking rest row db' _ Hdone
                  | card station journey rest row db' _ Hdone
                  | userId card amount method row db' Hcredit
                  | userId method t db' Ht
                  | userId method t p db1 db' Ht Hp
                  | userId method t p db1 db2 db' Ht Hp Hc].
    + destruct (x =? ticket) eqn:E.
      * apply Z.eqb_eq in E. subst ticket. right. exists station.
        apply start_journey_flips in Hstart.
        destruct Hstart as (_ & _ & Hu & Hu' & Hj).
        repeat split; try assumption. left. reflexivity.
      * left. rewrite (start_journey_tickets _ _ _ _ _ _ Hstart x), E.
        reflexivity.
    + left. rewrite (start_journey_tickets _ _ _ _ _ _ Hstart x). reflexivity.
    + left. apply select_IsUsed_same.
      apply complete_journey_inr in Hdone. tauto.
    + left. apply select_IsUsed_same.
      apply complete_journey_inr in Hdone. tauto.
    + left. apply select_IsUsed_same.
      apply recharge_smart_card_inr in Hcredit. tauto.
    + left. apply insert_Transaction_inr in Ht. destruct Ht as [-> _].
      reflexivity.
    + left. apply insert_Transaction_inr in Ht. destruct Ht as [-> _].
      apply insert_Payment_inr in Hp. subst db'. reflexivity.
    + left. apply insert_Transaction_inr in Ht. destruct Ht as [-> _].
      apply insert_Payment_inr in Hp. subst db2.
      apply insert_SmartCard_inr in Hc. destruct Hc as (-> & _). reflexivity.
  - destruct s as [ty st t c | id st | u c a m]; simpl.
    + destruct (start_journey env db ty st t c) as [e | [id db']] eqn:H;
        [left; reflexivity |].
      destruct t as [t |].
      * destruct (x =? t) eqn:E.
        -- apply Z.eqb_eq in E. subst t. right. exists st.
           apply start_journey_flips in H.
           destruct H as (-> & -> & Hu & Hu' & Hj).
           repeat split; try assumption. right. reflexivity.
        -- left. rewrite (start_journey_tickets _ _ _ _ _ _ H x), E.
           reflexivity.
      * left. rewrite (start_journey_tickets _ _ _ _ _ _ H x). reflexivity.
    + destruct (complete_journey env db id st) as [e | [row db']] eqn:H;
        [left; reflexivity |].
      left. apply select_IsUsed_same. apply complete_journey_inr in H. tauto.
    + destruct (recharge_smart_card env db u c a m) as [e | [row db']] eqn:H;
        [left; reflexivity |].
      left. apply select_IsUsed_same.
      apply recharge_smart_card_inr in H. tauto.
Qed.

Lemma step_keeps_used env db op x :
  select_IsUsed db x = Some true ->
  select_IsUsed (step env db op) x = Some true.
Proof.
  intros Hused.
  destruct (step_IsUsed env db op x) as [-> | (st & _ & Hfalse & _)];
    [exact Hused | congruence].
Qed.

Lemma flips_used x ops :
  forall db, select_IsUsed db x = Some true -> flips x db ops = 0%nat.
Proof.
  induction ops as [| [env op] rest IH]; simpl; intros db Hused;
    [reflexivity |].
  rewrite (IH _ (step_keeps_used env db op x Hused)).
  unfold flipped. rewrite Hused. reflexivity.
Qed.

Lemma flips_at_most_once x ops :
  forall db, (flips x db ops <= 1)%nat.
Proof.
  induction ops as [| [env op] rest IH]; simpl; intros db; [lia |].
  destruct (flipped x db (step env db op)) eqn:F.
  - unfold flipped in F.
    destruct (select_IsUsed db x) as [[|] |]; try discriminate.
    destruct (select_IsUsed (step env db op) x) as [[|] |] eqn:Hafter;
      try discriminate.
    rewrite (flips_used x rest _ Hafter). lia.
  - specialize (IH (step env db op)). lia.
Qed.

(** C7.  [IsUsed] of a ticket changes in one way only: from false to true,
    in an operation that is a successful start of a journey with that ticket
    (the gate's entry request or [start_journey]), which appends the journey
    row in the same statement; every successful start with the ticket makes
    that change; a ticket whose [IsUsed] is true starts no journey, neither
    through [start_journey] nor through the gate; and along any sequence of
    operations the change happens at most once. *)
Theorem ticket_used_once_by_start :
  forall (db : Database) (ticket : Z),
    (forall env op,
        select_IsUsed (step env db op) ticket <> select_IsUsed db ticket ->
        select_IsUsed db ticket = Some false
        /\ select_IsUsed (step env db op) ticket = Some true
        /\ exists station,
             starts_with_ticket op ticket station
             /\ db_Journey (step env db op)
                = db_Journey db
                  ++ [new_journey env JT_Ticket station (Some ticket) None])
    /\ (forall env ty station card id db',
           start_journey env db ty station (Some ticket) card = inr (id, db') ->
           select_IsUsed db ticket = Some false
           /\ select_IsUsed db' ticket = Some true)
    /\ (forall env station resp db',
           journeyEntry env db "Ticket" ticket station = (resp, db') ->
           is_success resp = true ->
           select_IsUsed db ticket = Some false
           /\ select_IsUsed db' ticket = Some true)
    /\ (select_IsUsed db ticket = Some true ->
        forall env station,
          (forall ty card,
              exists e,
                start_journey env db ty station (Some ticket) card = inl e)
          /\ exists resp,
               journeyEntry env db "Ticket" ticket station = (resp, db)
               /\ is_success resp = false)
    /\ (forall ops, (flips ticket db ops <= 1)%nat).
Proof.
  intros db ticket.
  assert (Hstart : forall env ty station card id db',
             start_journey env db ty station (Some ticket) card
             = inr (id, db') ->
             select_IsUsed db ticket = Some false
             /\ select_IsUsed db' ticket = Some true).
  { intros env ty station card id db' H.
    apply start_journey_flips in H. tauto. }
  assert (Hentry : forall env station resp db',
             journeyEntry env db "Ticket" ticket station = (resp, db') ->
             is_success resp = true ->
             select_IsUsed db ticket = Some false
             /\ select_IsUsed db' ticket = Some true).
  { intros env station resp db' H Hok.
    apply journeyEntry_writes in H.
    destruct H as [[_ Hfail] | [W _]]; [congruence |].
    inversion W; subst. eapply Hstart. eassumption. }
  split; [| split; [exact Hstart | split; [exact Hentry | split]]].
  - intros env op Hchange.
    destruct (step_IsUsed env db op ticket)
      as [Hsame | (station & Hop & Hbefore & Hafter & Hrow)];
      [contradiction |].
    split; [exact Hbefore | split; [exact Hafter |]].
    exists station. split; assumption.
  - intros Hused env station. split.
    + intros ty card.
      destruct (start_journey env db ty station (Some ticket) card)
        as [e | [id db']] eqn:H; [exists e; reflexivity |].
      apply Hstart in H. destruct H as [H _]. congruence.
    + destruct (journeyEntry env db "Ticket" ticket station)
        as [resp db'] eqn:H.
      pose proof H as H'. apply journeyEntry_writes in H'.
      destruct H' as [[-> Hfail] | [_ Hok]].
      * exists resp. split; [reflexivity | exact Hfail].
      * destruct (Hentry _ _ _ _ H Hok) as [Hfalse _]. congruence.
  - intros ops. apply flips_at_most_once.
Qed.

(** ** The gate's own checks *)

(** C10.  A ticket entry at a station other than the source station of the
    ticket's booking is never admitted and writes nothing; when the station
    is operational and the ticket is unused and inside its validity window,
    the answer is status 400 with the message "Entry station does not match
    ticket source station". *)
Theorem entry_station_must_match_ticket_source :
  forall (env : Env) (db : Database) (ticketId stationId : Z)
         (ticket : Ticket) (booking : Booking) (rest : list (Ticket * Booking)),
    select_ticket_booking db ticketId = (ticket, booking) :: rest ->
    b_SourceStationID booking <> stationId ->
    (exists resp,
        journeyEntry env db "Ticket" ticketId stationId = (resp, db)
        /\ is_success resp = false)
    /\ (forall station,
           find (fun s => s_StationID s =? stationId) (db_Station db)
           = Some station ->
           s_IsOperational station = true ->
           t_IsUsed ticket = false ->
           t_ValidFrom ticket <= js_now env <= t_ValidUntil ticket ->
           journeyEntry env db "Ticket" ticketId stationId
           = (error 400 "Entry station does not match ticket source station",
              db)).
Proof.
  intros env db ticketId stationId ticket booking rest Hjoin Hsource.
  assert (Hneq : negb (b_SourceStationID booking =? stationId) = true).
  { apply negb_true_iff. apply Z.eqb_neq. exact Hsource. }
  split.
  - unfold journeyEntry.
    destruct (find (fun s => s_StationID s =? stationId) (db_Station db))
      as [station |]; [| eexists; split; reflexivity].
    destruct (negb (s_IsOperational station));
      [eexists; split; reflexivity |].
    simpl. rewrite Hjoin.
    destruct (t_IsUsed ticket); [eexists; split; reflexivity |].
    destruct ((js_now env <? t_ValidFrom ticket)
              || (js_now env >? t_ValidUntil ticket));
      [eexists; split; reflexivity |].
    rewrite Hneq. eexists; split; reflexivity.
  - intros station Hstation Hoperational Hunused [Hfrom Huntil].
    unfold journeyEntry. rewrite Hstation, Hoperational. simpl.
    rewrite Hjoin, Hunused.
    assert (Hwindow : (js_now env <? t_ValidFrom ticket)
                      || (js_now env >? t_ValidUntil ticket) = false).
    { apply orb_false_iff. split.
      - apply Z.ltb_ge. exact Hfrom.
      - rewrite Z.gtb_ltb. apply Z.ltb_ge. exact Huntil. }
    rewrite Hwindow, Hneq. reflexivity.
Qed.

(** C3.  A card exit that reaches the balance check with a balance below the
    fare of the route is answered with status 400 "Insufficient balance" and
    writes nothing: the journey is still the card's Active journey and the
    balance is the same.  [complete_journey] is not called; were its UPDATE
    run on that journey, the trigger would raise for the same reason (the
    balance being non-negative, as the CHECK constraint has it). *)
Theorem card_exit_insufficient_balance :
  forall (env : Env) (db : Database) (card stationId : Z)
         (station : Station) (journey : Journey) (rest : list Journey)
         (balance : Z),
    find (fun s => s_StationID s =? stationId) (db_Station db)
    = Some station ->
    s_IsOperational station = true ->
    select_active_card_journey db card = journey :: rest ->
    select_Balance db card = Some balance ->
    balance < get_current_fare db (CURRENT_DATE env)
                (j_EntryStationID journey) stationId ->
    let result := journeyExit env db "Card" card stationId in
    fst result = error 400 Insufficient_balance
    /\ snd result = db
    /\ select_active_card_journey (snd result) card = journey :: rest
    /\ j_Status journey = Active
    /\ select_Balance (snd result) card = Some balance
    /\ (0 <= balance ->
        complete_journey_fare env db journey
          (set_exit stationId (exit_time env) journey)
        = inl (raise_exception Insufficient_balance_on_card)).
Proof.
  intros env db card stationId station journey rest balance
         Hstation Hoperational Hactive Hbalance Hlow result.
  assert (Hresult : result = (error 400 Insufficient_balance, db)).
  { unfold result, journeyExit.
    rewrite Hstation, Hoperational. simpl.
    rewrite Hactive, Hbalance.
    apply Z.ltb_lt in Hlow. rewrite Hlow. reflexivity. }
  assert (Hj : In journey (select_active_card_journey db card)).
  { rewrite Hactive. left. reflexivity. }
  apply filter_In in Hj. destruct Hj as [_ Hj].
  apply andb_prop in Hj. destruct Hj as [Hcard Hstatus].
  assert (Hs : j_Status journey = Active).
  { destruct (j_Status journey);
      [reflexivity | discriminate | discriminate]. }
  rewrite Hresult. simpl. repeat split; try assumption.
  intros Hnonneg. unfold complete_journey_fare. simpl.
  destruct (j_CardID journey) as [c |]; [| discriminate].
  simpl in Hcard. apply Z.eqb_eq in Hcard. subst c.
  rewrite Hs. simpl.
  assert (Hpos : (get_current_fare db (CURRENT_DATE env)
                    (j_EntryStationID journey) stationId >? 0) = true).
  { apply Z.gtb_lt. lia. }
  rewrite Hpos, Hbalance.
  assert (Hge : (balance >=? get_current_fare db (CURRENT_DATE env)
                               (j_EntryStationID journey) stationId) = false).
  { rewrite Z.geb_leb. apply Z.leb_gt. exact Hlow. }
  rewrite Hge. reflexivity.
Qed.

(** ** [complete_journey] under the primary key of [Journey] *)

Lemma update_Journey_exit_fresh env db id station rows :
  Forall (fun j => (j_JourneyID j =? id) = false) rows ->
  update_Journey_exit env db id station rows = inr (rows, db, []).
Proof.
  induction 1 as [| j rest Hj _ IH]; simpl; [reflexivity |].
  rewrite Hj, IH. reflexivity.
Qed.

Lemma map_replace_fresh id (NEW : Journey) rows :
  Forall (fun j => (j_JourneyID j =? id) = false) rows ->
  map (fun j => if j_JourneyID j =? id then NEW else j) rows = rows.
Proof.
  induction 1 as [| j rest Hj _ IH]; simpl; [reflexivity |].
  rewrite Hj, IH. reflexivity.
Qed.

Lemma NoDup_key_fresh id rows :
  ~ In id (map j_JourneyID rows) ->
  Forall (fun j => (j_JourneyID j =? id) = false) rows.
Proof.
  intros Hnot. apply Forall_forall. intros j Hj.
  apply Z.eqb_neq. intros E. apply Hnot. rewrite <- E.
  apply in_map. exact Hj.
Qed.

(** With unique keys the UPDATE touches one row: the trigger runs once. *)
Lemma update_Journey_exit_unique env id station rows :
  forall db OLD,
    NoDup (map j_JourneyID rows) -> In OLD rows -> j_JourneyID OLD = id ->
    update_Journey_exit env db id station rows
    = (r <- complete_journey_fare env db OLD
              (set_exit station (exit_time env) OLD) ;;
       _ <- Journey_check (fst r) ;;
       _ <- Journey_foreign_keys (snd r) (fst r) ;;
       ok (map (fun j => if j_JourneyID j =? id then fst r else j) rows,
           snd r, [j_FareDeducted (fst r)])).
Proof.
  induction rows as [| j rest IH]; intros db OLD Hkeys Hin Hid;
    [destruct Hin |].
  simpl in Hkeys. apply NoDup_cons_iff in Hkeys.
  destruct Hkeys as [Hfresh Hkeys].
  destruct Hin as [-> | Hin].
  - simpl. rewrite Hid, Z.eqb_refl. rewrite Hid in Hfresh.
    apply NoDup_key_fresh in Hfresh. fold (exit_time env).
    destruct (complete_journey_fare env db OLD
                (set_exit station (exit_time env) OLD))
      as [e | [NEW db1]]; simpl; [reflexivity |].
    destruct (Journey_check NEW) as [e | []]; simpl; [reflexivity |].
    destruct (Journey_foreign_keys db1 NEW) as [e | []]; simpl;
      [reflexivity |].
    rewrite (@update_Journey_exit_fresh env db1 _ station _ Hfresh).
    rewrite (@map_replace_fresh _ NEW _ Hfresh). reflexivity.
  - assert (Hj : (j_JourneyID j =? id) = false).
    { apply Z.eqb_neq. intros E. apply Hfresh. rewrite E, <- Hid.
      apply in_map. exact Hin. }
    simpl. rewrite Hj. rewrite (IH db OLD Hkeys Hin Hid).
    destruct (complete_journey_fare env db OLD
                (set_exit station (exit_time env) OLD))
      as [e | [NEW db1]]; simpl; [reflexivity |].
    destruct (Journey_check NEW) as [e | []]; simpl; [reflexivity |].
    destruct (Journey_foreign_keys db1 NEW) as [e | []]; simpl; reflexivity.
Qed.

Lemma complete_journey_unique env db id station OLD :
  journey_pkey db ->
  select_Journey db id = Some OLD ->
  j_Status OLD = Active ->
  complete_journey env db id station
  = (r <- complete_journey_fare env db OLD
            (set_exit station (exit_time env) OLD) ;;
     _ <- Journey_check (fst r) ;;
     _ <- Journey_foreign_keys (snd r) (fst r) ;;
     ok ({| journey_id := id; fare_deducted := j_FareDeducted (fst r) |},
         with_Journey (snd r)
           (map (fun j => if j_JourneyID j =? id then fst r else j)
              (db_Journey db)))).
Proof.
  unfold journey_pkey, select_Journey, complete_journey.
  intros Hkeys Hfind Hactive. rewrite Hfind, Hactive. simpl.
  apply find_some in Hfind. destruct Hfind as [Hin Hid].
  apply Z.eqb_eq in Hid.
  rewrite (@update_Journey_exit_unique env id station _ db OLD Hkeys Hin Hid).
  destruct (complete_journey_fare env db OLD
              (set_exit station (exit_time env) OLD))
    as [e | [NEW db1]]; simpl; [reflexivity |].
  destruct (Journey_check NEW) as [e | []]; simpl; [reflexivity |].
  destruct (Journey_foreign_keys db1 NEW) as [e | []]; simpl; reflexivity.
Qed.

(** The trigger on the exit of an Active card journey. *)
Lemma complete_journey_fare_card env db OLD station time card :
  j_Status OLD = Active ->
  j_CardID OLD = Some card ->
  complete_journey_fare env db OLD (set_exit station time OLD)
  = let fare := get_current_fare db (CURRENT_DATE env)
                  (j_EntryStationID OLD) station in
    if fare >? 0 then
      match select_Balance db card with
      | Some balance =>
          if balance >=? fare then
            rows <- update_SmartCard (fun c => c_CardID c =? card)
                      (set_Balance (fun b => b - fare)) (db_SmartCard db) ;;
            ok (set_FareDeducted fare (set_exit station time OLD),
                with_SmartCard db rows)
          else throw (raise_exception Insufficient_balance_on_card)
      | None => throw (raise_exception Insufficient_balance_on_card)
      end
    else ok (set_exit station time OLD, db).
Proof.
  intros Hactive Hcard. unfold complete_journey_fare. simpl.
  rewrite Hcard, Hactive. reflexivity.
Qed.

(** The trigger on the exit of a ticket journey does nothing. *)
Lemma complete_journey_fare_ticket env db OLD station time :
  j_CardID OLD = None ->
  complete_journey_fare env db OLD (set_exit station time OLD)
  = ok (set_exit station time OLD, db).
Proof.
  intros Hcard. unfold complete_journey_fare. simpl.
  rewrite Hcard. reflexivity.
Qed.

Lemma debited_fields card fare c :
  c_CardID (debited card fare c) = c_CardID c
  /\ c_Balance (debited card fare c)
     = if c_CardID c =? card then c_Balance c - fare else c_Balance c.
Proof.
  unfold debited. destruct (c_CardID c =? card); split; reflexivity.
Qed.

Lemma select_Balance_debited db card fare c :
  select_Balance
    (with_SmartCard db (map (debited card fare) (db_SmartCard db))) c
  = if c =? card
    then option_map (fun b => b - fare) (select_Balance db c)
    else select_Balance db c.
Proof.
  unfold select_Balance. simpl.
  induction (db_SmartCard db) as [| r rest IH]; simpl.
  - destruct (c =? card); reflexivity.
  - destruct (debited_fields card fare r) as [-> Hb].
    destruct (c_CardID r =? c) eqn:Hc; simpl; [| exact IH].
    rewrite Hb. apply Z.eqb_eq in Hc. subst c.
    destruct (c_CardID r =? card); reflexivity.
Qed.

Lemma find_replaced id (NEW OLD : Journey) rows :
  find (fun j => j_JourneyID j =? id) rows = Some OLD ->
  j_JourneyID NEW = id ->
  find (fun j => j_JourneyID j =? id)
    (map (fun j => if j_JourneyID j =? id then NEW else j) rows)
  = Some NEW.
Proof.
  intros Hfind Hid. induction rows as [| j rest IH]; simpl in *;
    [discriminate |].
  destruct (j_JourneyID j =? id) eqn:E.
  - rewrite Hid, Z.eqb_refl. reflexivity.
  - rewrite E. apply IH. exact Hfind.
Qed.

(** ** Fare settlement on completion *)

(** C1, as amended.  When [complete_journey] completes a card journey, let
    [fare] be [get_current_fare(entry, exit)] at that moment.  If [fare] is
    positive, the journey's [FareDeducted], and the [fare_deducted] returned,
    are [fare], and the card's balance has decreased by exactly [fare].  If
    no fare is defined ([fare] is zero), the journey is completed all the
    same, [FareDeducted] is left as it was (NULL for a journey created by
    [start_journey]) and the balance is unchanged.  No other card's balance
    changes. *)
Theorem completed_card_journey_fare :
  forall (env : Env) (db : Database) (id station : Z) (j : Journey)
         (card balance : Z) (row : complete_journey_row) (db' : Database),
    journey_pkey db ->
    select_Journey db id = Some j ->
    j_CardID j = Some card ->
    select_Balance db card = Some balance ->
    complete_journey env db id station = inr (row, db') ->
    let fare := get_current_fare db (CURRENT_DATE env)
                  (j_EntryStationID j) station in
    exists j',
      select_Journey db' id = Some j'
      /\ j_Status j' = Completed
      /\ j_ExitStationID j' = Some station
      /\ (0 < fare ->
          j_FareDeducted j' = Some fare
          /\ fare_deducted row = Some fare
          /\ fare <= balance
          /\ select_Balance db' card = Some (balance - fare))
      /\ (fare <= 0 ->
          j_FareDeducted j' = j_FareDeducted j
          /\ fare_deducted row = j_FareDeducted j
          /\ select_Balance db' card = Some balance)
      /\ (forall c, c <> card -> select_Balance db' c = select_Balance db c).
Proof.
  intros env db id station j card balance row db'
         Hkeys Hfind Hcard Hbalance Hdone fare.
  pose proof Hdone as Hactive. apply complete_journey_inr in Hactive.
  destruct Hactive as ((v & Hv & Hactive) & _).
  rewrite Hfind in Hv. injection Hv as <-.
  rewrite (@complete_journey_unique env db id station j Hkeys Hfind Hactive)
    in Hdone.
  rewrite (@complete_journey_fare_card env db j station (exit_time env) card
             Hactive Hcard) in Hdone.
  fold fare in Hdone. cbv zeta in Hdone.
  destruct (fare >? 0) eqn:Hfare.
  - apply Z.gtb_lt in Hfare. rewrite Hbalance in Hdone.
    destruct (balance >=? fare) eqn:Hge; [| discriminate].
    rewrite Z.geb_leb in Hge. apply Z.leb_le in Hge.
    pg_step Hdone as [NEW db1] Htrigger. simpl in Hdone.
    pg_step Hdone as [] Hcheck. pg_step Hdone as [] Hfk.
    injection Hdone as <- <-.
    pg_step Htrigger as rows Hupdate. injection Htrigger as <- <-.
    apply update_SmartCard_map in Hupdate. destruct Hupdate as [-> _].
    exists (set_FareDeducted fare (set_exit station (exit_time env) j)).
    split; [apply find_replaced with (OLD := j); [exact Hfind |]; simpl;
            apply find_some in Hfind; destruct Hfind as [_ E];
            apply Z.eqb_eq in E; exact E |].
    split; [reflexivity |]. split; [reflexivity |].
    split; [intros _ | split; [intros Hle; lia |]].
    + repeat split; try assumption.
      change (select_Balance
                (with_SmartCard db (map (debited card fare) (db_SmartCard db)))
                card = Some (balance - fare)).
      rewrite select_Balance_debited, Z.eqb_refl, Hbalance. reflexivity.
    + intros c Hc.
      change (select_Balance
                (with_SmartCard db (map (debited card fare) (db_SmartCard db)))
                c = select_Balance db c).
      rewrite select_Balance_debited.
      apply Z.eqb_neq in Hc. rewrite Hc. reflexivity.
  - rewrite Z.gtb_ltb in Hfare.
    assert (Hle : fare <= 0) by (apply Z.ltb_ge; exact Hfare).
    simpl in Hdone.
    pg_step Hdone as [] Hcheck. pg_step Hdone as [] Hfk.
    injection Hdone as <- <-.
    exists (set_exit station (exit_time env) j).
    split; [apply find_replaced with (OLD := j); [exact Hfind |]; simpl;
            apply find_some in Hfind; destruct Hfind as [_ E];
            apply Z.eqb_eq in E; exact E |].
    split; [reflexivity |]. split; [reflexivity |].
    split; [intros Hpos; lia | split; [intros _ |]].
    + repeat split. exact Hbalance.
    + intros c _. reflexivity.
Qed.

Lemma find_by_key rows j :
  NoDup (map j_JourneyID rows) -> In j rows ->
  find (fun x => j_JourneyID x =? j_JourneyID j) rows = Some j.
Proof.
  induction rows as [| x rest IH]; simpl; intros Hkeys Hin; [destruct Hin |].
  apply NoDup_cons_iff in Hkeys. destruct Hkeys as [Hfresh Hkeys].
  destruct Hin as [-> | Hin].
  - rewrite Z.eqb_refl. reflexivity.
  - destruct (j_JourneyID x =? j_JourneyID j) eqn:E; [| apply IH; assumption].
    apply Z.eqb_eq in E. exfalso. apply Hfresh. rewrite E.
    apply in_map. exact Hin.
Qed.

(** The constraints of a stored row still hold once it has its exit, when
    the exit is later than the entry and the exit station exists. *)
Lemma Journey_check_set_exit station time j :
  Journey_check j = inr tt ->
  j_FareDeducted j = None ->
  j_EntryTime j < time ->
  Journey_check (set_exit station time j) = inr tt.
Proof.
  unfold Journey_check. intros H Hfare Htime.
  pg_step H as [] Hmethod. pg_step H as [] Hsequence.
  apply require_inr in Hmethod. simpl. rewrite Hmethod. simpl.
  apply Z.gtb_lt in Htime. rewrite Htime. simpl.
  rewrite Hfare. reflexivity.
Qed.

Lemma Journey_foreign_keys_set_exit db station time j s :
  Journey_foreign_keys db j = inr tt ->
  find (fun s => s_StationID s =? station) (db_Station db) = Some s ->
  Journey_foreign_keys db (set_exit station time j) = inr tt.
Proof.
  unfold Journey_foreign_keys. intros H Hstation.
  pg_step H as [] Hticket. pg_step H as [] Hcard. pg_step H as [] Hentry.
  apply require_inr in Hticket, Hcard, Hentry. simpl.
  rewrite Hticket, Hcard, Hentry. simpl.
  assert (Hexit : existsb (fun s => s_StationID s =? station) (db_Station db)
                  = true).
  { apply existsb_exists. exists s. apply find_some in Hstation. exact Hstation. }
  rewrite Hexit. reflexivity.
Qed.

(** C4, as amended.  A zero from [get_current_fare] is no failure for a card
    exit: when no fare is defined for the route of the card's Active
    journey, the gate passes the balance check with any balance, the trigger
    debits nothing, and (the stored row satisfying its constraints and the
    exit being later than the entry) the exit is admitted: the journey is
    Completed with [FareDeducted] unset, every balance is as it was, and the
    response carries no fare. *)
Theorem zero_fare_card_exit_is_free :
  forall (env : Env) (db : Database) (card stationId : Z)
         (station : Station) (journey : Journey) (rest : list Journey)
         (balance : Z),
    journey_pkey db ->
    find (fun s => s_StationID s =? stationId) (db_Station db)
    = Some station ->
    s_IsOperational station = true ->
    select_active_card_journey db card = journey :: rest ->
    select_Balance db card = Some balance ->
    0 <= balance ->
    get_current_fare db (CURRENT_DATE env) (j_EntryStationID journey)
      stationId = 0 ->
    Journey_check journey = inr tt ->
    Journey_foreign_keys db journey = inr tt ->
    j_FareDeducted journey = None ->
    j_EntryTime journey < exit_time env ->
    exists db',
      journeyExit env db "Card" card stationId
      = (success 200 "Exit permitted - Journey completed"
           {| journeyId := j_JourneyID journey;
              fareCharged := None;
              previousBalance := Some balance;
              newBalance := None;
              warning := false |}, db')
      /\ select_Journey db' (j_JourneyID journey)
         = Some (set_exit stationId (exit_time env) journey)
      /\ (forall c, select_Balance db' c = select_Balance db c).
Proof.
  intros env db card stationId station journey rest balance
         Hkeys Hstation Hoperational Hselect Hbalance Hnonneg Hfare
         Hcheck Hfk Hunset Htime.
  assert (Hin : In journey (select_active_card_journey db card)).
  { rewrite Hselect. left. reflexivity. }
  apply filter_In in Hin. destruct Hin as [Hin Hj].
  apply andb_prop in Hj. destruct Hj as [Hcard Hstatus].
  assert (Hactive : j_Status journey = Active).
  { destruct (j_Status journey);
      [reflexivity | discriminate | discriminate]. }
  destruct (j_CardID journey) as [c |] eqn:Hc; [| discriminate].
  simpl in Hcard. apply Z.eqb_eq in Hcard. subst c.
  pose proof (@find_by_key (db_Journey db) journey Hkeys Hin) as Hfind.
  pose proof (@complete_journey_unique env db (j_JourneyID journey) stationId
                journey Hkeys Hfind Hactive) as Hdone.
  rewrite (@complete_journey_fare_card env db journey stationId
             (exit_time env) card Hactive Hc) in Hdone.
  rewrite Hfare in Hdone. simpl in Hdone.
  rewrite (@Journey_check_set_exit stationId (exit_time env) journey
             Hcheck Hunset Htime) in Hdone.
  rewrite (@Journey_foreign_keys_set_exit db stationId (exit_time env)
             journey station Hfk Hstation) in Hdone.
  simpl in Hdone. rewrite Hunset in Hdone.
  eexists. split; [| split].
  - unfold journeyExit. rewrite Hstation, Hoperational. simpl.
    rewrite Hselect, Hbalance, Hfare.
    assert (Hlt : (balance <? 0) = false) by (apply Z.ltb_ge; exact Hnonneg).
    rewrite Hlt, Hdone. simpl. reflexivity.
  - unfold select_Journey. simpl.
    apply find_replaced with (OLD := journey); [exact Hfind | reflexivity].
  - intros c. reflexivity.
Qed.

(** ** After the exit *)

Lemma Forall2_In_l A B (R : A -> B -> Prop) l l' x :
  Forall2 R l l' -> In x l -> exists y, In y l' /\ R x y.
Proof.
  induction 1 as [| a b l l' Hab _ IH]; intros Hin; [destruct Hin |].
  destruct Hin as [-> | Hin].
  - exists b. split; [left; reflexivity | exact Hab].
  - destruct (IH Hin) as (y & Hy & Hxy). exists y. split; [right |]; assumption.
Qed.

Lemma Forall2_In_r A B (R : A -> B -> Prop) l l' y :
  Forall2 R l l' -> In y l' -> exists x, In x l /\ R x y.
Proof.
  induction 1 as [| a b l l' Hab _ IH]; intros Hin; [destruct Hin |].
  destruct Hin as [-> | Hin].
  - exists a. split; [left; reflexivity | exact Hab].
  - destruct (IH Hin) as (x & Hx & Hxy). exists x. split; [right |]; assumption.
Qed.

Lemma filter_nil_iff A (p : A -> bool) l :
  (forall x, In x l -> p x = false) -> filter p l = [].
Proof.
  induction l as [| a l IH]; simpl; intros H; [reflexivity |].
  rewrite (H a (or_introl eq_refl)). apply IH.
  intros x Hx. apply H. right. exact Hx.
Qed.

(** Once the only Active journey of a media is exited, the media has no
    Active journey. *)
Lemma exited_no_active (p : Journey -> bool) id station time rows rows' j :
  Forall2 (journey_exited id station time) rows rows' ->
  filter (fun x => p x && journey_status_eqb (j_Status x) Active) rows = [j] ->
  j_JourneyID j = id ->
  filter (fun x => p x && journey_status_eqb (j_Status x) Active) rows' = [].
Proof.
  intros Hrows Hone Hid. apply filter_nil_iff. intros y Hy.
  destruct (p y && journey_status_eqb (j_Status y) Active) eqn:Hp;
    [| reflexivity].
  exfalso.
  destruct (@Forall2_In_r _ _ _ _ _ y Hrows Hy) as (x & Hx & Hxy).
  pose proof (@journey_exited_active _ _ _ x y p Hxy Hp) as E. subst y.
  apply journey_exited_fields in Hxy.
  destruct Hxy as (_ & _ & _ & Hdone & _).
  assert (Hin : In x (filter (fun x => p x
                                && journey_status_eqb (j_Status x) Active)
                        rows)).
  { apply filter_In. split; assumption. }
  rewrite Hone in Hin. destruct Hin as [<- | []].
  rewrite Hid, Z.eqb_refl in Hdone. rewrite (Hdone eq_refl) in Hp.
  rewrite andb_false_r in Hp. discriminate.
Qed.

Lemma find_exited id station time rows rows' v :
  Forall2 (journey_exited id station time) rows rows' ->
  find (fun j => j_JourneyID j =? id) rows = Some v ->
  exists v', find (fun j => j_JourneyID j =? id) rows' = Some v'
             /\ j_Status v' = Completed.
Proof.
  induction 1 as [| x y xs ys Hxy _ IH]; simpl; intros Hfind; [discriminate |].
  apply journey_exited_fields in Hxy.
  destruct Hxy as (Hkey & _ & _ & Hdone & _). rewrite Hkey.
  destruct (j_JourneyID x =? id).
  - exists y. split; [reflexivity | apply Hdone; reflexivity].
  - apply IH. exact Hfind.
Qed.

(** [complete_journey] on a journey that is not Active raises. *)
Lemma complete_journey_not_active env db id station j :
  select_Journey db id = Some j ->
  j_Status j <> Active ->
  complete_journey env db id station
  = inl (raise_exception "Journey % is not active (status: %)").
Proof.
  unfold select_Journey, complete_journey. intros -> Hstatus.
  destruct (j_Status j); [contradiction | reflexivity | reflexivity].
Qed.

Lemma one_of_at_most_one A (l : list A) x rest :
  (List.length l <= 1)%nat -> l = x :: rest -> l = [x].
Proof.
  intros Hlen ->. destruct rest; [reflexivity | simpl in Hlen; lia].
Qed.

Lemma select_active_ticket_journey_booking_In db ticket j b :
  In (j, b) (select_active_ticket_journey_booking db ticket) ->
  In j (select_active_ticket_journey db ticket).
Proof.
  unfold select_active_ticket_journey_booking. intros H.
  apply in_flat_map in H. destruct H as (j' & Hj' & H).
  apply in_flat_map in H. destruct H as (t & _ & H).
  destruct (is_id (j_TicketID j') (t_TicketID t)); [| destruct H].
  apply in_map_iff in H. destruct H as (b' & E & _).
  injection E as <- _. exact Hj'.
Qed.

(** The exit of [journeyExit] without an Active journey for the media. *)
Lemma journeyExit_no_active env db mediaType mediaId stationId :
  (mediaType = "Ticket" /\ select_active_ticket_journey db mediaId = []
   \/ mediaType = "Card" /\ select_active_card_journey db mediaId = []) ->
  exists code msg,
    journeyExit env db mediaType mediaId stationId = (error code msg, db)
    /\ forall s,
         find (fun s => s_StationID s =? stationId) (db_Station db) = Some s ->
         s_IsOperational s = true ->
         code = 404 /\ msg = "No active journey found for this media".
Proof.
  intros Hnone. unfold journeyExit.
  destruct (find (fun s => s_StationID s =? stationId) (db_Station db))
    as [station |].
  - destruct (s_IsOperational station) eqn:Hop; simpl.
    + destruct Hnone as [[-> Hnone] | [-> Hnone]]; simpl.
      * unfold select_active_ticket_journey_booking. rewrite Hnone. simpl.
        do 2 eexists. split; [reflexivity |]. intros; split; reflexivity.
      * rewrite Hnone.
        do 2 eexists. split; [reflexivity |]. intros; split; reflexivity.
    + do 2 eexists. split; [reflexivity |].
      intros s E. injection E as <-. congruence.
  - do 2 eexists. split; [reflexivity |]. intros s E. discriminate.
Qed.

(** What one operation does to the journey table: nothing, one new row with
    a new key, or the exit of the rows with the key of an Active journey. *)
Lemma step_journeys env db op :
  db_Journey (step env db op) = db_Journey db
  \/ (exists NEW,
         db_Journey (step env db op) = db_Journey db ++ [NEW]
         /\ existsb (fun j => j_JourneyID j =? j_JourneyID NEW) (db_Journey db)
            = false)
  \/ (exists id station,
         Forall2 (journey_exited id station (exit_time env))
           (db_Journey db) (db_Journey (step env db op))
         /\ exists v, select_Journey db id = Some v /\ j_Status v = Active).
Proof.
  assert (Hstart : forall ty st t c id db',
             start_journey env db ty st t c = inr (id, db') ->
             exists NEW,
               db_Journey db' = db_Journey db ++ [NEW]
               /\ existsb (fun j => j_JourneyID j =? j_JourneyID NEW)
                    (db_Journey db) = false).
  { intros ty st t c id db' H. apply start_journey_inr in H.
    destruct H as [_ H]. apply insert_Journey_inr in H.
    destruct H as (-> & _ & Hfresh).
    exists (new_journey env ty st t c). split; [reflexivity | exact Hfresh]. }
  assert (Hdone : forall id st row db',
             complete_journey env db id st = inr (row, db') ->
             exists id station,
               Forall2 (journey_exited id station (exit_time env))
                 (db_Journey db) (db_Journey db')
               /\ exists v, select_Journey db id = Some v
                            /\ j_Status v = Active).
  { intros id st row db' H. apply complete_journey_inr in H.
    destruct H as (Hv & Hrows & _). exists id, st. split; assumption. }
  destruct op as [r | s]; simpl.
  - destruct (handle env db r) as [resp db'] eqn:H. simpl.
    apply handle_writes in H. destruct H as [-> | W]; [left; reflexivity |].
    destruct W as [ticket station id db' Hnone Hs
                  | card station id db' Hnone Hs
                  | ticket station journey booking rest row db' _ Hc
                  | card station journey rest row db' _ Hc
                  | userId card amount method row db' Hcredit
                  | userId method t db' Ht
                  | userId method t p db1 db' Ht Hp
                  | userId method t p db1 db2 db' Ht Hp Hcard].
    + right. left. eapply Hstart. exact Hs.
    + right. left. eapply Hstart. exact Hs.
    + right. right. eapply Hdone. exact Hc.
    + right. right. eapply Hdone. exact Hc.
    + left. apply recharge_smart_card_inr in Hcredit. tauto.
    + left. apply insert_Transaction_inr in Ht. destruct Ht as [-> _].
      reflexivity.
    + left. apply insert_Transaction_inr in Ht. destruct Ht as [-> _].
      apply insert_Payment_inr in Hp. subst db'. reflexivity.
    + left. apply insert_Transaction_inr in Ht. destruct Ht as [-> _].
      apply insert_Payment_inr in Hp. subst db2.
      apply insert_SmartCard_inr in Hcard. destruct Hcard as (-> & _).
      reflexivity.
  - destruct s as [ty st t c | id st | u c a m]; simpl.
    + destruct (start_journey env db ty st t c) as [e | [id db']] eqn:H;
        [left; reflexivity |].
      right. left. eapply Hstart. exact H.
    + destruct (complete_journey env db id st) as [e | [row db']] eqn:H;
        [left; reflexivity |].
      right. right. eapply Hdone. exact H.
    + destruct (recharge_smart_card env db u c a m) as [e | [row db']] eqn:H;
        [left; reflexivity |].
      left. apply recharge_smart_card_inr in H. tauto.
Qed.

Lemma journey_exited_keys id station time rows rows' :
  Forall2 (journey_exited id station time) rows rows' ->
  map j_JourneyID rows' = map j_JourneyID rows.
Proof.
  induction 1 as [| x y xs ys Hxy _ IH]; simpl; [reflexivity |].
  apply journey_exited_fields in Hxy. destruct Hxy as (-> & _).
  rewrite IH. reflexivity.
Qed.

Lemma NoDup_snoc (l : list Z) (x : Z) :
  NoDup l -> ~ In x l -> NoDup (l ++ [x]).
Proof.
  induction l as [| a l IH]; simpl; intros Hl Hx.
  - constructor; [intros [] | constructor].
  - apply NoDup_cons_iff in Hl. destruct Hl as [Ha Hl].
    constructor.
    + rewrite in_app_iff. intros [H | [H | []]]; [contradiction |].
      apply Hx. left. symmetry. exact H.
    + apply IH; [exact Hl |]. intros H. apply Hx. right. exact H.
Qed.

(** The primary key of [Journey] holds after every operation. *)
Lemma step_journey_pkey env db op :
  journey_pkey db -> journey_pkey (step env db op).
Proof.
  unfold journey_pkey. intros Hkeys.
  destruct (step_journeys env db op)
    as [-> | [(NEW & -> & Hfresh) | (id & station & Hrows & _)]].
  - exact Hkeys.
  - rewrite map_app. simpl. apply NoDup_snoc; [exact Hkeys |].
    intros Hin. apply in_map_iff in Hin. destruct Hin as (j & E & Hj).
    assert (Hex : existsb (fun j => j_JourneyID j =? j_JourneyID NEW)
                    (db_Journey db) = true).
    { apply existsb_exists. exists j. split; [exact Hj |].
      apply Z.eqb_eq. exact E. }
    congruence.
  - rewrite (@journey_exited_keys _ _ _ _ _ Hrows). exact Hkeys.
Qed.

(** A journey that is not Active is not touched by any operation. *)
Lemma step_terminal env db op j :
  journey_pkey db ->
  In j (db_Journey db) -> j_Status j <> Active ->
  In j (db_Journey (step env db op)).
Proof.
  intros Hkeys Hin Hstatus.
  destruct (step_journeys env db op)
    as [-> | [(NEW & -> & _) | (id & station & Hrows & v & Hv & Hactive)]].
  - exact Hin.
  - apply in_or_app. left. exact Hin.
  - destruct (@Forall2_In_l _ _ _ _ _ j Hrows Hin) as (y & Hy & Hjy).
    apply journey_exited_fields in Hjy.
    destruct Hjy as (_ & _ & _ & _ & Hsame).
    destruct (j_JourneyID j =? id) eqn:E.
    + exfalso. apply Z.eqb_eq in E. subst id.
      unfold select_Journey in Hv.
      rewrite (@find_by_key _ _ Hkeys Hin) in Hv. injection Hv as <-.
      contradiction.
    + rewrite (Hsame eq_refl) in Hy. exact Hy.
Qed.

Lemma run_terminal ops :
  forall db j,
    journey_pkey db ->
    In j (db_Journey db) -> j_Status j <> Active ->
    In j (db_Journey (run db ops)).
Proof.
  induction ops as [| [env op] rest IH]; simpl; intros db j Hkeys Hin Hstatus;
    [exact Hin |].
  apply IH; [apply step_journey_pkey; exact Hkeys | | exact Hstatus].
  apply step_terminal; assumption.
Qed.

Lemma only_one A (l : list A) x :
  (List.length l <= 1)%nat -> In x l -> l = [x].
Proof.
  destruct l as [| a [| b l]]; simpl; intros Hlen Hin.
  - destruct Hin.
  - destruct Hin as [-> | []]. reflexivity.
  - lia.
Qed.

(** What both kinds of exit leave behind, from the facts [writes] gives. *)
Lemma exit_leaves_no_active env db id station row db'
    (p : Journey -> bool) journey :
  journey_pkey db ->
  complete_journey env db id station = inr (row, db') ->
  filter (fun x => p x && journey_status_eqb (j_Status x) Active)
    (db_Journey db) = [journey] ->
  j_JourneyID journey = id ->
  select_Journey db id = Some journey
  /\ j_Status journey = Active
  /\ (exists j', select_Journey db' id = Some j' /\ j_Status j' = Completed)
  /\ filter (fun x => p x && journey_status_eqb (j_Status x) Active)
       (db_Journey db') = []
  /\ journey_pkey db'.
Proof.
  intros Hkeys Hdone Hone Hid.
  apply complete_journey_inr in Hdone.
  destruct Hdone as ((v & Hv & Hactive) & Hrows & _).
  assert (Hin : In journey (db_Journey db)).
  { assert (H : In journey [journey]) by (left; reflexivity).
    rewrite <- Hone in H. apply filter_In in H. tauto. }
  assert (Hfind : select_Journey db id = Some journey).
  { unfold select_Journey. rewrite <- Hid. apply find_by_key; assumption. }
  rewrite Hfind in Hv. injection Hv as <-.
  split; [exact Hfind | split; [exact Hactive | split; [| split]]].
  - unfold select_Journey in *. eapply find_exited; eassumption.
  - eapply exited_no_active; eassumption.
  - unfold journey_pkey in *.
    rewrite (@journey_exited_keys _ _ _ _ _ Hrows). exact Hkeys.
Qed.

(** C8.  After an exit that succeeded (from a database with unique journey
    keys and at most one Active journey per media): the journey is
    Completed; a second exit for the same media, at any station, is refused
    and writes nothing, with 404 "No active journey found for this media"
    when the station is operational; a second [complete_journey] on the same
    journey raises "Journey % is not active"; and no later operation touches
    a journey that is Completed or Cancelled. *)
Theorem second_exit_is_refused :
  forall (env : Env) (db : Database) (mediaType : string)
         (mediaId stationId : Z) (resp : Response) (db' : Database),
    journey_pkey db ->
    one_active_per_media db ->
    journeyExit env db mediaType mediaId stationId = (resp, db') ->
    is_success resp = true ->
    exists journey,
      select_Journey db (j_JourneyID journey) = Some journey
      /\ j_Status journey = Active
      /\ (exists j', select_Journey db' (j_JourneyID journey) = Some j'
                     /\ j_Status j' = Completed)
      /\ (forall env' stationId',
             exists code msg,
               journeyExit env' db' mediaType mediaId stationId'
               = (error code msg, db')
               /\ forall s,
                    find (fun s => s_StationID s =? stationId')
                      (db_Station db') = Some s ->
                    s_IsOperational s = true ->
                    code = 404
                    /\ msg = "No active journey found for this media")
      /\ (forall env' stationId',
             complete_journey env' db' (j_JourneyID journey) stationId'
             = inl (raise_exception "Journey % is not active (status: %)"))
      /\ (forall ops j,
             In j (db_Journey db') -> j_Status j <> Active ->
             In j (db_Journey (run db' ops))).
Proof.
  intros env db mediaType mediaId stationId resp db' Hkeys [Ht Hc] H Hok.
  apply journeyExit_writes in H.
  destruct H as [[_ Hfail] | [W _]]; [congruence |].
  inversion W as [| | ticket station journey booking rest row db2 Hjoin Hdone
                      | card station journey rest row db2 Hselect Hdone
                      | | | | ]; subst.
  - assert (Hone : select_active_ticket_journey db mediaId = [journey]).
    { apply only_one; [apply Ht |].
      apply select_active_ticket_journey_booking_In with (b := booking).
      rewrite Hjoin. left. reflexivity. }
    destruct (@exit_leaves_no_active env db (j_JourneyID journey) stationId
                row db' (fun x => is_id (j_TicketID x) mediaId) journey
                Hkeys Hdone Hone eq_refl)
      as (Hfind & Hactive & (j' & Hj' & Hcompleted) & Hnone & Hkeys').
    exists journey.
    split; [exact Hfind | split; [exact Hactive | split; [| split; [| split]]]].
    + exists j'. split; assumption.
    + intros env' stationId'. apply journeyExit_no_active.
      left. split; [reflexivity | exact Hnone].
    + intros env' stationId'.
      apply complete_journey_not_active with (j := j'); [exact Hj' |].
      congruence.
    + intros ops j. apply run_terminal. exact Hkeys'.
  - assert (Hone : select_active_card_journey db mediaId = [journey]).
    { eapply one_of_at_most_one; [apply Hc | exact Hselect]. }
    destruct (@exit_leaves_no_active env db (j_JourneyID journey) stationId
                row db' (fun x => is_id (j_CardID x) mediaId) journey
                Hkeys Hdone Hone eq_refl)
      as (Hfind & Hactive & (j' & Hj' & Hcompleted) & Hnone & Hkeys').
    exists journey.
    split; [exact Hfind | split; [exact Hactive | split; [| split; [| split]]]].
    + exists j'. split; assumption.
    + intros env' stationId'. apply journeyExit_no_active.
      right. split; [reflexivity | exact Hnone].
    + intros env' stationId'.
      apply complete_journey_not_active with (j := j'); [exact Hj' |].
      congruence.
    + intros ops j. apply run_terminal. exact Hkeys'.
Qed.

(* ================================================================== *)
(** * The model at work on the sample network *)
(* ================================================================== *)

(** C1, as stated, fails.  Card 1 entered at station 1 and leaves at
    station 3, a route with no fare: [complete_journey] completes the journey
    and [FareDeducted] stays NULL, which is not the zero that
    [get_current_fare] returns. *)
Lemma zero_fare_completion_leaves_FareDeducted_unset :
  ~ fare_deducted_is_current_fare Sample.later Sample.card_1_inside 1 3.
Proof.
  unfold fare_deducted_is_current_fare. intros H.
  destruct (complete_journey Sample.later Sample.card_1_inside 1 3)
    as [e | [row db']] eqn:E; [vm_compute in E; discriminate |].
  vm_compute in E. injection E as <- <-.
  specialize (H _ _ _ 1 5000 eq_refl eq_refl eq_refl eq_refl eq_refl).
  destruct H as [H _]. vm_compute in H. discriminate.
Qed.

(** C4, as stated, fails.  The same exit at the gate is admitted. *)
Lemma zero_fare_exit_is_admitted :
  ~ zero_fare_exit_is_refused Sample.later Sample.card_1_inside 1 3.
Proof.
  unfold zero_fare_exit_is_refused. intros H.
  specialize (H _ _ eq_refl eq_refl). vm_compute in H. discriminate.
Qed.

Lemma Sample_uq_fare_route : uq_fare_route Sample.db.
Proof.
  intros f g d Hf Hg Hs Hd Ef Eg. simpl in Hf, Hg.
  destruct Hf as [<- | [<- | []]]; destruct Hg as [<- | [<- | []]];
    simpl in *; congruence.
Defined.

(** On day 10 the fare from station 1 to station 2 is the 30.00 in force
    since day 0, not the 20.00 that ended then; from station 1 to station 3
    no fare is defined. *)
Lemma get_current_fare_most_recent_effective_witness :
  get_current_fare Sample.db 10 1 2 = 3000
  /\ get_current_fare Sample.db 10 1 3 = 0.
Proof.
  split.
  - destruct (get_current_fare_most_recent_effective 10 1 2
                Sample_uq_fare_route) as [H _].
    apply (H {| f_FareID := 2; f_SourceStationID := 1;
                f_DestinationStationID := 2; f_FareAmount := 3000;
                f_EffectiveFrom := Some 0; f_EffectiveUntil := None |} 0).
    + simpl. right. left. reflexivity.
    + unfold effective. simpl.
      repeat split; try reflexivity; try lia. left. reflexivity.
    + intros r' from' Hin (_ & _ & Hfrom & _ & Huntil). simpl in Hin.
      destruct Hin as [<- | [<- | []]]; simpl in *.
      * destruct Huntil as [Hu | (u & Hu & Hlt)]; [discriminate |].
        injection Hu as <-. lia.
      * injection Hfrom as <-. lia.
  - destruct (get_current_fare_most_recent_effective 10 1 3
                Sample_uq_fare_route) as [_ H].
    apply H. intros r from Hin (_ & Hdst & _). simpl in Hin.
    destruct Hin as [<- | [<- | []]]; simpl in Hdst; discriminate.
Defined.

Lemma Sample_one_active : one_active_per_media Sample.db.
Proof. split; intros x; simpl; lia. Defined.

Lemma Sample_in_range : balances_in_range Sample.db.
Proof.
  unfold balances_in_range, in_range. simpl.
  repeat constructor; simpl; lia.
Defined.

(** Card 1 enters twice and card 2 once: each has one Active journey. *)
Lemma one_active_journey_per_media_witness :
  one_active_per_media
    (serve Sample.db
       [ (Sample.env, POST_journey_entry "Card" 1 1);
         (Sample.later, POST_journey_entry "Card" 1 2);
         (Sample.later, POST_journey_entry "Card" 2 1) ])
  /\ select_active_card_journey
       (serve Sample.db
          [ (Sample.env, POST_journey_entry "Card" 1 1);
            (Sample.later, POST_journey_entry "Card" 1 2);
            (Sample.later, POST_journey_entry "Card" 2 1) ]) 1
     = [ new_journey Sample.env JT_Card 1 None (Some 1) ].
Proof.
  split.
  - apply one_active_journey_per_media. exact Sample_one_active.
  - reflexivity.
Defined.

(** Scenario D: card 2 holds 15.00, the fare is 30.00. *)
Lemma card_exit_insufficient_balance_witness :
  fst (journeyExit Sample.later Sample.card_2_inside "Card" 2 2)
  = error 400 Insufficient_balance
  /\ snd (journeyExit Sample.later Sample.card_2_inside "Card" 2 2)
     = Sample.card_2_inside
  /\ select_Balance Sample.card_2_inside 2 = Some 1500.
Proof.
  destruct (@card_exit_insufficient_balance Sample.later Sample.card_2_inside
              2 2
              {| s_StationID := 2; s_StationName := "Kashmere Gate";
                 s_IsOperational := true |}
              (new_journey Sample.env JT_Card 1 None (Some 2)) [] 1500
              eq_refl eq_refl eq_refl eq_refl)
    as (H1 & H2 & _ & _ & H3 & _).
  - vm_compute. reflexivity.
  - split; [exact H1 | split; [exact H2 |]].
    rewrite H2 in H3. exact H3.
Defined.

(** A recharge of 20.00 on card 3, which holds 9990.00, is refused. *)
Lemma balance_in_range_and_credit_over_limit_fails_witness :
  balances_in_range
    (run Sample.db
       [ (Sample.env, Request (POST_journey_entry "Card" 1 1));
         (Sample.later, Request (POST_journey_exit "Card" 1 2)) ])
  /\ exists resp,
       rechargeCard Sample.later
         (run Sample.db
            [ (Sample.env, Request (POST_journey_entry "Card" 1 1));
              (Sample.later, Request (POST_journey_exit "Card" 1 2)) ])
         2 2000 "UPI"
       = (resp,
          run Sample.db
            [ (Sample.env, Request (POST_journey_entry "Card" 1 1));
              (Sample.later, Request (POST_journey_exit "Card" 1 2)) ])
       /\ is_success resp = false.
Proof.
  destruct (@balance_in_range_and_credit_over_limit_fails Sample.db
              [ (Sample.env, Request (POST_journey_entry "Card" 1 1));
                (Sample.later, Request (POST_journey_exit "Card" 1 2)) ]
              Sample_in_range) as (H1 & _ & H3).
  split; [exact H1 |].
  apply (H3 Sample.later 2 2000 "UPI"
            {| c_CardID := 3; c_UserID := Some 2; c_Balance := 999000;
               c_IsActive := true; c_LastUsedAt := None |}).
  - reflexivity.
  - simpl. lia.
Defined.

Lemma Sample_card_1_inside_journeys :
  db_Journey Sample.card_1_inside
  = [ new_journey Sample.env JT_Card 1 None (Some 1) ].
Proof. reflexivity. Defined.

Lemma Sample_card_1_inside_pkey : journey_pkey Sample.card_1_inside.
Proof.
  unfold journey_pkey. rewrite Sample_card_1_inside_journeys. simpl.
  constructor; [intros [] | constructor].
Defined.

Lemma Sample_card_1_inside_one_active :
  one_active_per_media Sample.card_1_inside.
Proof.
  unfold one_active_per_media, select_active_ticket_journey,
    select_active_card_journey.
  rewrite Sample_card_1_inside_journeys. unfold new_journey.
  split; intros x; simpl.
  - auto.
  - destruct x as [| q | q]; simpl; auto.
    destruct (1 =? q)%positive; simpl; auto.
Defined.

(** Scenario B twice: card 1 leaves at station 2, and tries again. *)
Lemma second_exit_is_refused_witness :
  exists code msg,
    journeyExit Sample.later
      (snd (journeyExit Sample.later Sample.card_1_inside "Card" 1 2))
      "Card" 1 2
    = (error code msg,
       snd (journeyExit Sample.later Sample.card_1_inside "Card" 1 2))
    /\ code = 404
    /\ msg = "No active journey found for this media".
Proof.
  destruct (@second_exit_is_refused Sample.later Sample.card_1_inside "Card"
              1 2
              (fst (journeyExit Sample.later Sample.card_1_inside "Card" 1 2))
              (snd (journeyExit Sample.later Sample.card_1_inside "Card" 1 2))
              Sample_card_1_inside_pkey Sample_card_1_inside_one_active)
    as (journey & _ & _ & _ & H & _).
  - apply surjective_pairing.
  - vm_compute. reflexivity.
  - destruct (H Sample.later 2) as (code & msg & E & Hs).
    exists code, msg. split; [exact E |].
    apply (Hs {| s_StationID := 2; s_StationName := "Kashmere Gate";
                 s_IsOperational := true |}); reflexivity.
Defined.

(** Ticket 1 is booked from station 1; the gate of station 2 refuses it. *)
Lemma entry_station_must_match_ticket_source_witness :
  journeyEntry Sample.env Sample.db "Ticket" 1 2
  = (error 400 "Entry station does not match ticket source station",
     Sample.db).
Proof.
  destruct (@entry_station_must_match_ticket_source Sample.env Sample.db 1 2
              {| t_TicketID := 1; t_BookingID := 1; t_ValidFrom := 0;
                 t_ValidUntil := 1000; t_IsUsed := false; t_UsedAt := None |}
              {| b_BookingID := 1; b_TransactionID := 0;
                 b_SourceStationID := 1; b_DestinationStationID := 2;
                 b_TotalFare := 3000 |}
              [] eq_refl) as [_ H].
  - simpl. lia.
  - apply (H {| s_StationID := 2; s_StationName := "Kashmere Gate";
                s_IsOperational := true |}); try reflexivity.
    simpl. lia.
Defined.

(** Scenario B: card 1 holds 50.00 and pays the 30.00 of the route. *)
Lemma completed_card_journey_fare_witness :
  exists row db' j',
    complete_journey Sample.later Sample.card_1_inside 1 2 = inr (row, db')
    /\ select_Journey db' 1 = Some j'
    /\ j_FareDeducted j' = Some 3000
    /\ fare_deducted row = Some 3000
    /\ select_Balance db' 1 = Some 2000.
Proof.
  destruct (complete_journey Sample.later Sample.card_1_inside 1 2)
    as [e | [row db']] eqn:E; [vm_compute in E; discriminate |].
  destruct (@completed_card_journey_fare Sample.later Sample.card_1_inside
              1 2 (new_journey Sample.env JT_Card 1 None (Some 1)) 1 5000
              row db' Sample_card_1_inside_pkey eq_refl eq_refl eq_refl E)
    as (j' & Hj' & _ & _ & Hpos & _).
  exists row, db', j'. split; [reflexivity | split; [exact Hj' |]].
  assert (Hfare : 0 < get_current_fare Sample.card_1_inside
                        (CURRENT_DATE Sample.later)
                        (j_EntryStationID
                           (new_journey Sample.env JT_Card 1 None (Some 1)))
                        2).
  { vm_compute. reflexivity. }
  destruct (Hpos Hfare) as (H1 & H2 & _ & H3).
  split; [exact H1 | split; [exact H2 | exact H3]].
Defined.

(** Card 1 leaves at station 3, a route with no fare: a free ride. *)
Lemma zero_fare_card_exit_is_free_witness :
  exists db',
    journeyExit Sample.later Sample.card_1_inside "Card" 1 3
    = (success 200 "Exit permitted - Journey completed"
         {| journeyId := 1; fareCharged := None;
            previousBalance := Some 5000; newBalance := None;
            warning := false |}, db')
    /\ select_Balance db' 1 = Some 5000.
Proof.
  destruct (@zero_fare_card_exit_is_free Sample.later Sample.card_1_inside
              1 3
              {| s_StationID := 3; s_StationName := "Central Secretariat";
                 s_IsOperational := true |}
              (new_journey Sample.env JT_Card 1 None (Some 1)) [] 5000
              Sample_card_1_inside_pkey eq_refl eq_refl eq_refl eq_refl)
    as (db' & H & _ & Hbalance).
  - lia.
  - reflexivity.
  - reflexivity.
  - reflexivity.
  - reflexivity.
  - vm_compute. reflexivity.
  - exists db'. split; [exact H |]. rewrite Hbalance. reflexivity.
Defined.

(** Scenario A: ticket 1 enters at station 1, is refused a second entry, and
    its [IsUsed] has changed once. *)
Lemma ticket_used_once_by_start_witness :
  select_IsUsed Sample.db 1 = Some false
  /\ select_IsUsed Sample.ticket_1_inside 1 = Some true
  /\ (exists resp,
         journeyEntry Sample.later Sample.ticket_1_inside "Ticket" 1 1
         = (resp, Sample.ticket_1_inside)
         /\ is_success resp = false)
  /\ (flips 1 Sample.db
        [ (Sample.env, Request (POST_journey_entry "Ticket" 1 1));
          (Sample.later, Request (POST_journey_entry "Ticket" 1 1));
          (Sample.later, Request (POST_journey_exit "Ticket" 1 2)) ]
      <= 1)%nat.
Proof.
  destruct (ticket_used_once_by_start Sample.db 1)
    as (_ & _ & Hentry & _ & Hflips).
  destruct (ticket_used_once_by_start Sample.ticket_1_inside 1)
    as (_ & _ & _ & Hused & _).
  destruct (Hentry Sample.env 1
              (fst (journeyEntry Sample.env Sample.db "Ticket" 1 1))
              Sample.ticket_1_inside eq_refl eq_refl) as [H1 H2].
  split; [exact H1 | split; [exact H2 | split]].
  - destruct (Hused H2 Sample.later 1) as [_ H]. exact H.
  - apply Hflips.
Defined.

(* ================================================================== *)
(** * Requests in flight: properties *)
(* ================================================================== *)

(** The handlers run alone are the functions above. *)
Lemma journeyEntry_alone env db mediaType mediaId stationId :
  alone env db (journeyEntry_handler mediaType mediaId stationId)
  = journeyEntry env db mediaType mediaId stationId.
Proof.
  unfold journeyEntry, journeyEntry_handler. simpl.
  destruct (find (fun s => s_StationID s =? stationId) (db_Station db));
    [| reflexivity].
  destruct (negb (s_IsOperational s)); [reflexivity |].
  destruct (String.eqb mediaType "Ticket").
  - simpl. destruct (select_ticket_booking db mediaId) as [| [ticket booking] l];
      [reflexivity |].
    destruct (t_IsUsed ticket); [reflexivity |].
    destruct ((js_now env <? t_ValidFrom ticket)
              || (js_now env >? t_ValidUntil ticket)); [reflexivity |].
    destruct (negb (b_SourceStationID booking =? stationId)); [reflexivity |].
    simpl. destruct (select_active_ticket_journey db mediaId); [| reflexivity].
    simpl.
    destruct (start_journey env db JT_Ticket stationId (Some mediaId) None)
      as [e | [id db']]; reflexivity.
  - destruct (String.eqb mediaType "Card"); [| reflexivity].
    simpl. destruct (find (fun c => c_CardID c =? mediaId) (db_SmartCard db))
      as [card |]; [| reflexivity].
    destruct (negb (c_IsActive card)); [reflexivity |].
    destruct (c_Balance card <? 1000); [reflexivity |].
    simpl. destruct (select_active_card_journey db mediaId); [| reflexivity].
    simpl.
    destruct (start_journey env db JT_Card stationId None (Some mediaId))
      as [e | [id db']]; reflexivity.
Qed.

(** C9, as stated, fails.  Two entry requests for card 1 at station 1, the
    second starting when the first has just seen that the card has no Active
    journey: both are admitted, and the card has two Active journeys. *)
Lemma two_starts_in_flight_both_succeed :
  ~ starts_exclude_each_other Sample.db 1 1 1.
Proof.
  unfold starts_exclude_each_other. intros H.
  apply (H race
           (success 200 "Entry permitted - Journey started"
              (entry_data 1 (Some 5000)))
           (success 200 "Entry permitted - Journey started"
              (entry_data 2 (Some 5000)))
           raced);
    reflexivity.
Qed.

(** ** What a completion keeps *)

Lemma find_exited_card id station time rows rows' id' r :
  Forall2 (journey_exited id station time) rows rows' ->
  find (fun j => j_JourneyID j =? id') rows = Some r ->
  exists r', find (fun j => j_JourneyID j =? id') rows' = Some r'
             /\ j_CardID r' = j_CardID r.
Proof.
  induction 1 as [| x y xs ys Hxy _ IH]; simpl; intros Hfind; [discriminate |].
  apply journey_exited_fields in Hxy.
  destruct Hxy as (Hkey & _ & Hcard & _). rewrite Hkey.
  destruct (j_JourneyID x =? id').
  - injection Hfind as <-. exists y. split; [reflexivity | exact Hcard].
  - apply IH. exact Hfind.
Qed.

(** What a completion keeps of the facts the other handler relies on. *)
Lemma complete_journey_keeps env db id station row db' :
  complete_journey env db id station = inr (row, db') ->
  (journey_pkey db -> journey_pkey db')
  /\ (active_unpaid db -> active_unpaid db')
  /\ (forall card j, holds db card j -> holds db' card j).
Proof.
  intros H. apply complete_journey_inr in H.
  destruct H as (_ & Hrows & _). split; [| split].
  - unfold journey_pkey.
    rewrite (@journey_exited_keys _ _ _ _ _ Hrows). trivial.
  - intros Hunpaid j Hin Hactive.
    destruct (@Forall2_In_r _ _ _ _ _ j Hrows Hin) as (x & Hx & Hxj).
    assert (E : j = x).
    { apply (@journey_exited_active _ _ _ x j (fun _ => true) Hxj).
      rewrite Hactive. reflexivity. }
    subst x. apply Hunpaid; assumption.
  - intros card j (r & Hr & Hcard). unfold holds, select_Journey in *.
    destruct (find_exited_card _ Hrows Hr) as (r' & Hr' & Hcard').
    exists r'. split; [exact Hr' | congruence].
Qed.

(** A card that has just been admitted is refused a second entry. *)
Lemma journeyEntry_card_twice env db card station resp db' :
  journeyEntry env db "Card" card station = (resp, db') ->
  is_success resp = true ->
  forall env' station',
    exists code msg,
      journeyEntry env' db' "Card" card station' = (error code msg, db').
Proof.
  intros H Hok env' station'.
  apply journeyEntry_writes in H.
  destruct H as [[_ Hfail] | [W _]]; [congruence |].
  inversion W as [| c st id db2 Hnone Hstart | | | | | |]; subst.
  apply start_journey_journeys in Hstart.
  assert (Hactive : exists j rest,
             select_active_card_journey db' card = j :: rest).
  { unfold select_active_card_journey. rewrite Hstart, filter_app. simpl.
    rewrite Z.eqb_refl. simpl.
    destruct (filter _ (db_Journey db)) as [| j rest];
      simpl; do 2 eexists; reflexivity. }
  destruct Hactive as (j & rest & Hactive).
  unfold journeyEntry.
  destruct (find (fun s => s_StationID s =? station') (db_Station db'));
    [| do 2 eexists; reflexivity].
  destruct (negb (s_IsOperational s)); [do 2 eexists; reflexivity |].
  simpl.
  destruct (find (fun c => c_CardID c =? card) (db_SmartCard db'))
    as [row |]; [| do 2 eexists; reflexivity].
  destruct (negb (c_IsActive row)); [do 2 eexists; reflexivity |].
  destruct (c_Balance row <? 1000); [do 2 eexists; reflexivity |].
  rewrite Hactive. do 2 eexists; reflexivity.
Qed.

(* ================================================================== *)
(** * Card exits in flight: properties *)
(* ================================================================== *)

(** ** Rows replaced by their key *)

Lemma SUM_app l l' : SUM (l ++ l') = SUM l + SUM l'.
Proof.
  unfold SUM. induction l as [| a l IH]; simpl; [reflexivity | lia].
Qed.

Lemma SUM_flat_map_replaced (f : Journey -> list Z) id OLD NEW rows :
  NoDup (map j_JourneyID rows) -> In OLD rows -> j_JourneyID OLD = id ->
  SUM (flat_map f (map (fun j => if j_JourneyID j =? id then NEW else j) rows))
  = SUM (flat_map f rows) - SUM (f OLD) + SUM (f NEW).
Proof.
  induction rows as [| a rows IH]; simpl; intros Hnd Hin Hid;
    [contradiction |].
  inversion Hnd as [| ? ? Hnotin Hnd']; subst.
  rewrite !SUM_app.
  destruct Hin as [-> | Hin].
  - rewrite Z.eqb_refl.
    rewrite map_replace_fresh; [lia |].
    apply NoDup_key_fresh. exact Hnotin.
  - replace (j_JourneyID a =? j_JourneyID OLD) with false.
    + rewrite (IH Hnd' Hin eq_refl). lia.
    + symmetry. apply Z.eqb_neq. intros E. apply Hnotin. rewrite E.
      apply in_map. exact Hin.
Qed.

Lemma replaced_keys id (NEW : Journey) rows :
  j_JourneyID NEW = id ->
  map j_JourneyID (map (fun j => if j_JourneyID j =? id then NEW else j) rows)
  = map j_JourneyID rows.
Proof.
  intros Hid. induction rows as [| j rest IH]; simpl; [reflexivity |].
  rewrite IH. destruct (j_JourneyID j =? id) eqn:E; [| reflexivity].
  apply Z.eqb_eq in E. congruence.
Qed.

Lemma find_replaced_other id id' (NEW : Journey) rows :
  j_JourneyID NEW = id -> id' <> id ->
  find (fun j => j_JourneyID j =? id')
    (map (fun j => if j_JourneyID j =? id then NEW else j) rows)
  = find (fun j => j_JourneyID j =? id') rows.
Proof.
  intros Hid Hne. induction rows as [| j rest IH]; simpl; [reflexivity |].
  destruct (j_JourneyID j =? id) eqn:E.
  - apply Z.eqb_eq in E.
    replace (j_JourneyID NEW =? id') with false
      by (symmetry; apply Z.eqb_neq; congruence).
    replace (j_JourneyID j =? id') with false
      by (symmetry; apply Z.eqb_neq; congruence).
    exact IH.
  - destruct (j_JourneyID j =? id'); [reflexivity | exact IH].
Qed.

Lemma In_replaced id (NEW : Journey) rows x :
  In x (map (fun j => if j_JourneyID j =? id then NEW else j) rows) ->
  x = NEW \/ In x rows.
Proof.
  induction rows as [| j rest IH]; simpl; [tauto |].
  intros [E | Hin].
  - destruct (j_JourneyID j =? id); [left; congruence | right; left; exact E].
  - destruct (IH Hin) as [-> | H]; [left; reflexivity | right; right; exact H].
Qed.

Lemma find_card_replaced card (row old : SmartCard) rows :
  find (fun r => c_CardID r =? card) rows = Some old ->
  c_CardID row = card ->
  find (fun r => c_CardID r =? card)
    (map (fun c => if c_CardID c =? c_CardID row then row else c) rows)
  = Some row.
Proof.
  intros Hfind Hrow. rewrite Hrow.
  induction rows as [| c rest IH]; cbn [find map] in *; [discriminate |].
  destruct (c_CardID c =? card) eqn:E; cbn [find].
  - rewrite Hrow, Z.eqb_refl. reflexivity.
  - rewrite E. apply IH. exact Hfind.
Qed.

(** ** What the return of a call does to the tables *)

Lemma commit_Journey db id NEW debit :
  db_Journey (commit db id NEW debit)
  = map (fun j => if j_JourneyID j =? id then NEW else j) (db_Journey db).
Proof. destruct debit; reflexivity. Qed.

Lemma commit_SmartCard db id NEW debit :
  db_SmartCard (commit db id NEW debit)
  = match debit with
    | Some row =>
        map (fun c => if c_CardID c =? c_CardID row then row else c)
          (db_SmartCard db)
    | None => db_SmartCard db
    end.
Proof. destruct debit; reflexivity. Qed.

Lemma select_Journey_In db id row :
  select_Journey db id = Some row ->
  In row (db_Journey db) /\ j_JourneyID row = id.
Proof.
  unfold select_Journey. intros H. apply find_some in H.
  destruct H as [Hin Hid]. apply Z.eqb_eq in Hid. split; assumption.
Qed.

Lemma stores_fields station time OLD NEW :
  stores station time OLD NEW ->
  j_JourneyID NEW = j_JourneyID OLD
  /\ j_CardID NEW = j_CardID OLD
  /\ j_Status NEW = Completed
  /\ (j_Status OLD = Completed -> j_FareDeducted NEW = j_FareDeducted OLD).
Proof.
  intros [-> | (fare & Hactive & ->)]; simpl; repeat split; try reflexivity.
  intros H. congruence.
Qed.

Lemma call_knows_stores db card id station started OLD NEW debit :
  call_knows db card id station (store_journey started OLD NEW debit) ->
  select_Journey db id = Some OLD
  /\ stores station (exit_time started) OLD NEW.
Proof.
  destruct debit as [row |]; simpl.
  - intros (H & Hactive & old & fare & _ & _ & _ & ->).
    split; [exact H |]. right. exists fare. split; [exact Hactive | reflexivity].
  - intros (H & ->). split; [exact H | left; reflexivity].
Qed.

Lemma commit_select_Journey db id OLD NEW debit :
  select_Journey db id = Some OLD ->
  j_JourneyID NEW = id ->
  select_Journey (commit db id NEW debit) id = Some NEW.
Proof.
  unfold select_Journey. intros H Hid. rewrite commit_Journey.
  apply find_replaced with (OLD := OLD); assumption.
Qed.

Lemma commit_select_Journey_other db id id' NEW debit :
  j_JourneyID NEW = id -> id' <> id ->
  select_Journey (commit db id NEW debit) id' = select_Journey db id'.
Proof.
  unfold select_Journey. intros Hid Hne. rewrite commit_Journey.
  apply find_replaced_other; assumption.
Qed.

Lemma commit_journey_pkey db id NEW debit :
  j_JourneyID NEW = id ->
  journey_pkey db -> journey_pkey (commit db id NEW debit).
Proof.
  unfold journey_pkey. intros Hid H.
  rewrite commit_Journey, replaced_keys; assumption.
Qed.

Lemma commit_active_unpaid db id NEW debit :
  j_Status NEW = Completed ->
  active_unpaid db -> active_unpaid (commit db id NEW debit).
Proof.
  intros Hdone H j Hin Hactive. rewrite commit_Journey in Hin.
  apply In_replaced in Hin. destruct Hin as [-> | Hin].
  - congruence.
  - apply H; assumption.
Qed.

Lemma commit_deducted db id OLD NEW debit card :
  journey_pkey db ->
  select_Journey db id = Some OLD ->
  deducted (commit db id NEW debit) card
  = deducted db card - SUM (fare_taken card OLD) + SUM (fare_taken card NEW).
Proof.
  intros Hkeys H. apply select_Journey_In in H. destruct H as [Hin Hid].
  unfold deducted. rewrite commit_Journey.
  apply SUM_flat_map_replaced; assumption.
Qed.

Lemma fare_taken_unpaid card j :
  j_FareDeducted j = None -> SUM (fare_taken card j) = 0.
Proof.
  unfold fare_taken. intros ->. destruct (is_id _ _); reflexivity.
Qed.

Lemma find_card_key card rows old :
  find (fun r => c_CardID r =? card) rows = Some old -> c_CardID old = card.
Proof.
  intros H. apply find_some in H. destruct H as [_ H].
  apply Z.eqb_eq. exact H.
Qed.

(** The account of the card is in order after the return of a call. *)
Lemma commit_accounted db card total id station started OLD NEW debit :
  accounted db card total ->
  call_knows db card id station (store_journey started OLD NEW debit) ->
  j_CardID OLD = Some card ->
  accounted (commit db id NEW debit) card total.
Proof.
  intros (Hkeys & Hunpaid & balance & Hbalance & Hnonneg & Hsum) Hknows Hcard.
  destruct (call_knows_stores _ _ _ _ _ _ _ _ Hknows) as [Hsel Hstores].
  destruct (stores_fields Hstores) as (Hid & Hcard' & Hdone & _).
  destruct (select_Journey_In _ _ Hsel) as [Hin Hold].
  split; [apply commit_journey_pkey; [congruence | exact Hkeys] |].
  split; [apply commit_active_unpaid; assumption |].
  rewrite (@commit_deducted db id OLD NEW debit card Hkeys Hsel).
  unfold select_Balance in *. rewrite commit_SmartCard.
  destruct debit as [row |]; simpl in Hknows.
  - destruct Hknows as (_ & Hactive & old & fare & Hfind & -> & Hrow & ->).
    rewrite Hfind in Hbalance. simpl in Hbalance. injection Hbalance as <-.
    exists (c_Balance old - fare).
    rewrite (@find_card_replaced card _ old _ Hfind);
      [| simpl; eapply find_card_key; exact Hfind].
    split; [reflexivity |]. simpl in Hrow. split; [exact Hrow |].
    rewrite (@fare_taken_unpaid card OLD (Hunpaid OLD Hin Hactive)).
    unfold fare_taken. simpl. rewrite Hcard. simpl. rewrite Z.eqb_refl.
    simpl. lia.
  - destruct Hknows as (_ & ->).
    exists balance. split; [exact Hbalance |]. split; [exact Hnonneg |].
    unfold fare_taken. simpl. lia.
Qed.

(** What the other request relies on is still so after the return. *)
Lemma tracks_commit db card j id station time OLD NEW debit :
  select_Journey db id = Some OLD ->
  stores station time OLD NEW ->
  tracks db card j ->
  tracks (commit db id NEW debit) card j.
Proof.
  intros Hsel Hstores (row & Hrow & Hcard & Hstatus).
  destruct (stores_fields Hstores) as (Hid & Hcard' & Hdone & _).
  destruct (select_Journey_In _ _ Hsel) as [_ Hold].
  destruct (Z.eq_dec (j_JourneyID j) id) as [E | E].
  - rewrite E in Hrow. rewrite Hsel in Hrow. injection Hrow as <-.
    exists NEW. rewrite E.
    split; [eapply commit_select_Journey; [exact Hsel | congruence] |].
    split; [congruence | right; exact Hdone].
  - exists row.
    split; [rewrite commit_select_Journey_other; [exact Hrow | congruence | exact E] |].
    split; assumption.
Qed.

Lemma call_knows_commit db card id station time OLD NEW debit id2 st2 c2 :
  select_Journey db id = Some OLD ->
  stores station time OLD NEW ->
  (on_Journey (locks_of c2) = Some id -> False) ->
  (debit <> None -> on_SmartCard (locks_of c2) = None) ->
  call_knows db card id2 st2 c2 ->
  call_knows (commit db id NEW debit) card id2 st2 c2.
Proof.
  intros Hsel Hstores Hlock Hcardlock Hknows.
  destruct (stores_fields Hstores) as (Hid & _).
  destruct (select_Journey_In _ _ Hsel) as [_ Hold].
  assert (Hother : forall OLD2,
             on_Journey (locks_of c2) = Some (j_JourneyID OLD2) ->
             select_Journey db id2 = Some OLD2 ->
             select_Journey (commit db id NEW debit) id2 = Some OLD2).
  { intros OLD2 Hheld Hsel2.
    destruct (select_Journey_In _ _ Hsel2) as [_ Hold2].
    rewrite commit_select_Journey_other; [exact Hsel2 | congruence |].
    intros E. apply Hlock. rewrite Hheld. congruence. }
  destruct c2 as [| env2 | env2 OLD2 cd | env2 OLD2 cd f | env2 OLD2 cd f
                  | env2 OLD2 NEW2 [row2 |] | res];
    cbn [call_knows locks_of on_Journey on_SmartCard] in *;
    try exact I; try contradiction.
  - destruct Hknows as (H & Ha & Hc). split; [| split]; auto.
  - destruct Hknows as (H & Ha & Hc). split; [| split]; auto.
  - destruct Hknows as (H & Ha & Hc). split; [| split]; auto.
  - destruct Hknows as (H & Ha & old & fare & Hfind & Hrest).
    split; [auto |]. split; [exact Ha |]. exists old, fare.
    split; [| exact Hrest].
    rewrite commit_SmartCard. destruct debit as [row |]; [| exact Hfind].
    assert (Hnone : Some (c_CardID row2) = None)
      by (apply Hcardlock; discriminate).
    discriminate.
  - destruct Hknows as (H & Hnew). split; auto.
Qed.

Lemma exit_knows_commit db card id station time OLD NEW debit st2 s2 :
  select_Journey db id = Some OLD ->
  stores station time OLD NEW ->
  (on_Journey (locks_of_exit s2) = Some id -> False) ->
  (debit <> None -> on_SmartCard (locks_of_exit s2) = None) ->
  exit_knows db card st2 s2 ->
  exit_knows (commit db id NEW debit) card st2 s2.
Proof.
  intros Hsel Hstores Hlock Hcardlock Hknows.
  destruct s2 as [| | j | j b | j b c | r];
    cbn [exit_knows locks_of_exit] in *; try exact I.
  - eapply tracks_commit; eassumption.
  - eapply tracks_commit; eassumption.
  - destruct Hknows as [Htracks Hcall].
    split; [eapply tracks_commit; eassumption |].
    eapply call_knows_commit; eassumption.
  - intros code msg d Hr.
    destruct (Hknows code msg d Hr) as (row & Hrow & Hcard & Hdone & Hfare).
    destruct (stores_fields Hstores) as (Hid & Hcard' & Hdone' & Hsame).
    destruct (select_Journey_In _ _ Hsel) as [_ Hold].
    destruct (Z.eq_dec (journeyId d) id) as [E | E].
    + rewrite E in Hrow. rewrite Hsel in Hrow. injection Hrow as <-.
      exists NEW. rewrite E.
      split; [eapply commit_select_Journey; [exact Hsel | congruence] |].
      split; [congruence |]. split; [exact Hdone' |].
      rewrite (Hsame Hdone). exact Hfare.
    + exists row.
      split; [rewrite commit_select_Journey_other;
              [exact Hrow | congruence | exact E] |].
      repeat split; assumption.
Qed.

(** ** One statement of a card exit in flight *)

Lemma apart_sym l1 l2 : apart l1 l2 -> apart l2 l1.
Proof. intros [H1 H2]. split; intros x Ha Hb; eauto. Qed.

Lemma apart_none l :
  apart {| on_Journey := None; on_SmartCard := None |} l.
Proof. split; intros x H; discriminate H. Qed.

Lemma exit_knows_card_lock db card st s c :
  exit_knows db card st s ->
  on_SmartCard (locks_of_exit s) = Some c -> c = card.
Proof.
  destruct s as [| | j | j b | j b call | r]; simpl; try discriminate.
  intros [_ H].
  destruct call as [| e | e OLD cd | e OLD cd f | e OLD cd f
                    | e OLD NEW [row |] | res]; simpl in *; try discriminate.
  destruct H as (_ & _ & old & fare & Hfind & -> & _).
  intros E. injection E as <-. simpl. eapply find_card_key. exact Hfind.
Qed.

Lemma not_success_knows db card st r :
  is_success r = false -> exit_knows db card st (exit_done r).
Proof. intros H code msg d ->. discriminate H. Qed.

Lemma errorHandler_knows db card st err :
  exit_knows db card st (exit_done (errorHandler err)).
Proof. apply not_success_knows. destruct err; reflexivity. Qed.

Lemma apart_grows held before after :
  apart before held -> grows held before after -> apart after held.
Proof.
  intros [H1 H2] [G1 G2]. split; intros x Ha Hb.
  - destruct (G1 x Ha) as [H | H]; [eapply H1; eassumption | contradiction].
  - destruct (G2 x Ha) as [H | H]; [eapply H2; eassumption | contradiction].
Qed.

Lemma grows_same held l : grows held l l.
Proof. split; intros x H; left; exact H. Qed.

Lemma is_id_false (o : option Z) (x : Z) : is_id o x = false -> o <> Some x.
Proof.
  intros H E. subst o. simpl in H. rewrite Z.eqb_refl in H. discriminate.
Qed.

(** One statement of the call of an exit in flight: it raises, or it goes on
    with what it relies on, or it returns and its writes reach the tables. *)
Lemma complete_journey_step_cases env held db card total j station c c' db' :
  accounted db card total ->
  tracks db card j ->
  call_knows db card (j_JourneyID j) station c ->
  complete_journey_step env held db (j_JourneyID j) station c = (c', db') ->
  (db' = db
   /\ ((exists e, c' = returned (inl e))
       \/ (call_knows db card (j_JourneyID j) station c'
           /\ grows held (locks_of c) (locks_of c'))))
  \/ (exists started OLD NEW debit,
         c = store_journey started OLD NEW debit
         /\ c' = returned (inr {| journey_id := j_JourneyID j;
                                  fare_deducted := j_FareDeducted NEW |})
         /\ db' = commit db (j_JourneyID j) NEW debit).
Proof.
  intros (Hkeys & Hunpaid & balance & Hbalance & Hnonneg & Hsum)
         (row & Hrow & Hcard & Hstatus) Hknows Hstep.
  destruct c as [| started | started OLD cd | started OLD cd v_fare
                 | started OLD cd v_fare | started OLD NEW debit | res];
    cbn [complete_journey_step call_knows] in *.
  - (* SELECT * INTO v_journey *)
    left. rewrite Hrow in Hstep.
    destruct (negb (journey_status_eqb (j_Status row) Active));
      injection Hstep as <- <-; (split; [reflexivity |]).
    + left. eexists. reflexivity.
    + right. split; [exact I | apply grows_same].
  - (* UPDATE Journey *)
    left. destruct (is_id (on_Journey held) (j_JourneyID j)) eqn:Hheld.
    + injection Hstep as <- <-. split; [reflexivity |]. right.
      split; [exact I | apply grows_same].
    + rewrite Hrow in Hstep. cbn [set_exit j_ExitStationID j_CardID j_Status]
        in Hstep.
      rewrite Hcard in Hstep. cbn [journey_status_eqb andb] in Hstep.
      assert (Hlock : grows held
                        {| on_Journey := None; on_SmartCard := None |}
                        {| on_Journey := Some (j_JourneyID row);
                           on_SmartCard := None |}).
      { destruct (select_Journey_In _ _ Hrow) as [_ Hid].
        split; intros x Hx; [| discriminate Hx].
        injection Hx as <-. right. rewrite Hid.
        apply is_id_false. exact Hheld. }
      destruct Hstatus as [Hs | Hs]; rewrite Hs in Hstep;
        cbn [journey_status_eqb negb] in Hstep;
        injection Hstep as <- <-; (split; [reflexivity |]); right;
        cbn [call_knows locks_of]; (split; [| exact Hlock]).
      * split; [exact Hrow |]. split; [exact Hs | reflexivity].
      * split; [exact Hrow | reflexivity].
  - (* v_fare := get_current_fare(..) *)
    left. destruct Hknows as (Hold & Hactive & ->).
    destruct (_ >? 0); injection Hstep as <- <-; (split; [reflexivity |]);
      right; cbn [call_knows locks_of]; (split; [| apply grows_same]).
    + split; [exact Hold |]. split; [exact Hactive | reflexivity].
    + split; [exact Hold | reflexivity].
  - (* SELECT Balance INTO v_current_balance *)
    left. destruct Hknows as (Hold & Hactive & ->).
    rewrite Hbalance in Hstep.
    destruct (balance >=? v_fare); injection Hstep as <- <-;
      (split; [reflexivity |]).
    + right. cbn [call_knows locks_of]. split; [| apply grows_same].
      split; [exact Hold |]. split; [exact Hactive | reflexivity].
    + left. eexists. reflexivity.
  - (* UPDATE SmartCard *)
    left. destruct Hknows as (Hold & Hactive & ->).
    destruct (is_id (on_SmartCard held) card) eqn:Hheld.
    + injection Hstep as <- <-. split; [reflexivity |]. right.
      cbn [call_knows]. split; [| apply grows_same].
      split; [exact Hold |]. split; [exact Hactive | reflexivity].
    + unfold select_Balance in Hbalance.
      destruct (find (fun r => c_CardID r =? card) (db_SmartCard db))
        as [old |] eqn:Hfind; [| discriminate].
      destruct (SmartCard_check (set_Balance (fun b => b - v_fare) old))
        as [e | []] eqn:Hcheck; injection Hstep as <- <-;
        (split; [reflexivity |]).
      * left. eexists. reflexivity.
      * right. cbn [call_knows locks_of]. split.
        -- split; [exact Hold |]. split; [exact Hactive |].
           exists old, v_fare. split; [exact Hfind |].
           split; [reflexivity |].
           apply SmartCard_check_in_range in Hcheck.
           split; [apply Hcheck | reflexivity].
        -- split; intros x Hx; [left; exact Hx |].
           injection Hx as <-. right. cbn [set_Balance c_CardID].
           rewrite (find_card_key _ _ Hfind).
           apply is_id_false. exact Hheld.
  - (* the constraints, RETURN, COMMIT *)
    destruct (_ <- Journey_check NEW ;; Journey_foreign_keys db NEW)
      as [e | []]; injection Hstep as <- <-.
    + left. split; [reflexivity |]. left. eexists. reflexivity.
    + right. exists started, OLD, NEW, debit. repeat split.
  - contradiction.
Qed.

Lemma tracks_selected db card journey rest :
  journey_pkey db ->
  select_active_card_journey db card = journey :: rest ->
  tracks db card journey.
Proof.
  intros Hkeys Hselect.
  assert (Hin : In journey (select_active_card_journey db card))
    by (rewrite Hselect; left; reflexivity).
  apply filter_In in Hin. destruct Hin as [Hin Hp].
  apply andb_prop in Hp. destruct Hp as [Hcard Hactive].
  exists journey. split; [| split].
  - unfold select_Journey. apply find_by_key; assumption.
  - destruct (j_CardID journey) as [c |]; [| discriminate].
    simpl in Hcard. apply Z.eqb_eq in Hcard. subst c. reflexivity.
  - left. destruct (j_Status journey); try discriminate. reflexivity.
Qed.

(** One statement of a card exit in flight keeps the account of the card in
    order and what the two requests rely on. *)
Lemma card_exit_step_keeps env db card total st1 st2 s1 s2 s1' db' :
  accounted db card total ->
  exit_knows db card st1 s1 ->
  exit_knows db card st2 s2 ->
  apart (locks_of_exit s1) (locks_of_exit s2) ->
  card_exit_step env (locks_of_exit s2) db card st1 s1 = (s1', db') ->
  accounted db' card total
  /\ exit_knows db' card st1 s1'
  /\ exit_knows db' card st2 s2
  /\ apart (locks_of_exit s1') (locks_of_exit s2).
Proof.
  intros Hacc Hk1 Hk2 Hapart Hstep.
  assert (Hread : forall s,
             exit_knows db card st1 s ->
             locks_of_exit s = {| on_Journey := None; on_SmartCard := None |} ->
             (s, db) = (s1', db') ->
             accounted db' card total
             /\ exit_knows db' card st1 s1'
             /\ exit_knows db' card st2 s2
             /\ apart (locks_of_exit s1') (locks_of_exit s2)).
  { intros s Hs Hl E. injection E as <- <-.
    split; [assumption |]. split; [assumption |]. split; [assumption |].
    rewrite Hl. apply apart_none. }
  destruct s1 as [| | j | j b | j b c | r]; cbn [card_exit_step] in Hstep.
  - destruct (find (fun s => s_StationID s =? st1) (db_Station db));
      [destruct (negb (s_IsOperational s)) |];
      (eapply Hread; [| | exact Hstep]; [| reflexivity]);
      try exact I; apply not_success_knows; reflexivity.
  - destruct (select_active_card_journey db card) as [| journey rest] eqn:E;
      (eapply Hread; [| | exact Hstep]; [| reflexivity]).
    + apply not_success_knows. reflexivity.
    + destruct Hacc as (Hkeys & _). eapply tracks_selected; eassumption.
  - destruct (select_Balance db card);
      (eapply Hread; [| | exact Hstep]; [| reflexivity]).
    + exact Hk1.
    + apply not_success_knows. reflexivity.
  - cbv zeta in Hstep.
    destruct (b <? _);
      (eapply Hread; [| | exact Hstep]; [| reflexivity]).
    + apply not_success_knows. reflexivity.
    + split; [exact Hk1 | exact I].
  - cbn [exit_knows] in Hk1. destruct Hk1 as [Htracks Hcall].
    destruct (complete_journey_step env (locks_of_exit s2) db (j_JourneyID j)
                st1 c) as [c' db1] eqn:Hc.
    destruct (@complete_journey_step_cases env (locks_of_exit s2) db card
                total j st1 c c' db1 Hacc Htracks Hcall Hc)
      as [[-> Hc'] | (started & OLD & NEW & debit & -> & -> & ->)].
    + destruct Hc' as [(e & ->) | [Hcall' Hgrows]].
      * injection Hstep as <- <-.
        split; [assumption |]. split; [apply errorHandler_knows |].
        split; [assumption | apply apart_none].
      * assert (Hgoes : (s1', db') = (exit_complete j b c', db)).
        { rewrite <- Hstep. destruct c'; try reflexivity.
          contradiction. }
        injection Hgoes as -> ->.
        split; [assumption |]. split; [split; assumption |].
        split; [assumption |].
        eapply apart_grows; [exact Hapart | exact Hgrows].
    + injection Hstep as <- <-.
      destruct (@call_knows_stores db card (j_JourneyID j) st1 started OLD
                  NEW debit Hcall) as [Hsel Hstores].
      destruct (stores_fields Hstores) as (Hid & Hcard' & Hdone & _).
      destruct (select_Journey_In _ _ Hsel) as [_ Hold].
      assert (Hcard : j_CardID OLD = Some card).
      { destruct Htracks as (row & Hrow & Hcard & _).
        rewrite Hsel in Hrow. injection Hrow as <-. exact Hcard. }
      split; [eapply commit_accounted; eassumption |].
      split; [| split; [| apply apart_none]].
      * intros code msg d Hr. cbn [card_exit_response] in Hr.
        injection Hr as _ _ <-. cbn [journeyId fareCharged fare_deducted].
        exists NEW.
        split; [eapply commit_select_Journey; [exact Hsel | congruence] |].
        split; [congruence |]. split; [exact Hdone | reflexivity].
      * destruct Hapart as [Ha1 Ha2].
        eapply exit_knows_commit; try eassumption.
        -- intros Hheld. apply (Ha1 (j_JourneyID j)); [| exact Hheld].
           cbn [locks_of_exit locks_of].
           destruct debit; cbn [on_Journey]; congruence.
        -- intros Hdebit.
           destruct (on_SmartCard (locks_of_exit s2)) as [c2 |] eqn:Hc2;
             [| reflexivity].
           exfalso.
           assert (E2 : c2 = card)
             by (eapply exit_knows_card_lock; eassumption).
           subst c2. apply (Ha2 card); [| reflexivity].
           destruct debit as [row |]; [| contradiction].
           cbn [locks_of_exit locks_of on_SmartCard].
           cbn [call_knows] in Hcall.
           destruct Hcall as (_ & _ & old & fare & Hfind & -> & _).
           cbn [set_Balance c_CardID].
           rewrite (find_card_key _ _ Hfind). reflexivity.
  - eapply Hread; [| | exact Hstep]; [exact Hk1 | reflexivity].
Qed.

Lemma card_exits_in_flight_keep card total st1 st2 schedule :
  forall db s1 s2 s1' s2' db',
    accounted db card total ->
    exit_knows db card st1 s1 ->
    exit_knows db card st2 s2 ->
    apart (locks_of_exit s1) (locks_of_exit s2) ->
    card_exits_in_flight schedule db card st1 card st2 s1 s2
    = (s1', s2', db') ->
    accounted db' card total
    /\ exit_knows db' card st1 s1'
    /\ exit_knows db' card st2 s2'.
Proof.
  induction schedule as [| [first env] rest IH];
    intros db s1 s2 s1' s2' db' Hacc Hk1 Hk2 Hapart Hrun.
  - simpl in Hrun. injection Hrun as <- <- <-.
    split; [assumption | split; assumption].
  - cbn [card_exits_in_flight] in Hrun. destruct first.
    + destruct (card_exit_step env (locks_of_exit s2) db card st1 s1)
        as [s db1] eqn:Hstep.
      destruct (@card_exit_step_keeps env db card total st1 st2 s1 s2 s db1
                  Hacc Hk1 Hk2 Hapart Hstep)
        as (Hacc' & Hk1' & Hk2' & Hapart').
      eapply IH; eassumption.
    + destruct (card_exit_step env (locks_of_exit s1) db card st2 s2)
        as [s db1] eqn:Hstep.
      destruct (@card_exit_step_keeps env db card total st2 st1 s2 s1 s db1
                  Hacc Hk2 Hk1 (apart_sym Hapart) Hstep)
        as (Hacc' & Hk2' & Hk1' & Hapart').
      eapply IH; try eassumption. apply apart_sym. exact Hapart'.
Qed.

(** ** A card exit alone *)

Lemma card_exit_alone_done n env db mediaId stationId r :
  card_exit_alone n env db mediaId stationId (exit_done r)
  = (exit_done r, db).
Proof. induction n as [| n IH]; simpl; [reflexivity | exact IH]. Qed.

Lemma update_SmartCard_unique card set rows old :
  NoDup (map c_CardID rows) ->
  find (fun r => c_CardID r =? card) rows = Some old ->
  c_CardID (set old) = card ->
  update_SmartCard (fun c => c_CardID c =? card) set rows
  = (_ <- SmartCard_check (set old) ;;
     ok (map (fun c => if c_CardID c =? c_CardID (set old) then set old else c)
           rows)).
Proof.
  intros Hkeys Hfind Hset. rewrite Hset.
  induction rows as [| c rest IH]; cbn [find map update_SmartCard] in *;
    [discriminate |].
  apply NoDup_cons_iff in Hkeys. destruct Hkeys as [Hfresh Hkeys].
  destruct (c_CardID c =? card) eqn:E.
  - injection Hfind as ->.
    destruct (SmartCard_check (set old)) as [e | []]; simpl; [reflexivity |].
    assert (Hrest : forall x, In x rest -> (c_CardID x =? card) = false).
    { intros x Hx. apply Z.eqb_neq. intros Ex. apply Hfresh.
      apply Z.eqb_eq in E. rewrite E, <- Ex. apply in_map. exact Hx. }
    clear IH Hkeys Hfresh.
    replace (update_SmartCard (fun c => c_CardID c =? card) set rest)
      with (@inr pg_error _ rest).
    + simpl. do 2 f_equal. induction rest as [| x rest IH];
        [reflexivity |]. simpl.
      rewrite (Hrest x (or_introl eq_refl)). f_equal.
      apply IH. intros y Hy. apply Hrest. right. exact Hy.
    + induction rest as [| x rest IH]; [reflexivity |].
      cbn [update_SmartCard]. rewrite (Hrest x (or_introl eq_refl)).
      simpl. rewrite <- IH; [reflexivity |].
      intros y Hy. apply Hrest. right. exact Hy.
  - simpl. rewrite (IH Hkeys Hfind).
    destruct (SmartCard_check (set old)) as [e | []]; reflexivity.
Qed.

Lemma card_exit_alone_S n env db mediaId stationId s :
  card_exit_alone (S n) env db mediaId stationId s
  = let (s', db') :=
      card_exit_step env {| on_Journey := None; on_SmartCard := None |} db
        mediaId stationId s in
    card_exit_alone n env db' mediaId stationId s'.
Proof. reflexivity. Qed.

Ltac next_statement :=
  rewrite card_exit_alone_S;
  cbn [card_exit_step complete_journey_step is_id on_Journey on_SmartCard].

Ltac answered :=
  cbn [pg_bind throw ok fst snd card_exit_response];
  rewrite card_exit_alone_done; reflexivity.

Lemma existsb_card_replaced card (row : SmartCard) rows :
  existsb (fun r => c_CardID r =? card)
    (map (fun c => if c_CardID c =? c_CardID row then row else c) rows)
  = existsb (fun r => c_CardID r =? card) rows.
Proof.
  induction rows as [| c rest IH]; simpl; [reflexivity |].
  rewrite IH. f_equal.
  destruct (c_CardID c =? c_CardID row) eqn:E; [| reflexivity].
  apply Z.eqb_eq in E. rewrite E. reflexivity.
Qed.

Lemma Journey_foreign_keys_debit db (row : SmartCard) NEW :
  Journey_foreign_keys
    (with_SmartCard db
       (map (fun c => if c_CardID c =? c_CardID row then row else c)
          (db_SmartCard db))) NEW
  = Journey_foreign_keys db NEW.
Proof.
  unfold Journey_foreign_keys. simpl.
  destruct (j_CardID NEW) as [card |]; [| reflexivity].
  rewrite existsb_card_replaced. reflexivity.
Qed.

(** With no other request in flight, the statements of a card exit one by one
    give what [journeyExit] gives. *)
Lemma card_exit_alone_journeyExit env db mediaId stationId :
  journey_pkey db -> smartcard_pkey db ->
  card_exit_alone 10 env db mediaId stationId exit_station
  = (exit_done (fst (journeyExit env db "Card" mediaId stationId)),
     snd (journeyExit env db "Card" mediaId stationId)).
Proof.
  intros Hkeys Hcards. unfold journeyExit. next_statement.
  destruct (find (fun s => s_StationID s =? stationId) (db_Station db))
    as [station |]; [| answered].
  destruct (negb (s_IsOperational station)); [answered |].
  cbn [String.eqb Ascii.eqb Bool.eqb]. next_statement.
  destruct (select_active_card_journey db mediaId) as [| journey rest]
    eqn:Hselect; [answered |].
  destruct (@tracks_selected db mediaId journey rest Hkeys Hselect)
    as (row & Hrow & Hcard & Hstatus).
  assert (Hjourney : row = journey /\ j_Status journey = Active).
  { assert (Hin : In journey (select_active_card_journey db mediaId))
      by (rewrite Hselect; left; reflexivity).
    apply filter_In in Hin. destruct Hin as [Hin Hp].
    apply andb_prop in Hp. destruct Hp as [_ Hactive].
    unfold select_Journey in Hrow.
    rewrite (find_by_key _ _ Hkeys Hin) in Hrow. injection Hrow as <-.
    split; [reflexivity |].
    destruct (j_Status journey); try discriminate. reflexivity. }
  destruct Hjourney as [-> Hactive]. clear Hstatus.
  next_statement.
  destruct (select_Balance db mediaId) as [currentBalance |] eqn:Hbalance;
    [| answered].
  next_statement. cbv zeta.
  destruct (currentBalance <? _); [answered |].
  rewrite (@complete_journey_unique env db (j_JourneyID journey) stationId
             journey Hkeys Hrow Hactive).
  rewrite (@complete_journey_fare_card env db journey stationId
             (exit_time env) mediaId Hactive Hcard).
  next_statement. rewrite Hrow, Hactive. cbn [journey_status_eqb negb].
  next_statement. rewrite Hrow.
  cbn [set_exit j_ExitStationID j_CardID j_Status].
  rewrite Hcard, Hactive. cbn [journey_status_eqb negb andb].
  next_statement. cbv zeta.
  destruct (get_current_fare db (CURRENT_DATE env) (j_EntryStationID journey)
              stationId >? 0).
  - next_statement. rewrite Hbalance.
    destruct (currentBalance >=? _); [| answered].
    next_statement.
    unfold select_Balance in Hbalance.
    destruct (find (fun c => c_CardID c =? mediaId) (db_SmartCard db))
      as [old |] eqn:Hfind; [| discriminate].
    rewrite (@update_SmartCard_unique mediaId
               (set_Balance
                  (fun b => b - get_current_fare db (CURRENT_DATE env)
                                  (j_EntryStationID journey) stationId))
               (db_SmartCard db) old Hcards Hfind
               (find_card_key _ _ Hfind)).
    destruct (SmartCard_check _) as [e | []]; [answered |].
    cbn [pg_bind ok fst snd]. next_statement.
    rewrite Journey_foreign_keys_debit.
    destruct (Journey_check _) as [e | []]; [answered |].
    cbn [pg_bind].
    destruct (Journey_foreign_keys _ _) as [e | []]; answered.
  - cbn [pg_bind ok fst snd]. next_statement.
    destruct (Journey_check _) as [e | []]; [answered |].
    cbn [pg_bind].
    destruct (Journey_foreign_keys _ _) as [e | []]; answered.
Qed.

(** ** Two card exits in flight *)

(** The tables after the race of the two entries. *)
Lemma raced_journey_pkey : journey_pkey raced.
Proof. vm_compute. repeat constructor; simpl; intuition discriminate. Qed.

Lemma raced_active_unpaid : active_unpaid raced.
Proof.
  intros j Hin Hactive. vm_compute in Hin.
  destruct Hin as [<- | [<- | []]]; reflexivity.
Qed.

(** C9, as amended.  The statements of two requests interleave in any
    order, and so do those inside [complete_journey] and its trigger, which
    run under READ COMMITTED.
    - Two card exits on one card: the balance of the card never goes below
      zero, what is subtracted from it is what the journeys on record say
      was deducted, and an exit that answers 200 names a journey that is on
      record as Completed with the fare the answer shows; so a journey is
      paid for once, and what is subtracted adds up to at most the balance
      the card had.
    - Both exits can answer 200 with the fare of the route when the balance
      covers only one: the second UPDATE waits for the row and then works on
      the Completed row, the trigger leaves the card alone, and RETURNING
      hands back the fare the first call wrote.
    - The balance check of the trigger and its subtraction are two
      statements: two calls of [complete_journey] on two journeys of one
      card can both get past the check when the balance covers only one;
      then the subtraction of the second fails on
      [chk_smartcard_balance_nonnegative] and the call writes nothing.
    - Two start calls for one card served one after the other: the second is
      refused and writes nothing.
    - Two start calls for one card in flight together: nothing excludes that
      both pass the check for an Active journey before either calls
      [start_journey], and then both create an Active journey. *)
Theorem exits_in_flight_never_overdraw :
  (forall schedule db card station1 station2 balance r1 r2 db',
      journey_pkey db -> active_unpaid db ->
      select_Balance db card = Some balance -> 0 <= balance ->
      card_exits_in_flight schedule db card station1 card station2
        exit_station exit_station
      = (exit_done r1, exit_done r2, db') ->
      exists balance',
        select_Balance db' card = Some balance'
        /\ 0 <= balance'
        /\ balance - balance' = deducted db' card - deducted db card
        /\ forall r code msg d,
             r = r1 \/ r = r2 -> r = success code msg d ->
             exists j,
               select_Journey db' (journeyId d) = Some j
               /\ j_CardID j = Some card
               /\ j_Status j = Completed
               /\ j_FareDeducted j = fareCharged d)
  /\ (exists schedule db card station balance fare code1 msg1 d1
             code2 msg2 d2 db',
         select_Balance db card = Some balance
         /\ fare <= balance < fare + fare
         /\ card_exits_in_flight schedule db card station card station
              exit_station exit_station
            = (exit_done (success code1 msg1 d1),
               exit_done (success code2 msg2 d2), db')
         /\ fareCharged d1 = Some fare /\ fareCharged d2 = Some fare
         /\ journeyId d1 = journeyId d2
         /\ select_Balance db' card = Some (balance - fare))
  /\ (exists first second db id1 id2 station card balance fare
             started1 OLD1 started2 OLD2 db',
         select_Balance db card = Some balance
         /\ fare <= balance < fare + fare
         /\ complete_journeys_in_flight first db id1 station id2 station
              select_journey select_journey
            = (trigger_debit started1 OLD1 card fare,
               trigger_debit started2 OLD2 card fare, db)
         /\ complete_journeys_in_flight second db id1 station id2 station
              (trigger_debit started1 OLD1 card fare)
              (trigger_debit started2 OLD2 card fare)
            = (returned (inr {| journey_id := id1;
                                fare_deducted := Some fare |}),
               returned
                 (inl (check_violation "chk_smartcard_balance_nonnegative")),
               db')
         /\ select_Balance db' card = Some (balance - fare))
  /\ (forall env db card station resp db',
         alone env db (journeyEntry_handler "Card" card station)
         = (resp, db') ->
         is_success resp = true ->
         forall env' station',
           exists code msg,
             alone env' db' (journeyEntry_handler "Card" card station')
             = (error code msg, db'))
  /\ (exists schedule db card station r1 r2 db',
         interleave schedule db
           (journeyEntry_handler "Card" card station)
           (journeyEntry_handler "Card" card station)
         = (Done r1, Done r2, db')
         /\ is_success r1 = true /\ is_success r2 = true
         /\ List.length (select_active_card_journey db' card) = 2%nat).
Proof.
  split; [| split; [| split; [| split]]].
  - intros schedule db card station1 station2 balance r1 r2 db'
           Hkeys Hunpaid Hbalance Hnonneg Hrun.
    assert (Hacc : accounted db card (balance + deducted db card)).
    { split; [exact Hkeys |]. split; [exact Hunpaid |].
      exists balance. repeat split; [exact Hbalance | exact Hnonneg]. }
    destruct (@card_exits_in_flight_keep card (balance + deducted db card)
                station1 station2 schedule db exit_station exit_station
                (exit_done r1) (exit_done r2) db' Hacc I I
                (apart_none _) Hrun)
      as ((_ & _ & balance' & Hafter & Hnonneg' & Hsum) & Hk1 & Hk2).
    exists balance'. split; [exact Hafter |]. split; [exact Hnonneg' |].
    split; [lia |].
    intros r code msg d [-> | ->] Hr; [eapply Hk1 | eapply Hk2]; exact Hr.
  - exists overlap, raced, 1, 2, 5000, 3000.
    do 6 eexists. exists (snd (card_exits_in_flight overlap raced 1 2 1 2
                                 exit_station exit_station)).
    split; [reflexivity |]. split; [lia |].
    split; [vm_compute; reflexivity |]. repeat split.
  - exists both_checked, then_debited, raced, 1, 2, 2, 1, 5000, 3000.
    do 4 eexists.
    exists (snd (complete_journeys_in_flight (both_checked ++ then_debited)
                   raced 1 2 2 2 select_journey select_journey)).
    split; [reflexivity |]. split; [lia |].
    split; [vm_compute; reflexivity |].
    split; [vm_compute; reflexivity | reflexivity].
  - intros env db card station resp db' H Hok env' station'.
    rewrite journeyEntry_alone in H. rewrite journeyEntry_alone.
    eapply journeyEntry_card_twice; eassumption.
  - exists race, Sample.db, 1, 1.
    do 2 eexists. exists raced.
    split; [reflexivity |]. repeat split.
Qed.

(** Card 1, which holds 50.00, has two Active journeys after the race; two
    exits at station 2 whose calls of [complete_journey] overlap: the card
    is left with 20.00, and the 30.00 subtracted are the fare on record of
    journey 1. *)
Lemma exits_in_flight_never_overdraw_witness :
  exists balance',
    select_Balance
      (snd (card_exits_in_flight overlap raced 1 2 1 2
              exit_station exit_station)) 1 = Some balance'
    /\ 0 <= balance'
    /\ 5000 - balance'
       = deducted
           (snd (card_exits_in_flight overlap raced 1 2 1 2
                   exit_station exit_station)) 1
         - deducted raced 1
    /\ balance' = 2000.
Proof.
  destruct exits_in_flight_never_overdraw as [H _].
  destruct (card_exits_in_flight overlap raced 1 2 1 2
              exit_station exit_station) as [[s1 s2] db'] eqn:E.
  assert (Hdone : exists r1 r2, s1 = exit_done r1 /\ s2 = exit_done r2).
  { vm_compute in E. injection E as <- <- _. do 2 eexists.
    split; reflexivity. }
  destruct Hdone as (r1 & r2 & -> & ->).
  destruct (H overlap raced 1 2 2 5000 r1 r2 db' raced_journey_pkey
              raced_active_unpaid eq_refl ltac:(lia) E)
    as (balance' & Hafter & Hnonneg & Hsum & _).
  exists balance'. cbn [snd].
  split; [exact Hafter |]. split; [exact Hnonneg |]. split; [exact Hsum |].
  vm_compute in E. injection E as _ _ <-.
  vm_compute in Hafter. injection Hafter as <-. reflexivity.
Defined.

(* ================================================================== *)
(** * Booking, fares and balances: properties *)
(* ================================================================== *)

(** ** Inversion of the INSERTs of a booking *)

Lemma pg_bind_inl A B (c : pg A) (k : A -> pg B) (e : pg_error) :
  pg_bind c k = inl e -> c = inl e \/ exists a, c = inr a /\ k a = inl e.
Proof.
  destruct c as [e' | a]; simpl; intros H.
  - left. injection H as ->. reflexivity.
  - right. exists a. split; [reflexivity | exact H].
Qed.

Lemma require_inl (b : bool) (e e' : pg_error) :
  require b e = inl e' -> b = false /\ e' = e.
Proof.
  destruct b; simpl; [discriminate |].
  unfold throw. intros H. injection H as <-. split; reflexivity.
Qed.

Lemma get_current_fare_same_Fare db db' today src dst :
  db_Fare db' = db_Fare db ->
  get_current_fare db' today src dst = get_current_fare db today src dst.
Proof. unfold get_current_fare. intros ->. reflexivity. Qed.

Lemma validate_booking_fare_exact env db NEW :
  b_TotalFare NEW
  = get_current_fare db (CURRENT_DATE env)
      (b_SourceStationID NEW) (b_DestinationStationID NEW) ->
  validate_booking_fare env db NEW = inr NEW.
Proof.
  intros E. unfold validate_booking_fare. rewrite <- E.
  rewrite Z.sub_diag. simpl. rewrite andb_false_r. reflexivity.
Qed.

Lemma validate_booking_fare_inr env db NEW b :
  validate_booking_fare env db NEW = inr b -> b = NEW.
Proof.
  unfold validate_booking_fare.
  destruct (_ && _); [discriminate |].
  unfold ok. congruence.
Qed.

Lemma insert_Booking_inr env db NEW db' :
  insert_Booking env db NEW = inr db' ->
  db' = with_Booking db (db_Booking db ++ [NEW])
  /\ validate_booking_fare env db NEW = inr NEW
  /\ b_SourceStationID NEW <> b_DestinationStationID NEW
  /\ existsb (fun b => b_BookingID b =? b_BookingID NEW) (db_Booking db)
     = false
  /\ existsb (fun s => s_StationID s =? b_SourceStationID NEW) (db_Station db)
     = true
  /\ existsb (fun s => s_StationID s =? b_DestinationStationID NEW)
       (db_Station db) = true.
Proof.
  unfold insert_Booking. intros H.
  pg_step H as b Hvalid.
  pose proof (validate_booking_fare_inr _ _ _ Hvalid) as ->.
  pg_step H as u1 Hcheck. unfold Booking_check in Hcheck.
  pg_step Hcheck as u2 Hdiff. apply require_inr in Hdiff.
  pg_step H as u3 Hpk. apply require_inr in Hpk.
  pg_step H as u4 Huq.
  pg_step H as u5 Hfk1.
  pg_step H as u6 Hfk2. apply require_inr in Hfk2.
  pg_step H as u7 Hfk3. apply require_inr in Hfk3.
  unfold ok in H. injection H as <-.
  repeat split; try assumption.
  - apply negb_true_iff in Hdiff. apply Z.eqb_neq. exact Hdiff.
  - apply negb_true_iff. exact Hpk.
Qed.

Lemma insert_Ticket_inr st NEW qr st' :
  insert_Ticket st NEW qr = inr st' ->
  st' = {| tables := with_Ticket st (db_Ticket st ++ [NEW]);
           Ticket_QRCodeData := Ticket_QRCodeData st ++ [qr] |}
  /\ t_ValidFrom NEW < t_ValidUntil NEW
  /\ existsb (fun t => t_TicketID t =? t_TicketID NEW) (db_Ticket st) = false
  /\ existsb (String.eqb qr) (Ticket_QRCodeData st) = false.
Proof.
  unfold insert_Ticket. intros H.
  pg_step H as u1 Hcheck. unfold Ticket_check in Hcheck.
  apply require_inr in Hcheck.
  pg_step H as u2 Hpk. apply require_inr in Hpk.
  pg_step H as u3 Huq.
  pg_step H as u4 Hqr. apply require_inr in Hqr.
  pg_step H as u5 Hfk.
  unfold ok in H. injection H as <-.
  repeat split.
  - rewrite Z.gtb_ltb in Hcheck. apply Z.ltb_lt. exact Hcheck.
  - apply negb_true_iff. exact Hpk.
  - apply negb_true_iff. exact Hqr.
Qed.

Lemma plus_hours_inr t hours sum :
  plus_hours t hours = inr sum ->
  sum = t + hours * one_hour /\ MIN_TIMESTAMP <= sum < END_TIMESTAMP.
Proof.
  unfold plus_hours. cbv zeta.
  destruct ((MIN_TIMESTAMP <=? t + hours * one_hour)
            && (t + hours * one_hour <? END_TIMESTAMP)) eqn:E;
    [| discriminate].
  intros H. injection H as <-.
  apply andb_prop in E. destruct E as [E1 E2].
  apply Z.leb_le in E1. apply Z.ltb_lt in E2. split; [reflexivity | lia].
Qed.

(** The store after a booking. *)
Lemma create_ticket_booking_inr (env : BookingEnv) (st : Store)
    user src dst method hours row st' :
  create_ticket_booking env st user src dst method hours = inr (row, st') ->
  let fare := get_current_fare st (CURRENT_DATE env) src dst in
  0 < fare
  /\ row = {| booking_id := nextval_booking env;
              booking_transaction_id := nextval_transaction env;
              ticket_id := nextval_ticket env;
              qr_code := qr_code row;
              total_fare := fare;
              valid_from := CURRENT_TIMESTAMP env;
              valid_until := CURRENT_TIMESTAMP env + hours * one_hour |}
  /\ tables st'
     = with_Ticket
         (with_Payment
            (with_Booking
               (with_Transaction st
                  (db_Transaction st ++ [booked_Transaction env user fare]))
               (db_Booking st ++ [booked_Booking env src dst fare]))
            (db_Payment st ++ [booked_Payment env method]))
         (db_Ticket st ++ [booked_Ticket env hours])
  /\ Ticket_QRCodeData st' = Ticket_QRCodeData st ++ [qr_code row]
  /\ src <> dst
  /\ 0 < hours
  /\ existsb (fun x => x_TransactionID x =? nextval_transaction env)
       (db_Transaction st) = false
  /\ existsb (fun b => b_BookingID b =? nextval_booking env) (db_Booking st)
     = false
  /\ existsb (fun t => t_TicketID t =? nextval_ticket env) (db_Ticket st)
     = false
  /\ existsb (fun s => s_StationID s =? src) (db_Station st) = true
  /\ existsb (fun s => s_StationID s =? dst) (db_Station st) = true
  /\ MIN_TIMESTAMP <= CURRENT_TIMESTAMP env + hours * one_hour
     < END_TIMESTAMP.
Proof.
  intros H fare. unfold create_ticket_booking in H.
  fold fare in H.
  destruct (fare <=? 0) eqn:Hfare; [discriminate |].
  apply Z.leb_gt in Hfare.
  pg_step H as db1 Htx. apply insert_Transaction_inr in Htx.
  destruct Htx as (-> & Hfresh_tx).
  pg_step H as db2 Hbk. apply insert_Booking_inr in Hbk.
  destruct Hbk as (-> & _ & Hdiff & Hfresh_bk & Hsrc & Hdst).
  pg_step H as db3 Hpay. apply insert_Payment_inr in Hpay. subst db3.
  pg_step H as until Hrange. apply plus_hours_inr in Hrange.
  destruct Hrange as [-> Hrange].
  pg_step H as st4 Htk. apply insert_Ticket_inr in Htk.
  destruct Htk as (-> & Hvalid & Hfresh_tk & _).
  unfold ok in H. injection H as <- <-.
  simpl in *.
  repeat split; try assumption; try apply Hrange.
  unfold one_hour, one_second in Hvalid. lia.
Qed.

(** ** What a booking can raise *)

Lemma insert_Transaction_inl db x e :
  insert_Transaction db x = inl e -> forall format, e <> raise_exception format.
Proof.
  unfold insert_Transaction. intros H format.
  repeat (apply pg_bind_inl in H;
          destruct H as [H | (? & _ & H)];
          [apply require_inl in H; destruct H as (_ & ->); discriminate |]).
  discriminate.
Qed.

Lemma insert_Payment_inl db p e :
  insert_Payment db p = inl e -> forall format, e <> raise_exception format.
Proof.
  unfold insert_Payment. intros H format.
  repeat (apply pg_bind_inl in H;
          destruct H as [H | (? & _ & H)];
          [apply require_inl in H; destruct H as (_ & ->); discriminate |]).
  discriminate.
Qed.

Lemma insert_Ticket_inl st t qr e :
  insert_Ticket st t qr = inl e -> forall format, e <> raise_exception format.
Proof.
  unfold insert_Ticket, Ticket_check. intros H format.
  repeat (apply pg_bind_inl in H;
          destruct H as [H | (? & _ & H)];
          [apply require_inl in H; destruct H as (_ & ->); discriminate |]).
  discriminate.
Qed.

Lemma insert_Booking_inl env db NEW e :
  validate_booking_fare env db NEW = inr NEW ->
  insert_Booking env db NEW = inl e ->
  forall format, e <> raise_exception format.
Proof.
  unfold insert_Booking. intros Hvalid H format. rewrite Hvalid in H.
  simpl in H.
  apply pg_bind_inl in H. destruct H as [H | (? & _ & H)].
  { unfold Booking_check in H.
    apply pg_bind_inl in H. destruct H as [H | (? & _ & H)];
      apply require_inl in H; destruct H as (_ & ->); discriminate. }
  repeat (apply pg_bind_inl in H;
          destruct H as [H | (? & _ & H)];
          [apply require_inl in H; destruct H as (_ & ->); discriminate |]).
  discriminate.
Qed.

(** X1.  The only exception [create_ticket_booking] raises by RAISE is the one
    for a route without a fare: inside it the trigger [validate_booking_fare]
    never refuses the row, since the booking carries the fare the trigger
    looks up. *)
Theorem create_ticket_booking_raises_for_no_fare_only :
  forall (env : BookingEnv) (st : Store) (user src dst : Z) (method : string)
         (hours : Z) (format : string),
    create_ticket_booking env st user src dst method hours
    = inl (raise_exception format) ->
    format = No_fare_found
    /\ get_current_fare st (CURRENT_DATE env) src dst <= 0.
Proof.
  intros env st user src dst method hours format H.
  unfold create_ticket_booking in H.
  destruct (_ <=? 0) eqn:Hfare.
  - unfold throw in H. injection H as <-.
    split; [reflexivity | apply Z.leb_le; exact Hfare].
  - exfalso.
    apply pg_bind_inl in H. destruct H as [H | (db1 & Htx & H)].
    { exact (@insert_Transaction_inl _ _ _ H format eq_refl). }
    apply insert_Transaction_inr in Htx. destruct Htx as (-> & _).
    apply pg_bind_inl in H. destruct H as [H | (db2 & Hbk & H)].
    { refine (@insert_Booking_inl _ _ _ _ _ H format eq_refl).
      apply validate_booking_fare_exact. reflexivity. }
    apply pg_bind_inl in H. destruct H as [H | (db3 & Hpay & H)].
    { exact (@insert_Payment_inl _ _ _ H format eq_refl). }
    apply pg_bind_inl in H. destruct H as [H | (until & Hrange & H)].
    { unfold plus_hours in H. cbv zeta in H.
      destruct (_ && _); discriminate. }
    apply pg_bind_inl in H. destruct H as [H | (st4 & Htk & H)].
    { exact (@insert_Ticket_inl _ _ _ _ H format eq_refl). }
    discriminate.
Qed.

(** X2.  A ticket cannot be booked with a validity of zero hours or less.
    A call that goes through with some validity fails with such a one,
    everything else the same: on [chk_ticket_validity_period] when the end
    of the validity is still a timestamp, and before that with 'timestamp
    out of range' when it is not. *)
Theorem create_ticket_booking_needs_positive_validity :
  forall (env : BookingEnv) (st : Store) (user src dst : Z) (method : string)
         (hours hours' : Z) (row : booking_row) (st' : Store),
    INTEGER hours ->
    hours <= 0 ->
    create_ticket_booking env st user src dst method hours' = inr (row, st') ->
    create_ticket_booking env st user src dst method hours
    = inl (if MIN_TIMESTAMP <=? CURRENT_TIMESTAMP env + hours * one_hour
           then check_violation "chk_ticket_validity_period"
           else datetime_field_overflow).
Proof.
  intros env st user src dst method hours hours' row st' _ Hhours H.
  pose proof (@create_ticket_booking_inr env st user src dst method hours'
                row st' H) as Hdone.
  cbv zeta in Hdone.
  destruct Hdone as (_ & _ & _ & _ & _ & Hpositive & _ & _ & _ & _ & _
                     & Hrange).
  unfold create_ticket_booking in *.
  destruct (_ <=? 0); [discriminate |].
  pg_step H as db1 Htx. rewrite Htx. simpl.
  pg_step H as db2 Hbk. rewrite Hbk. simpl.
  pg_step H as db3 Hpay. rewrite Hpay. simpl.
  unfold plus_hours. cbv zeta.
  assert (Hend : (CURRENT_TIMESTAMP env + hours * one_hour <? END_TIMESTAMP)
                 = true).
  { apply Z.ltb_lt. unfold one_hour, one_second in *. lia. }
  rewrite Hend, andb_true_r.
  destruct (MIN_TIMESTAMP <=? CURRENT_TIMESTAMP env + hours * one_hour);
    [| reflexivity].
  simpl. unfold insert_Ticket, Ticket_check. simpl.
  replace (CURRENT_TIMESTAMP env + hours * one_hour >? CURRENT_TIMESTAMP env)
    with false; [reflexivity |].
  symmetry. rewrite Z.gtb_ltb. apply Z.ltb_ge.
  unfold one_hour, one_second. lia.
Qed.

(** ** The booked ticket at the gate *)

Lemma flat_map_nil A B (f : A -> list B) l :
  (forall x, In x l -> f x = []) -> flat_map f l = [].
Proof.
  induction l as [| a l IH]; simpl; intros H; [reflexivity |].
  rewrite (H a (or_introl eq_refl)). simpl.
  apply IH. intros x Hx. apply H. right. exact Hx.
Qed.

Lemma existsb_false_In A (p : A -> bool) l x :
  existsb p l = false -> In x l -> p x = false.
Proof.
  intros H Hx. destruct (p x) eqn:E; [| reflexivity].
  assert (existsb p l = true) by (apply existsb_exists; eauto).
  congruence.
Qed.

Lemma filter_app_new A (p : A -> bool) l x :
  existsb p l = false -> p x = true -> filter p (l ++ [x]) = [x].
Proof.
  intros Hl Hx. rewrite filter_app. simpl. rewrite Hx.
  rewrite filter_nil_iff; [reflexivity |].
  intros y Hy. exact (existsb_false_In _ _ _ Hl Hy).
Qed.

Lemma select_ticket_booking_new (db : Database) t b :
  existsb (fun r => t_TicketID r =? t_TicketID t) (db_Ticket db) = false ->
  existsb (fun r => b_BookingID r =? t_BookingID t) (db_Booking db) = false ->
  b_BookingID b = t_BookingID t ->
  forall db',
    db_Ticket db' = db_Ticket db ++ [t] ->
    db_Booking db' = db_Booking db ++ [b] ->
    select_ticket_booking db' (t_TicketID t) = [(t, b)].
Proof.
  intros Ht Hb Hkey db' Etickets Ebookings.
  unfold select_ticket_booking. rewrite Etickets, Ebookings.
  rewrite flat_map_app. simpl. rewrite Z.eqb_refl.
  rewrite filter_app_new; [| exact Hb | rewrite Hkey; apply Z.eqb_refl].
  rewrite flat_map_nil; [reflexivity |].
  intros r Hr.
  rewrite (existsb_false_In (fun r => t_TicketID r =? t_TicketID t)
             _ _ Ht Hr).
  reflexivity.
Qed.

(** X3.  The gate's lookup of a ticket just booked finds that ticket and its
    booking and nothing else: unused, for the route asked for, at the fare
    of the day, valid from the booking for the hours asked for; the booking
    moves no card, journey, fare or station. *)
Theorem booked_ticket_is_found_at_the_gate :
  forall (env : BookingEnv) (st : Store) (user src dst : Z) (method : string)
         (hours : Z) (row : booking_row) (st' : Store),
    create_ticket_booking env st user src dst method hours = inr (row, st') ->
    select_ticket_booking st' (ticket_id row)
    = [ ({| t_TicketID := ticket_id row;
            t_BookingID := booking_id row;
            t_ValidFrom := CURRENT_TIMESTAMP env;
            t_ValidUntil := CURRENT_TIMESTAMP env + hours * one_hour;
            t_IsUsed := false;
            t_UsedAt := None |},
         {| b_BookingID := booking_id row;
            b_TransactionID := booking_transaction_id row;
            b_SourceStationID := src;
            b_DestinationStationID := dst;
            b_TotalFare := get_current_fare st (CURRENT_DATE env) src dst |}) ]
    /\ total_fare row = get_current_fare st (CURRENT_DATE env) src dst
    /\ 0 < total_fare row
    /\ valid_from row < valid_until row
    /\ db_SmartCard st' = db_SmartCard st
    /\ db_Journey st' = db_Journey st
    /\ db_Fare st' = db_Fare st
    /\ db_Station st' = db_Station st.
Proof.
  intros env st user src dst method hours row st' H.
  apply create_ticket_booking_inr in H.
  destruct H as (Hfare & Erow & Etables & _ & _ & Hhours & _ & Hbk & Htk & _).
  rewrite Erow. simpl.
  split.
  { apply (@select_ticket_booking_new st (booked_Ticket env hours)
             (booked_Booking env src dst
                (get_current_fare st (CURRENT_DATE env) src dst)));
      try assumption; try reflexivity; rewrite Etables; reflexivity. }
  rewrite Etables. simpl.
  repeat split; try assumption.
  unfold one_hour, one_second. lia.
Qed.

(** ** From the booking through both gates *)

Lemma update_Ticket_last cond set rows t :
  (forall r, In r rows -> cond r = false) ->
  cond t = true ->
  Ticket_check (set t) = inr tt ->
  update_Ticket cond set (rows ++ [t]) = inr (rows ++ [set t]).
Proof.
  induction rows as [| r rows IH]; simpl; intros H Ht Hcheck.
  - rewrite Ht, Hcheck. reflexivity.
  - rewrite (H r (or_introl eq_refl)). simpl.
    rewrite IH; [reflexivity | | exact Ht | exact Hcheck].
    intros x Hx. apply H. right. exact Hx.
Qed.

Lemma update_Journey_exit_last env db id station rows :
  Forall (fun j => (j_JourneyID j =? id) = false) rows ->
  forall j,
    j_JourneyID j = id ->
    update_Journey_exit env db id station (rows ++ [j])
    = (r <- complete_journey_fare env db j
              (set_exit station (exit_time env) j) ;;
       _ <- Journey_check (fst r) ;;
       _ <- Journey_foreign_keys (snd r) (fst r) ;;
       ok (rows ++ [fst r], snd r, [j_FareDeducted (fst r)])).
Proof.
  induction 1 as [| x rows Hx Hrows IH]; intros j Hj.
  - simpl. rewrite Hj, Z.eqb_refl. unfold exit_time.
    destruct (complete_journey_fare _ _ _ _) as [e | [NEW db1]];
      [reflexivity |].
    simpl.
    destruct (Journey_check NEW) as [e | u]; [reflexivity |]. simpl.
    destruct (Journey_foreign_keys db1 NEW) as [e | u']; [reflexivity |].
    reflexivity.
  - simpl. rewrite Hx. rewrite (IH j Hj).
    destruct (complete_journey_fare _ _ _ _) as [e | [NEW db1]];
      [reflexivity |].
    simpl.
    destruct (Journey_check NEW) as [e | u]; [reflexivity |]. simpl.
    destruct (Journey_foreign_keys db1 NEW) as [e | u']; [reflexivity |].
    reflexivity.
Qed.

Lemma existsb_false_Forall A (p : A -> bool) l :
  existsb p l = false -> Forall (fun x => p x = false) l.
Proof.
  intros H. apply Forall_forall. intros x Hx.
  exact (existsb_false_In _ _ _ H Hx).
Qed.

Lemma existsb_app_new A (p : A -> bool) l x :
  p x = true -> existsb p (l ++ [x]) = true.
Proof.
  intros Hx. rewrite existsb_app. simpl. rewrite Hx.
  rewrite orb_true_r. reflexivity.
Qed.

(** [start_journey] for a ticket that is in the table once, unused and
    within its validity. *)
Lemma start_journey_ticket_ok env (db : Database) station tickets t :
  db_Ticket db = tickets ++ [t] ->
  existsb (fun r => t_TicketID r =? t_TicketID t) tickets = false ->
  t_IsUsed t = false ->
  t_ValidFrom t <= CURRENT_TIMESTAMP env <= t_ValidUntil t ->
  t_ValidFrom t < t_ValidUntil t ->
  existsb (fun j => j_JourneyID j =? nextval_journey env) (db_Journey db)
  = false ->
  existsb (fun s => s_StationID s =? station) (db_Station db) = true ->
  start_journey env db JT_Ticket station (Some (t_TicketID t)) None
  = inr (nextval_journey env,
         with_Ticket
           (with_Journey db
              (db_Journey db
               ++ [new_journey env JT_Ticket station (Some (t_TicketID t))
                     None]))
           (tickets ++ [set_used (CURRENT_TIMESTAMP env) t])).
Proof.
  intros Etickets Hfresh Hunused Hvalid Hperiod Hid Hstation.
  unfold start_journey. rewrite Etickets.
  rewrite (@find_app_new _ (fun r => t_TicketID r =? t_TicketID t) tickets t
             Hfresh (Z.eqb_refl _)).
  simpl. rewrite Hunused. simpl.
  replace (t_ValidFrom t <=? CURRENT_TIMESTAMP env) with true
    by (symmetry; apply Z.leb_le; lia).
  replace (t_ValidUntil t >=? CURRENT_TIMESTAMP env) with true
    by (symmetry; rewrite Z.geb_leb; apply Z.leb_le; lia).
  simpl.
  unfold insert_Journey. simpl. rewrite Hid. simpl.
  unfold Journey_foreign_keys. simpl.
  rewrite Etickets.
  rewrite (@existsb_app_new _ (fun r => t_TicketID r =? t_TicketID t) tickets
             t (Z.eqb_refl _)).
  simpl. rewrite Hstation. simpl.
  unfold mark_ticket_used. simpl. rewrite Etickets.
  rewrite (@update_Ticket_last
             (fun r => (t_TicketID r =? t_TicketID t) && negb (t_IsUsed r))
             (set_used (CURRENT_TIMESTAMP env)) tickets t).
  - reflexivity.
  - intros r Hr.
    rewrite (existsb_false_In (fun r => t_TicketID r =? t_TicketID t)
               _ _ Hfresh Hr).
    reflexivity.
  - rewrite Z.eqb_refl, Hunused. reflexivity.
  - unfold Ticket_check. simpl.
    replace (t_ValidUntil t >? t_ValidFrom t) with true; [reflexivity |].
    symmetry. rewrite Z.gtb_ltb. apply Z.ltb_lt. exact Hperiod.
Qed.

(** The entry gate lets a ticket through when its own checks and
    [start_journey] do. *)
Lemma journeyEntry_ticket_ok env db ticketId stationId station ticket booking
    rest id db' :
  find (fun s => s_StationID s =? stationId) (db_Station db) = Some station ->
  s_IsOperational station = true ->
  select_ticket_booking db ticketId = (ticket, booking) :: rest ->
  t_IsUsed ticket = false ->
  t_ValidFrom ticket <= js_now env <= t_ValidUntil ticket ->
  b_SourceStationID booking = stationId ->
  select_active_ticket_journey db ticketId = [] ->
  start_journey env db JT_Ticket stationId (Some ticketId) None
  = inr (id, db') ->
  journeyEntry env db "Ticket" ticketId stationId
  = (success 200 "Entry permitted - Journey started" (entry_data id None),
     db').
Proof.
  intros Hstation Hop Hticket Hunused Hvalid Hsource Hactive Hstart.
  unfold journeyEntry.
  rewrite Hstation, Hop. simpl. rewrite Hticket, Hunused.
  replace (js_now env <? t_ValidFrom ticket) with false
    by (symmetry; apply Z.ltb_ge; lia).
  replace (js_now env >? t_ValidUntil ticket) with false
    by (symmetry; rewrite Z.gtb_ltb; apply Z.ltb_ge; lia).
  simpl. rewrite Hsource, Z.eqb_refl. simpl.
  rewrite Hactive, Hstart. reflexivity.
Qed.

(** Sent as a number, a station's id reaches the handlers as the integer it
    is; so does the id of a ticket or a card, however it is sent. *)
Lemma journeyEntry_sent_Number env db mediaType mediaId stationId :
  journeyEntry_sent env db mediaType mediaId (Number stationId)
  = journeyEntry env db mediaType (integer_of mediaId) stationId.
Proof. reflexivity. Qed.

Lemma journeyExit_sent_Number env db mediaType mediaId stationId :
  journeyExit_sent env db mediaType mediaId (Number stationId)
  = journeyExit env db mediaType (integer_of mediaId) stationId.
Proof. reflexivity. Qed.

(** The gates compare the station's id only on the way of a ticket. *)
Lemma journeyExit_sent_Card env db mediaId stationId :
  journeyExit_sent env db "Card" mediaId stationId
  = journeyExit env db "Card" (integer_of mediaId) (integer_of stationId).
Proof.
  unfold journeyExit_sent, journeyExit.
  destruct (find _ (db_Station db)); [| reflexivity].
  destruct (negb _); reflexivity.
Qed.

(** A station's id sent as a string is never the number on the booking. *)
Lemma journeyEntry_sent_ticket_Text env db ticketId s station ticket booking
    rest :
  find (fun x => s_StationID x =? integer_of (Text s)) (db_Station db)
  = Some station ->
  s_IsOperational station = true ->
  select_ticket_booking db (integer_of ticketId) = (ticket, booking) :: rest ->
  t_IsUsed ticket = false ->
  t_ValidFrom ticket <= js_now env <= t_ValidUntil ticket ->
  journeyEntry_sent env db "Ticket" ticketId (Text s)
  = (error 400 "Entry station does not match ticket source station", db).
Proof.
  intros Hstation Hop Hticket Hunused Hvalid.
  unfold journeyEntry_sent.
  rewrite Hstation, Hop. simpl. rewrite Hticket, Hunused.
  replace (js_now env <? t_ValidFrom ticket) with false
    by (symmetry; apply Z.ltb_ge; lia).
  replace (js_now env >? t_ValidUntil ticket) with false
    by (symmetry; rewrite Z.gtb_ltb; apply Z.ltb_ge; lia).
  reflexivity.
Qed.

(** The exit gate lets a ticket out at the station it was booked to when the
    fare paid still covers the route and [complete_journey] goes through,
    and warns when the station's id was sent as a string. *)
Lemma journeyExit_sent_ticket_ok env db ticketId stationId station journey
    booking rest row db' :
  find (fun s => s_StationID s =? integer_of stationId) (db_Station db)
  = Some station ->
  s_IsOperational station = true ->
  select_active_ticket_journey_booking db (integer_of ticketId)
  = (journey, booking) :: rest ->
  get_current_fare db (CURRENT_DATE env) (j_EntryStationID journey)
    (integer_of stationId) <= b_TotalFare booking ->
  b_DestinationStationID booking = integer_of stationId ->
  complete_journey env db (j_JourneyID journey) (integer_of stationId)
  = inr (row, db') ->
  journeyExit_sent env db "Ticket" ticketId stationId
  = (success 200 "Exit permitted - Journey completed"
       {| journeyId := j_JourneyID journey;
          fareCharged := Some (b_TotalFare booking);
          previousBalance := None;
          newBalance := None;
          warning :=
            negb (strictly_equal stationId
                    (Number (integer_of stationId))) |}, db').
Proof.
  intros Hstation Hop Hjourney Hfare Hdest Hcomplete.
  unfold journeyExit_sent.
  rewrite Hstation, Hop. simpl. rewrite Hjourney.
  replace (get_current_fare db (CURRENT_DATE env) (j_EntryStationID journey)
             (integer_of stationId) >? b_TotalFare booking) with false
    by (symmetry; rewrite Z.gtb_ltb; apply Z.ltb_ge; lia).
  rewrite Hdest.
  destruct (negb (strictly_equal stationId (Number (integer_of stationId)))).
  - rewrite Hstation. simpl. rewrite Hcomplete. reflexivity.
  - rewrite Hcomplete. reflexivity.
Qed.

Lemma find_existsb A (p : A -> bool) l x :
  find p l = Some x -> existsb p l = true.
Proof.
  intros H. apply existsb_exists. exists x.
  apply find_some in H. exact H.
Qed.

Lemma no_journey_of_a_new_ticket (db : Database) ticket :
  fk_journey_ticket db ->
  existsb (fun r => t_TicketID r =? ticket) (db_Ticket db) = false ->
  forall j, In j (db_Journey db) -> is_id (j_TicketID j) ticket = false.
Proof.
  intros Hfk Hfresh j Hj.
  destruct (j_TicketID j) as [t |] eqn:E; [| reflexivity].
  simpl. destruct (t =? ticket) eqn:Et; [| reflexivity].
  apply Z.eqb_eq in Et. subst t.
  rewrite (Hfk j ticket Hj E) in Hfresh. discriminate.
Qed.

(** X4.  A ticket just booked opens the entry gate of its source station and
    then the exit gate of its destination, when the entry gate sends the id
    of its station as a number; the id of the ticket may be sent as a number
    or as a string.  An entry gate that sends the id of the source station
    as a string is refused, and an exit gate that sends the id of the
    destination as a string lets the ticket out with the warning of a wrong
    station. *)
Theorem booked_ticket_opens_both_gates :
  forall (env : BookingEnv) (st : Store) (user src dst : Z) (method : string)
         (hours : Z) (row : booking_row) (st' : Store)
         (at_entry at_exit : Env) (source destination : Station)
         (ticket : sent),
    create_ticket_booking env st user src dst method hours = inr (row, st') ->
    integer_of ticket = ticket_id row ->
    fk_journey_ticket st ->
    find (fun s => s_StationID s =? src) (db_Station st) = Some source ->
    s_IsOperational source = true ->
    find (fun s => s_StationID s =? dst) (db_Station st) = Some destination ->
    s_IsOperational destination = true ->
    valid_from row <= js_now at_entry <= valid_until row ->
    valid_from row <= CURRENT_TIMESTAMP at_entry <= valid_until row ->
    existsb (fun j => j_JourneyID j =? nextval_journey at_entry)
      (db_Journey st) = false ->
    CURRENT_TIMESTAMP at_entry < CURRENT_TIMESTAMP at_exit + one_second ->
    get_current_fare st (CURRENT_DATE at_exit) src dst <= total_fare row ->
    exists db1 db2,
      journeyEntry_sent at_entry st' "Ticket" ticket (Number src)
      = (success 200 "Entry permitted - Journey started"
           (entry_data (nextval_journey at_entry) None), db1)
      /\ (forall station,
             integer_of station = dst ->
             journeyExit_sent at_exit db1 "Ticket" ticket station
             = (success 200 "Exit permitted - Journey completed"
                  {| journeyId := nextval_journey at_entry;
                     fareCharged := Some (total_fare row);
                     previousBalance := None;
                     newBalance := None;
                     warning := negb (strictly_equal station (Number dst)) |},
                db2))
      /\ (forall s,
             integer_of (Text s) = src ->
             journeyEntry_sent at_entry st' "Ticket" ticket (Text s)
             = (error 400 "Entry station does not match ticket source station",
                tables st'))
      /\ select_IsUsed db2 (ticket_id row) = Some true
      /\ select_active_ticket_journey db2 (ticket_id row) = []
      /\ db_SmartCard db2 = db_SmartCard st.
Proof.
  intros env st user src dst method hours row st' at_entry at_exit
    source destination ticket Hbook Hticket Hfk Hsrc Hsrc_op Hdst Hdst_op Hjs
    Hpg Hid Hclock Hfare.
  apply create_ticket_booking_inr in Hbook.
  destruct Hbook as (Hpos & Erow & Etables & _ & Hdiff & Hhours & _ & Hbk
                     & Htk & _).
  set (fare := get_current_fare st (CURRENT_DATE env) src dst) in *.
  set (t := booked_Ticket env hours) in *.
  set (b := booked_Booking env src dst fare) in *.
  rewrite Erow in *. simpl in Hjs, Hpg, Hfare, Hticket. simpl.
  set (nj := new_journey at_entry JT_Ticket src (Some (nextval_ticket env))
               None).
  set (db1 := with_Ticket
                (with_Journey st' (db_Journey st' ++ [nj]))
                (db_Ticket st ++ [set_used (CURRENT_TIMESTAMP at_entry) t])).
  set (xj := set_exit dst (exit_time at_exit) nj).
  set (db2 := with_Journey db1 (db_Journey st ++ [xj])).
  assert (Eperiod : t_ValidFrom t < t_ValidUntil t).
  { unfold t. simpl. unfold one_hour, one_second. lia. }
  assert (Hnone : forall j, In j (db_Journey st) ->
                            is_id (j_TicketID j) (nextval_ticket env) = false).
  { exact (@no_journey_of_a_new_ticket st (nextval_ticket env) Hfk Htk). }
  assert (Hstart : start_journey at_entry st' JT_Ticket src
                     (Some (nextval_ticket env)) None
                   = inr (nextval_journey at_entry, db1)).
  { apply (@start_journey_ticket_ok at_entry st' src (db_Ticket st) t);
      rewrite ?Etables; simpl; try assumption; try reflexivity.
    apply (@find_existsb _ _ _ _ Hsrc). }
  assert (Hjoin : select_ticket_booking st' (nextval_ticket env) = [(t, b)]).
  { apply (@select_ticket_booking_new st t b); try assumption;
      try reflexivity; rewrite Etables; reflexivity. }
  exists db1, db2.
  split.
  { rewrite journeyEntry_sent_Number, Hticket.
    apply (@journeyEntry_ticket_ok at_entry st' (nextval_ticket env) src
             source t b [] (nextval_journey at_entry) db1).
    - rewrite Etables. exact Hsrc.
    - exact Hsrc_op.
    - exact Hjoin.
    - reflexivity.
    - exact Hjs.
    - reflexivity.
    - unfold select_active_ticket_journey. rewrite Etables. simpl.
      apply filter_nil_iff. intros j Hj. rewrite (Hnone j Hj). reflexivity.
    - exact Hstart. }
  assert (Ejourneys : db_Journey db1 = db_Journey st ++ [nj]).
  { unfold db1. rewrite Etables. reflexivity. }
  assert (Eactive : select_active_ticket_journey db1 (nextval_ticket env)
                    = [nj]).
  { unfold select_active_ticket_journey. rewrite Ejourneys.
    rewrite filter_app. simpl. rewrite Z.eqb_refl. simpl.
    rewrite filter_nil_iff; [reflexivity |].
    intros j Hj. rewrite (Hnone j Hj). reflexivity. }
  split.
  { intros station Estation. rewrite <- Estation at 1.
    apply (@journeyExit_sent_ticket_ok at_exit db1 ticket station
             destination nj b []
             {| journey_id := nextval_journey at_entry;
                fare_deducted := None |} db2);
      rewrite ?Hticket, ?Estation.
    - unfold db1. rewrite Etables. exact Hdst.
    - exact Hdst_op.
    - unfold select_active_ticket_journey_booking. rewrite Eactive.
      simpl. rewrite app_nil_r.
      replace (db_Ticket db1)
        with (db_Ticket st ++ [set_used (CURRENT_TIMESTAMP at_entry) t])
        by reflexivity.
      rewrite flat_map_app. simpl. rewrite Z.eqb_refl.
      replace (db_Booking st') with (db_Booking st ++ [b])
        by (rewrite Etables; reflexivity).
      rewrite filter_app_new; [| exact Hbk | apply Z.eqb_refl].
      rewrite flat_map_nil; [reflexivity |].
      intros r Hr. rewrite Z.eqb_sym.
      rewrite (existsb_false_In (fun r => t_TicketID r =? nextval_ticket env)
                 _ _ Htk Hr).
      reflexivity.
    - simpl.
      rewrite (@get_current_fare_same_Fare st db1);
        [exact Hfare | unfold db1; rewrite Etables; reflexivity].
    - reflexivity.
    - unfold complete_journey. rewrite Ejourneys.
      rewrite (@find_app_new _
                 (fun j => j_JourneyID j =? j_JourneyID nj) (db_Journey st) nj
                 Hid (Z.eqb_refl _)).
      simpl.
      rewrite (@update_Journey_exit_last at_exit db1
                 (nextval_journey at_entry) dst (db_Journey st)
                 (@existsb_false_Forall _ _ _ Hid) nj eq_refl).
      rewrite complete_journey_fare_ticket; [| reflexivity].
      simpl.
      unfold Journey_check. simpl.
      replace (exit_time at_exit >? CURRENT_TIMESTAMP at_entry) with true
        by (symmetry; rewrite Z.gtb_ltb; apply Z.ltb_lt; unfold exit_time;
            lia).
      simpl.
      unfold Journey_foreign_keys. simpl.
      rewrite (@existsb_app_new _
                 (fun r => t_TicketID r =? nextval_ticket env) (db_Ticket st)
                 (set_used (CURRENT_TIMESTAMP at_entry) t) (Z.eqb_refl _)).
      simpl.
      replace (db_Station st') with (db_Station st)
        by (rewrite Etables; reflexivity).
      rewrite (@find_existsb _ _ _ _ Hsrc), (@find_existsb _ _ _ _ Hdst). simpl.
      reflexivity. }
  split.
  { intros s Es. change (integer_of (Text s) = src) in Es.
    apply (@journeyEntry_sent_ticket_Text at_entry st' ticket s source t b []);
      rewrite ?Hticket, ?Es.
    - rewrite Etables. exact Hsrc.
    - exact Hsrc_op.
    - exact Hjoin.
    - reflexivity.
    - exact Hjs. }
  split.
  { unfold select_IsUsed. simpl.
    rewrite (@find_app_new _
               (fun r => t_TicketID r =? nextval_ticket env) (db_Ticket st)
               (set_used (CURRENT_TIMESTAMP at_entry) t) Htk (Z.eqb_refl _)).
    reflexivity. }
  split.
  { unfold select_active_ticket_journey. simpl.
    rewrite filter_app. simpl. rewrite andb_false_r.
    rewrite filter_nil_iff; [reflexivity |].
    intros j Hj. rewrite (Hnone j Hj). reflexivity. }
  simpl. rewrite Etables. reflexivity.
Qed.

(** ** The fare desk: [getFare] and [bookTicket] *)

Lemma find_filter A (p q : A -> bool) l :
  (forall x, p x = true -> q x = true) ->
  find p (filter q l) = find p l.
Proof.
  intros H. induction l as [| a l IH]; simpl; [reflexivity |].
  destruct (q a) eqn:Hq; simpl.
  - destruct (p a); [reflexivity | exact IH].
  - destruct (p a) eqn:Hp; [| exact IH].
    rewrite (H a Hp) in Hq. discriminate.
Qed.

Lemma find_In_filter A (p q : A -> bool) l x :
  find p (filter q l) = Some x -> In x l /\ p x = true /\ q x = true.
Proof.
  intros H. apply find_some in H. destruct H as (Hin & Hp).
  apply filter_In in Hin. destruct Hin as (Hin & Hq). auto.
Qed.

Lemma NoDup_key_eq A (k : A -> Z) l x y :
  NoDup (map k l) -> In x l -> In y l -> k x = k y -> x = y.
Proof.
  induction l as [| a l IH]; simpl; intros Hnd Hx Hy E; [contradiction |].
  inversion Hnd as [| ? ? Hnotin Hnd']; subst.
  destruct Hx as [-> | Hx], Hy as [-> | Hy].
  - reflexivity.
  - exfalso. apply Hnotin. rewrite E. apply in_map. exact Hy.
  - exfalso. apply Hnotin. rewrite <- E. apply in_map. exact Hx.
  - exact (IH Hnd' Hx Hy E).
Qed.

Lemma NoDup_key_filter A (k : A -> Z) (p : A -> bool) l :
  NoDup (map k l) -> NoDup (map k (filter p l)).
Proof.
  induction l as [| a l IH]; simpl; intros Hnd; [constructor |].
  inversion Hnd as [| ? ? Hnotin Hnd']; subst.
  destruct (p a); simpl; [| exact (IH Hnd')].
  constructor; [| exact (IH Hnd')].
  intros Hin. apply Hnotin.
  apply in_map_iff in Hin. destruct Hin as (x & E & Hx).
  apply filter_In in Hx. rewrite <- E. apply in_map. tauto.
Qed.

(** With a key, a row is the only one of its key that a filter keeps. *)
Lemma filter_key_one A (k : A -> Z) (q : A -> bool) l x :
  NoDup (map k l) -> In x l -> q x = true ->
  List.length (filter (fun y => (k y =? k x) && q y) l) = 1%nat.
Proof.
  induction l as [| a l IH]; simpl; intros Hnd Hx Hq; [contradiction |].
  inversion Hnd as [| ? ? Hnotin Hnd']; subst.
  destruct Hx as [-> | Hx].
  - rewrite Z.eqb_refl, Hq. simpl. f_equal.
    rewrite filter_nil_iff; [reflexivity |].
    intros y Hy. destruct (k y =? k x) eqn:E; [| reflexivity].
    exfalso. apply Hnotin. apply Z.eqb_eq in E. rewrite <- E.
    apply in_map. exact Hy.
  - destruct (k a =? k x) eqn:E.
    + exfalso. apply Hnotin. apply Z.eqb_eq in E. rewrite E.
      apply in_map. exact Hx.
    + simpl. exact (IH Hnd' Hx Hq).
Qed.

Lemma filter_either_length A (p1 p2 : A -> bool) l :
  (forall x, p1 x = true -> p2 x = false) ->
  List.length (filter (fun x => p1 x || p2 x) l)
  = (List.length (filter p1 l) + List.length (filter p2 l))%nat.
Proof.
  intros H. induction l as [| a l IH]; simpl; [reflexivity |].
  destruct (p1 a) eqn:E1; simpl.
  - rewrite (H a E1). simpl. rewrite IH. reflexivity.
  - destruct (p2 a); simpl; rewrite IH; lia.
Qed.

Lemma validators_stations_None a b :
  validators_stations a b = None <-> 1 <= a /\ 1 <= b.
Proof.
  unfold validators_stations.
  destruct (1 <=? a) eqn:Ea; simpl.
  - destruct (1 <=? b) eqn:Eb; simpl.
    + apply Z.leb_le in Ea, Eb. tauto.
    + apply Z.leb_gt in Eb. split; [discriminate | lia].
  - apply Z.leb_gt in Ea. split; [discriminate | lia].
Qed.

(** The stations [getFare] reads. *)
Lemma getFare_stations (db : Database) a b x y :
  station_pkey db -> a <> b ->
  filter (fun s => ((s_StationID s =? a) || (s_StationID s =? b))
                   && s_IsOperational s) (db_Station db) = [x; y] ->
  exists f t,
    find (fun s => s_StationID s =? a) [x; y] = Some f
    /\ find (fun s => s_StationID s =? b) [x; y] = Some t.
Proof.
  intros Hpk Hab E.
  assert (Hnd : NoDup (map s_StationID [x; y])).
  { rewrite <- E. apply NoDup_key_filter. exact Hpk. }
  assert (Hx : In x [x; y]) by (left; reflexivity).
  assert (Hy : In y [x; y]) by (right; left; reflexivity).
  rewrite <- E in Hx, Hy. apply filter_In in Hx, Hy.
  destruct Hx as (_ & Hx), Hy as (_ & Hy).
  apply andb_true_iff in Hx, Hy. destruct Hx as (Hx & _), Hy as (Hy & _).
  apply orb_true_iff in Hx, Hy.
  simpl in Hnd. inversion Hnd as [| ? ? Hnotin _]; subst.
  assert (Hxy : s_StationID x <> s_StationID y).
  { intros Exy. apply Hnotin. left. symmetry. exact Exy. }
  simpl.
  destruct Hx as [Hx | Hx], Hy as [Hy | Hy];
    apply Z.eqb_eq in Hx, Hy.
  - congruence.
  - exists x, y. rewrite Hx, Hy, Z.eqb_refl, Z.eqb_refl.
    apply Z.eqb_neq in Hab. rewrite Hab. auto.
  - exists y, x. rewrite Hx, Hy, Z.eqb_refl, Z.eqb_refl.
    assert (Hba : (b =? a) = false) by (apply Z.eqb_neq; congruence).
    rewrite Hba. auto.
  - congruence.
Qed.

(** X5.  [getFare] quotes a fare exactly for two different stations that both
    exist and are operational and have a positive fare in force on the day;
    the fare quoted is the one [get_current_fare] gives, with the stations'
    names; and with station ids unique it never fails on the stations it
    read. *)
Theorem getFare_quotes_the_fare_in_force :
  forall (env : Env) (db : Database) (fromStationId toStationId : Z),
    station_pkey db ->
    let fare :=
      get_current_fare db (CURRENT_DATE env) fromStationId toStationId in
    (forall code msg d,
        getFare env db fromStationId toStationId = success_with code msg d ->
        code = 200
        /\ 1 <= fromStationId /\ 1 <= toStationId
        /\ fromStationId <> toStationId
        /\ 0 < fare
        /\ fd_fare d = fare
        /\ exists f t,
             In f (db_Station db) /\ s_StationID f = fromStationId
             /\ s_IsOperational f = true
             /\ In t (db_Station db) /\ s_StationID t = toStationId
             /\ s_IsOperational t = true
             /\ fd_from d = station_data f /\ fd_to d = station_data t)
    /\ (forall f t,
           1 <= fromStationId -> 1 <= toStationId ->
           fromStationId <> toStationId ->
           In f (db_Station db) -> s_StationID f = fromStationId ->
           s_IsOperational f = true ->
           In t (db_Station db) -> s_StationID t = toStationId ->
           s_IsOperational t = true ->
           0 < fare ->
           getFare env db fromStationId toStationId
           = success_with 200 "Fare retrieved successfully"
               {| fd_from := station_data f;
                  fd_to := station_data t;
                  fd_fare := fare |})
    /\ getFare env db fromStationId toStationId <> other TypeError.
Proof.
  intros env db a b Hpk fare.
  set (q := fun s => ((s_StationID s =? a) || (s_StationID s =? b))
                     && s_IsOperational s).
  assert (Hfinds :
            a <> b -> Nat.eqb (List.length (filter q (db_Station db))) 2 = true ->
            exists f t,
              find (fun s => s_StationID s =? a) (filter q (db_Station db))
              = Some f
              /\ find (fun s => s_StationID s =? b) (filter q (db_Station db))
                 = Some t).
  { intros Hab Hlen. apply Nat.eqb_eq in Hlen.
    destruct (filter q (db_Station db)) as [| x [| y [| z rest]]] eqn:E;
      try discriminate.
    exact (@getFare_stations db a b x y Hpk Hab E). }
  split; [| split].
  - intros code msg d H. unfold getFare in H.
    destruct (validators_stations a b) eqn:Hv; [discriminate |].
    apply validators_stations_None in Hv. destruct Hv as (Ha & Hb).
    destruct (a =? b) eqn:Hab; [discriminate |]. apply Z.eqb_neq in Hab.
    fold q in H.
    destruct (Nat.eqb _ 2) eqn:Hlen; simpl in H; [| discriminate].
    fold fare in H.
    destruct (fare <=? 0) eqn:Hfare; [discriminate |].
    apply Z.leb_gt in Hfare.
    destruct (find (fun s => s_StationID s =? a) _) as [f |] eqn:Hf;
      [| destruct (find (fun s => s_StationID s =? b) _); discriminate].
    destruct (find (fun s => s_StationID s =? b) _) as [t |] eqn:Ht;
      [| discriminate].
    injection H as <- <- <-.
    apply find_In_filter in Hf, Ht.
    destruct Hf as (Hf_in & Hf_id & Hf_q), Ht as (Ht_in & Ht_id & Ht_q).
    unfold q in Hf_q, Ht_q. apply andb_true_iff in Hf_q, Ht_q.
    apply Z.eqb_eq in Hf_id, Ht_id.
    repeat split; try assumption; try reflexivity.
    exists f, t. simpl. tauto.
  - intros f t Ha Hb Hab Hf_in Hf_id Hf_op Ht_in Ht_id Ht_op Hfare.
    unfold getFare.
    replace (validators_stations a b) with (@None Response)
      by (symmetry; apply validators_stations_None; auto).
    replace (a =? b) with false by (symmetry; apply Z.eqb_neq; exact Hab).
    fold q. fold fare.
    assert (Hlen : List.length (filter q (db_Station db)) = 2%nat).
    { unfold q.
      rewrite (@filter_ext _ _
                 (fun s => ((s_StationID s =? a) && s_IsOperational s)
                           || ((s_StationID s =? b) && s_IsOperational s)))
        by (intros s; destruct (s_StationID s =? a),
              (s_StationID s =? b), (s_IsOperational s); reflexivity).
      rewrite filter_either_length.
      - pose proof (@filter_key_one _ s_StationID s_IsOperational _ f Hpk
                      Hf_in Hf_op) as Hone_f.
        pose proof (@filter_key_one _ s_StationID s_IsOperational _ t Hpk
                      Ht_in Ht_op) as Hone_t.
        rewrite Hf_id in Hone_f. rewrite Ht_id in Hone_t.
        rewrite Hone_f, Hone_t. reflexivity.
      - intros s Hs. apply andb_true_iff in Hs. destruct Hs as (Hs & _).
        apply Z.eqb_eq in Hs.
        replace (s_StationID s =? b) with false; [reflexivity |].
        symmetry. apply Z.eqb_neq. congruence. }
    rewrite Hlen. simpl.
    replace (fare <=? 0) with false by (symmetry; apply Z.leb_gt; exact Hfare).
    destruct (Hfinds Hab) as (f' & t' & Hf' & Ht').
    { rewrite Hlen. reflexivity. }
    rewrite Hf', Ht'.
    apply find_In_filter in Hf', Ht'.
    destruct Hf' as (Hf'_in & Hf'_id & _), Ht' as (Ht'_in & Ht'_id & _).
    apply Z.eqb_eq in Hf'_id, Ht'_id.
    rewrite (@NoDup_key_eq _ s_StationID _ f' f Hpk Hf'_in Hf_in)
      by congruence.
    rewrite (@NoDup_key_eq _ s_StationID _ t' t Hpk Ht'_in Ht_in)
      by congruence.
    reflexivity.
  - unfold getFare.
    destruct (validators_stations a b) as [r |] eqn:Hv.
    { unfold validators_stations in Hv.
      destruct (negb (1 <=? a)); [injection Hv as <-; discriminate |].
      destruct (negb (1 <=? b)); [injection Hv as <-; discriminate |].
      discriminate. }
    destruct (a =? b) eqn:Hab; [discriminate |]. apply Z.eqb_neq in Hab.
    fold q.
    destruct (Nat.eqb _ 2) eqn:Hlen; simpl; [| discriminate].
    destruct (_ <=? 0); [discriminate |].
    destruct (Hfinds Hab eq_refl) as (f & t & -> & ->). discriminate.
Qed.

(** X6.  The fare [getFare] quotes is the fare a booking of the same day is
    made at, and a route it refuses for want of a fare cannot be booked. *)
Theorem quoted_fare_is_the_fare_booked :
  forall (env : Env) (desk : BookingEnv) (st : Store)
         (fromStationId toStationId : Z),
    CURRENT_DATE desk = CURRENT_DATE env ->
    (forall code msg d user method hours row st',
        getFare env st fromStationId toStationId = success_with code msg d ->
        create_ticket_booking desk st user fromStationId toStationId method
          hours = inr (row, st') ->
        total_fare row = fd_fare d)
    /\ (getFare env st fromStationId toStationId
        = other (error 404 "Fare not found for this route") ->
        forall user method hours,
          create_ticket_booking desk st user fromStationId toStationId method
            hours = inl (raise_exception No_fare_found)).
Proof.
  intros env desk st a b Hday. split.
  - intros code msg d user method hours row st' Hquote Hbook.
    apply create_ticket_booking_inr in Hbook.
    destruct Hbook as (_ & -> & _). simpl. rewrite Hday.
    unfold getFare in Hquote.
    destruct (validators_stations a b); [discriminate |].
    destruct (a =? b); [discriminate |].
    destruct (negb _); [discriminate |].
    destruct (_ <=? 0); [discriminate |].
    destruct (find _ _); [| discriminate].
    destruct (find _ _); [| discriminate].
    injection Hquote as <- <- <-. reflexivity.
  - intros Hquote user method hours.
    unfold create_ticket_booking. rewrite Hday.
    unfold getFare in Hquote.
    destruct (validators_stations a b) as [r |] eqn:Hv.
    { unfold validators_stations in Hv.
      destruct (negb (1 <=? a)); [injection Hv as <-; discriminate |].
      destruct (negb (1 <=? b)); [injection Hv as <-; discriminate |].
      discriminate. }
    destruct (a =? b); [discriminate |].
    destruct (negb _); [discriminate |].
    destruct (_ <=? 0) eqn:Hfare; [reflexivity |].
    destruct (find _ _); [| discriminate].
    destruct (find _ _); discriminate.
Qed.

Lemma find_never A (l : list A) : find (fun _ => false) l = None.
Proof. induction l as [| a l IH]; [reflexivity | exact IH]. Qed.

(** [bookTicket] refuses, or commits and then answers. *)
Lemma bookTicket_cases :
  forall (env : BookingEnv) (st : Store) (userId : Z)
         (fromStationId toStationId : sent) (paymentMethod : string)
         (reply : Reply TicketData) (st' : Store),
    bookTicket env st userId fromStationId toStationId paymentMethod
    = (reply, st') ->
    (st' = st /\ exists r, reply = other r /\ is_success r = false)
    \/ (exists row f t,
           create_ticket_booking env st userId (integer_of fromStationId)
             (integer_of toStationId) paymentMethod 24 = inr (row, st')
           /\ find (fun s => s_StationID s =? integer_of fromStationId)
                (db_Station st) = Some f
           /\ find (fun s => s_StationID s =? integer_of toStationId)
                (db_Station st) = Some t
           /\ match fromStationId, toStationId with
              | Number _, Number _ =>
                  reply
                  = success_with 201 "Ticket booked successfully"
                      {| td_ticketId := ticket_id row;
                         td_bookingId := booking_id row;
                         td_transactionId := booking_transaction_id row;
                         td_qrCodeData := qr_code row;
                         td_from := station_data f;
                         td_to := station_data t;
                         td_fare := total_fare row;
                         td_validFrom := valid_from row;
                         td_validUntil := valid_until row |}
              | _, _ => reply = other TypeError
              end).
Proof.
  intros env st user a b method reply st' H.
  unfold bookTicket in H.
  destruct (validators_bookTicket a b method) as [r |] eqn:Hv.
  { injection H as <- <-. left. split; [reflexivity |].
    exists r. split; [reflexivity |].
    unfold validators_bookTicket in Hv.
    destruct (negb (isInt_min_1 a)); [injection Hv as <-; reflexivity |].
    destruct (negb (isInt_min_1 b)); [injection Hv as <-; reflexivity |].
    destruct (negb _); [injection Hv as <-; reflexivity | discriminate]. }
  destruct (strictly_equal a b).
  { injection H as <- <-. left. split; [reflexivity |]. eauto. }
  destruct (create_ticket_booking env st user (integer_of a) (integer_of b)
              method 24) as [err | [row st1]] eqn:Hbook.
  { injection H as <- <-. left. split; [reflexivity |].
    exists (errorHandler err). split; [reflexivity |].
    apply errorHandler_not_success. }
  right.
  pose proof (@create_ticket_booking_inr env st user (integer_of a)
                (integer_of b) method 24 row st1 Hbook) as Hinv.
  destruct Hinv as (_ & _ & Etables & _ & _ & _ & _ & _ & _ & Hsrc & Hdst & _).
  apply existsb_find in Hsrc, Hdst.
  destruct Hsrc as (f & Hf), Hdst as (t & Ht).
  assert (Estations : db_Station st1 = db_Station st)
    by (rewrite Etables; reflexivity).
  rewrite Estations in H.
  assert (Est : st' = st1).
  { destruct (find _ _); [destruct (find _ _) |];
      injection H as _ <-; reflexivity. }
  subst st'.
  exists row, f, t. split; [reflexivity |]. split; [exact Hf |].
  split; [exact Ht |].
  destruct a as [a | a], b as [b | b];
    cbn [strictly_equal integer_of] in H.
  - rewrite find_filter in H
      by (intros x Hx; rewrite Hx; reflexivity).
    rewrite find_filter in H
      by (intros x Hx; rewrite Hx; apply orb_true_r).
    cbn [integer_of] in Hf, Ht.
    rewrite Hf, Ht in H. injection H as <-. reflexivity.
  - rewrite (find_never (filter _ _)) in H.
    destruct (find _ _); injection H as <-; reflexivity.
  - rewrite find_never in H. injection H as <-. reflexivity.
  - rewrite find_never in H. injection H as <-. reflexivity.
Qed.

(** X7.  [bookTicket] either refuses and leaves the store as it was, or
    commits one booking and then answers: 201 with the data of that booking
    when both station ids were sent as numbers (the lookup of the two
    stations after the commit cannot fail, since the foreign keys of the
    booking have just found them), and 500 when one of them was sent as a
    string, which the validators let through: the booking is on record all
    the same. *)
Theorem bookTicket_commits_before_it_answers :
  forall (env : BookingEnv) (st : Store) (userId : Z)
         (fromStationId toStationId : sent) (paymentMethod : string)
         (reply : Reply TicketData) (st' : Store),
    bookTicket env st userId fromStationId toStationId paymentMethod
    = (reply, st') ->
    (st' = st /\ exists r, reply = other r /\ is_success r = false)
    \/ (exists row f t,
           create_ticket_booking env st userId (integer_of fromStationId)
             (integer_of toStationId) paymentMethod 24 = inr (row, st')
           /\ find (fun s => s_StationID s =? integer_of fromStationId)
                (db_Station st) = Some f
           /\ find (fun s => s_StationID s =? integer_of toStationId)
                (db_Station st) = Some t
           /\ match fromStationId, toStationId with
              | Number _, Number _ =>
                  reply
                  = success_with 201 "Ticket booked successfully"
                      {| td_ticketId := ticket_id row;
                         td_bookingId := booking_id row;
                         td_transactionId := booking_transaction_id row;
                         td_qrCodeData := qr_code row;
                         td_from := station_data f;
                         td_to := station_data t;
                         td_fare := total_fare row;
                         td_validFrom := valid_from row;
                         td_validUntil := valid_until row |}
              | _, _ => reply = other TypeError
              end).
Proof. exact bookTicket_cases. Qed.

(** ** Recharging and reading the balance *)




Lemma credited_fields card amount time c :
  c_CardID (credited card amount time c) = c_CardID c
  /\ c_UserID (credited card amount time c) = c_UserID c
  /\ c_IsActive (credited card amount time c) = c_IsActive c.
Proof. unfold credited. destruct (c_CardID c =? card); auto. Qed.



(** ** What one operation does to the tables *)

Lemma find_none_filter A (p : A -> bool) l :
  find p l = None -> filter p l = [].
Proof.
  intros H. apply filter_nil_iff. intros x Hx.
  exact (find_none _ _ H x Hx).
Qed.

(** The row [registerCard] inserts. *)
Lemma registerCard_cases env db userId paymentMethod :
  let db' := snd (registerCard env db userId paymentMethod) in
  db' = db
  \/ (exists x, insert_Transaction db x = inr db')
  \/ (exists x p db1,
         insert_Transaction db x = inr db1 /\ insert_Payment db1 p = inr db')
  \/ (exists x p db1 db2,
         insert_Transaction db x = inr db1
         /\ insert_Payment db1 p = inr db2
         /\ select_active_cards db userId = []
         /\ insert_SmartCard db2
              {| c_CardID := nextval_card env; c_UserID := Some userId;
                 c_Balance := 0; c_IsActive := true; c_LastUsedAt := None |}
            = inr db').
Proof.
  unfold registerCard.
  destruct (negb _); [left; reflexivity |].
  destruct (find _ _) eqn:Hfind; [left; reflexivity |].
  apply find_none_filter in Hfind.
  destruct (insert_Transaction db _) as [e | db1] eqn:H1;
    [left; reflexivity |].
  destruct (insert_Payment db1 _) as [e | db2] eqn:H2.
  { right. left. simpl. eauto. }
  destruct (insert_SmartCard db2 _) as [e | db3] eqn:H3.
  { right. right. left. simpl. eauto. }
  right. right. right. simpl. eauto 10.
Qed.

(** Every operation either leaves the database as it was, or is one
    successful call of a stored function, or an INSERT of [registerCard]. *)
Lemma step_cases env db op :
  let db' := step env db op in
  db' = db
  \/ (exists ty station ticket card id,
         start_journey env db ty station ticket card = inr (id, db'))
  \/ (exists id station row,
         complete_journey env db id station = inr (row, db'))
  \/ (exists user card amount method row,
         recharge_smart_card env db user card amount method = inr (row, db'))
  \/ (exists x, insert_Transaction db x = inr db')
  \/ (exists x p db1,
         insert_Transaction db x = inr db1 /\ insert_Payment db1 p = inr db')
  \/ (exists user x p db1 db2,
         insert_Transaction db x = inr db1
         /\ insert_Payment db1 p = inr db2
         /\ select_active_cards db user = []
         /\ insert_SmartCard db2
              {| c_CardID := nextval_card env; c_UserID := Some user;
                 c_Balance := 0; c_IsActive := true; c_LastUsedAt := None |}
            = inr db').
Proof.
  destruct op as [r | s]; simpl.
  - destruct r as [mt m st | mt m st | user amount method | user method].
    + destruct (handle env db (POST_journey_entry mt m st)) as [resp db']
        eqn:H.
      simpl. apply handle_writes in H. destruct H as [-> | H]; [auto |].
      inversion H; subst; right; left; eauto 10.
    + destruct (handle env db (POST_journey_exit mt m st)) as [resp db']
        eqn:H.
      simpl. apply handle_writes in H. destruct H as [-> | H]; [auto |].
      inversion H; subst; right; right; left; eauto 10.
    + destruct (handle env db (POST_cards_recharge user amount method))
        as [resp db'] eqn:H.
      simpl. apply handle_writes in H. destruct H as [-> | H]; [auto |].
      inversion H; subst; right; right; right; left; eauto 10.
    + simpl.
      pose proof (registerCard_cases env db user method) as H. simpl in H.
      destruct H as [H | [H | [H | H]]].
      * left. exact H.
      * do 4 right. left. exact H.
      * do 5 right. left. exact H.
      * do 6 right. exists user. exact H.
  - destruct s as [ty station ticket card | id station
                   | user card amount method]; simpl.
    + destruct (start_journey env db ty station ticket card)
        as [e | [id db']] eqn:H; [auto |].
      right. left. eauto 10.
    + destruct (complete_journey env db id station) as [e | [row db']] eqn:H;
        [auto |].
      right. right. left. eauto 10.
    + destruct (recharge_smart_card env db user card amount method)
        as [e | [row db']] eqn:H; [auto |].
      right. right. right. left. eauto 10.
Qed.

(** Every action either leaves the store as it was, or is an operation on
    the tables, or one booking. *)
Lemma perform_cases (env : BookingEnv) (st : Store) a :
  let st' := perform env st a in
  st' = st
  \/ (exists op, tables st' = step env st op)
  \/ (exists user src dst method hours row,
         create_ticket_booking env st user src dst method hours
         = inr (row, st')).
Proof.
  destruct a as [op | user a b method | user src dst method hours]; simpl.
  - right. left. exists op. reflexivity.
  - destruct (bookTicket env st user a b method) as [reply st'] eqn:H.
    simpl. apply bookTicket_cases in H.
    destruct H as [(-> & _) | (row & _ & _ & H & _)]; [auto |].
    right. right. eauto 10.
  - destruct (negb _); [auto |].
    destruct (create_ticket_booking env st user src dst method hours)
      as [e | [row st']] eqn:H; [auto |].
    right. right. eauto 10.
Qed.

(** ** One active card for a user *)

Lemma card_kept_active rows rows' :
  Forall2 card_kept rows rows' ->
  forall userId,
    (List.length
       (filter (fun c => is_id (c_UserID c) userId && c_IsActive c) rows')
     <= List.length
          (filter (fun c => is_id (c_UserID c) userId && c_IsActive c) rows))%nat.
Proof.
  intros H userId.
  apply (@filter_length_le _ card_kept _ _ _ H).
  intros x y (_ & Huser & Hactive & _) Hy.
  rewrite <- Huser, <- Hactive. exact Hy.
Qed.

Lemma step_one_active_card env db op :
  one_active_card_per_user db -> one_active_card_per_user (step env db op).
Proof.
  intros Hone.
  assert (Hkept : forall db', Forall2 card_kept (db_SmartCard db)
                                (db_SmartCard db') ->
                              one_active_card_per_user db').
  { intros db' H userId. unfold select_active_cards.
    eapply Nat.le_trans; [apply (card_kept_active H) | apply Hone]. }
  pose proof (step_cases env db op) as H. simpl in H.
  destruct H as [-> | [H | [H | [H | [H | [H | H]]]]]].
  - exact Hone.
  - destruct H as (ty & station & ticket & card & id & H).
    apply Hkept. exact (start_journey_cards _ _ _ _ _ _ H).
  - destruct H as (id & station & row & H).
    apply Hkept. apply complete_journey_inr in H. tauto.
  - destruct H as (user & card & amount & method & row & H).
    apply Hkept. exact (recharge_smart_card_cards _ _ _ _ _ _ H).
  - destruct H as (x & H). apply insert_Transaction_inr in H.
    destruct H as (-> & _). exact Hone.
  - destruct H as (x & p & db1 & H1 & H2).
    apply insert_Transaction_inr in H1. destruct H1 as (-> & _).
    apply insert_Payment_inr in H2. rewrite H2. exact Hone.
  - destruct H as (user & x & p & db1 & db2 & H1 & H2 & Hnone & H3).
    apply insert_Transaction_inr in H1. destruct H1 as (-> & _).
    apply insert_Payment_inr in H2. subst db2.
    apply insert_SmartCard_inr in H3. destruct H3 as (-> & _).
    intros userId. unfold select_active_cards. simpl.
    rewrite filter_app, length_app. simpl.
    destruct (user =? userId) eqn:E.
    + apply Z.eqb_eq in E. subst userId.
      unfold select_active_cards in Hnone. rewrite Hnone. simpl. lia.
    + simpl. rewrite Nat.add_0_r. apply Hone.
Qed.

(** X9.  No user ever holds two active cards: [registerCard] looks for one
    first, and nothing else issues a card, changes its owner or switches it
    on or off. *)
Theorem one_active_card_per_user_is_kept :
  forall (actions : list (BookingEnv * action)) (st : Store),
    one_active_card_per_user st ->
    one_active_card_per_user (history st actions).
Proof.
  induction actions as [| [env a] rest IH]; simpl; intros st Hone;
    [exact Hone |].
  apply IH.
  pose proof (perform_cases env st a) as H. simpl in H.
  destruct H as [-> | [(op & ->) | H]].
  - exact Hone.
  - apply step_one_active_card. exact Hone.
  - destruct H as (user & src & dst & method & hours & row & H).
    apply create_ticket_booking_inr in H.
    destruct H as (_ & _ & -> & _). exact Hone.
Qed.

(** ** The accounts of the cards *)

Lemma flat_map_ext_In A B (f g : A -> list B) l :
  (forall x, In x l -> f x = g x) -> flat_map f l = flat_map g l.
Proof.
  induction l as [| a l IH]; simpl; intros H; [reflexivity |].
  rewrite (H a (or_introl eq_refl)). f_equal.
  apply IH. intros x Hx. apply H. right. exact Hx.
Qed.

Lemma recharged_same db db' card :
  db_Transaction db' = db_Transaction db ->
  db_Recharge db' = db_Recharge db ->
  recharged db' card = recharged db card.
Proof.
  unfold recharged, amount_recharged. intros -> ->. reflexivity.
Qed.

Lemma deducted_same db db' card :
  db_Journey db' = db_Journey db -> deducted db' card = deducted db card.
Proof. unfold deducted. intros ->. reflexivity. Qed.

Lemma fresh_transaction_not_joined db x r :
  fk_recharge_transaction db ->
  existsb (fun y => x_TransactionID y =? x_TransactionID x)
    (db_Transaction db) = false ->
  In r (db_Recharge db) ->
  (x_TransactionID x =? r_TransactionID r) = false.
Proof.
  intros Hfk Hfresh Hr. apply Z.eqb_neq. intros E.
  specialize (Hfk r Hr). rewrite <- E in Hfk.
  rewrite Hfk in Hfresh. discriminate.
Qed.

Lemma amount_recharged_new_transaction db db' x card r :
  db_Transaction db' = db_Transaction db ++ [x] ->
  (x_TransactionID x =? r_TransactionID r) = false ->
  amount_recharged db' card r = amount_recharged db card r.
Proof.
  unfold amount_recharged. intros -> Hne.
  destruct (r_CardID r =? card); [| reflexivity].
  rewrite filter_app. simpl. rewrite Hne. rewrite app_nil_r. reflexivity.
Qed.

(** A new transaction is no recharge by itself. *)
Lemma recharged_new_transaction db db' x card :
  fk_recharge_transaction db ->
  existsb (fun y => x_TransactionID y =? x_TransactionID x)
    (db_Transaction db) = false ->
  db_Transaction db' = db_Transaction db ++ [x] ->
  db_Recharge db' = db_Recharge db ->
  recharged db' card = recharged db card.
Proof.
  intros Hfk Hfresh Etx Er. unfold recharged. rewrite Er. f_equal.
  apply flat_map_ext_In. intros r Hr.
  apply (@amount_recharged_new_transaction db db' x card r Etx).
  exact (@fresh_transaction_not_joined db x r Hfk Hfresh Hr).
Qed.

(** A new recharge with its transaction counts once, for its card. *)
Lemma recharged_new_recharge db db' x r card :
  fk_recharge_transaction db ->
  existsb (fun y => x_TransactionID y =? x_TransactionID x)
    (db_Transaction db) = false ->
  db_Transaction db' = db_Transaction db ++ [x] ->
  db_Recharge db' = db_Recharge db ++ [r] ->
  r_TransactionID r = x_TransactionID x ->
  recharged db' card
  = recharged db card + (if r_CardID r =? card then x_Amount x else 0).
Proof.
  intros Hfk Hfresh Etx Er Ekey. unfold recharged. rewrite Er.
  rewrite flat_map_app, SUM_app. f_equal.
  - f_equal. apply flat_map_ext_In. intros r0 Hr0.
    apply (@amount_recharged_new_transaction db db' x card r0 Etx).
    exact (@fresh_transaction_not_joined db x r0 Hfk Hfresh Hr0).
  - simpl. rewrite app_nil_r. unfold amount_recharged.
    destruct (r_CardID r =? card); [| reflexivity].
    rewrite Etx, Ekey.
    rewrite filter_app_new; [| exact Hfresh | apply Z.eqb_refl].
    simpl. lia.
Qed.

Lemma deducted_new_journey db db' NEW card :
  db_Journey db' = db_Journey db ++ [NEW] ->
  j_FareDeducted NEW = None ->
  deducted db' card = deducted db card.
Proof.
  intros E Hnone. unfold deducted. rewrite E, flat_map_app, SUM_app.
  simpl. unfold fare_taken at 2. rewrite Hnone.
  destruct (is_id _ _); simpl; lia.
Qed.

(** The tables after a recharge. *)
Lemma recharge_smart_card_tables env db user card amount method row db' :
  recharge_smart_card env db user card amount method = inr (row, db') ->
  exists x r,
    x_Amount x = amount
    /\ r_CardID r = card
    /\ r_TransactionID r = x_TransactionID x
    /\ existsb (fun y => x_TransactionID y =? x_TransactionID x)
         (db_Transaction db) = false
    /\ db_Transaction db' = db_Transaction db ++ [x]
    /\ db_Recharge db' = db_Recharge db ++ [r]
    /\ existsb (fun c => c_CardID c =? card) (db_SmartCard db) = true.
Proof.
  unfold recharge_smart_card. intros H.
  destruct (amount <=? 0); [discriminate |].
  destruct (negb _); [discriminate |].
  pg_step H as db1 Htransaction. pg_step H as db2 Hrecharge.
  pg_step H as db3 Hpayment. injection H as <- <-.
  apply insert_Transaction_inr in Htransaction.
  destruct Htransaction as [-> Hfresh].
  apply insert_Payment_inr in Hpayment. subst db3.
  unfold insert_Recharge in Hrecharge.
  pg_step Hrecharge as [] Hkey. pg_step Hrecharge as [] Hunique.
  pg_step Hrecharge as [] Hfk. pg_step Hrecharge as [] Hfk'.
  apply require_inr in Hfk'. simpl in Hfk'.
  unfold process_card_recharge in Hrecharge. simpl in Hrecharge.
  rewrite find_app_new in Hrecharge;
    [| exact Hfresh | simpl; apply Z.eqb_refl].
  simpl in Hrecharge. pg_step Hrecharge as rows Hupdate.
  injection Hrecharge as <-.
  eexists _, _. simpl.
  repeat split; try reflexivity; assumption.
Qed.

(** The tables after an exit. *)
Lemma complete_journey_tables env db id station row db' :
  journey_pkey db -> active_unpaid db ->
  complete_journey env db id station = inr (row, db') ->
  exists OLD NEW,
    In OLD (db_Journey db) /\ j_JourneyID OLD = id
    /\ j_FareDeducted OLD = None
    /\ j_CardID NEW = j_CardID OLD
    /\ db_Journey db'
       = map (fun j => if j_JourneyID j =? id then NEW else j) (db_Journey db)
    /\ db_Transaction db' = db_Transaction db
    /\ db_Recharge db' = db_Recharge db
    /\ (j_FareDeducted NEW = None /\ db_SmartCard db' = db_SmartCard db
        \/ exists card fare,
             j_CardID OLD = Some card
             /\ j_FareDeducted NEW = Some fare
             /\ db_SmartCard db'
                = map (debited card fare) (db_SmartCard db)).
Proof.
  intros Hpk Hunpaid H.
  pose proof (complete_journey_inr _ _ _ _ H) as ((OLD & Hfind & Hactive) & _).
  rewrite (@complete_journey_unique env db id station OLD Hpk Hfind Hactive)
    in H.
  unfold select_Journey in Hfind.
  pose proof (find_some _ _ Hfind) as (Hin & Hid). apply Z.eqb_eq in Hid.
  pose proof (Hunpaid OLD Hin Hactive) as Hnone.
  destruct (j_CardID OLD) as [card |] eqn:Hcard.
  - rewrite (@complete_journey_fare_card env db OLD station (exit_time env)
               card Hactive Hcard) in H.
    cbv zeta in H.
    destruct (_ >? 0).
    + destruct (select_Balance db card) as [balance |]; [| discriminate].
      destruct (balance >=? _); [| discriminate].
      pg_step H as r Hr. pg_step Hr as rows Hupdate.
      unfold ok in Hr. injection Hr as <-.
      apply update_SmartCard_map in Hupdate. destruct Hupdate as (-> & _).
      simpl in H. pg_steps H. injection H as _ <-.
      exists OLD,
        (set_FareDeducted
           (get_current_fare db (CURRENT_DATE env) (j_EntryStationID OLD)
              station)
           (set_exit station (exit_time env) OLD)).
      simpl.
      repeat split; try reflexivity; try assumption.
      right.
      exists card,
        (get_current_fare db (CURRENT_DATE env) (j_EntryStationID OLD)
           station).
      repeat split; try reflexivity. exact Hcard.
    + simpl in H. pg_steps H. injection H as _ <-.
      exists OLD, (set_exit station (exit_time env) OLD). simpl.
      repeat split; try reflexivity; try assumption.
      left. split; [exact Hnone | reflexivity].
  - rewrite (@complete_journey_fare_ticket env db OLD station (exit_time env)
               Hcard) in H.
    simpl in H. pg_steps H. injection H as _ <-.
    exists OLD, (set_exit station (exit_time env) OLD). simpl.
    repeat split; try reflexivity; try assumption.
    left. split; [exact Hnone | reflexivity].
Qed.

Lemma card_kept_existsb rows rows' id :
  Forall2 card_kept rows rows' ->
  existsb (fun c => c_CardID c =? id) rows'
  = existsb (fun c => c_CardID c =? id) rows.
Proof.
  induction 1 as [| c c' rows rows' (Hid & _) _ IH]; simpl;
    [reflexivity |].
  rewrite Hid, IH. reflexivity.
Qed.

Lemma Journey_foreign_keys_card db j card :
  Journey_foreign_keys db j = inr tt ->
  j_CardID j = Some card ->
  existsb (fun r => c_CardID r =? card) (db_SmartCard db) = true.
Proof.
  unfold Journey_foreign_keys. intros H Hcard.
  pg_step H as u1 H1. pg_step H as u2 H2. apply require_inr in H2.
  rewrite Hcard in H2. exact H2.
Qed.

(** The tables after an entry. *)
Lemma start_journey_tables env db ty station ticket card id db' :
  start_journey env db ty station ticket card = inr (id, db') ->
  db_Transaction db' = db_Transaction db
  /\ db_Recharge db' = db_Recharge db
  /\ Journey_foreign_keys db (new_journey env ty station ticket card) = inr tt
  /\ exists f,
       db_SmartCard db' = map f (db_SmartCard db)
       /\ forall c, c_CardID (f c) = c_CardID c
                    /\ c_Balance (f c) = c_Balance c.
Proof.
  intros H. apply start_journey_inr in H. destruct H as (_ & H).
  pose proof (insert_Journey_inr _ _ _ H) as (-> & _).
  unfold insert_Journey in H.
  pg_step H as u1 H1. pg_step H as u2 H2. pg_step H as u3 Hfk.
  destruct u3.
  simpl. repeat split; try assumption.
  destruct card as [card |].
  - exists (touched card (CURRENT_TIMESTAMP env)).
    split; [reflexivity |].
    intros c. destruct (touched_fields card (CURRENT_TIMESTAMP env) c)
      as (E1 & E2 & _).
    auto.
  - exists (fun c => c). split; [symmetry; apply map_id | auto].
Qed.

Lemma step_active_unpaid env db op :
  active_unpaid db -> active_unpaid (step env db op).
Proof.
  intros Hunpaid.
  pose proof (step_cases env db op) as H. simpl in H.
  destruct H as [-> | [H | [H | [H | [H | [H | H]]]]]].
  - exact Hunpaid.
  - destruct H as (ty & station & ticket & card & id & H).
    apply start_journey_journeys in H.
    intros j Hj Hactive. rewrite H in Hj. apply in_app_or in Hj.
    destruct Hj as [Hj | [<- | []]]; [| reflexivity].
    exact (Hunpaid j Hj Hactive).
  - destruct H as (id & station & row & H).
    apply complete_journey_keeps in H. apply H. exact Hunpaid.
  - destruct H as (user & card & amount & method & row & H).
    apply recharge_smart_card_inr in H.
    destruct H as (_ & _ & _ & E & _).
    intros j Hj. rewrite E in Hj. exact (Hunpaid j Hj).
  - destruct H as (x & H). apply insert_Transaction_inr in H.
    destruct H as (-> & _). exact Hunpaid.
  - destruct H as (x & p & db1 & H1 & H2).
    apply insert_Transaction_inr in H1. destruct H1 as (-> & _).
    apply insert_Payment_inr in H2. rewrite H2. exact Hunpaid.
  - destruct H as (user & x & p & db1 & db2 & H1 & H2 & _ & H3).
    apply insert_Transaction_inr in H1. destruct H1 as (-> & _).
    apply insert_Payment_inr in H2. subst db2.
    apply insert_SmartCard_inr in H3. destruct H3 as (-> & _).
    exact Hunpaid.
Qed.

Lemma existsb_app_l A (p : A -> bool) l l' :
  existsb p l = true -> existsb p (l ++ l') = true.
Proof. intros H. rewrite existsb_app, H. reflexivity. Qed.

Lemma step_consistent env db op :
  consistent db -> consistent (step env db op).
Proof.
  intros [Hpk Hunpaid Hrt Hrc Hjc].
  pose proof (@step_journey_pkey env db op Hpk) as Hpk'.
  pose proof (@step_active_unpaid env db op Hunpaid) as Hunpaid'.
  pose proof (step_cases env db op) as H. simpl in H.
  destruct H as [-> | [H | [H | [H | [H | [H | H]]]]]].
  - constructor; assumption.
  - destruct H as (ty & station & ticket & card & id & H).
    pose proof (start_journey_cards _ _ _ _ _ _ H) as Hcards.
    pose proof (start_journey_journeys _ _ _ _ _ _ H) as Ejourneys.
    apply start_journey_tables in H.
    destruct H as (Etx & Er & Hfk & _).
    constructor; try assumption.
    + intros r Hr. rewrite Er in Hr. rewrite Etx. exact (Hrt r Hr).
    + intros r Hr. rewrite Er in Hr.
      rewrite (card_kept_existsb _ Hcards). exact (Hrc r Hr).
    + intros j c Hj Hc. rewrite Ejourneys in Hj.
      rewrite (card_kept_existsb _ Hcards).
      apply in_app_or in Hj. destruct Hj as [Hj | [<- | []]].
      * exact (Hjc j c Hj Hc).
      * exact (@Journey_foreign_keys_card db _ c Hfk Hc).
  - destruct H as (id & station & row & H).
    apply complete_journey_inr in H.
    destruct H as (_ & Hrows & Hcards & _ & _ & Etx & Er & _).
    constructor; try assumption.
    + intros r Hr. rewrite Er in Hr. rewrite Etx. exact (Hrt r Hr).
    + intros r Hr. rewrite Er in Hr.
      rewrite (card_kept_existsb _ Hcards). exact (Hrc r Hr).
    + intros j c Hj Hc.
      rewrite (card_kept_existsb _ Hcards).
      destruct (@Forall2_In_r _ _ _ _ _ j Hrows Hj) as (j0 & Hj0 & Hexit).
      apply journey_exited_fields in Hexit.
      destruct Hexit as (_ & _ & Ecard & _).
      apply (Hjc j0 c Hj0). congruence.
  - destruct H as (user & card & amount & method & row & H).
    pose proof (recharge_smart_card_cards _ _ _ _ _ _ H) as Hcards.
    pose proof (recharge_smart_card_inr _ _ _ _ _ _ H)
      as (_ & _ & _ & Ejourneys & _).
    apply recharge_smart_card_tables in H.
    destruct H as (x & r & _ & Ecard & Ekey & Hfresh & Etx & Er & Hexists).
    constructor; try assumption.
    + intros r0 Hr0. rewrite Er in Hr0. rewrite Etx.
      apply in_app_or in Hr0. destruct Hr0 as [Hr0 | [<- | []]].
      * apply existsb_app_l. exact (Hrt r0 Hr0).
      * apply existsb_app_new. rewrite Ekey. apply Z.eqb_refl.
    + intros r0 Hr0. rewrite Er in Hr0.
      rewrite (card_kept_existsb _ Hcards).
      apply in_app_or in Hr0. destruct Hr0 as [Hr0 | [<- | []]].
      * exact (Hrc r0 Hr0).
      * rewrite Ecard. exact Hexists.
    + intros j c Hj Hc. rewrite Ejourneys in Hj.
      rewrite (card_kept_existsb _ Hcards). exact (Hjc j c Hj Hc).
  - destruct H as (x & H). apply insert_Transaction_inr in H.
    destruct H as (-> & _).
    constructor; try assumption.
    intros r Hr. simpl. apply existsb_app_l. exact (Hrt r Hr).
  - destruct H as (x & p & db1 & H1 & H2).
    apply insert_Transaction_inr in H1. destruct H1 as (-> & _).
    apply insert_Payment_inr in H2. rewrite H2.
    constructor; try assumption.
    intros r Hr. simpl. apply existsb_app_l. exact (Hrt r Hr).
  - destruct H as (user & x & p & db1 & db2 & H1 & H2 & _ & H3).
    apply insert_Transaction_inr in H1. destruct H1 as (-> & _).
    apply insert_Payment_inr in H2. subst db2.
    apply insert_SmartCard_inr in H3. destruct H3 as (-> & _).
    constructor; try assumption.
    + intros r Hr. simpl. apply existsb_app_l. exact (Hrt r Hr).
    + intros r Hr. simpl. apply existsb_app_l. exact (Hrc r Hr).
    + intros j c Hj Hc. simpl. apply existsb_app_l. exact (Hjc j c Hj Hc).
Qed.

(** The accounts stay in order when every card row changes by what the
    records of its card change by. *)
Lemma accounts_map opening db db' (f : SmartCard -> SmartCard) :
  db_SmartCard db' = map f (db_SmartCard db) ->
  (forall c, c_CardID (f c) = c_CardID c) ->
  (forall c, In c (db_SmartCard db) ->
             c_Balance (f c) - c_Balance c
             = recharged db' (c_CardID c) - recharged db (c_CardID c)
               - (deducted db' (c_CardID c) - deducted db (c_CardID c))) ->
  accounts opening db -> accounts opening db'.
Proof.
  intros Ecards Hid Hdelta (Hbalance & Hopening). split.
  - intros c' Hc'. rewrite Ecards in Hc'. apply in_map_iff in Hc'.
    destruct Hc' as (c & <- & Hc).
    specialize (Hdelta c Hc). specialize (Hbalance c Hc).
    rewrite Hid. lia.
  - intros card Hnone. apply Hopening. rewrite <- Hnone, Ecards.
    clear -Hid. induction (db_SmartCard db) as [| c l IH]; simpl;
      [reflexivity |].
    rewrite Hid, IH. reflexivity.
Qed.

Lemma accounts_same_cards opening db db' :
  db_SmartCard db' = db_SmartCard db ->
  (forall card, recharged db' card = recharged db card) ->
  (forall card, deducted db' card = deducted db card) ->
  accounts opening db -> accounts opening db'.
Proof.
  intros Ecards Hr Hd.
  apply (@accounts_map opening db db' (fun c => c)).
  - rewrite map_id. exact Ecards.
  - reflexivity.
  - intros c _. rewrite Hr, Hd. lia.
Qed.

Lemma no_recharge_of_a_new_card db card :
  fk_recharge_card db ->
  existsb (fun c => c_CardID c =? card) (db_SmartCard db) = false ->
  recharged db card = 0.
Proof.
  intros Hfk Hfresh. unfold recharged.
  rewrite flat_map_nil; [reflexivity |].
  intros r Hr. unfold amount_recharged.
  destruct (r_CardID r =? card) eqn:E; [| reflexivity].
  apply Z.eqb_eq in E. specialize (Hfk r Hr). rewrite E in Hfk.
  rewrite Hfk in Hfresh. discriminate.
Qed.

Lemma no_fare_of_a_new_card db card :
  fk_journey_card db ->
  existsb (fun c => c_CardID c =? card) (db_SmartCard db) = false ->
  deducted db card = 0.
Proof.
  intros Hfk Hfresh. unfold deducted.
  rewrite flat_map_nil; [reflexivity |].
  intros j Hj. unfold fare_taken.
  destruct (j_CardID j) as [c |] eqn:Hc; [| reflexivity].
  simpl. destruct (c =? card) eqn:E; [| reflexivity].
  apply Z.eqb_eq in E. subst c.
  rewrite (Hfk j card Hj Hc) in Hfresh. discriminate.
Qed.

Lemma step_accounts env db op opening :
  consistent db -> accounts opening db -> accounts opening (step env db op).
Proof.
  intros [Hpk Hunpaid Hrt Hrc Hjc] Haccounts.
  pose proof (step_cases env db op) as H. simpl in H.
  set (db' := step env db op) in *.
  destruct H as [H | [H | [H | [H | [H | [H | H]]]]]].
  - rewrite H. exact Haccounts.
  - (* an entry *)
    destruct H as (ty & station & ticket & card & id & H).
    pose proof (start_journey_journeys _ _ _ _ _ _ H) as Ejourneys.
    apply start_journey_tables in H.
    destruct H as (Etx & Er & _ & f & Ecards & Hf).
    apply (@accounts_map opening db _ f Ecards); [apply Hf | | exact Haccounts].
    intros c _. destruct (Hf c) as (_ & ->).
    rewrite (@recharged_same db db' _ Etx Er).
    rewrite (@deducted_new_journey db db' _ _ Ejourneys eq_refl). lia.
  - (* an exit *)
    destruct H as (id & station & row & H).
    apply (@complete_journey_tables env db id station row db' Hpk Hunpaid) in H.
    destruct H as (OLD & NEW & Hin & Hid & Hnone & Ecard & Ejourneys & Etx
                   & Er & Hfare).
    assert (Hdeducted :
              forall card,
                deducted db' card
                = deducted db card + SUM (fare_taken card NEW)).
    { intros card. unfold deducted. rewrite Ejourneys.
      rewrite (@SUM_flat_map_replaced (fare_taken card) id OLD NEW _ Hpk Hin
                 Hid).
      rewrite (@fare_taken_unpaid card OLD Hnone). lia. }
    destruct Hfare as [(Hnone' & Ecards) | (card & fare & Hcard & Hfare
                                            & Ecards)].
    + apply (@accounts_same_cards opening db _ Ecards);
        [| | exact Haccounts].
      * intros card. exact (@recharged_same db db' card Etx Er).
      * intros card. rewrite Hdeducted.
        rewrite (@fare_taken_unpaid card NEW Hnone'). lia.
    + apply (@accounts_map opening db _ (debited card fare) Ecards);
        [| | exact Haccounts].
      * intros c. apply debited_fields.
      * intros c _. destruct (debited_fields card fare c) as (_ & ->).
        rewrite (@recharged_same db db' _ Etx Er), Hdeducted.
        unfold fare_taken. rewrite Ecard, Hcard, Hfare. simpl.
        rewrite (Z.eqb_sym card).
        destruct (c_CardID c =? card); simpl; lia.
  - (* a recharge *)
    destruct H as (user & card & amount & method & row & H).
    pose proof (recharge_smart_card_inr _ _ _ _ _ _ H)
      as (Ecards & _ & _ & Ejourneys & _).
    apply recharge_smart_card_tables in H.
    destruct H as (x & r & Eamount & Ecard & Ekey & Hfresh & Etx & Er & _).
    apply (@accounts_map opening db _
             (credited card amount (CURRENT_TIMESTAMP env)) Ecards);
      [| | exact Haccounts].
    + intros c. apply credited_fields.
    + intros c _.
      rewrite (@recharged_new_recharge db _ x r _ Hrt Hfresh Etx Er Ekey).
      rewrite (@deducted_same db db' _ Ejourneys).
      rewrite Ecard, Eamount, (Z.eqb_sym card).
      unfold credited. destruct (c_CardID c =? card); simpl; lia.
  - (* the fee of a registration *)
    destruct H as (x & H). apply insert_Transaction_inr in H.
    destruct H as (E & Hfresh).
    apply (@accounts_same_cards opening db _); [| | | exact Haccounts].
    + rewrite E. reflexivity.
    + intros card.
      apply (@recharged_new_transaction db _ x card Hrt Hfresh);
        rewrite E; reflexivity.
    + intros card. apply deducted_same. rewrite E. reflexivity.
  - destruct H as (x & p & db1 & H1 & H2).
    apply insert_Transaction_inr in H1. destruct H1 as (E1 & Hfresh). subst db1.
    apply insert_Payment_inr in H2.
    apply (@accounts_same_cards opening db _); [| | | exact Haccounts].
    + rewrite H2. reflexivity.
    + intros card.
      apply (@recharged_new_transaction db _ x card Hrt Hfresh);
        rewrite H2; reflexivity.
    + intros card. apply deducted_same. rewrite H2. reflexivity.
  - (* a registration *)
    destruct H as (user & x & p & db1 & db2 & H1 & H2 & _ & H3).
    apply insert_Transaction_inr in H1. destruct H1 as (E1 & Hfresh). subst db1.
    apply insert_Payment_inr in H2. subst db2.
    apply insert_SmartCard_inr in H3. destruct H3 as (E & _ & Hnew).
    simpl in Hnew.
    assert (Hr : forall card,
               recharged db' card = recharged db card).
    { intros card.
      apply (@recharged_new_transaction db _ x card Hrt Hfresh);
        rewrite E; reflexivity. }
    assert (Hd : forall card,
               deducted db' card = deducted db card).
    { intros card. apply deducted_same. rewrite E. reflexivity. }
    destruct Haccounts as (Hbalance & Hopening). split.
    + intros c Hc. rewrite E in Hc. simpl in Hc. apply in_app_or in Hc.
      rewrite Hr, Hd.
      destruct Hc as [Hc | [<- | []]]; [exact (Hbalance c Hc) |].
      simpl.
      rewrite (Hopening _ Hnew).
      rewrite (@no_recharge_of_a_new_card db _ Hrc Hnew).
      rewrite (@no_fare_of_a_new_card db _ Hjc Hnew). reflexivity.
    + intros card Hnone. apply Hopening.
      rewrite E in Hnone. simpl in Hnone. rewrite existsb_app in Hnone.
      apply orb_false_iff in Hnone. tauto.
Qed.

Lemma booking_consistent (env : BookingEnv) (st : Store) user src dst method
    hours row st' :
  create_ticket_booking env st user src dst method hours = inr (row, st') ->
  consistent st -> consistent st'.
Proof.
  intros H [Hpk Hunpaid Hrt Hrc Hjc].
  apply create_ticket_booking_inr in H.
  destruct H as (_ & _ & E & _).
  constructor.
  - unfold journey_pkey. rewrite E. exact Hpk.
  - intros j Hj. rewrite E in Hj. exact (Hunpaid j Hj).
  - intros r Hr. rewrite E in Hr. rewrite E. simpl.
    apply existsb_app_l. exact (Hrt r Hr).
  - intros r Hr. rewrite E in Hr. rewrite E. exact (Hrc r Hr).
  - intros j c Hj Hc. rewrite E in Hj. rewrite E. exact (Hjc j c Hj Hc).
Qed.

Lemma booking_accounts (env : BookingEnv) (st : Store) user src dst method
    hours row st' opening :
  create_ticket_booking env st user src dst method hours = inr (row, st') ->
  consistent st -> accounts opening st -> accounts opening st'.
Proof.
  intros H [_ _ Hrt _ _].
  apply create_ticket_booking_inr in H.
  destruct H as (_ & _ & E & _ & _ & _ & Hfresh & _).
  apply (@accounts_same_cards opening st st').
  - rewrite E. reflexivity.
  - intros card.
    apply (@recharged_new_transaction st st'
             (booked_Transaction env user
                (get_current_fare st (CURRENT_DATE env) src dst))
             card Hrt Hfresh);
      rewrite E; reflexivity.
  - intros card. apply deducted_same. rewrite E. reflexivity.
Qed.

Lemma history_accounts opening actions :
  forall st : Store,
    consistent st -> accounts opening st ->
    consistent (history st actions) /\ accounts opening (history st actions).
Proof.
  induction actions as [| [env a] rest IH]; simpl; intros st Hc Ha;
    [split; assumption |].
  pose proof (perform_cases env st a) as H. simpl in H.
  destruct H as [E | [(op & E) | H]].
  - rewrite E. apply IH; assumption.
  - apply IH; rewrite E.
    + apply step_consistent. exact Hc.
    + apply step_accounts; assumption.
  - destruct H as (user & src & dst & method & hours & row & H).
    apply IH.
    + exact (@booking_consistent env st user src dst method hours row _ H Hc).
    + exact (@booking_accounts env st user src dst method hours row _ opening
               H Hc Ha).
Qed.

(** X10.  The balance of a card is what the records say: after any sequence of
    gate calls, recharges, registrations and bookings, every card holds its
    opening balance plus the amounts of its recharges on record minus the
    fares deducted on its journeys on record, and a card issued on the way
    opened with nothing. *)
Theorem balances_follow_the_records :
  forall (actions : list (BookingEnv * action)) (st : Store)
         (opening : Z -> Z),
    consistent st ->
    accounts opening st ->
    forall c,
      In c (db_SmartCard (history st actions)) ->
      c_Balance c
      = opening (c_CardID c)
        + recharged (history st actions) (c_CardID c)
        - deducted (history st actions) (c_CardID c).
Proof.
  intros actions st opening Hc Ha.
  destruct (@history_accounts opening actions st Hc Ha) as (_ & H & _).
  exact H.
Qed.

(** ** Routes without a fare *)

Lemma get_current_fare_none db today src dst :
  (forall f, In f (db_Fare db) -> fare_where today src dst f = false) ->
  get_current_fare db today src dst = 0.
Proof.
  intros H. unfold get_current_fare.
  rewrite filter_nil_iff; [reflexivity | exact H].
Qed.

(** X11.  A route with no fare row in force on the day cannot be booked, and so
    no ticket from a station to itself can be, as long as
    [chk_fare_different_stations] holds of the rows of [Fare]: the call
    raises 'No fare found' before it writes anything. *)
Theorem no_booking_without_a_fare_in_force :
  forall (env : BookingEnv) (st : Store) (user src dst : Z) (method : string)
         (hours : Z),
    ((forall f from, In f (db_Fare st) ->
                     ~ effective (CURRENT_DATE env) src dst f from) ->
     create_ticket_booking env st user src dst method hours
     = inl (raise_exception No_fare_found))
    /\ (chk_fare_different_stations st -> src = dst ->
        create_ticket_booking env st user src dst method hours
        = inl (raise_exception No_fare_found)).
Proof.
  intros env st user src dst method hours.
  assert (Hnone : (forall f, In f (db_Fare st) ->
                             fare_where (CURRENT_DATE env) src dst f = false) ->
                  create_ticket_booking env st user src dst method hours
                  = inl (raise_exception No_fare_found)).
  { intros H. unfold create_ticket_booking.
    rewrite (@get_current_fare_none st (CURRENT_DATE env) src dst H).
    reflexivity. }
  split.
  - intros H. apply Hnone. intros f Hf.
    destruct (fare_where (CURRENT_DATE env) src dst f) eqn:E;
      [| reflexivity].
    apply fare_where_effective in E. destruct E as (from & E).
    exfalso. exact (H f from Hf E).
  - intros Hcheck <-. apply Hnone. intros f Hf.
    unfold chk_fare_different_stations in Hcheck.
    rewrite Forall_forall in Hcheck. specialize (Hcheck f Hf).
    unfold fare_where.
    destruct (f_SourceStationID f =? src) eqn:E1; [| reflexivity].
    destruct (f_DestinationStationID f =? src) eqn:E2; [| reflexivity].
    apply Z.eqb_eq in E1, E2. congruence.
Qed.

(** ** What [start_journey] lets in *)

(** X12.  [start_journey] starts a journey only for a ticket that is in the
    table, unused and within its validity on the session's clock, or for a
    card that is in the table, active and holds 10.00 or more; a journey by
    ticket names no card and a journey by card no ticket, and the entry
    station exists.  A ticket that is not in the table gets past the
    function's own check (the flag it reads stays NULL) and is stopped by
    the foreign key. *)
Theorem start_journey_admits_valid_media_only :
  forall (env : Env) (db : Database) (ty : journey_type) (station : Z)
         (ticket card : option Z),
    (forall id db',
        start_journey env db ty station ticket card = inr (id, db') ->
        existsb (fun s => s_StationID s =? station) (db_Station db) = true
        /\ (ty = JT_Ticket /\ card = None
            /\ (exists t r,
                   ticket = Some t
                   /\ find (fun r => t_TicketID r =? t) (db_Ticket db)
                      = Some r
                   /\ t_IsUsed r = false
                   /\ t_ValidFrom r <= CURRENT_TIMESTAMP env <= t_ValidUntil r)
            \/ ty = JT_Card /\ ticket = None
               /\ (exists c r,
                      card = Some c
                      /\ find (fun r => (c_CardID r =? c) && c_IsActive r)
                           (db_SmartCard db) = Some r
                      /\ 1000 <= c_Balance r)))
    /\ (forall t,
           ty = JT_Ticket -> ticket = Some t -> card = None ->
           find (fun r => t_TicketID r =? t) (db_Ticket db) = None ->
           existsb (fun j => j_JourneyID j =? nextval_journey env)
             (db_Journey db) = false ->
           start_journey env db ty station ticket card
           = inl (foreign_key_violation "fk_journey_ticket")).
Proof.
  intros env db ty station ticket card. split.
  - intros id db' H. unfold start_journey in H.
    pg_step H as u Hmedia. pg_step H as db1 Hinsert.
    unfold insert_Journey in Hinsert.
    pg_step Hinsert as u1 Hcheck. pg_step Hinsert as u2 Hpk.
    pg_step Hinsert as u3 Hfk.
    unfold Journey_check in Hcheck. simpl in Hcheck.
    pg_step Hcheck as u4 Hmethod. apply require_inr in Hmethod.
    unfold Journey_foreign_keys in Hfk. simpl in Hfk.
    pg_step Hfk as u5 Hfk_ticket. apply require_inr in Hfk_ticket.
    pg_step Hfk as u6 Hfk_card. pg_step Hfk as u7 Hfk_station.
    apply require_inr in Hfk_station.
    split; [exact Hfk_station |].
    destruct ty.
    + left. split; [reflexivity |].
      destruct ticket as [t |]; [| discriminate].
      destruct card as [c |]; [discriminate |].
      split; [reflexivity |].
      destruct (find (fun r => t_TicketID r =? t) (db_Ticket db)) as [r |]
        eqn:Hfind.
      * simpl in Hmedia.
        destruct (t_IsUsed r) eqn:Hused; [discriminate |].
        destruct (t_ValidFrom r <=? CURRENT_TIMESTAMP env) eqn:Hfrom;
          [| discriminate].
        destruct (t_ValidUntil r >=? CURRENT_TIMESTAMP env) eqn:Huntil;
          [| discriminate].
        apply Z.leb_le in Hfrom. rewrite Z.geb_leb in Huntil.
        apply Z.leb_le in Huntil.
        exists t, r. repeat split; assumption.
      * exfalso. apply existsb_find in Hfk_ticket.
        destruct Hfk_ticket as (r & Hr). congruence.
    + right. split; [reflexivity |].
      destruct card as [c |]; [| discriminate].
      destruct ticket as [t |];
        [rewrite andb_false_r in Hmethod; discriminate |].
      split; [reflexivity |].
      destruct (find (fun r => (c_CardID r =? c) && c_IsActive r)
                  (db_SmartCard db)) as [r |] eqn:Hfind;
        [| discriminate].
      simpl in Hmedia.
      destruct (c_Balance r <? 1000) eqn:Hbalance; [discriminate |].
      apply Z.ltb_ge in Hbalance.
      exists c, r. repeat split; assumption.
  - intros t -> -> -> Hfind Hfresh.
    unfold start_journey. rewrite Hfind. simpl.
    unfold insert_Journey. simpl. rewrite Hfresh. simpl.
    unfold Journey_foreign_keys. simpl.
    destruct (existsb (fun r => t_TicketID r =? t) (db_Ticket db)) eqn:E;
      [| reflexivity].
    apply existsb_find in E. destruct E as (r & Hr). congruence.
Qed.

(** ** Leaving with a ticket *)

(** X13.  An exit with a ticket charges nothing at the gate: when [journeyExit]
    lets a ticket out, the fare in force from the entry station to this one
    is no more than the fare paid at the booking, the response repeats the
    fare paid, the journey is completed here, and no card is touched.  The
    response carries no warning exactly when the id of the station was sent
    as the number of the station booked to: it warns at any other station,
    and at the station booked to as well when the id was sent as a string.
    The id of the ticket may be sent as a number or as a string. *)
Theorem ticket_exit_is_covered_by_the_fare_paid :
  forall (env : Env) (db : Database) (ticketId stationId : sent)
         (code : Z) (msg : string) (d : ResponseData) (db' : Database),
    journey_pkey db ->
    journeyExit_sent env db "Ticket" ticketId stationId
    = (success code msg d, db') ->
    exists journey booking rest,
      select_active_ticket_journey_booking db (integer_of ticketId)
      = (journey, booking) :: rest
      /\ get_current_fare db (CURRENT_DATE env) (j_EntryStationID journey)
           (integer_of stationId) <= b_TotalFare booking
      /\ fareCharged d = Some (b_TotalFare booking)
      /\ (warning d = false
          <-> stationId = Number (b_DestinationStationID booking))
      /\ select_Journey db' (j_JourneyID journey)
         = Some (set_exit (integer_of stationId) (exit_time env) journey)
      /\ db_SmartCard db' = db_SmartCard db.
Proof.
  intros env db ticketId0 stationId0 code msg d db' Hpk H.
  unfold journeyExit_sent in H.
  set (ticketId := integer_of ticketId0) in *.
  set (stationId := integer_of stationId0) in *.
  clearbody ticketId stationId.
  destruct (find _ (db_Station db)) as [station |]; [| discriminate].
  destruct (negb (s_IsOperational station)); [discriminate |].
  simpl in H.
  destruct (select_active_ticket_journey_booking db ticketId)
    as [| [journey booking] rest] eqn:Hjoin; [discriminate |].
  destruct (_ >? b_TotalFare booking) eqn:Hfare; [discriminate |].
  rewrite Z.gtb_ltb in Hfare. apply Z.ltb_ge in Hfare.
  assert (Hin : In journey (db_Journey db)).
  { assert (Hj : In (journey, booking)
                   (select_active_ticket_journey_booking db ticketId))
      by (rewrite Hjoin; left; reflexivity).
    apply select_active_ticket_journey_booking_In in Hj.
    unfold select_active_ticket_journey in Hj.
    apply filter_In in Hj. tauto. }
  assert (Hticket : is_some (j_TicketID journey) = true
                    /\ j_Status journey = Active).
  { assert (Hj : In (journey, booking)
                   (select_active_ticket_journey_booking db ticketId))
      by (rewrite Hjoin; left; reflexivity).
    apply select_active_ticket_journey_booking_In in Hj.
    unfold select_active_ticket_journey in Hj.
    apply filter_In in Hj. destruct Hj as (_ & Hj).
    apply andb_true_iff in Hj. destruct Hj as (Hid & Hstatus).
    split.
    - destruct (j_TicketID journey); [reflexivity | discriminate].
    - destruct (j_Status journey); [reflexivity | discriminate ..]. }
  destruct Hticket as (Hticket & Hactive).
  pose proof (@find_by_key _ journey Hpk Hin) as Hfind.
  destruct (if negb (strictly_equal stationId0
                      (Number (b_DestinationStationID booking)))
            then _ else Some false) as [w |] eqn:Hw; [| discriminate].
  destruct (complete_journey env db (j_JourneyID journey) stationId)
    as [err | [row db1]] eqn:Hcomplete.
  { injection H as Eresp _.
    pose proof (errorHandler_not_success err) as Hno.
    rewrite Eresp in Hno. discriminate. }
  injection H as _ _ <- <-.
  rewrite (@complete_journey_unique env db (j_JourneyID journey) stationId
             journey Hpk Hfind Hactive) in Hcomplete.
  destruct (j_CardID journey) as [card |] eqn:Hcard.
  - (* a row with a ticket and a card does not pass the CHECK *)
    exfalso.
    pg_step Hcomplete as [NEW db2] Hr. pg_step Hcomplete as u Hcheck.
    apply complete_journey_fare_inr in Hr.
    destruct Hr as (Hnew & _).
    unfold Journey_check in Hcheck. simpl in Hcheck.
    pg_step Hcheck as u1 Hmethod. apply require_inr in Hmethod.
    assert (E : j_TicketID NEW = j_TicketID journey
                /\ j_CardID NEW = Some card).
    { destruct Hnew as [-> | (fare & ->)]; simpl; auto. }
    destruct E as (E1 & E2). rewrite E1, E2 in Hmethod.
    destruct (j_TicketID journey); [| discriminate].
    destruct (j_JourneyType NEW); discriminate.
  - rewrite (@complete_journey_fare_ticket env db journey stationId
               (exit_time env) Hcard) in Hcomplete.
    simpl in Hcomplete. pg_steps Hcomplete. injection Hcomplete as _ <-.
    exists journey, booking, rest. simpl.
    split; [reflexivity |].
    split; [exact Hfare |].
    split; [reflexivity |].
    split.
    { destruct (strictly_equal stationId0
                  (Number (b_DestinationStationID booking))) eqn:E;
        cbn [negb] in Hw.
      - injection Hw as <-. split; [intros _ | reflexivity].
        destruct stationId0 as [n | t]; cbn [strictly_equal] in E;
          [| discriminate].
        apply Z.eqb_eq in E. congruence.
      - destruct (find _ (db_Station db)); [| discriminate].
        injection Hw as <-. split; [discriminate |].
        intros ->. cbn [strictly_equal] in E.
        rewrite Z.eqb_refl in E. discriminate. }
    split; [| reflexivity].
    unfold select_Journey. simpl.
    apply (@find_replaced (j_JourneyID journey)
             (set_exit stationId (exit_time env) journey) journey
             (db_Journey db) Hfind eq_refl).
Qed.

(** ** Registering a card *)

(** X14.  A registration that [registerCard] reports done has issued one card
    to a user who had no active card; the card is active and empty, and
    [getBalance] reads 0.00 from it; the fee of 50.00 is on record as a
    transaction of type Recharge with a payment, but as no recharge of a
    card. *)
Theorem registered_card_starts_empty :
  forall (env : Env) (db : Database) (userId : Z) (paymentMethod : string)
         (code : Z) (msg : string) (d : ResponseData) (db' : Database),
    registerCard env db userId paymentMethod = (success code msg d, db') ->
    select_active_cards db userId = []
    /\ db_SmartCard db'
       = db_SmartCard db
         ++ [ {| c_CardID := nextval_card env; c_UserID := Some userId;
                 c_Balance := 0; c_IsActive := true; c_LastUsedAt := None |} ]
    /\ getBalance db' userId
       = success_with 200 "Card balance retrieved successfully"
           {| bd_cardId := nextval_card env; bd_balance := 0;
              bd_isActive := true; bd_lastUsedAt := None |}
    /\ db_Transaction db'
       = db_Transaction db
         ++ [ {| x_TransactionID := nextval_transaction env;
                 x_UserID := userId; x_Amount := 5000;
                 x_TransactionType := TT_Recharge |} ]
    /\ db_Payment db'
       = db_Payment db
         ++ [ {| p_PaymentID := nextval_payment env;
                 p_TransactionID := nextval_transaction env;
                 p_PaymentMethod := paymentMethod; p_Status := Success |} ]
    /\ db_Recharge db' = db_Recharge db.
Proof.
  intros env db user method code msg d db' H.
  unfold registerCard in H.
  destruct (negb _); [discriminate |].
  destruct (find _ (db_SmartCard db)) eqn:Hfind; [discriminate |].
  destruct (insert_Transaction db _) as [e | db1] eqn:H1.
  { injection H as Eresp _.
    pose proof (errorHandler_not_success e) as Hno.
    rewrite Eresp in Hno. discriminate. }
  destruct (insert_Payment db1 _) as [e | db2] eqn:H2.
  { injection H as Eresp _.
    pose proof (errorHandler_not_success e) as Hno.
    rewrite Eresp in Hno. discriminate. }
  destruct (insert_SmartCard db2 _) as [e | db3] eqn:H3.
  { injection H as Eresp _.
    pose proof (errorHandler_not_success e) as Hno.
    rewrite Eresp in Hno. discriminate. }
  injection H as _ _ _ <-.
  apply insert_Transaction_inr in H1. destruct H1 as (-> & _).
  apply insert_Payment_inr in H2. subst db2.
  apply insert_SmartCard_inr in H3. destruct H3 as (-> & _).
  pose proof (find_none_filter _ _ Hfind) as Hnone.
  simpl. repeat split; try reflexivity; try assumption.
  unfold getBalance. simpl.
  rewrite find_app_new.
  - reflexivity.
  - apply not_true_is_false. intros E. apply existsb_find in E.
    destruct E as (c & Hc). congruence.
  - simpl. rewrite Z.eqb_refl. reflexivity.
Qed.

(** ** A booking that goes through *)

(** X15.  [create_ticket_booking] goes through whenever the payment method is
    one of the five of the enum, a fare is in force for the route, the user
    and the two stations exist, the stations differ, the validity is a
    positive INTEGER that ends before the last timestamp, and the values of
    the sequences and the QR code are new to their tables; it then returns
    the fare of the day and a ticket valid from now for the hours asked
    for. *)
Theorem create_ticket_booking_goes_through :
  forall (env : BookingEnv) (st : Store) (user src dst : Z) (method : string)
         (hours : Z),
    let fare := get_current_fare st (CURRENT_DATE env) src dst in
    let code := ("QR-" ++ integer_text (nextval_booking env) ++ "-"
                 ++ epoch env)%string in
    In method payment_methods ->
    INTEGER hours ->
    MIN_TIMESTAMP <= CURRENT_TIMESTAMP env ->
    CURRENT_TIMESTAMP env + hours * one_hour < END_TIMESTAMP ->
    0 < fare -> 0 < hours -> src <> dst ->
    existsb (Z.eqb user) (db_User st) = true ->
    existsb (fun s => s_StationID s =? src) (db_Station st) = true ->
    existsb (fun s => s_StationID s =? dst) (db_Station st) = true ->
    existsb (fun x => x_TransactionID x =? nextval_transaction env)
      (db_Transaction st) = false ->
    existsb (fun b => b_BookingID b =? nextval_booking env) (db_Booking st)
    = false ->
    existsb (fun b => b_TransactionID b =? nextval_transaction env)
      (db_Booking st) = false ->
    existsb (fun p => p_PaymentID p =? nextval_payment env) (db_Payment st)
    = false ->
    existsb (fun p => p_TransactionID p =? nextval_transaction env)
      (db_Payment st) = false ->
    existsb (fun t => t_TicketID t =? nextval_ticket env) (db_Ticket st)
    = false ->
    existsb (fun t => t_BookingID t =? nextval_booking env) (db_Ticket st)
    = false ->
    existsb (String.eqb code) (Ticket_QRCodeData st) = false ->
    create_ticket_booking env st user src dst method hours
    = inr ({| booking_id := nextval_booking env;
              booking_transaction_id := nextval_transaction env;
              ticket_id := nextval_ticket env;
              qr_code := code;
              total_fare := fare;
              valid_from := CURRENT_TIMESTAMP env;
              valid_until := CURRENT_TIMESTAMP env + hours * one_hour |},
           {| tables :=
                with_Ticket
                  (with_Payment
                     (with_Booking
                        (with_Transaction st
                           (db_Transaction st
                            ++ [booked_Transaction env user fare]))
                        (db_Booking st ++ [booked_Booking env src dst fare]))
                     (db_Payment st ++ [booked_Payment env method]))
                  (db_Ticket st ++ [booked_Ticket env hours]);
              Ticket_QRCodeData := Ticket_QRCodeData st ++ [code] |}).
Proof.
  intros env st user src dst method hours fare code _ _ Hmin Hend Hfare
    Hhours Hdiff Huser Hsrc Hdst Htx Hbk Hbk_tx Hpay Hpay_tx Htk Htk_bk Hqr.
  unfold create_ticket_booking. fold fare. fold code. clearbody code.
  replace (fare <=? 0) with false by (symmetry; apply Z.leb_gt; exact Hfare).
  unfold insert_Transaction. simpl.
  replace (fare >? 0) with true
    by (symmetry; rewrite Z.gtb_ltb; apply Z.ltb_lt; exact Hfare).
  rewrite Htx, Huser. simpl.
  unfold insert_Booking.
  rewrite validate_booking_fare_exact by reflexivity.
  simpl. unfold Booking_check. simpl.
  replace (src =? dst) with false by (symmetry; apply Z.eqb_neq; exact Hdiff).
  replace (fare >? 0) with true
    by (symmetry; rewrite Z.gtb_ltb; apply Z.ltb_lt; exact Hfare).
  simpl. rewrite Hbk, Hbk_tx. simpl.
  rewrite existsb_app_new by (simpl; apply Z.eqb_refl).
  rewrite Hsrc, Hdst. simpl.
  unfold insert_Payment. simpl. rewrite Hpay, Hpay_tx. simpl.
  rewrite existsb_app_new by (simpl; apply Z.eqb_refl).
  simpl.
  unfold plus_hours. cbv zeta.
  replace ((MIN_TIMESTAMP <=? CURRENT_TIMESTAMP env + hours * one_hour)
           && (CURRENT_TIMESTAMP env + hours * one_hour <? END_TIMESTAMP))
    with true
    by (symmetry; apply andb_true_iff;
        split; [apply Z.leb_le | apply Z.ltb_lt];
        unfold one_hour, one_second in *; lia).
  cbn [pg_bind ok].
  unfold insert_Ticket, Ticket_check. simpl.
  replace (CURRENT_TIMESTAMP env + hours * one_hour >? CURRENT_TIMESTAMP env)
    with true
    by (symmetry; rewrite Z.gtb_ltb; apply Z.ltb_lt;
        unfold one_hour, one_second; lia).
  simpl. rewrite Htk, Htk_bk. simpl.
  rewrite Hqr. simpl.
  rewrite existsb_app_new by (simpl; apply Z.eqb_refl).
  reflexivity.
Qed.

(** ** Bookings with all their rows *)

Lemma booking_complete_grows db db' b :
  (forall x, In x (db_Transaction db) -> In x (db_Transaction db')) ->
  (forall p, In p (db_Payment db) -> In p (db_Payment db')) ->
  (forall t, In t (db_Ticket db) ->
             exists t', In t' (db_Ticket db')
                        /\ t_BookingID t' = t_BookingID t) ->
  booking_complete db b -> booking_complete db' b.
Proof.
  intros Htx Hpay Htk ((x & Hx & Ex) & (p & Hp & Ep) & (t & Ht & Et)).
  split; [| split].
  - exists x. split; [apply Htx; exact Hx | exact Ex].
  - exists p. split; [apply Hpay; exact Hp | exact Ep].
  - destruct (Htk t Ht) as (t' & Ht' & Et').
    exists t'. split; [exact Ht' | congruence].
Qed.

Lemma recharge_smart_card_payments env db user card amount method row db' :
  recharge_smart_card env db user card amount method = inr (row, db') ->
  exists p, db_Payment db' = db_Payment db ++ [p].
Proof.
  unfold recharge_smart_card. intros H.
  destruct (amount <=? 0); [discriminate |].
  destruct (negb _); [discriminate |].
  pg_step H as db1 Htransaction. pg_step H as db2 Hrecharge.
  pg_step H as db3 Hpayment. injection H as <- <-.
  apply insert_Transaction_inr in Htransaction.
  destruct Htransaction as [-> Hfresh].
  apply insert_Payment_inr in Hpayment. subst db3.
  unfold insert_Recharge in Hrecharge.
  pg_step Hrecharge as [] Hkey. pg_step Hrecharge as [] Hunique.
  pg_step Hrecharge as [] Hfk. pg_step Hrecharge as [] Hfk'.
  unfold process_card_recharge in Hrecharge. simpl in Hrecharge.
  rewrite find_app_new in Hrecharge;
    [| exact Hfresh | simpl; apply Z.eqb_refl].
  simpl in Hrecharge. pg_step Hrecharge as rows Hupdate.
  injection Hrecharge as <-.
  eexists. reflexivity.
Qed.

(** No operation on the tables takes a row of a booking away. *)
Lemma step_keeps_the_rows_of_bookings env db op :
  let db' := step env db op in
  db_Booking db' = db_Booking db
  /\ (forall x, In x (db_Transaction db) -> In x (db_Transaction db'))
  /\ (forall p, In p (db_Payment db) -> In p (db_Payment db'))
  /\ (forall t, In t (db_Ticket db) ->
                exists t', In t' (db_Ticket db')
                           /\ t_BookingID t' = t_BookingID t).
Proof.
  pose proof (step_cases env db op) as H. simpl in H. simpl.
  set (db' := step env db op) in *.
  assert (Hsame : forall t, In t (db_Ticket db) ->
                            exists t', In t' (db_Ticket db)
                                       /\ t_BookingID t' = t_BookingID t)
    by (intros t Ht; exists t; auto).
  destruct H as [H | [H | [H | [H | [H | [H | H]]]]]].
  - rewrite H. auto.
  - destruct H as (ty & station & ticket & card & id & H).
    apply start_journey_inr in H. destruct H as (_ & H).
    apply insert_Journey_inr in H. destruct H as (-> & _).
    simpl. repeat split; auto.
    intros t Ht. destruct ticket as [ticket |]; [| exact (Hsame t Ht)].
    exists (marked ticket (CURRENT_TIMESTAMP env) t).
    split; [apply in_map; exact Ht |].
    unfold marked. destruct (_ && _); reflexivity.
  - destruct H as (id & station & row & H).
    apply complete_journey_inr in H.
    destruct H as (_ & _ & _ & Etickets & (_ & _ & Ebookings & _)
                   & (Etx & _ & Epay)).
    rewrite Etickets, Ebookings, Etx, Epay. auto.
  - destruct H as (user & card & amount & method & row & H).
    pose proof (recharge_smart_card_payments _ _ _ _ _ _ H) as (p & Epay).
    pose proof (recharge_smart_card_tables _ _ _ _ _ _ H)
      as (x & r & _ & _ & _ & _ & Etx & _).
    apply recharge_smart_card_inr in H.
    destruct H as (_ & _ & _ & _ & Etickets & (_ & _ & Ebookings & _)).
    rewrite Etickets, Ebookings, Etx, Epay.
    repeat split; auto; intros; apply in_or_app; auto.
  - destruct H as (x & H). apply insert_Transaction_inr in H.
    destruct H as (-> & _). simpl.
    repeat split; auto; intros; apply in_or_app; auto.
  - destruct H as (x & p & db1 & H1 & H2).
    apply insert_Transaction_inr in H1. destruct H1 as (-> & _).
    apply insert_Payment_inr in H2. rewrite H2. simpl.
    repeat split; auto; intros; apply in_or_app; auto.
  - destruct H as (user & x & p & db1 & db2 & H1 & H2 & _ & H3).
    apply insert_Transaction_inr in H1. destruct H1 as (-> & _).
    apply insert_Payment_inr in H2. subst db2.
    apply insert_SmartCard_inr in H3. destruct H3 as (-> & _). simpl.
    repeat split; auto; intros; apply in_or_app; auto.
Qed.

(** X16.  A booking is never on record by halves: after any sequence of
    actions every row of [Booking] has its transaction of type Booking for
    the fare of the booking, a payment that went through and a ticket, since
    [create_ticket_booking] is the only writer of [Booking] and writes all
    four rows or none. *)
Theorem bookings_are_never_on_record_by_halves :
  forall (actions : list (BookingEnv * action)) (st : Store),
    bookings_complete st ->
    bookings_complete (history st actions).
Proof.
  induction actions as [| [env a] rest IH]; simpl; intros st Hall;
    [exact Hall |].
  apply IH.
  pose proof (perform_cases env st a) as H. simpl in H.
  destruct H as [E | [(op & E) | H]].
  - rewrite E. exact Hall.
  - rewrite E.
    pose proof (step_keeps_the_rows_of_bookings env st op) as H. simpl in H.
    destruct H as (Ebookings & Htx & Hpay & Htk).
    unfold bookings_complete in *. rewrite Ebookings.
    apply Forall_forall. intros b Hb.
    rewrite Forall_forall in Hall.
    exact (@booking_complete_grows st (step env st op) b Htx Hpay Htk
             (Hall b Hb)).
  - destruct H as (user & src & dst & method & hours & row & H).
    apply create_ticket_booking_inr in H.
    destruct H as (_ & _ & E & _).
    unfold bookings_complete in *. rewrite E. simpl.
    apply Forall_app. split.
    + apply Forall_forall. intros b Hb.
      rewrite Forall_forall in Hall.
      apply (@booking_complete_grows st _ b); simpl;
        [| | | exact (Hall b Hb)].
      * intros x Hx. apply in_or_app. auto.
      * intros p Hp. apply in_or_app. auto.
      * intros t Ht. exists t. split; [apply in_or_app; auto | reflexivity].
    + constructor; [| constructor].
      split; [| split]; simpl.
      * eexists. split; [apply in_or_app; right; left; reflexivity |].
        simpl. auto.
      * eexists. split; [apply in_or_app; right; left; reflexivity |].
        simpl. auto.
      * eexists. split; [apply in_or_app; right; left; reflexivity |].
        reflexivity.
Qed.

(** ** The card at the gates *)

Lemma map_Balance_touched card time rows :
  map c_Balance (map (touched card time) rows) = map c_Balance rows.
Proof.
  rewrite map_map. apply map_ext. intros c.
  destruct (touched_fields card time c) as (_ & E & _). exact E.
Qed.

(** X17.  The entry gate lets a card in only if it is active and holds 10.00
    or more, and charges nothing: the journey starts, the response shows the
    balance as it is, and every card keeps its balance. *)
Theorem card_entry_needs_ten_rupees_and_charges_nothing :
  forall (env : Env) (db : Database) (cardId stationId : Z)
         (code : Z) (msg : string) (d : ResponseData) (db' : Database),
    journeyEntry env db "Card" cardId stationId = (success code msg d, db') ->
    exists card,
      find (fun c => c_CardID c =? cardId) (db_SmartCard db) = Some card
      /\ c_IsActive card = true
      /\ 1000 <= c_Balance card
      /\ previousBalance d = Some (c_Balance card)
      /\ journeyId d = nextval_journey env
      /\ select_active_card_journey db cardId = []
      /\ select_active_card_journey db' cardId
         = [new_journey env JT_Card stationId None (Some cardId)]
      /\ map c_Balance (db_SmartCard db') = map c_Balance (db_SmartCard db).
Proof.
  intros env db cardId stationId code msg d db' H.
  unfold journeyEntry in H.
  destruct (find _ (db_Station db)) as [station |]; [| discriminate].
  destruct (negb (s_IsOperational station)); [discriminate |].
  simpl in H.
  destruct (find _ (db_SmartCard db)) as [card |] eqn:Hcard;
    [| discriminate].
  destruct (negb (c_IsActive card)) eqn:Hactive; [discriminate |].
  destruct (c_Balance card <? 1000) eqn:Hbalance; [discriminate |].
  destruct (select_active_card_journey db cardId) eqn:Hnone;
    [| discriminate].
  destruct (start_journey env db JT_Card stationId None (Some cardId))
    as [err | [id db1]] eqn:Hstart.
  { injection H as Eresp _.
    pose proof (errorHandler_not_success err) as Hno.
    rewrite Eresp in Hno. discriminate. }
  injection H as _ _ <- <-.
  apply start_journey_inr in Hstart. destruct Hstart as (-> & Hinsert).
  apply insert_Journey_inr in Hinsert. destruct Hinsert as (-> & _).
  exists card. simpl.
  apply negb_false_iff in Hactive. apply Z.ltb_ge in Hbalance.
  repeat split; try reflexivity; try assumption.
  - unfold select_active_card_journey in *. simpl.
    rewrite filter_app, Hnone. simpl. rewrite Z.eqb_refl. reflexivity.
  - apply map_Balance_touched.
Qed.

(** X18.  The exit gate tells a card the truth about the balance it had, and
    about the fare: with every Active journey still unpaid, the response of
    a card exit shows the balance the card had, and when a fare was
    deducted, that fare, which the balance covered and which the card has
    paid; when none was, the card keeps its balance.  The [newBalance] of
    the response is the difference of the two numbers shown, taken in
    binary64, which need not be the number nearest to the balance on
    record: for 100.30 less 30.10 it is not the number nearest to 70.20.
    The ids may be sent as numbers or as strings. *)
Theorem card_exit_reports_the_balance_left :
  (forall (env : Env) (db : Database) (cardId stationId : sent)
          (code : Z) (msg : string) (d : ResponseData) (db' : Database),
      journey_pkey db ->
      active_unpaid db ->
      journeyExit_sent env db "Card" cardId stationId
      = (success code msg d, db') ->
      exists balance,
        select_Balance db (integer_of cardId) = Some balance
        /\ previousBalance d = Some balance
        /\ match fareCharged d with
           | Some fare =>
               0 <= fare <= balance
               /\ newBalance d
                  = Some (js_minus (parseFloat balance) (parseFloat fare))
               /\ select_Balance db' (integer_of cardId)
                  = Some (balance - fare)
           | None =>
               newBalance d = None
               /\ select_Balance db' (integer_of cardId) = Some balance
           end)
  /\ js_minus (parseFloat 10030) (parseFloat 3010) <> parseFloat 7020.
Proof.
  split; [| vm_compute; discriminate].
  intros env db cardId0 stationId0 code msg d db' Hpk Hunpaid H.
  rewrite journeyExit_sent_Card in H.
  set (cardId := integer_of cardId0) in *.
  set (stationId := integer_of stationId0) in *.
  clearbody cardId stationId.
  unfold journeyExit in H.
  destruct (find _ (db_Station db)) as [station |]; [| discriminate].
  destruct (negb (s_IsOperational station)); [discriminate |].
  simpl in H.
  destruct (select_active_card_journey db cardId) as [| journey rest]
    eqn:Hactive; [discriminate |].
  destruct (select_Balance db cardId) as [balance |] eqn:Hbalance;
    [| discriminate].
  destruct (balance <? _) eqn:Hcovers; [discriminate |].
  destruct (complete_journey env db (j_JourneyID journey) stationId)
    as [err | [row db1]] eqn:Hcomplete.
  { injection H as Eresp _.
    pose proof (errorHandler_not_success err) as Hno.
    rewrite Eresp in Hno. discriminate. }
  injection H as _ _ <- <-.
  assert (Hj : In journey (select_active_card_journey db cardId))
    by (rewrite Hactive; left; reflexivity).
  unfold select_active_card_journey in Hj. apply filter_In in Hj.
  destruct Hj as (Hin & Hj). apply andb_true_iff in Hj.
  destruct Hj as (Hcard & Hstatus).
  assert (Ecard : j_CardID journey = Some cardId).
  { destruct (j_CardID journey) as [c |]; [| discriminate].
    simpl in Hcard. apply Z.eqb_eq in Hcard. congruence. }
  assert (Estatus : j_Status journey = Active)
    by (destruct (j_Status journey); [reflexivity | discriminate ..]).
  pose proof (Hunpaid journey Hin Estatus) as Hnone.
  pose proof (@find_by_key _ journey Hpk Hin) as Hfind.
  rewrite (@complete_journey_unique env db (j_JourneyID journey) stationId
             journey Hpk Hfind Estatus) in Hcomplete.
  rewrite (@complete_journey_fare_card env db journey stationId
             (exit_time env) cardId Estatus Ecard) in Hcomplete.
  cbv zeta in Hcomplete. rewrite Hbalance in Hcomplete.
  exists balance. simpl.
  split; [reflexivity |]. split; [reflexivity |].
  destruct (_ >? 0) eqn:Hfare.
  - destruct (balance >=? _) eqn:Henough; [| discriminate].
    rewrite Z.gtb_ltb in Hfare. apply Z.ltb_lt in Hfare.
    rewrite Z.geb_leb in Henough. apply Z.leb_le in Henough.
    pg_step Hcomplete as r Hr. pg_step Hr as rows Hupdate.
    unfold ok in Hr. injection Hr as <-.
    apply update_SmartCard_map in Hupdate. destruct Hupdate as (-> & _).
    simpl in Hcomplete. pg_steps Hcomplete. injection Hcomplete as <- <-.
    simpl.
    split; [lia |]. split; [reflexivity |].
    pose proof (@select_Balance_debited db cardId
                  (get_current_fare db (CURRENT_DATE env)
                     (j_EntryStationID journey) stationId) cardId) as E.
    rewrite Z.eqb_refl, Hbalance in E. exact E.
  - simpl in Hcomplete. pg_steps Hcomplete. injection Hcomplete as <- <-.
    simpl. rewrite Hnone. simpl. split; [reflexivity | exact Hbalance].
Qed.

(* ================================================================== *)
(** * The ticket desk of the small network at work *)
(* ================================================================== *)

Lemma Desk_booking :
  create_ticket_booking Desk.env Desk.store 1 1 2 "UPI" 24
  = inr (Desk.row, Desk.booked).
Proof. vm_compute. reflexivity. Qed.

Lemma Desk_station_pkey : station_pkey Desk.store.
Proof.
  unfold station_pkey. simpl.
  repeat constructor; simpl; intuition discriminate.
Qed.


Lemma Desk_one_active_card : one_active_card_per_user Desk.store.
Proof.
  intros userId. unfold select_active_cards.
  cbv [Desk.store tables db_SmartCard Sample.db filter is_id c_UserID
       c_IsActive].
  destruct (1 =? userId) eqn:E1; destruct (2 =? userId) eqn:E2; simpl;
    auto.
  apply Z.eqb_eq in E1, E2. congruence.
Qed.

Lemma Desk_consistent : consistent Desk.store.
Proof.
  constructor.
  - unfold journey_pkey. simpl. constructor.
  - intros j [].
  - intros r [].
  - intros r [].
  - intros j c [].
Qed.

Lemma Desk_accounts : accounts Desk.opening Desk.store.
Proof.
  split.
  - intros c Hc. simpl in Hc.
    destruct Hc as [<- | [<- | [<- | []]]]; reflexivity.
  - intros card H.
    cbv [Desk.store tables db_SmartCard Sample.db existsb c_CardID] in H.
    unfold Desk.opening.
    destruct (1 =? card) eqn:E1; [discriminate |].
    destruct (2 =? card) eqn:E2; [discriminate |].
    destruct (3 =? card) eqn:E3; [discriminate |].
    rewrite (Z.eqb_sym card 1), (Z.eqb_sym card 2), (Z.eqb_sym card 3).
    rewrite E1, E2, E3. reflexivity.
Qed.

Lemma Desk_bookings_complete : bookings_complete Desk.store.
Proof.
  unfold bookings_complete. simpl. constructor; [| constructor].
  split; [| split]; simpl.
  - eexists. split; [left; reflexivity | simpl; auto].
  - eexists. split; [left; reflexivity | simpl; auto].
  - eexists. split; [left; reflexivity | reflexivity].
Qed.

Lemma Sample_ticket_1_inside_pkey : journey_pkey Sample.ticket_1_inside.
Proof.
  unfold journey_pkey.
  replace (db_Journey Sample.ticket_1_inside)
    with [ new_journey Sample.env JT_Ticket 1 (Some 1) None ]
    by (vm_compute; reflexivity).
  simpl. repeat constructor. intros [].
Qed.

Lemma create_ticket_booking_raises_for_no_fare_only_witness :
  create_ticket_booking Desk.env Desk.store 1 1 3 "UPI" 24
  = inl (raise_exception No_fare_found)
  /\ get_current_fare Desk.store (CURRENT_DATE Desk.env) 1 3 <= 0.
Proof.
  assert (H : create_ticket_booking Desk.env Desk.store 1 1 3 "UPI" 24
              = inl (raise_exception No_fare_found))
    by (vm_compute; reflexivity).
  split; [exact H |].
  exact (proj2 (@create_ticket_booking_raises_for_no_fare_only
                  Desk.env Desk.store 1 1 3 "UPI" 24 No_fare_found H)).
Defined.

Lemma create_ticket_booking_needs_positive_validity_witness :
  create_ticket_booking Desk.env Desk.store 1 1 2 "UPI" 0
  = inl (check_violation "chk_ticket_validity_period")
  /\ create_ticket_booking Desk.env Desk.store 1 1 2 "UPI" (-60000000)
     = inl datetime_field_overflow.
Proof.
  split.
  - apply (@create_ticket_booking_needs_positive_validity
             Desk.env Desk.store 1 1 2 "UPI" 0 24 Desk.row Desk.booked).
    + unfold INTEGER. lia.
    + lia.
    + vm_compute. reflexivity.
  - apply (@create_ticket_booking_needs_positive_validity
             Desk.env Desk.store 1 1 2 "UPI" (-60000000) 24 Desk.row
             Desk.booked).
    + unfold INTEGER. lia.
    + lia.
    + vm_compute. reflexivity.
Defined.

Lemma booked_ticket_is_found_at_the_gate_witness :
  select_ticket_booking Desk.booked 2
  = [ ({| t_TicketID := 2; t_BookingID := 2; t_ValidFrom := 100;
          t_ValidUntil := 100 + 24 * one_hour; t_IsUsed := false;
          t_UsedAt := None |},
       {| b_BookingID := 2; b_TransactionID := 1; b_SourceStationID := 1;
          b_DestinationStationID := 2; b_TotalFare := 3000 |}) ]
  /\ db_SmartCard Desk.booked = db_SmartCard Desk.store.
Proof.
  assert (H : create_ticket_booking Desk.env Desk.store 1 1 2 "UPI" 24
              = inr (Desk.row, Desk.booked))
    by (vm_compute; reflexivity).
  destruct (@booked_ticket_is_found_at_the_gate
              Desk.env Desk.store 1 1 2 "UPI" 24 Desk.row Desk.booked H)
    as (Hfound & _ & _ & _ & Hcards & _).
  split; [exact Hfound | exact Hcards].
Defined.

Lemma booked_ticket_opens_both_gates_witness :
  validators_journey_sent "Ticket" (Text "2") (Text "1") = None
  /\ exists db1 db2,
       journeyEntry_sent Sample.later Desk.booked "Ticket" (Text "2")
         (Number 1)
       = (success 200 "Entry permitted - Journey started" (entry_data 2 None),
          db1)
       /\ journeyExit_sent Desk.evening db1 "Ticket" (Text "2") (Number 2)
          = (success 200 "Exit permitted - Journey completed"
               {| journeyId := 2; fareCharged := Some 3000;
                  previousBalance := None; newBalance := None;
                  warning := false |}, db2)
       /\ journeyExit_sent Desk.evening db1 "Ticket" (Text "2") (Text "2")
          = (success 200 "Exit permitted - Journey completed"
               {| journeyId := 2; fareCharged := Some 3000;
                  previousBalance := None; newBalance := None;
                  warning := true |}, db2)
       /\ journeyEntry_sent Sample.later Desk.booked "Ticket" (Text "2")
            (Text "1")
          = (error 400 "Entry station does not match ticket source station",
             tables Desk.booked)
       /\ select_IsUsed db2 2 = Some true
       /\ select_active_ticket_journey db2 2 = []
       /\ db_SmartCard db2 = db_SmartCard Desk.store.
Proof.
  split; [vm_compute; reflexivity |].
  destruct (@booked_ticket_opens_both_gates
              Desk.env Desk.store 1 1 2 "UPI" 24 Desk.row Desk.booked
              Sample.later Desk.evening
              {| s_StationID := 1; s_StationName := "Rajiv Chowk";
                 s_IsOperational := true |}
              {| s_StationID := 2; s_StationName := "Kashmere Gate";
                 s_IsOperational := true |}
              (Text "2"))
    as (db1 & db2 & Hentry & Hexit & Hrefused & Hused & Hactive & Hcards).
  - vm_compute. reflexivity.
  - vm_compute. reflexivity.
  - intros j t [].
  - reflexivity.
  - reflexivity.
  - reflexivity.
  - reflexivity.
  - vm_compute. split; discriminate.
  - vm_compute. split; discriminate.
  - reflexivity.
  - vm_compute. reflexivity.
  - vm_compute. discriminate.
  - exists db1, db2.
    split; [exact Hentry |].
    split; [exact (Hexit (Number 2) eq_refl) |].
    split; [exact (Hexit (Text "2") eq_refl) |].
    split; [exact (Hrefused "1" eq_refl) |].
    split; [exact Hused |].
    split; [exact Hactive | exact Hcards].
Defined.

Lemma getFare_quotes_the_fare_in_force_witness :
  getFare Sample.env Desk.store 1 2
  = success_with 200 "Fare retrieved successfully"
      {| fd_from := {| sd_id := 1; sd_name := "Rajiv Chowk" |};
         fd_to := {| sd_id := 2; sd_name := "Kashmere Gate" |};
         fd_fare := 3000 |}
  /\ getFare Sample.env Desk.store 1 3 <> other TypeError.
Proof.
  split.
  - destruct (@getFare_quotes_the_fare_in_force Sample.env Desk.store 1 2
                Desk_station_pkey) as (_ & H & _).
    apply (H {| s_StationID := 1; s_StationName := "Rajiv Chowk";
                s_IsOperational := true |}
             {| s_StationID := 2; s_StationName := "Kashmere Gate";
                s_IsOperational := true |});
      try reflexivity; try lia; simpl; auto.
  - exact (proj2 (proj2 (@getFare_quotes_the_fare_in_force Sample.env
                           Desk.store 1 3 Desk_station_pkey))).
Defined.

Lemma quoted_fare_is_the_fare_booked_witness :
  total_fare Desk.row = 3000
  /\ create_ticket_booking Desk.env Desk.store 1 1 3 "UPI" 24
     = inl (raise_exception No_fare_found).
Proof.
  split.
  - apply (proj1 (@quoted_fare_is_the_fare_booked Sample.env Desk.env
                    Desk.store 1 2 eq_refl)
             200 "Fare retrieved successfully"
             {| fd_from := {| sd_id := 1; sd_name := "Rajiv Chowk" |};
                fd_to := {| sd_id := 2; sd_name := "Kashmere Gate" |};
                fd_fare := 3000 |}
             1 "UPI" 24 Desk.row Desk.booked).
    + vm_compute. reflexivity.
    + vm_compute. reflexivity.
  - apply (proj2 (@quoted_fare_is_the_fare_booked Sample.env Desk.env
                    Desk.store 1 3 eq_refl)).
    vm_compute. reflexivity.
Defined.

Lemma bookTicket_commits_before_it_answers_witness :
  (exists row f t,
      create_ticket_booking Desk.env Desk.store 1 1 2 "UPI" 24
      = inr (row, Desk.booked)
      /\ find (fun s => s_StationID s =? 1) (db_Station Desk.store) = Some f
      /\ find (fun s => s_StationID s =? 2) (db_Station Desk.store) = Some t
      /\ fst (bookTicket Desk.env Desk.store 1 (Number 1) (Number 2) "UPI")
         = success_with 201 "Ticket booked successfully"
             {| td_ticketId := ticket_id row;
                td_bookingId := booking_id row;
                td_transactionId := booking_transaction_id row;
                td_qrCodeData := qr_code row;
                td_from := station_data f;
                td_to := station_data t;
                td_fare := total_fare row;
                td_validFrom := valid_from row;
                td_validUntil := valid_until row |})
  /\ bookTicket Desk.env Desk.store 1 (Text "1") (Text "2") "UPI"
     = (other TypeError, Desk.booked).
Proof.
  split.
  - assert (H : bookTicket Desk.env Desk.store 1 (Number 1) (Number 2) "UPI"
                = (fst (bookTicket Desk.env Desk.store 1 (Number 1)
                          (Number 2) "UPI"),
                   Desk.booked))
      by (vm_compute; reflexivity).
    destruct (@bookTicket_commits_before_it_answers
                Desk.env Desk.store 1 (Number 1) (Number 2) "UPI" _ _ H)
      as [(E & _) | H'].
    + vm_compute in E. discriminate.
    + exact H'.
  - assert (H : bookTicket Desk.env Desk.store 1 (Text "1") (Text "2") "UPI"
                = (fst (bookTicket Desk.env Desk.store 1 (Text "1")
                          (Text "2") "UPI"),
                   Desk.booked))
      by (vm_compute; reflexivity).
    destruct (@bookTicket_commits_before_it_answers
                Desk.env Desk.store 1 (Text "1") (Text "2") "UPI" _ _ H)
      as [(E & _) | (row & f & t & _ & _ & _ & Hreply)].
    + vm_compute in E. discriminate.
    + rewrite H. cbn [fst]. rewrite Hreply. reflexivity.
Defined.


Lemma one_active_card_per_user_is_kept_witness :
  one_active_card_per_user (history Desk.store Desk.day)
  /\ select_active_cards (history Desk.store Desk.day) 3
     = [ {| c_CardID := 11; c_UserID := Some 3; c_Balance := 0;
            c_IsActive := true; c_LastUsedAt := None |} ].
Proof.
  split.
  - apply one_active_card_per_user_is_kept. exact Desk_one_active_card.
  - vm_compute. reflexivity.
Defined.

Lemma balances_follow_the_records_witness :
  (forall c,
      In c (db_SmartCard (history Desk.store Desk.day)) ->
      c_Balance c
      = Desk.opening (c_CardID c)
        + recharged (history Desk.store Desk.day) (c_CardID c)
        - deducted (history Desk.store Desk.day) (c_CardID c))
  /\ select_Balance (history Desk.store Desk.day) 1 = Some 4000
  /\ recharged (history Desk.store Desk.day) 1 = 2000
  /\ deducted (history Desk.store Desk.day) 1 = 3000.
Proof.
  split.
  - exact (@balances_follow_the_records Desk.day Desk.store Desk.opening
             Desk_consistent Desk_accounts).
  - vm_compute. auto.
Defined.

Lemma no_booking_without_a_fare_in_force_witness :
  create_ticket_booking Desk.env Desk.store 1 1 3 "UPI" 24
  = inl (raise_exception No_fare_found)
  /\ create_ticket_booking Desk.env Desk.store 1 2 2 "UPI" 24
     = inl (raise_exception No_fare_found).
Proof.
  split.
  - apply (proj1 (@no_booking_without_a_fare_in_force
                    Desk.env Desk.store 1 1 3 "UPI" 24)).
    intros f from Hin (_ & Hdst & _). simpl in Hin.
    destruct Hin as [<- | [<- | []]]; simpl in Hdst; discriminate.
  - apply (proj2 (@no_booking_without_a_fare_in_force
                    Desk.env Desk.store 1 2 2 "UPI" 24));
      [| reflexivity].
    unfold chk_fare_different_stations. simpl.
    repeat constructor; simpl; discriminate.
Defined.

Lemma start_journey_admits_valid_media_only_witness :
  (exists r,
      find (fun r => t_TicketID r =? 1) (db_Ticket Sample.db) = Some r
      /\ t_IsUsed r = false
      /\ t_ValidFrom r <= 100 <= t_ValidUntil r)
  /\ start_journey Sample.env Sample.db JT_Ticket 1 (Some 7) None
     = inl (foreign_key_violation "fk_journey_ticket").
Proof.
  split.
  - assert (H : start_journey Sample.env Sample.db JT_Ticket 1 (Some 1) None
                = inr (1, snd (journeyEntry Sample.env Sample.db "Ticket"
                                 1 1)))
      by (vm_compute; reflexivity).
    destruct (proj1 (@start_journey_admits_valid_media_only
                       Sample.env Sample.db JT_Ticket 1 (Some 1) None)
                _ _ H)
      as (_ & [(_ & _ & t & r & Ht & Hfind & Hused & Hvalid)
              | (Hty & _)]); [| discriminate].
    injection Ht as <-. exists r. auto.
  - apply (proj2 (@start_journey_admits_valid_media_only
                    Sample.env Sample.db JT_Ticket 1 (Some 7) None) 7);
      reflexivity.
Defined.

Lemma ticket_exit_is_covered_by_the_fare_paid_witness :
  fst (journeyExit_sent Sample.later Sample.ticket_1_inside "Ticket"
         (Number 1) (Text "2"))
  = success 200 "Exit permitted - Journey completed"
      {| journeyId := 1; fareCharged := Some 3000;
         previousBalance := None; newBalance := None; warning := true |}
  /\ db_SmartCard
       (snd (journeyExit_sent Sample.later Sample.ticket_1_inside "Ticket"
               (Number 1) (Text "2")))
     = db_SmartCard Sample.ticket_1_inside.
Proof.
  assert (H : journeyExit_sent Sample.later Sample.ticket_1_inside "Ticket"
                (Number 1) (Text "2")
              = (success 200 "Exit permitted - Journey completed"
                   {| journeyId := 1; fareCharged := Some 3000;
                      previousBalance := None; newBalance := None;
                      warning := true |},
                 snd (journeyExit_sent Sample.later Sample.ticket_1_inside
                        "Ticket" (Number 1) (Text "2"))))
    by (vm_compute; reflexivity).
  destruct (@ticket_exit_is_covered_by_the_fare_paid
              Sample.later Sample.ticket_1_inside (Number 1) (Text "2")
              _ _ _ _ Sample_ticket_1_inside_pkey H)
    as (journey & booking & rest & _ & _ & _ & _ & _ & Hcards).
  split; [rewrite H; reflexivity | exact Hcards].
Defined.

Lemma registered_card_starts_empty_witness :
  getBalance (snd (registerCard Sample.env Desk.store 3 "UPI")) 3
  = success_with 200 "Card balance retrieved successfully"
      {| bd_cardId := 10; bd_balance := 0; bd_isActive := true;
         bd_lastUsedAt := None |}
  /\ db_Recharge (snd (registerCard Sample.env Desk.store 3 "UPI")) = [].
Proof.
  assert (H : registerCard Sample.env Desk.store 3 "UPI"
              = (success 201 "Smart card registered successfully" no_data,
                 snd (registerCard Sample.env Desk.store 3 "UPI")))
    by (vm_compute; reflexivity).
  destruct (@registered_card_starts_empty Sample.env Desk.store 3 "UPI"
              _ _ _ _ H)
    as (_ & _ & Hget & _ & _ & Hrecharge).
  split; [exact Hget | exact Hrecharge].
Defined.

Lemma create_ticket_booking_goes_through_witness :
  create_ticket_booking Desk.env Desk.store 1 1 2 "UPI" 24
  = inr ({| booking_id := 2; booking_transaction_id := 1; ticket_id := 2;
            qr_code := "QR-2-946684800.000100"; total_fare := 3000;
            valid_from := 100; valid_until := 100 + 24 * one_hour |},
         Desk.booked).
Proof.
  apply (@create_ticket_booking_goes_through
           Desk.env Desk.store 1 1 2 "UPI" 24);
    try reflexivity; try lia.
  - simpl. auto.
  - unfold INTEGER. lia.
  - vm_compute. discriminate.
Defined.

Lemma bookings_are_never_on_record_by_halves_witness :
  bookings_complete (history Desk.store Desk.day)
  /\ map b_BookingID (db_Booking (history Desk.store Desk.day)) = [1; 3].
Proof.
  split.
  - apply bookings_are_never_on_record_by_halves.
    exact Desk_bookings_complete.
  - vm_compute. reflexivity.
Defined.

Lemma Sample_card_1_inside_unpaid : active_unpaid Sample.card_1_inside.
Proof.
  intros j Hj _. rewrite Sample_card_1_inside_journeys in Hj.
  destruct Hj as [<- | []]. reflexivity.
Qed.

Lemma card_entry_needs_ten_rupees_and_charges_nothing_witness :
  select_active_card_journey Sample.card_1_inside 1
  = [new_journey Sample.env JT_Card 1 None (Some 1)]
  /\ map c_Balance (db_SmartCard Sample.card_1_inside)
     = map c_Balance (db_SmartCard Sample.db).
Proof.
  assert (H : journeyEntry Sample.env Sample.db "Card" 1 1
              = (success 200 "Entry permitted - Journey started"
                   (entry_data 1 (Some 5000)), Sample.card_1_inside))
    by (vm_compute; reflexivity).
  destruct (@card_entry_needs_ten_rupees_and_charges_nothing
              Sample.env Sample.db 1 1 _ _ _ _ H)
    as (card & _ & _ & _ & _ & _ & _ & Hjourney & Hbalances).
  split; [exact Hjourney | exact Hbalances].
Defined.

Lemma card_exit_reports_the_balance_left_witness :
  select_Balance
    (snd (journeyExit_sent Sample.later Sample.card_1_inside "Card"
            (Text "1") (Number 2))) 1
  = Some (5000 - 3000).
Proof.
  assert (H : journeyExit_sent Sample.later Sample.card_1_inside "Card"
                (Text "1") (Number 2)
              = (success 200 "Exit permitted - Journey completed"
                   {| journeyId := 1; fareCharged := Some 3000;
                      previousBalance := Some 5000;
                      newBalance :=
                        Some (js_minus (parseFloat 5000) (parseFloat 3000));
                      warning := false |},
                 snd (journeyExit_sent Sample.later Sample.card_1_inside
                        "Card" (Text "1") (Number 2))))
    by (vm_compute; reflexivity).
  destruct (proj1 card_exit_reports_the_balance_left
              Sample.later Sample.card_1_inside (Text "1") (Number 2) _ _ _ _
              Sample_card_1_inside_pkey Sample_card_1_inside_unpaid H)
    as (balance & Hbalance & _ & _ & _ & Hleft).
  vm_compute in Hbalance. injection Hbalance as <-.
  exact Hleft.
Defined.
